(** * H.264 RTP repacketizer (plugins/homekit/src/types/camera/h264-packetizer.ts)

    A shallow embedding of [H264Repacketizer] and the properties of its
    FU-A fragmentation, STAP-A aggregation, sequence rewriting and
    dispatcher.

    Conventions of the embedding:
    - a JavaScript number that holds an integer is a [Z];
    - a [Buffer] is a list of byte values (each a [Z]; a real buffer holds
      values in [0, 256), which theorems assume where they need it);
    - an exception is a [Throw]; a loop the source would never leave is
      [Throw Diverges] once the fuel of its model is used up;
    - the class instance [this] and the output array [ret] are threaded
      through the methods explicitly. *)

From Stdlib Require Import ZArith List Bool Lia.
Import ListNotations.
Open Scope Z_scope.

(** ** Exceptions *)

Inductive error : Type :=
| RangeError   (* Buffer read or write out of range, also in serialize() *)
| TypeError    (* property access on undefined *)
| EmptyStapA   (* 'packetizeOneStapA requires at least one NAL' *)
| Diverges.    (* the source loop does not terminate *)

Inductive result (A : Type) : Type :=
| Ok (a : A)
| Throw (e : error).
Arguments Ok {A} a.
Arguments Throw {A} e.

Definition bind {A B : Type} (m : result A) (k : A -> result B) : result B :=
  match m with
  | Ok a => k a
  | Throw e => Throw e
  end.

Notation "x <- m ;; k" := (bind m (fun x => k))
  (at level 61, m at next level, right associativity).
Notation "' p <- m ;; k" := (bind m (fun x => let p := x in k))
  (at level 61, p pattern, m at next level, right associativity).

(** ** Constants *)

Definition NAL_TYPE_STAP_A : Z := 24.
Definition NAL_TYPE_FU_A : Z := 28.
Definition NAL_TYPE_IDR : Z := 5.
Definition NAL_TYPE_SEI : Z := 6.
Definition NAL_TYPE_SPS : Z := 7.
Definition NAL_TYPE_PPS : Z := 8.

Definition NAL_HEADER_SIZE : Z := 1.
Definition FU_A_HEADER_SIZE : Z := 2.
Definition LENGTH_FIELD_SIZE : Z := 2.
Definition STAP_A_HEADER_SIZE : Z := NAL_HEADER_SIZE + LENGTH_FIELD_SIZE.

(** ** Buffers *)

Abbreviation Buffer := (list Z) (only parsing).

Definition blen (b : Buffer) : Z := Z.of_nat (length b).

(** [data[i] & mask]: an index past the end reads [undefined], which the
    bit operators coerce to 0. *)
Definition byteAnd (b : Buffer) (i : nat) (mask : Z) : Z :=
  Z.land (nth i b 0) mask.

(** Index normalisation of [subarray]: a negative index counts from the
    end, and both ends are clamped to the buffer. *)
Definition clampIndex (n i : Z) : Z :=
  if i <? 0 then Z.max (n + i) 0 else Z.min i n.

Definition subarray (b : Buffer) (s e : Z) : Buffer :=
  let s' := clampIndex (blen b) s in
  let e' := clampIndex (blen b) e in
  firstn (Z.to_nat (e' - s')) (skipn (Z.to_nat s') b).

(** [b.subarray(s)] *)
Definition subarrayFrom (b : Buffer) (s : Z) : Buffer :=
  subarray b s (blen b).

(** [b.readUInt16BE(pos)]: throws unless both bytes are inside the buffer. *)
Definition readUInt16BE (b : Buffer) (pos : Z) : result Z :=
  if (0 <=? pos) && (pos + 2 <=? blen b)
  then Ok (nth (Z.to_nat pos) b 0 * 256 + nth (Z.to_nat pos + 1) b 0)
  else Throw RangeError.

(** [packed = Buffer.alloc(2); packed.writeUInt16BE(value, 0)]: throws
    unless the value is an unsigned 16-bit integer. *)
Definition writeUInt16BE (value : Z) : result Buffer :=
  if (0 <=? value) && (value <=? 65535)
  then Ok [Z.shiftr value 8; Z.land value 255]
  else Throw RangeError.

(** ** RTP packets *)

Record RtpHeader : Type := mkHeader {
  sequenceNumber : Z;
  marker : bool;
  timestamp : Z
}.

Record RtpPacket : Type := mkPacket {
  header : RtpHeader;
  payload : Buffer
}.

(** [rtp.serialize()] belongs to the RTP library.  A serialized packet is
    represented by the header fields and the payload it was serialized
    from.  The library writes the sequence number as an unsigned 16-bit
    field, which throws a [RangeError] for a value outside [0, 65535];
    the other header fields are those the incoming packet arrived with. *)
Abbreviation Serialized := RtpPacket (only parsing).
Definition serialize (rtp : RtpPacket) : result Serialized :=
  if (0 <=? sequenceNumber (header rtp)) && (sequenceNumber (header rtp) <=? 65535)
  then Ok rtp
  else Throw RangeError.

(** ** The repacketizer *)

Record CodecInfo : Type := mkCodec {
  sps : option Buffer;
  pps : option Buffer
}.

Record H264Repacketizer : Type := mkRepacketizer {
  maxPacketSize : Z;
  codecInfo : CodecInfo;
  extraPackets : Z;
  pendingStapA : option (list RtpPacket);
  pendingFuA : option (list RtpPacket);
  seenSps : bool
}.

(** [this.fuaMax], assigned once by the constructor. *)
Definition fuaMax (this : H264Repacketizer) : Z :=
  maxPacketSize this - FU_A_HEADER_SIZE.

Definition new (maxPacketSize : Z) (codecInfo : CodecInfo) : H264Repacketizer :=
  mkRepacketizer maxPacketSize codecInfo 0 None None false.

Definition setExtraPackets (this : H264Repacketizer) (n : Z) : H264Repacketizer :=
  mkRepacketizer (maxPacketSize this) (codecInfo this) n
    (pendingStapA this) (pendingFuA this) (seenSps this).

Definition setPendingStapA (this : H264Repacketizer) (p : option (list RtpPacket))
  : H264Repacketizer :=
  mkRepacketizer (maxPacketSize this) (codecInfo this) (extraPackets this)
    p (pendingFuA this) (seenSps this).

Definition setPendingFuA (this : H264Repacketizer) (p : option (list RtpPacket))
  : H264Repacketizer :=
  mkRepacketizer (maxPacketSize this) (codecInfo this) (extraPackets this)
    (pendingStapA this) p (seenSps this).

Definition setSeenSps (this : H264Repacketizer) (b : bool) : H264Repacketizer :=
  mkRepacketizer (maxPacketSize this) (codecInfo this) (extraPackets this)
    (pendingStapA this) (pendingFuA this) b.

(** ** depacketizeStapA *)

(** The [while (pos < data.length)] loop.  Every iteration advances [pos]
    by at least the length field, so [length data] iterations suffice. *)
Fixpoint depacketizeLoop (fuel : nat) (data : Buffer) (lastPos : option Z) (pos : Z)
    (ret : list Buffer) : result (list Buffer) :=
  if pos <? blen data then
    match fuel with
    | O => Throw Diverges
    | S fuel' =>
      let ret :=
        match lastPos with
        | Some l => ret ++ [subarray data l pos]
        | None => ret
        end in
      naluSize <- readUInt16BE data pos ;;
      let pos := pos + LENGTH_FIELD_SIZE in
      depacketizeLoop fuel' data (Some pos) (pos + naluSize) ret
    end
  else
    (* [data.subarray(undefined)] is the whole buffer *)
    Ok (ret ++ [match lastPos with
                | Some l => subarrayFrom data l
                | None => data
                end]).

Definition depacketizeStapA (data : Buffer) : result (list Buffer) :=
  depacketizeLoop (length data) data None NAL_HEADER_SIZE [].

(** ** packetizeFuA *)

(** [Math.ceil(a / b)] for a positive divisor.  The operands are buffer
    sizes, far below 2^53, so the ceiling of the floating-point quotient is
    the ceiling of the exact one; the same holds for [Math.floor]. *)
Definition ceilDiv (a b : Z) : Z := - ((- a) / b).

(** The [while (offset < data.length)] loop; [packages] is returned in the
    order pushed.  With a chunk size of at least one byte, [length data]
    iterations suffice. *)
Fixpoint fuaLoop (fuel : nat) (data fuHeaderMiddle fuHeaderEnd : Buffer)
    (packageSize numLargerPackets offset : Z) (fuHeader : Buffer)
  : result (list Buffer) :=
  if offset <? blen data then
    match fuel with
    | O => Throw Diverges
    | S fuel' =>
      let size := if 0 <? numLargerPackets then packageSize + 1 else packageSize in
      let numLargerPackets :=
        if 0 <? numLargerPackets then numLargerPackets - 1 else numLargerPackets in
      let payload := subarray data offset (offset + size) in
      let offset := offset + size in
      let fuHeader := if offset =? blen data then fuHeaderEnd else fuHeader in
      packages <- fuaLoop fuel' data fuHeaderMiddle fuHeaderEnd
                    packageSize numLargerPackets offset fuHeaderMiddle ;;
      Ok ((fuHeader ++ payload) :: packages)
    end
  else Ok [].

(** The first part of [packetizeFuA]: an FU-A payload is turned back into
    a NAL header followed by the fragment, and its start and end bits
    decide [noStart] and [noEnd]. *)
Definition fuaNormalize (data : Buffer) (noStart noEnd : bool) : Buffer * bool * bool :=
  let initialNalType := byteAnd data 0 0x1f in
  if initialNalType =? NAL_TYPE_FU_A then
    let fnri := byteAnd data 0 (Z.lor 0x80 0x60) in
    let originalNalType := byteAnd data 1 0x1f in
    let isFuStart := negb (byteAnd data 1 0x80 =? 0) in
    let isFuEnd := negb (byteAnd data 1 0x40 =? 0) in
    let data := Z.lor fnri originalNalType :: subarrayFrom data FU_A_HEADER_SIZE in
    if isFuStart then (data, noStart, true)
    else if isFuEnd then (data, true, noEnd)
    else (data, true, true)
  else (data, noStart, noEnd).

(** The arithmetic is the source's for [fuaMax >= 1], that is for
    [maxPacketSize >= 3], which the constructor's contract requires; with
    an empty payload the source computes [NaN] sizes and never enters the
    loop, as here. *)
Definition packetizeFuA (this : H264Repacketizer) (data : Buffer) (noStart noEnd : bool)
  : result (list Buffer) :=
  let '(data, noStart, noEnd) := fuaNormalize data noStart noEnd in
  let payloadSize := blen data - NAL_HEADER_SIZE in
  let numPackets := ceilDiv payloadSize (fuaMax this) in
  let numLargerPackets := payloadSize mod numPackets in
  let packageSize := payloadSize / numPackets in
  let fnri := byteAnd data 0 (Z.lor 0x80 0x60) in
  let nal := byteAnd data 0 0x1F in
  let fuIndicator := Z.lor fnri NAL_TYPE_FU_A in
  let fuHeaderMiddle := [fuIndicator; nal] in
  let fuHeaderStart := if noStart then fuHeaderMiddle else [fuIndicator; Z.lor nal 0x80] in
  let fuHeaderEnd := if noEnd then fuHeaderMiddle else [fuIndicator; Z.lor nal 0x40] in
  fuaLoop (length data) data fuHeaderMiddle fuHeaderEnd
    packageSize numLargerPackets NAL_HEADER_SIZE fuHeaderStart.

(** ** packetizeOneStapA and packetizeStapA *)

(** State of the aggregation loop when it stops. *)
Record StapLoop : Type := mkStapLoop {
  loopHeader : Z;            (* stapHeader *)
  loopCounter : Z;           (* counter *)
  loopPayload : list Buffer; (* payload, in the order pushed *)
  loopDatas : list Buffer    (* what is left of datas *)
}.

(** The [while (datas.length && datas[0].length + LENGTH_FIELD_SIZE <=
    availableSize && counter < 9)] loop. *)
Fixpoint stapLoop (datas : list Buffer) (availableSize counter stapHeader : Z)
  : result StapLoop :=
  match datas with
  | [] => Ok (mkStapLoop stapHeader counter [] [])
  | nalu :: rest =>
    if (blen nalu + LENGTH_FIELD_SIZE <=? availableSize) && (counter <? 9) then
      let stapHeader := Z.lor stapHeader (byteAnd nalu 0 0x80) in
      let nri := byteAnd nalu 0 0x60 in
      let stapHeader :=
        if Z.land stapHeader 0x60 <? nri
        then Z.lor (Z.land stapHeader 0x9F) nri
        else stapHeader in
      packed <- writeUInt16BE (blen nalu) ;;
      l <- stapLoop rest (availableSize - (LENGTH_FIELD_SIZE + blen nalu))
             (counter + 1) stapHeader ;;
      Ok (mkStapLoop (loopHeader l) (loopCounter l)
            (packed :: nalu :: loopPayload l) (loopDatas l))
    else Ok (mkStapLoop stapHeader counter [] datas)
  end.

(** Returns the packet together with what is left of the queue [datas],
    which the source mutates in place. *)
Definition packetizeOneStapA (this : H264Repacketizer) (datas : list Buffer)
  : result (Buffer * list Buffer) :=
  match datas with
  | [] => Throw EmptyStapA
  | first :: _ =>
    let availableSize := maxPacketSize this - STAP_A_HEADER_SIZE in
    let stapHeader := Z.lor NAL_TYPE_STAP_A (byteAnd first 0 0xE0) in
    l <- stapLoop datas availableSize 0 stapHeader ;;
    if loopCounter l =? 0 then
      (* 'stap a packet is too large. this may be a bug.' *)
      match loopDatas l with
      | raw :: rest => Ok (raw, rest)
      | [] => Throw TypeError
      end
    else Ok (concat ([loopHeader l] :: loopPayload l), loopDatas l)
  end.

(** [while (datas.length) ret.push(this.packetizeOneStapA(datas))]: every
    call takes at least one NAL off the queue. *)
Fixpoint packetizeStapALoop (fuel : nat) (this : H264Repacketizer) (datas : list Buffer)
  : result (list Buffer) :=
  match datas with
  | [] => Ok []
  | _ :: _ =>
    match fuel with
    | O => Throw Diverges
    | S fuel' =>
      '(packet, datas) <- packetizeOneStapA this datas ;;
      ret <- packetizeStapALoop fuel' this datas ;;
      Ok (packet :: ret)
    end
  end.

Definition packetizeStapA (this : H264Repacketizer) (datas : list Buffer)
  : result (list Buffer) :=
  packetizeStapALoop (length datas) this datas.

(** ** createPacket and createRtpPackets *)

(** The template packet is overwritten, serialized and restored; what is
    returned is the serialization of the overwritten packet.  [%] is the
    remainder that takes the sign of the dividend, [Z.rem]; where it is
    negative, [rtp.serialize()] throws, and [createPacket] with it. *)
Definition createPacket (this : H264Repacketizer) (rtp : RtpPacket) (data : Buffer)
    (marker : bool) : result Serialized :=
  serialize
    (mkPacket
       (mkHeader
          (Z.rem (sequenceNumber (header rtp) + extraPackets this + 0x10000) 0x10000)
          marker
          (timestamp (header rtp)))
       data).

(** [nalus.forEach((packetized, index) => ...)] of [createRtpPackets], from
    position [index] on; [total] is [nalus.length]. *)
Fixpoint createRtpPacketsFrom (index total : nat) (this : H264Repacketizer)
    (packet : RtpPacket) (nalus : list Buffer) (ret : list Serialized) (hadMarker : bool)
  : result (H264Repacketizer * list Serialized) :=
  match nalus with
  | [] => Ok (this, ret)
  | packetized :: rest =>
    let this :=
      if Nat.eqb index 0 then this
      else setExtraPackets this (extraPackets this + 1) in
    let marker := hadMarker && Nat.eqb index (total - 1) in
    created <- createPacket this packet packetized marker ;;
    createRtpPacketsFrom (S index) total this packet rest (ret ++ [created]) hadMarker
  end.

Definition createRtpPackets (this : H264Repacketizer) (packet : RtpPacket)
    (nalus : list Buffer) (ret : list Serialized) (hadMarker : bool)
  : result (H264Repacketizer * list Serialized) :=
  createRtpPacketsFrom 0 (length nalus) this packet nalus ret hadMarker.

(** ** flushPendingStapA *)

(** [aggregates.forEach] of [flushPendingStapA]; it does not touch
    [extraPackets]. *)
Fixpoint stapAForEach (index total : nat) (this : H264Repacketizer) (first : RtpPacket)
    (aggregates : list Buffer) (ret : list Serialized) (hadMarker : bool)
  : result (list Serialized) :=
  match aggregates with
  | [] => Ok ret
  | packetized :: rest =>
    let marker := hadMarker && Nat.eqb index (total - 1) in
    created <- createPacket this first packetized marker ;;
    stapAForEach (S index) total this first rest (ret ++ [created]) hadMarker
  end.

Definition flushPendingStapA (this : H264Repacketizer) (ret : list Serialized)
  : result (H264Repacketizer * list Serialized) :=
  match pendingStapA this with
  | None => Ok (this, ret)
  | Some [] => Throw TypeError
  | Some ((first :: _) as pending) =>
    let hadMarker := marker (header first) in
    aggregates <- packetizeStapA this (map payload pending) ;;
    if negb (Nat.eqb (length aggregates) 1) then
      (* 'expected only 1 packet for sps/pps stapa' *)
      Ok (setPendingStapA this None, ret)
    else
      ret <- stapAForEach 0 (length aggregates) this first aggregates ret hadMarker ;;
      let this :=
        setExtraPackets this (extraPackets this - (Z.of_nat (length pending) - 1)) in
      Ok (setPendingStapA this None, ret)
  end.

(** ** flushPendingFuA *)

(** The [for (const packet of this.pendingFuA)] validation loop: [false]
    when it leaves through one of its two error returns. *)
Fixpoint fuaGroupCheck (originalNalType : Z) (lastSequenceNumber : option Z)
    (pending : list RtpPacket) : bool :=
  match pending with
  | [] => true
  | packet :: rest =>
    let nalType := byteAnd (payload packet) 1 0x1f in
    if negb (nalType =? originalNalType) then false (* 'nal type mismatch' *)
    else
      let contiguous :=
        match lastSequenceNumber with
        | Some l => sequenceNumber (header packet) =? Z.rem (l + 1) 0x10000
        | None => true
        end in
      if negb contiguous then false (* 'fua packet is missing. skipping refragmentation.' *)
      else fuaGroupCheck originalNalType (Some (sequenceNumber (header packet))) rest
  end.

(** [Buffer.concat] of the reconstructed NAL header and the fragments
    without their two FU bytes. *)
Definition defragment (first : RtpPacket) (pending : list RtpPacket) : Buffer :=
  let originalNalType := byteAnd (payload first) 1 0x1f in
  let fnri := byteAnd (payload first) 0 (Z.lor 0x80 0x60) in
  let originalNalHeader := [Z.lor fnri originalNalType] in
  let originalFragments :=
    map (fun packet => subarrayFrom (payload packet) FU_A_HEADER_SIZE) pending in
  concat (originalNalHeader :: originalFragments).

Definition flushPendingFuA (this : H264Repacketizer) (ret : list Serialized)
  : result (H264Repacketizer * list Serialized) :=
  match pendingFuA this with
  | None => Ok (this, ret)
  | Some [] => Throw TypeError
  | Some ((first :: _) as pending) =>
    let last := List.last pending first in
    let hasFuStart := negb (byteAnd (payload first) 1 0x80 =? 0) in
    let hasFuEnd := negb (byteAnd (payload last) 1 0x40 =? 0) in
    let originalNalType := byteAnd (payload first) 1 0x1f in
    if negb (fuaGroupCheck originalNalType None pending) then
      Ok (setPendingFuA this None, ret)
    else
      let defragmented := defragment first pending in
      fragments <- packetizeFuA this defragmented (negb hasFuStart) (negb hasFuEnd) ;;
      let hadMarker := marker (header last) in
      '(this, ret) <- createRtpPackets this first fragments ret hadMarker ;;
      let this :=
        setExtraPackets this (extraPackets this - (Z.of_nat (length pending) - 1)) in
      Ok (setPendingFuA this None, ret)
  end.

(** ** maybeSendSpsPps *)

Definition maybeSendSpsPps (this : H264Repacketizer) (packet : RtpPacket)
    (ret : list Serialized) : result (H264Repacketizer * list Serialized) :=
  match sps (codecInfo this), pps (codecInfo this) with
  | Some s, Some p =>
    aggregates <- packetizeStapA this [s; p] ;;
    if negb (Nat.eqb (length aggregates) 1) then
      (* 'expected only 1 packet for sps/pps stapa' *)
      Ok (this, ret)
    else
      (* hadMarker defaults to packet.header.marker *)
      '(this, ret) <-
        createRtpPackets this packet aggregates ret (marker (header packet)) ;;
      Ok (setExtraPackets this (extraPackets this + 1), ret)
  | _, _ => Ok (this, ret)
  end.

(** ** repacketize *)

(** [pending[0].header.timestamp] *)
Definition headTimestamp (pending : list RtpPacket) : result Z :=
  match pending with
  | [] => Throw TypeError
  | first :: _ => Ok (timestamp (header first))
  end.

(** [if (this.pendingFuA && this.pendingFuA[0].header.timestamp !==
    packet.header.timestamp) this.flushPendingFuA(ret)] *)
Definition flushFuAOnTimestamp (this : H264Repacketizer) (packet : RtpPacket)
    (ret : list Serialized) : result (H264Repacketizer * list Serialized) :=
  match pendingFuA this with
  | None => Ok (this, ret)
  | Some pending =>
    ts <- headTimestamp pending ;;
    if negb (ts =? timestamp (header packet)) then flushPendingFuA this ret
    else Ok (this, ret)
  end.

Definition flushStapAOnTimestamp (this : H264Repacketizer) (packet : RtpPacket)
    (ret : list Serialized) : result (H264Repacketizer * list Serialized) :=
  match pendingStapA this with
  | None => Ok (this, ret)
  | Some pending =>
    ts <- headTimestamp pending ;;
    if negb (ts =? timestamp (header packet)) then flushPendingStapA this ret
    else Ok (this, ret)
  end.

(** The callback of [depacketizeStapA(...).filter]: it records an SPS and
    keeps every NAL that is not an SEI. *)
Fixpoint filterSei (this : H264Repacketizer) (nals : list Buffer)
  : H264Repacketizer * list Buffer :=
  match nals with
  | [] => (this, [])
  | p :: rest =>
    let nalType := byteAnd p 0 0x1F in
    let this := setSeenSps this (seenSps this || (nalType =? NAL_TYPE_SPS)) in
    let '(this, kept) := filterSei this rest in
    (this, if negb (nalType =? NAL_TYPE_SEI) then p :: kept else kept)
  end.

(** The branch [nalType === NAL_TYPE_FU_A].  The branch guarded by
    [false && ...] is dead and left out. *)
Definition repacketizeFuA (this : H264Repacketizer) (packet : RtpPacket)
    (ret : list Serialized) : result (H264Repacketizer * list Serialized) :=
  '(this, ret) <- flushPendingStapA this ret ;;
  let data := payload packet in
  let originalNalType := byteAnd data 1 0x1f in
  let isFuStart := negb (byteAnd data 1 0x80 =? 0) in
  '(this, ret) <-
    (if (originalNalType =? NAL_TYPE_IDR) && isFuStart && negb (seenSps this)
     then maybeSendSpsPps this packet ret
     else Ok (this, ret)) ;;
  '(this, ret) <-
    (match pendingFuA this with
     | None =>
       if maxPacketSize this * 2 <=? blen (payload packet) then
         fragments <- packetizeFuA this (payload packet) false false ;;
         createRtpPackets this packet fragments ret (marker (header packet))
       else Ok (setPendingFuA this (Some []), ret)
     | Some _ => Ok (this, ret)
     end) ;;
  match pendingFuA this with
  | Some pending =>
    let this := setPendingFuA this (Some (pending ++ [packet])) in
    let isFuEnd := negb (byteAnd (payload packet) 1 0x40 =? 0) in
    if isFuEnd then flushPendingFuA this ret else Ok (this, ret)
  | None => Ok (this, ret)
  end.

(** The branch [nalType === NAL_TYPE_STAP_A]. *)
Definition repacketizeStapA (this : H264Repacketizer) (packet : RtpPacket)
    (ret : list Serialized) : result (H264Repacketizer * list Serialized) :=
  '(this, ret) <- flushPendingFuA this ret ;;
  nals <- depacketizeStapA (payload packet) ;;
  let '(this, depacketized) := filterSei this nals in
  aggregates <- packetizeStapA this depacketized ;;
  createRtpPackets this packet aggregates ret (marker (header packet)).

(** The branch [nalType >= 1 && nalType < 24]. *)
Definition repacketizeSingle (this : H264Repacketizer) (packet : RtpPacket)
    (nalType : Z) (ret : list Serialized)
  : result (H264Repacketizer * list Serialized) :=
  '(this, ret) <- flushPendingFuA this ret ;;
  if (nalType =? NAL_TYPE_SPS) || (nalType =? NAL_TYPE_PPS) then
    let this := setSeenSps this (seenSps this || (nalType =? NAL_TYPE_SPS)) in
    let pending :=
      match pendingStapA this with
      | None => []
      | Some pending => pending
      end in
    Ok (setPendingStapA this (Some (pending ++ [packet])), ret)
  else
    '(this, ret) <- flushPendingStapA this ret ;;
    if nalType =? NAL_TYPE_SEI then
      Ok (setExtraPackets this (extraPackets this - 1), ret)
    else
      '(this, ret) <-
        (if (nalType =? NAL_TYPE_IDR) && negb (seenSps this)
         then maybeSendSpsPps this packet ret
         else Ok (this, ret)) ;;
      if maxPacketSize this <? blen (payload packet) then
        fragments <- packetizeFuA this (payload packet) false false ;;
        createRtpPackets this packet fragments ret (marker (header packet))
      else
        created <- createPacket this packet (payload packet) (marker (header packet)) ;;
        Ok (this, ret ++ [created]).

Definition repacketize (this : H264Repacketizer) (packet : RtpPacket)
  : result (H264Repacketizer * list Serialized) :=
  let ret : list Serialized := [] in
  let nalType := byteAnd (payload packet) 0 0x1F in
  '(this, ret) <- flushFuAOnTimestamp this packet ret ;;
  '(this, ret) <- flushStapAOnTimestamp this packet ret ;;
  if nalType =? NAL_TYPE_FU_A then repacketizeFuA this packet ret
  else if nalType =? NAL_TYPE_STAP_A then repacketizeStapA this packet ret
  else if (1 <=? nalType) && (nalType <? 24) then repacketizeSingle this packet nalType ret
  else
    (* 'unknown nal unit type' *)
    Ok (setExtraPackets this (extraPackets this - 1), ret).

(** Feeding a sequence of packets to one instance, collecting everything
    emitted; an exception ends the run. *)
Fixpoint repacketizeAll (this : H264Repacketizer) (packets : list RtpPacket)
  : result (H264Repacketizer * list Serialized) :=
  match packets with
  | [] => Ok (this, [])
  | packet :: rest =>
    '(this, out) <- repacketize this packet ;;
    '(this, outs) <- repacketizeAll this rest ;;
    Ok (this, out ++ outs)
  end.

(** ** Vocabulary of the statements *)

(** The admission test of [packetizeOneStapA] passes for every NAL of
    [datas] in turn, starting from the budget [availableSize]. *)
Fixpoint stapFits (availableSize : Z) (datas : list Buffer) : bool :=
  match datas with
  | [] => true
  | nalu :: rest =>
    (blen nalu + LENGTH_FIELD_SIZE <=? availableSize)
    && stapFits (availableSize - (LENGTH_FIELD_SIZE + blen nalu)) rest
  end.

(** What the loop of [packetizeFuA] returns when [m] packets are still to
    be cut from [offset] on, the first [numLarger] of them one byte larger:
    their number, their sizes, their contents and their FU headers. *)
Definition fuaLoopSpec (data fuHeaderMiddle fuHeaderEnd : Buffer) (packageSize : Z)
    (m : nat) (numLarger offset : Z) (fuHeader : Buffer)
    (packages : list Buffer) : Prop :=
  length packages = m /\
  (forall i, (i < m)%nat ->
     blen (nth i packages []) - FU_A_HEADER_SIZE =
     if Z.of_nat i <? numLarger then packageSize + 1 else packageSize) /\
  concat (map (skipn 2) packages) = skipn (Z.to_nat offset) data /\
  (forall i, (i < m)%nat ->
     firstn 2 (nth i packages []) =
     if Nat.eqb i (m - 1) then fuHeaderEnd
     else if Nat.eqb i 0 then fuHeader else fuHeaderMiddle).

(** The length field and the bytes of each NAL, as the aggregation loop
    pushes them on [payload]. *)
Definition stapFramed (datas : list Buffer) : list Buffer :=
  flat_map (fun nalu => [[Z.shiftr (blen nalu) 8; Z.land (blen nalu) 255]; nalu]) datas.

(** A NAL of 65536 bytes: one more than a 16-bit length field can hold. *)
Definition overlongNal : Buffer := 0x61 :: repeat 0 (Z.to_nat 65535).

(** [n] consecutive input packets that each carry one SEI NAL, with
    sequence numbers counting up from 65535. *)
Definition seiStream (n : nat) : list RtpPacket :=
  map (fun i => mkPacket (mkHeader (Z.rem (65535 + Z.of_nat i) 0x10000) false (Z.of_nat i))
                  [0x06; 0x00])
      (seq 0 n).

(** The SEI filter of the STAP-A branch without its effect on [seenSps]. *)
Definition notSei (nal : Buffer) : bool :=
  negb (byteAnd nal 0 0x1F =? NAL_TYPE_SEI).

(** The NALs an input packet hands to STAP-A aggregation: the NALs of an
    input STAP-A that pass the SEI filter, or the payload of an SPS or PPS
    packet, which is queued in [pendingStapA]. *)
Definition aggregationInputs (packet : RtpPacket) : list Buffer :=
  let nalType := byteAnd (payload packet) 0 0x1F in
  if nalType =? NAL_TYPE_STAP_A then
    match depacketizeStapA (payload packet) with
    | Ok nals => filter notSei nals
    | Throw _ => []
    end
  else if (nalType =? NAL_TYPE_SPS) || (nalType =? NAL_TYPE_PPS) then [payload packet]
  else [].

(** The payloads queued in [pendingStapA]. *)
Definition pendingPayloads (this : H264Repacketizer) : list Buffer :=
  match pendingStapA this with
  | Some pending => map payload pending
  | None => []
  end.

(** The degenerate case of [packetizeOneStapA]: the NAL alone fails the
    admission test against the full budget of [maxPacketSize]. *)
Definition stapFallback (maxPacketSize : Z) (nal : Buffer) : Prop :=
  maxPacketSize - STAP_A_HEADER_SIZE < blen nal + LENGTH_FIELD_SIZE.

(** The size bound on an emitted packet: its payload fits [maxPacketSize],
    or it is one of the NALs [queued] for aggregation, returned raw by the
    degenerate case. *)
Definition sizeBounded (maxPacketSize : Z) (queued : list Buffer) (s : Serialized)
  : Prop :=
  blen (payload s) <= maxPacketSize \/
  (In (payload s) queued /\ stapFallback maxPacketSize (payload s)).

(** Everything in the state but [extraPackets] is the same. *)
Definition sameButExtra (a b : H264Repacketizer) : Prop :=
  maxPacketSize a = maxPacketSize b /\
  codecInfo a = codecInfo b /\
  pendingStapA a = pendingStapA b /\
  pendingFuA a = pendingFuA b /\
  seenSps a = seenSps b.

(** The number of input packets held in the two pending groups. *)
Definition buffered (this : H264Repacketizer) : Z :=
  match pendingFuA this with
  | Some pending => Z.of_nat (length pending)
  | None => 0
  end +
  match pendingStapA this with
  | Some pending => Z.of_nat (length pending)
  | None => 0
  end.

(** A flush of the FU-A group [pending] would emit at least one packet:
    the group passes the checks of [flushPendingFuA] and is refragmented
    into at least one fragment. *)
Definition fuaFlushEmits (this : H264Repacketizer) (pending : list RtpPacket) : bool :=
  match pending with
  | [] => false
  | first :: _ =>
    let last := List.last pending first in
    fuaGroupCheck (byteAnd (payload first) 1 0x1f) None pending &&
    match packetizeFuA this (defragment first pending)
            (negb (negb (byteAnd (payload first) 1 0x80 =? 0)))
            (negb (negb (byteAnd (payload last) 1 0x40 =? 0))) with
    | Ok (_ :: _) => true
    | _ => false
    end
  end.

(** A flush of the STAP-A group [pending] would emit its one aggregate. *)
Definition stapFlushEmits (this : H264Repacketizer) (pending : list RtpPacket) : bool :=
  match pending with
  | [] => false
  | _ :: _ =>
    match packetizeStapA this (map payload pending) with
    | Ok [_] => true
    | _ => false
    end
  end.

(** The pending group starts with a packet of another timestamp than
    [packet]: the test that makes [repacketize] flush the group before it
    looks at the NAL type. *)
Definition differsInTimestamp (pending : option (list RtpPacket)) (packet : RtpPacket)
  : bool :=
  match pending with
  | Some (first :: _) => negb (timestamp (header first) =? timestamp (header packet))
  | _ => false
  end.

(** The call of [repacketize] on [packet] flushes the pending FU-A group
    as it is: the timestamp differs, or [packet] is a STAP-A or a single
    NAL. *)
Definition flushesFuA (this : H264Repacketizer) (packet : RtpPacket) : bool :=
  let nalType := byteAnd (payload packet) 0 0x1F in
  differsInTimestamp (pendingFuA this) packet
  || (nalType =? NAL_TYPE_STAP_A)
  || ((1 <=? nalType) && (nalType <? 24)).

(** The call of [repacketize] on [packet] flushes the pending STAP-A
    group: the timestamp differs, or [packet] is an FU-A, or a single NAL
    that is neither an SPS nor a PPS. *)
Definition flushesStapA (this : H264Repacketizer) (packet : RtpPacket) : bool :=
  let nalType := byteAnd (payload packet) 0 0x1F in
  differsInTimestamp (pendingStapA this) packet
  || (nalType =? NAL_TYPE_FU_A)
  || ((1 <=? nalType) && (nalType <? 24)
      && negb ((nalType =? NAL_TYPE_SPS) || (nalType =? NAL_TYPE_PPS))).

(** The FU-A group that the end fragment [packet] completes, which the
    call then flushes: the pending group with [packet] added when the
    group has the timestamp of [packet]; otherwise [packet] alone, unless
    it is large enough to be refragmented at once. *)
Definition completedGroup (this : H264Repacketizer) (packet : RtpPacket)
  : option (list RtpPacket) :=
  let alone :=
    if maxPacketSize this * 2 <=? blen (payload packet) then None
    else Some [packet] in
  if (byteAnd (payload packet) 0 0x1F =? NAL_TYPE_FU_A)
     && negb (byteAnd (payload packet) 1 0x40 =? 0)
  then
    match pendingFuA this with
    | Some pending =>
      if differsInTimestamp (Some pending) packet then alone
      else Some (pending ++ [packet])
    | None => alone
    end
  else None.

(** The invariant behind the size bound, for an instance with
    [maxPacketSize = M]: the payloads waiting in [pendingStapA] are among
    the [queued] NALs, and everything emitted so far is bounded. *)
Definition sizeInvariant (M : Z) (queued : list Buffer) (this : H264Repacketizer)
    (ret : list Serialized) : Prop :=
  maxPacketSize this = M /\
  incl (pendingPayloads this) queued /\
  Forall (sizeBounded M queued) ret.

(** The packets accounted for: [extraPackets] minus what was emitted and
    minus what is still held back.  A call that consumes one input packet
    lowers it by one. *)
Definition balance (this : H264Repacketizer) (ret : list Serialized) : Z :=
  extraPackets this - Z.of_nat (length ret) - buffered this.

(** During a call on [this0]: the configuration is that of [this0], each
    pending group is that of [this0] or was flushed, and the balance is
    [b]. *)
Definition accounted (this0 : H264Repacketizer) (b : Z) (this : H264Repacketizer)
    (ret : list Serialized) : Prop :=
  maxPacketSize this = maxPacketSize this0 /\
  (pendingFuA this = None \/ pendingFuA this = pendingFuA this0) /\
  (pendingStapA this = None \/ pendingStapA this = pendingStapA this0) /\
  balance this ret = b.

(** The call returns or throws: the fuel of its loops is enough. *)
Definition terminates {A : Type} (r : result A) : Prop := r <> Throw Diverges.

(** The largest NRI field ([nal[0] & 0x60]) among the NALs. *)
Definition maxNri (nals : list Buffer) : Z :=
  fold_right (fun nal m => Z.max (byteAnd nal 0 0x60) m) 0 nals.

(** The F bits ([nal[0] & 0x80]) of the NALs, or-ed together. *)
Definition anyF (nals : list Buffer) : Z :=
  fold_right (fun nal m => Z.lor (byteAnd nal 0 0x80) m) 0 nals.

(** The header [createRtpPackets] gives to the packet made of chunk [j] of
    [total]: the timestamp of the template [packet], its sequence number
    moved by [extraPackets] and by the chunks before this one, and the
    marker [hadMarker] on the last chunk only. *)
Definition emittedHeader (this : H264Repacketizer) (packet : RtpPacket)
    (hadMarker : bool) (j total : nat) : RtpHeader :=
  mkHeader
    (Z.rem (sequenceNumber (header packet) + extraPackets this + Z.of_nat j + 0x10000)
           0x10000)
    (hadMarker && Nat.eqb j (total - 1))
    (timestamp (header packet)).

(** [made] is one packet per chunk, in order, each with its chunk as
    payload and the header above. *)
Definition emitted (this : H264Repacketizer) (packet : RtpPacket) (hadMarker : bool)
    (chunks : list Buffer) (made : list Serialized) : Prop :=
  length made = length chunks /\
  forall (j : nat) (n : Buffer),
    nth_error chunks j = Some n ->
    nth_error made j
    = Some (mkPacket (emittedHeader this packet hadMarker j (length chunks)) n).

(** The bytes of the NAL that a group of FU-A fragments carries: the
    payloads without their two FU bytes, one after the other. *)
Definition fragmentBytes (pending : list RtpPacket) : Buffer :=
  concat (map (fun packet => subarrayFrom (payload packet) FU_A_HEADER_SIZE) pending).

(** A pending group, if there is one, starts with a packet of the
    timestamp of [packet]: the input [packet] does not flush it. *)
Definition sameTimestamp (pending : option (list RtpPacket)) (packet : RtpPacket) : Prop :=
  match pending with
  | None => True
  | Some [] => False
  | Some (first :: _) => timestamp (header first) = timestamp (header packet)
  end.

(** The test that sets [seenSps]: the NAL is an SPS. *)
Definition isSps (nal : Buffer) : bool :=
  byteAnd nal 0 0x1F =? NAL_TYPE_SPS.

(** The packet brings an SPS: it is one, or it is a STAP-A that holds one. *)
Definition carriesSps (packet : RtpPacket) : bool :=
  let nalType := byteAnd (payload packet) 0 0x1F in
  if nalType =? NAL_TYPE_STAP_A then
    match depacketizeStapA (payload packet) with
    | Ok nals => existsb isSps nals
    | Throw _ => false
    end
  else nalType =? NAL_TYPE_SPS.

(** The input packets held in the two pending groups. *)
Definition held (this : H264Repacketizer) : list RtpPacket :=
  match pendingFuA this with
  | Some pending => pending
  | None => []
  end ++
  match pendingStapA this with
  | Some pending => pending
  | None => []
  end.

(** A group of FU-A fragments as [repacketize] collects it: not empty, of
    one timestamp, every packet an FU-A payload without the end bit. *)
Definition fuaGroupOk (pending : list RtpPacket) : Prop :=
  match pending with
  | [] => False
  | first :: _ =>
    Forall (fun p => byteAnd (payload p) 0 0x1F = NAL_TYPE_FU_A /\
                     byteAnd (payload p) 1 0x40 = 0 /\
                     timestamp (header p) = timestamp (header first)) pending
  end.

(** A group of parameter sets as [repacketize] collects it: not empty, of
    one timestamp, every packet an SPS or a PPS. *)
Definition stapGroupOk (pending : list RtpPacket) : Prop :=
  match pending with
  | [] => False
  | first :: _ =>
    Forall (fun p => (byteAnd (payload p) 0 0x1F = NAL_TYPE_SPS \/
                      byteAnd (payload p) 0 0x1F = NAL_TYPE_PPS) /\
                     timestamp (header p) = timestamp (header first)) pending
  end.

(** The state between two calls: at most one group is pending, and it is
    as above. *)
Definition wellFormed (this : H264Repacketizer) : Prop :=
  match pendingFuA this with
  | Some pending => fuaGroupOk pending /\ pendingStapA this = None
  | None => True
  end /\
  match pendingStapA this with
  | Some pending => stapGroupOk pending
  | None => True
  end.

(** The timestamp of an emitted packet is that of one of [packets]. *)
Definition timestampFrom (packets : list RtpPacket) (s : Serialized) : Prop :=
  In (timestamp (header s)) (map (fun p => timestamp (header p)) packets).

(** The call returned, or threw a [RangeError]. *)
Definition rangeOnly {A : Type} (r : result A) : Prop :=
  match r with
  | Ok _ => True
  | Throw e => e = RangeError
  end.

(** A state in the middle of a call on [this0]: the configuration and
    [seenSps] are those of [this0], and each group is that of [this0] or
    gone. *)
Definition midCall (this0 this : H264Repacketizer) : Prop :=
  maxPacketSize this = maxPacketSize this0 /\
  codecInfo this = codecInfo this0 /\
  seenSps this = seenSps this0 /\
  (pendingFuA this = None \/ pendingFuA this = pendingFuA this0) /\
  (pendingStapA this = None \/ pendingStapA this = pendingStapA this0).

(** What was emitted so far during a call on [this0] for [packet]: each
    packet has the timestamp of [packet] or of a packet [this0] holds. *)
Definition emittedFrom (this0 : H264Repacketizer) (packet : RtpPacket)
    (ret : list Serialized) : Prop :=
  Forall (timestampFrom (held this0 ++ [packet])) ret.


(** * Properties *)

(** ** Buffers and bytes *)

Lemma blen_nonneg (b : Buffer) : 0 <= blen b.
Proof. unfold blen. lia. Qed.

Lemma blen_app (a b : Buffer) : blen (a ++ b) = blen a + blen b.
Proof. unfold blen. rewrite length_app. lia. Qed.

Lemma blen_cons (x : Z) (b : Buffer) : blen (x :: b) = 1 + blen b.
Proof. unfold blen. simpl length. lia. Qed.

Lemma clampIndex_inside (n i : Z) : 0 <= i <= n -> clampIndex n i = i.
Proof.
  intros H. unfold clampIndex.
  destruct (Z.ltb_spec i 0); lia.
Qed.

Lemma subarray_inside (b : Buffer) (s e : Z) :
  0 <= s <= e -> e <= blen b ->
  subarray b s e = firstn (Z.to_nat (e - s)) (skipn (Z.to_nat s) b).
Proof.
  intros Hs He. unfold subarray.
  rewrite !clampIndex_inside by lia. reflexivity.
Qed.

Lemma subarrayFrom_inside (b : Buffer) (s : Z) :
  0 <= s <= blen b -> subarrayFrom b s = skipn (Z.to_nat s) b.
Proof.
  intros Hs. unfold subarrayFrom.
  rewrite subarray_inside by lia.
  apply firstn_all2. rewrite length_skipn. unfold blen in *. lia.
Qed.

Lemma subarrayFrom_beyond (b : Buffer) (s : Z) :
  0 <= s -> blen b <= s -> subarrayFrom b s = [].
Proof.
  intros Hs Hb. unfold subarrayFrom, subarray, clampIndex.
  destruct (Z.ltb_spec s 0); [lia|].
  destruct (Z.ltb_spec (blen b) 0); [pose proof (blen_nonneg b); lia|].
  replace (Z.to_nat (Z.min (blen b) (blen b) - Z.min s (blen b))) with 0%nat by lia.
  reflexivity.
Qed.

Lemma blen_subarrayFrom (b : Buffer) (s : Z) :
  0 <= s -> blen (subarrayFrom b s) = Z.max 0 (blen b - s).
Proof.
  intros Hs. destruct (Z.le_gt_cases s (blen b)).
  - rewrite subarrayFrom_inside by lia. unfold blen in *.
    rewrite length_skipn. lia.
  - rewrite subarrayFrom_beyond by lia. unfold blen in *. simpl. lia.
Qed.

(** Splitting a byte into its F/NRI bits and its type bits loses nothing. *)
Lemma byte_split (x : Z) :
  0 <= x < 256 -> Z.lor (Z.land x 0xE0) (Z.land x 0x1F) = x.
Proof.
  intros Hx. rewrite <- Z.land_lor_distr_r.
  change (Z.lor 0xE0 0x1F) with (Z.ones 8).
  rewrite Z.land_ones by lia. apply Z.mod_small. lia.
Qed.

(** A mask that is disjoint from [m] erases [Z.land x m]. *)
Lemma land_land_disjoint (x m k : Z) : Z.land m k = 0 -> Z.land (Z.land x m) k = 0.
Proof. intros H. rewrite <- Z.land_assoc, H. apply Z.land_0_r. Qed.

Lemma land_land_absorb (x m k : Z) : Z.land m k = m -> Z.land (Z.land x m) k = Z.land x m.
Proof. intros H. rewrite <- Z.land_assoc, H. reflexivity. Qed.

(** ** The fragmentation loop *)

Lemma ceilDiv_bounds (a b : Z) :
  0 < b -> (ceilDiv a b - 1) * b < a <= ceilDiv a b * b.
Proof.
  intros Hb. unfold ceilDiv.
  pose proof (Z.div_mod (- a) b ltac:(lia)) as Hd.
  pose proof (Z.mod_pos_bound (- a) b Hb) as Hm.
  nia.
Qed.

(** The sizes [packetizeFuA] computes, for a payload of [p >= 1] bytes and
    [f = fuaMax >= 1]: there are between 1 and [p] packets, each of at
    least one byte and at most [f] bytes, and the sizes add up to [p]. *)
Lemma fua_sizes (p f : Z) :
  1 <= p -> 1 <= f ->
  let n := ceilDiv p f in
  1 <= n <= p /\ 1 <= p / n /\ 0 <= p mod n < n /\
  n * (p / n) + p mod n = p /\
  (if 0 <? p mod n then p / n + 1 else p / n) <= f.
Proof.
  intros Hp Hf n.
  pose proof (ceilDiv_bounds p f ltac:(lia)) as Hc. fold n in Hc.
  assert (Hn : 1 <= n <= p) by nia.
  pose proof (Z.div_mod p n ltac:(lia)) as Hd.
  pose proof (Z.mod_pos_bound p n ltac:(lia)) as Hm.
  assert (Hq : 1 <= p / n) by (apply Z.div_le_lower_bound; lia).
  repeat split; try lia.
  destruct (Z.ltb_spec 0 (p mod n)); nia.
Qed.

Section FuaLoop.

Variables (data fuHeaderMiddle fuHeaderEnd : Buffer) (packageSize : Z).
Hypothesis middle_len : length fuHeaderMiddle = 2%nat.
Hypothesis end_len : length fuHeaderEnd = 2%nat.
Hypothesis packageSize_pos : 1 <= packageSize.

Lemma fuaLoop_spec (m : nat) :
  forall (fuel : nat) (numLarger offset : Z) (fuHeader : Buffer),
    (m <= fuel)%nat ->
    length fuHeader = 2%nat ->
    0 <= numLarger <= Z.of_nat m ->
    0 <= offset ->
    offset + Z.of_nat m * packageSize + numLarger = blen data ->
    exists packages,
      fuaLoop fuel data fuHeaderMiddle fuHeaderEnd packageSize numLarger offset fuHeader
      = Ok packages /\
      fuaLoopSpec data fuHeaderMiddle fuHeaderEnd packageSize
        m numLarger offset fuHeader packages.
Proof.
  induction m as [|m IH]; intros fuel numLarger offset fuHeader Hfuel Hlen Hnl Hoff Hsum.
  - exists []. assert (offset = blen data) by lia. subst offset.
    split.
    + destruct fuel; simpl; rewrite Z.ltb_irrefl; reflexivity.
    + unfold fuaLoopSpec. repeat split; try (intros; lia).
      simpl. rewrite skipn_all2; [reflexivity|]. unfold blen. lia.
  - destruct fuel as [|fuel]; [lia|].
    set (size := if 0 <? numLarger then packageSize + 1 else packageSize).
    set (numLarger' := if 0 <? numLarger then numLarger - 1 else numLarger).
    assert (Hsize : 1 <= size) by (subst size; destruct (0 <? numLarger); lia).
    assert (Hnl' : 0 <= numLarger' <= Z.of_nat m)
      by (subst numLarger'; destruct (Z.ltb_spec 0 numLarger); lia).
    assert (Hsum' : offset + size + Z.of_nat m * packageSize + numLarger' = blen data)
      by (subst size numLarger'; destruct (Z.ltb_spec 0 numLarger); lia).
    destruct (IH fuel numLarger' (offset + size) fuHeaderMiddle)
      as (rest & Hrest & Hl & Hsz & Hcat & Hhd); try lia.
    simpl fuaLoop. fold size. fold numLarger'.
    assert (Hlt : (offset <? blen data) = true) by (apply Z.ltb_lt; nia).
    rewrite Hlt, Hrest. simpl bind.
    eexists. split; [reflexivity|].
    assert (Hsub : subarray data offset (offset + size)
                   = firstn (Z.to_nat size) (skipn (Z.to_nat offset) data)).
    { rewrite subarray_inside by nia. f_equal. f_equal. lia. }
    assert (Hend : (offset + size =? blen data) = Nat.eqb m 0).
    { destruct m as [|m'].
      - simpl. apply Z.eqb_eq. lia.
      - simpl. apply Z.eqb_neq. nia. }
    remember (if offset + size =? blen data then fuHeaderEnd else fuHeader) as h eqn:Eh.
    assert (Hh : length h = 2%nat)
      by (rewrite Eh; destruct (offset + size =? blen data); assumption).
    assert (Hblen : blen (firstn (Z.to_nat size) (skipn (Z.to_nat offset) data)) = size).
    { unfold blen in *. rewrite length_firstn, length_skipn. nia. }
    unfold fuaLoopSpec. repeat split.
    + simpl. lia.
    + intros [|i] Hi.
      * simpl nth. rewrite blen_app, Hsub, Hblen. unfold blen. rewrite Hh.
        change (Z.of_nat 0 <? numLarger) with (0 <? numLarger). fold size.
        unfold FU_A_HEADER_SIZE. lia.
      * simpl nth. rewrite Hsz by lia. subst numLarger'.
        destruct (Z.ltb_spec 0 numLarger);
          destruct (Z.ltb_spec (Z.of_nat i) (numLarger - 1));
          destruct (Z.ltb_spec (Z.of_nat i) numLarger);
          destruct (Z.ltb_spec (Z.of_nat (S i)) numLarger); lia.
    + rewrite map_cons, concat_cons, Hcat.
      rewrite skipn_app, Hh. rewrite skipn_all2 by lia.
      replace (2 - 2)%nat with 0%nat by lia. simpl skipn.
      rewrite Hsub.
      replace (Z.to_nat (offset + size)) with (Z.to_nat size + Z.to_nat offset)%nat by lia.
      rewrite <- skipn_skipn. apply firstn_skipn.
    + intros [|i] Hi.
      * simpl nth. rewrite firstn_app, Hh.
        replace (2 - 2)%nat with 0%nat by lia. simpl firstn at 2.
        rewrite app_nil_r, firstn_all2 by lia.
        rewrite Eh, Hend. simpl. replace (m - 0)%nat with m by lia.
        rewrite Nat.eqb_sym. reflexivity.
      * simpl nth. rewrite Hhd by lia.
        replace (S m - 1)%nat with (S (m - 1)) by lia.
        change (Nat.eqb (S i) (S (m - 1))) with (Nat.eqb i (m - 1)).
        destruct (Nat.eqb i (m - 1)); [reflexivity|].
        destruct (Nat.eqb i 0); reflexivity.
Qed.

End FuaLoop.

(** ** packetizeFuA *)

Lemma fuaNormalize_whole (data : Buffer) (noStart noEnd : bool) :
  byteAnd data 0 0x1f <> NAL_TYPE_FU_A ->
  fuaNormalize data noStart noEnd = (data, noStart, noEnd).
Proof.
  intros H. unfold fuaNormalize.
  destruct (Z.eqb_spec (byteAnd data 0 0x1f) NAL_TYPE_FU_A); [contradiction|reflexivity].
Qed.

(** The three FU headers [packetizeFuA] builds from a NAL header byte. *)
Lemma packetizeFuA_normalized (this : H264Repacketizer) (data : Buffer)
    (noStart noEnd : bool) (d : Buffer) (noStart' noEnd' : bool) :
  fuaNormalize data noStart noEnd = (d, noStart', noEnd') ->
  1 <= fuaMax this ->
  1 <= blen d - NAL_HEADER_SIZE ->
  let payloadSize := blen d - NAL_HEADER_SIZE in
  let numPackets := ceilDiv payloadSize (fuaMax this) in
  let fuIndicator := Z.lor (byteAnd d 0 (Z.lor 0x80 0x60)) NAL_TYPE_FU_A in
  let nal := byteAnd d 0 0x1F in
  let fuHeaderMiddle := [fuIndicator; nal] in
  let fuHeaderStart := if noStart' then fuHeaderMiddle else [fuIndicator; Z.lor nal 0x80] in
  let fuHeaderEnd := if noEnd' then fuHeaderMiddle else [fuIndicator; Z.lor nal 0x40] in
  exists packages,
    packetizeFuA this data noStart noEnd = Ok packages /\
    fuaLoopSpec d fuHeaderMiddle fuHeaderEnd (payloadSize / numPackets)
      (Z.to_nat numPackets) (payloadSize mod numPackets) NAL_HEADER_SIZE
      fuHeaderStart packages.
Proof.
  intros Hnorm Hf Hp payloadSize numPackets fuIndicator nal
    fuHeaderMiddle fuHeaderStart fuHeaderEnd.
  destruct (fua_sizes payloadSize (fuaMax this) Hp Hf) as (Hn & Hq & Hm & Hsum & _).
  fold numPackets in Hn, Hq, Hm, Hsum.
  unfold packetizeFuA. rewrite Hnorm.
  apply fuaLoop_spec.
  - reflexivity.
  - subst fuHeaderEnd. destruct noEnd'; reflexivity.
  - exact Hq.
  - subst payloadSize. unfold blen, NAL_HEADER_SIZE in *. lia.
  - subst fuHeaderStart. destruct noStart'; reflexivity.
  - lia.
  - unfold NAL_HEADER_SIZE. lia.
  - subst payloadSize. unfold NAL_HEADER_SIZE in *. rewrite Z2Nat.id by lia. lia.
Qed.

(** With no payload byte after the NAL header the loop is never entered. *)
Lemma packetizeFuA_no_payload (this : H264Repacketizer) (data : Buffer)
    (noStart noEnd : bool) :
  blen (fst (fst (fuaNormalize data noStart noEnd))) <= NAL_HEADER_SIZE ->
  packetizeFuA this data noStart noEnd = Ok [].
Proof.
  intros H. unfold packetizeFuA.
  destruct (fuaNormalize data noStart noEnd) as [[d ns] ne]. simpl in H.
  unfold NAL_HEADER_SIZE in *.
  destruct (length d) eqn:E; simpl;
    destruct (Z.ltb_spec 1 (blen d)); try reflexivity; lia.
Qed.

(** Every fragment fits [maxPacketSize], and the call returns. *)
Lemma packetizeFuA_bound (this : H264Repacketizer) (data : Buffer) (noStart noEnd : bool) :
  3 <= maxPacketSize this ->
  exists packages,
    packetizeFuA this data noStart noEnd = Ok packages /\
    Forall (fun p => blen p <= maxPacketSize this) packages.
Proof.
  intros Hmax.
  destruct (fuaNormalize data noStart noEnd) as [[d ns] ne] eqn:Hnorm.
  destruct (Z.le_gt_cases (blen d) NAL_HEADER_SIZE) as [Hle|Hgt].
  - exists []. split; [|constructor].
    apply packetizeFuA_no_payload. rewrite Hnorm. exact Hle.
  - assert (Hf : 1 <= fuaMax this) by (unfold fuaMax, FU_A_HEADER_SIZE; lia).
    assert (Hp : 1 <= blen d - NAL_HEADER_SIZE) by (unfold NAL_HEADER_SIZE in *; lia).
    destruct (packetizeFuA_normalized this data noStart noEnd d ns ne Hnorm Hf Hp)
      as (packages & Hok & Hlen & Hsz & _).
    exists packages. split; [exact Hok|].
    destruct (fua_sizes _ _ Hp Hf) as (_ & _ & _ & _ & Hfit).
    apply Forall_forall. intros p Hin.
    destruct (In_nth _ _ [] Hin) as (i & Hi & Hnth).
    rewrite <- Hlen in Hsz. specialize (Hsz i Hi). rewrite Hnth in Hsz.
    unfold fuaMax, FU_A_HEADER_SIZE in *.
    destruct (Z.ltb_spec 0 (((blen d - NAL_HEADER_SIZE))
                mod ceilDiv (blen d - NAL_HEADER_SIZE) (maxPacketSize this - 2)));
      destruct (Z.ltb_spec (Z.of_nat i) (((blen d - NAL_HEADER_SIZE))
                mod ceilDiv (blen d - NAL_HEADER_SIZE) (maxPacketSize this - 2))); lia.
Qed.

(** C6.  A whole NAL unit (its type is not 28) with [payloadSize =
    data.length - 1 >= 1] payload bytes, fragmented with [fuaMax >= 1],
    gives exactly [numPackets = ceil(payloadSize / fuaMax)] fragments, that
    is the least number of packets of [fuaMax] bytes that hold the payload.
    With [chunk = floor(payloadSize / numPackets)] and [numLarger =
    payloadSize mod numPackets], the first [numLarger] fragments carry
    [chunk + 1] payload bytes after their two FU bytes and the others
    [chunk], so any two fragments differ by at most one byte. *)
Theorem packetizeFuA_chunk_sizes (this : H264Repacketizer) (data : Buffer)
    (noStart noEnd : bool) :
  byteAnd data 0 0x1f <> NAL_TYPE_FU_A ->
  1 <= blen data - 1 ->
  1 <= fuaMax this ->
  let payloadSize := blen data - 1 in
  let numPackets := ceilDiv payloadSize (fuaMax this) in
  let chunk := payloadSize / numPackets in
  let numLarger := payloadSize mod numPackets in
  (numPackets - 1) * fuaMax this < payloadSize <= numPackets * fuaMax this /\
  exists fragments,
    packetizeFuA this data noStart noEnd = Ok fragments /\
    Z.of_nat (length fragments) = numPackets /\
    (forall i, (i < length fragments)%nat ->
       blen (nth i fragments []) =
       FU_A_HEADER_SIZE + if Z.of_nat i <? numLarger then chunk + 1 else chunk) /\
    (forall i j, (i < length fragments)%nat -> (j < length fragments)%nat ->
       Z.abs (blen (nth i fragments []) - blen (nth j fragments [])) <= 1).
Proof.
  intros Htype Hp Hf payloadSize numPackets chunk numLarger.
  split; [apply ceilDiv_bounds; lia|].
  pose proof (fuaNormalize_whole data noStart noEnd Htype) as Hnorm.
  destruct (packetizeFuA_normalized this data noStart noEnd _ _ _ Hnorm Hf Hp)
    as (fragments & Hok & Hlen & Hsz & _).
  assert (Hn : 1 <= numPackets)
    by (destruct (fua_sizes _ _ Hp Hf) as (Hn & _); exact (proj1 Hn)).
  change (length fragments = Z.to_nat numPackets) in Hlen.
  change (forall i, (i < Z.to_nat numPackets)%nat ->
            blen (nth i fragments []) - FU_A_HEADER_SIZE =
            if Z.of_nat i <? numLarger then chunk + 1 else chunk) in Hsz.
  assert (Hsz' : forall i, (i < length fragments)%nat ->
            blen (nth i fragments []) =
            FU_A_HEADER_SIZE + if Z.of_nat i <? numLarger then chunk + 1 else chunk).
  { intros i Hi. rewrite <- Hlen in Hsz. specialize (Hsz i Hi). lia. }
  exists fragments. repeat split.
  - exact Hok.
  - rewrite Hlen. apply Z2Nat.id. lia.
  - exact Hsz'.
  - intros i j Hi Hj. rewrite (Hsz' i Hi), (Hsz' j Hj).
    destruct (Z.of_nat i <? numLarger); destruct (Z.of_nat j <? numLarger); lia.
Qed.

(** An instance of C6: five payload bytes cut for [fuaMax = 2]. *)
Lemma packetizeFuA_chunk_sizes_witness :
  exists fragments,
    packetizeFuA (new 4 (mkCodec None None)) [0x65; 1; 2; 3; 4; 5] false false
    = Ok fragments /\
    Z.of_nat (length fragments) = 3 /\
    blen (nth 0 fragments []) = 4 /\
    blen (nth 2 fragments []) = 3.
Proof.
  destruct (packetizeFuA_chunk_sizes (new 4 (mkCodec None None))
              [0x65; 1; 2; 3; 4; 5] false false)
    as (_ & fragments & Hok & Hlen & Hsz & _).
  - vm_compute. lia.
  - unfold blen. simpl. lia.
  - unfold fuaMax, FU_A_HEADER_SIZE. simpl. lia.
  - exists fragments. split; [exact Hok|]. split; [exact Hlen|].
    assert (Hlen3 : Z.of_nat (length fragments) = 3) by exact Hlen.
    assert (H3 : length fragments = 3%nat) by lia.
    split.
    + apply (Hsz 0%nat). rewrite H3. lia.
    + apply (Hsz 2%nat). rewrite H3. lia.
Defined.

(** C5.  [packetizeFuA(data, false, false)] of a whole NAL unit that fits
    one fragment: the only fragment is both the first and the last, and the
    end header replaces the start header, so the fragment that opens the NAL
    unit carries the end bit (0x40) and not the start bit (0x80).  The call
    is reached through [repacketize] when a start and an end fragment that
    together fit one packet are refragmented. *)
Theorem packetizeFuA_single_fragment_start_bit :
  packetizeFuA (new 1200 (mkCodec None None)) [0x65; 0xAA] false false
  = Ok [[0x7C; 0x45; 0xAA]] /\
  Z.land 0x45 0x80 = 0 /\
  Z.land 0x45 0x40 = 0x40 /\
  repacketizeAll (new 1200 (mkCodec None None))
    [mkPacket (mkHeader 10 false 100) [0x7C; 0x85; 1; 2; 3];
     mkPacket (mkHeader 11 true 100) [0x7C; 0x45; 4; 5; 6]]
  = Ok (setExtraPackets (new 1200 (mkCodec None None)) (-1),
        [mkPacket (mkHeader 10 true 100) [0x7C; 0x45; 1; 2; 3; 4; 5; 6]]).
Proof. vm_compute. repeat split. Qed.

Lemma fuaNormalize_blen (data : Buffer) (noStart noEnd : bool) :
  blen (fst (fst (fuaNormalize data noStart noEnd))) =
  if byteAnd data 0 0x1f =? NAL_TYPE_FU_A
  then 1 + Z.max 0 (blen data - FU_A_HEADER_SIZE)
  else blen data.
Proof.
  unfold fuaNormalize.
  destruct (byteAnd data 0 0x1f =? NAL_TYPE_FU_A); [|reflexivity].
  destruct (negb (byteAnd data 1 0x80 =? 0));
    [|destruct (negb (byteAnd data 1 0x40 =? 0))];
    simpl fst; rewrite blen_cons, blen_subarrayFrom;
    unfold FU_A_HEADER_SIZE; lia.
Qed.

Lemma packetizeFuA_header_only (this : H264Repacketizer) (data : Buffer)
    (noStart noEnd : bool) :
  length data = 1%nat -> packetizeFuA this data noStart noEnd = Ok [].
Proof.
  intros H. apply packetizeFuA_no_payload.
  rewrite fuaNormalize_blen. unfold blen. rewrite H.
  unfold FU_A_HEADER_SIZE, NAL_HEADER_SIZE.
  destruct (byteAnd data 0 0x1f =? NAL_TYPE_FU_A); simpl; lia.
Qed.

Lemma concat_no_payload (pending : list RtpPacket) :
  Forall (fun p => subarrayFrom (payload p) FU_A_HEADER_SIZE = []) pending ->
  concat (map (fun packet => subarrayFrom (payload packet) FU_A_HEADER_SIZE) pending) = [].
Proof.
  induction 1 as [|p ps Hp _ IH]; simpl; [reflexivity|].
  rewrite Hp, IH. reflexivity.
Qed.

Lemma createRtpPackets_nil (this : H264Repacketizer) (packet : RtpPacket)
    (ret : list Serialized) (hadMarker : bool) :
  createRtpPackets this packet [] ret hadMarker = Ok (this, ret).
Proof. reflexivity. Qed.

(** C10.  A buffer of exactly one byte (a NAL header with no payload) is
    fragmented into the empty list, without an exception.  Hence flushing a
    pending FU-A group that passes the group checks and whose fragments all
    have nothing after their two FU bytes emits no packet, and still
    lowers [extraPackets] by the size of the group minus one. *)
Theorem packetizeFuA_header_only_flush (this : H264Repacketizer) :
  (forall data noStart noEnd,
     length data = 1%nat -> packetizeFuA this data noStart noEnd = Ok []) /\
  (forall first rest ret,
     pendingFuA this = Some (first :: rest) ->
     Forall (fun p => subarrayFrom (payload p) FU_A_HEADER_SIZE = []) (first :: rest) ->
     fuaGroupCheck (byteAnd (payload first) 1 0x1f) None (first :: rest) = true ->
     flushPendingFuA this ret =
     Ok (setPendingFuA
           (setExtraPackets this
              (extraPackets this - (Z.of_nat (length (first :: rest)) - 1)))
           None,
         ret)).
Proof.
  split.
  - intros data noStart noEnd H. apply packetizeFuA_header_only. exact H.
  - intros first rest ret Hpending Hempty Hcheck.
    unfold flushPendingFuA. rewrite Hpending, Hcheck. simpl negb. cbv iota.
    unfold defragment. rewrite concat_cons, (concat_no_payload _ Hempty).
    rewrite packetizeFuA_header_only by reflexivity.
    reflexivity.
Qed.

(** An instance of C10: a start and an end fragment of two bytes each. *)
Lemma packetizeFuA_header_only_flush_witness :
  packetizeFuA (new 1200 (mkCodec None None)) [0x65] false false = Ok [] /\
  flushPendingFuA
    (setPendingFuA (new 1200 (mkCodec None None))
       (Some [mkPacket (mkHeader 7 false 90) [0x7C; 0x85];
              mkPacket (mkHeader 8 true 90) [0x7C; 0x45]]))
    []
  = Ok (setExtraPackets (new 1200 (mkCodec None None)) (-1), []).
Proof.
  split.
  - apply (proj1 (packetizeFuA_header_only_flush (new 1200 (mkCodec None None)))).
    reflexivity.
  - apply (proj2 (packetizeFuA_header_only_flush
                    (setPendingFuA (new 1200 (mkCodec None None))
                       (Some [mkPacket (mkHeader 7 false 90) [0x7C; 0x85];
                              mkPacket (mkHeader 8 true 90) [0x7C; 0x45]])))
             (mkPacket (mkHeader 7 false 90) [0x7C; 0x85])
             [mkPacket (mkHeader 8 true 90) [0x7C; 0x45]] []).
    + reflexivity.
    + repeat constructor.
    + reflexivity.
Defined.

(** C10, as stated, at a group of two fragments without payload whose
    sequence numbers 7 and 9 are not contiguous: the flush discards the group,
    emits nothing and leaves [extraPackets] at 0, where the claim asks for
    a decrement by the group size minus one. *)
Lemma flushPendingFuA_header_only_discarded :
  Forall (fun p => subarrayFrom (payload p) FU_A_HEADER_SIZE = [])
    [mkPacket (mkHeader 7 false 90) [0x7C; 0x85];
     mkPacket (mkHeader 9 true 90) [0x7C; 0x45]] /\
  flushPendingFuA
    (setPendingFuA (new 1200 (mkCodec None None))
       (Some [mkPacket (mkHeader 7 false 90) [0x7C; 0x85];
              mkPacket (mkHeader 9 true 90) [0x7C; 0x45]]))
    []
  = Ok (new 1200 (mkCodec None None), []) /\
  extraPackets (new 1200 (mkCodec None None)) = 0 /\
  Z.of_nat (length [mkPacket (mkHeader 7 false 90) [0x7C; 0x85];
                    mkPacket (mkHeader 9 true 90) [0x7C; 0x45]]) - 1 = 1.
Proof. repeat split; repeat constructor. Qed.

(** ** The aggregation loop *)

Lemma writeUInt16BE_ok (v : Z) :
  0 <= v <= 65535 -> writeUInt16BE v = Ok [Z.shiftr v 8; Z.land v 255].
Proof.
  intros H. unfold writeUInt16BE.
  destruct (Z.leb_spec 0 v); destruct (Z.leb_spec v 65535); try lia. reflexivity.
Qed.

Lemma uint16_bytes (v : Z) : Z.shiftr v 8 * 256 + Z.land v 255 = v.
Proof.
  rewrite Z.shiftr_div_pow2 by lia.
  change 255 with (Z.ones 8). rewrite Z.land_ones by lia.
  change (2 ^ 8) with 256.
  pose proof (Z.div_mod v 256 ltac:(lia)). lia.
Qed.

(** The type bits of the STAP-A header stay 24 whatever is packed. *)
Lemma stapHeader_step (h x : Z) :
  Z.land h 0x1F = NAL_TYPE_STAP_A ->
  let h1 := Z.lor h (Z.land x 0x80) in
  let nri := Z.land x 0x60 in
  Z.land (if Z.land h1 0x60 <? nri then Z.lor (Z.land h1 0x9F) nri else h1) 0x1F
  = NAL_TYPE_STAP_A.
Proof.
  intros Hh h1 nri.
  assert (H1 : Z.land h1 0x1F = NAL_TYPE_STAP_A).
  { subst h1. rewrite Z.land_lor_distr_l, Hh.
    rewrite land_land_disjoint by reflexivity. apply Z.lor_0_r. }
  destruct (Z.land h1 0x60 <? nri); [|exact H1].
  rewrite Z.land_lor_distr_l. subst nri.
  rewrite (land_land_disjoint x 0x60 0x1F) by reflexivity.
  rewrite Z.lor_0_r, <- Z.land_assoc.
  change (Z.land 0x9F 0x1F) with 0x1F. exact H1.
Qed.

Lemma stapLoop_header (datas : list Buffer) :
  forall availableSize counter stapHeader l,
    stapLoop datas availableSize counter stapHeader = Ok l ->
    Z.land stapHeader 0x1F = NAL_TYPE_STAP_A ->
    Z.land (loopHeader l) 0x1F = NAL_TYPE_STAP_A.
Proof.
  induction datas as [|nalu rest IH]; intros availableSize counter stapHeader l Hl Hh.
  - simpl in Hl. injection Hl as <-. exact Hh.
  - simpl in Hl.
    destruct ((blen nalu + LENGTH_FIELD_SIZE <=? availableSize) && (counter <? 9)).
    + destruct (writeUInt16BE (blen nalu)) as [packed|e]; [|discriminate].
      simpl bind in Hl.
      match type of Hl with
      | bind (stapLoop rest ?a ?c ?h) _ = _ =>
        destruct (stapLoop rest a c h) as [l'|e] eqn:Hrec; [|discriminate];
        assert (Hh' : Z.land h 0x1F = NAL_TYPE_STAP_A)
          by (apply stapHeader_step; exact Hh)
      end.
      simpl in Hl. injection Hl as <-. simpl.
      eapply IH; [exact Hrec|exact Hh'].
    + injection Hl as <-. exact Hh.
Qed.

(** The counter never decreases, and it moves when the front NAL is taken. *)
Lemma stapLoop_counter (datas : list Buffer) :
  forall availableSize counter stapHeader l,
    stapLoop datas availableSize counter stapHeader = Ok l ->
    counter <= loopCounter l.
Proof.
  induction datas as [|nalu rest IH]; intros availableSize counter stapHeader l Hl.
  - simpl in Hl. injection Hl as <-. simpl. lia.
  - simpl in Hl.
    destruct ((blen nalu + LENGTH_FIELD_SIZE <=? availableSize) && (counter <? 9)).
    + destruct (writeUInt16BE (blen nalu)) as [packed|e]; [|discriminate].
      simpl bind in Hl.
      match type of Hl with
      | bind (stapLoop rest ?a ?c ?h) _ = _ =>
        destruct (stapLoop rest a c h) as [l'|e] eqn:Hrec; [|discriminate]
      end.
      simpl in Hl. injection Hl as <-. simpl.
      apply IH in Hrec. lia.
    + injection Hl as <-. simpl. lia.
Qed.

(** When no NAL of the queue overflows the 16-bit length field, the loop
    returns. *)
Lemma stapLoop_returns (datas : list Buffer) :
  Forall (fun n => blen n <= 65535) datas ->
  forall availableSize counter stapHeader,
    exists l, stapLoop datas availableSize counter stapHeader = Ok l.
Proof.
  induction 1 as [|nalu rest Hn _ IH]; intros availableSize counter stapHeader.
  - eexists. reflexivity.
  - simpl.
    destruct ((blen nalu + LENGTH_FIELD_SIZE <=? availableSize) && (counter <? 9)).
    + rewrite writeUInt16BE_ok by (pose proof (blen_nonneg nalu); lia).
      simpl bind.
      match goal with
      | |- exists _, bind (stapLoop rest ?a ?c ?h) _ = _ =>
        destruct (IH a c h) as (l' & Hl')
      end.
      rewrite Hl'. eexists. reflexivity.
    + eexists. reflexivity.
Qed.




(** ** STAP-A round trip *)

Lemma subarray_app_mid (a b c : Buffer) :
  subarray (a ++ b ++ c) (blen a) (blen a + blen b) = b.
Proof.
  rewrite subarray_inside.
  - unfold blen. rewrite Nat2Z.id.
    rewrite skipn_app, skipn_all, Nat.sub_diag. simpl.
    replace (Z.to_nat (Z.of_nat (length a) + Z.of_nat (length b) - Z.of_nat (length a)))
      with (length b) by lia.
    rewrite firstn_app, firstn_all, Nat.sub_diag. simpl. apply app_nil_r.
  - pose proof (blen_nonneg a). pose proof (blen_nonneg b). lia.
  - rewrite !blen_app. pose proof (blen_nonneg c). lia.
Qed.

Lemma subarrayFrom_app (a b : Buffer) : subarrayFrom (a ++ b) (blen a) = b.
Proof.
  rewrite subarrayFrom_inside.
  - unfold blen. rewrite Nat2Z.id, skipn_app, skipn_all, Nat.sub_diag. reflexivity.
  - rewrite blen_app. pose proof (blen_nonneg a). pose proof (blen_nonneg b). lia.
Qed.

Lemma readUInt16BE_app (a rest : Buffer) (v : Z) :
  readUInt16BE (a ++ Z.shiftr v 8 :: Z.land v 255 :: rest) (blen a) = Ok v.
Proof.
  unfold readUInt16BE.
  pose proof (blen_nonneg a) as Ha. pose proof (blen_nonneg rest) as Hr.
  destruct (Z.leb_spec 0 (blen a)); [|lia].
  destruct (Z.leb_spec (blen a + 2)
              (blen (a ++ Z.shiftr v 8 :: Z.land v 255 :: rest))) as [_|Hlt].
  - simpl andb. cbv iota. f_equal. unfold blen. rewrite Nat2Z.id.
    rewrite !app_nth2 by lia.
    rewrite Nat.sub_diag. replace (length a + 1 - length a)%nat with 1%nat by lia.
    simpl nth. apply uint16_bytes.
  - rewrite blen_app, !blen_cons in Hlt. lia.
Qed.

Lemma depacketizeLoop_step (fuel : nat) (data : Buffer) (lastPos : option Z) (pos : Z)
    (ret : list Buffer) :
  (pos <? blen data) = true ->
  depacketizeLoop (S fuel) data lastPos pos ret =
  (naluSize <- readUInt16BE data pos ;;
   depacketizeLoop fuel data (Some (pos + LENGTH_FIELD_SIZE))
     (pos + LENGTH_FIELD_SIZE + naluSize)
     (match lastPos with
      | Some l => ret ++ [subarray data l pos]
      | None => ret
      end)).
Proof. intros H. simpl. rewrite H. reflexivity. Qed.

Lemma depacketizeLoop_done (fuel : nat) (data : Buffer) (lastPos : option Z) (pos : Z)
    (ret : list Buffer) :
  (pos <? blen data) = false ->
  depacketizeLoop fuel data lastPos pos ret =
  Ok (ret ++ [match lastPos with
              | Some l => subarrayFrom data l
              | None => data
              end]).
Proof. intros H. destruct fuel; simpl; rewrite H; reflexivity. Qed.

(** The loop of [depacketizeStapA] once a NAL [prev] has been read and the
    framed NALs [datas] follow it. *)
Lemma depacketizeLoop_framed (datas : list Buffer) :
  forall (fuel : nat) (before prev : Buffer) (ret : list Buffer),
    (length datas <= fuel)%nat ->
    depacketizeLoop fuel (before ++ prev ++ concat (stapFramed datas))
      (Some (blen before)) (blen before + blen prev) ret
    = Ok (ret ++ prev :: datas).
Proof.
  induction datas as [|nalu rest IH]; intros fuel before prev ret Hfuel.
  - simpl concat. rewrite app_nil_r.
    rewrite depacketizeLoop_done, subarrayFrom_app; [reflexivity|].
    apply Z.ltb_ge. rewrite blen_app. lia.
  - destruct fuel as [|fuel]; [simpl in Hfuel; lia|].
    set (hi := Z.shiftr (blen nalu) 8). set (lo := Z.land (blen nalu) 255).
    set (tail := concat (stapFramed rest)).
    assert (Hdata : before ++ prev ++ concat (stapFramed (nalu :: rest))
                    = (before ++ prev) ++ hi :: lo :: (nalu ++ tail))
      by (rewrite <- app_assoc; reflexivity).
    assert (Hdata' : (before ++ prev) ++ hi :: lo :: (nalu ++ tail)
                     = (before ++ prev ++ [hi; lo]) ++ nalu ++ tail)
      by (rewrite <- !app_assoc; reflexivity).
    pose proof (blen_nonneg nalu) as Hn. pose proof (blen_nonneg tail) as Ht.
    rewrite depacketizeLoop_step.
    2:{ apply Z.ltb_lt. rewrite Hdata, !blen_app, !blen_cons, blen_app. lia. }
    rewrite subarray_app_mid.
    assert (Hread : readUInt16BE ((before ++ prev) ++ hi :: lo :: (nalu ++ tail))
                      (blen (before ++ prev)) = Ok (blen nalu))
      by apply readUInt16BE_app.
    rewrite Hdata, <- blen_app, Hread. simpl bind. rewrite Hdata'.
    replace (blen (before ++ prev) + LENGTH_FIELD_SIZE)
      with (blen (before ++ prev ++ [hi; lo]))
      by (rewrite !blen_app; change (blen [hi; lo]) with 2;
          unfold LENGTH_FIELD_SIZE; lia).
    subst tail. rewrite IH by (simpl in Hfuel; lia).
    rewrite <- app_assoc. reflexivity.
Qed.

(** When every NAL passes the admission test and the cap of 9 is not
    reached, the loop takes the whole queue. *)
Lemma stapLoop_takes_all (datas : list Buffer) :
  forall availableSize counter stapHeader,
    stapFits availableSize datas = true ->
    counter + Z.of_nat (length datas) <= 9 ->
    Forall (fun n => blen n <= 65535) datas ->
    exists stapHeader',
      stapLoop datas availableSize counter stapHeader
      = Ok (mkStapLoop stapHeader' (counter + Z.of_nat (length datas))
              (stapFramed datas) []).
Proof.
  induction datas as [|nalu rest IH]; intros availableSize counter stapHeader Hfit Hcap Hsmall.
  - exists stapHeader. simpl. rewrite Z.add_0_r. reflexivity.
  - simpl in Hfit. apply andb_prop in Hfit as [Hfit Hrest].
    inversion Hsmall as [|? ? Hn Hsmall']; subst.
    simpl stapLoop. rewrite Hfit.
    assert (Hc : (counter <? 9) = true)
      by (apply Z.ltb_lt; simpl length in Hcap; lia).
    rewrite Hc. simpl andb. cbv iota.
    rewrite writeUInt16BE_ok by (pose proof (blen_nonneg nalu); lia).
    simpl bind.
    match goal with
    | |- exists _, bind (stapLoop rest ?a ?c ?h) _ = _ =>
      destruct (IH a c h Hrest ltac:(simpl length in Hcap; lia) Hsmall') as (h' & Hh')
    end.
    exists h'. rewrite Hh'. simpl. do 2 f_equal.
    simpl length. lia.
Qed.

(** C7.  A non-empty queue of at most 9 NALs, each passing the admission
    test against the budget that starts at [maxPacketSize - 3] and loses
    [2 + |nal|] per NAL, and each at most 65535 bytes long, is taken whole
    by [packetizeOneStapA], and [depacketizeStapA] of the packet gives the
    queue back. *)
Theorem stapA_round_trip (this : H264Repacketizer) (datas : list Buffer) :
  datas <> [] ->
  (length datas <= 9)%nat ->
  stapFits (maxPacketSize this - STAP_A_HEADER_SIZE) datas = true ->
  Forall (fun n => blen n <= 65535) datas ->
  exists packet,
    packetizeOneStapA this datas = Ok (packet, []) /\
    depacketizeStapA packet = Ok datas.
Proof.
  intros Hne Hcap Hfit Hsmall.
  destruct datas as [|first rest]; [contradiction|].
  destruct (stapLoop_takes_all (first :: rest) (maxPacketSize this - STAP_A_HEADER_SIZE) 0
              (Z.lor NAL_TYPE_STAP_A (byteAnd first 0 0xE0)) Hfit ltac:(lia) Hsmall)
    as (h & Hloop).
  unfold packetizeOneStapA. rewrite Hloop.
  cbv beta iota delta [bind loopCounter loopHeader loopPayload loopDatas].
  assert (Hc : (0 + Z.of_nat (length (first :: rest)) =? 0) = false)
    by (apply Z.eqb_neq; simpl length; lia).
  rewrite Hc.
  eexists. split; [reflexivity|].
  set (hi := Z.shiftr (blen first) 8). set (lo := Z.land (blen first) 255).
  set (tail := concat (stapFramed rest)).
  assert (Hpacket : concat ([h] :: stapFramed (first :: rest))
                    = [h] ++ hi :: lo :: (first ++ tail)) by reflexivity.
  assert (Hpacket' : [h] ++ hi :: lo :: (first ++ tail)
                     = [h; hi; lo] ++ first ++ tail) by reflexivity.
  pose proof (blen_nonneg first) as Hf. pose proof (blen_nonneg tail) as Ht.
  unfold depacketizeStapA. rewrite Hpacket.
  assert (Hlen : length ([h] ++ hi :: lo :: first ++ tail)
                 = S (S (S (length (first ++ tail))))) by reflexivity.
  rewrite Hlen. change NAL_HEADER_SIZE with (blen [h]).
  rewrite depacketizeLoop_step.
  2:{ apply Z.ltb_lt. rewrite blen_app, !blen_cons. pose proof (blen_nonneg (first ++ tail)). 
      change (blen [h]) with 1. lia. }
  assert (Hread : readUInt16BE ([h] ++ hi :: lo :: (first ++ tail)) (blen [h])
                  = Ok (blen first)) by apply readUInt16BE_app.
  rewrite Hread. cbv beta iota delta [bind]. rewrite Hpacket'.
  change (blen [h] + LENGTH_FIELD_SIZE) with (blen [h; hi; lo]).
  subst tail. rewrite depacketizeLoop_framed; [reflexivity|].
  rewrite length_app.
  assert (Hframed : forall ds : list Buffer,
            (length ds <= length (concat (stapFramed ds)))%nat).
  { induction ds as [|d ds IHds]; simpl; [lia|].
    rewrite length_app. lia. }
  specialize (Hframed rest). lia.
Qed.

(** An instance of C7: an SPS and a PPS aggregated for [maxPacketSize =
    1200] and taken apart again. *)
Lemma stapA_round_trip_witness :
  exists packet,
    packetizeOneStapA (new 1200 (mkCodec None None)) [[0x67; 1; 2]; [0x68; 3]]
    = Ok (packet, []) /\
    depacketizeStapA packet = Ok [[0x67; 1; 2]; [0x68; 3]].
Proof.
  apply (stapA_round_trip (new 1200 (mkCodec None None)) [[0x67; 1; 2]; [0x68; 3]]).
  - intros H. discriminate H.
  - simpl. lia.
  - vm_compute. reflexivity.
  - repeat constructor; vm_compute; intros H; discriminate H.
Defined.

(** C7, as stated, at a queue of one NAL of 65536 bytes that fits the
    budget of [maxPacketSize = 70000]: [packetizeOneStapA] throws, so there
    is no packet to take apart. *)
Lemma stapA_round_trip_overlong :
  overlongNal <> [] /\
  [overlongNal] <> [] /\
  (length [overlongNal] <= 9)%nat /\
  stapFits (maxPacketSize (new 70000 (mkCodec None None)) - STAP_A_HEADER_SIZE)
    [overlongNal] = true /\
  packetizeOneStapA (new 70000 (mkCodec None None)) [overlongNal] = Throw RangeError.
Proof.
  repeat split; try (intros H; discriminate H); try (simpl; lia);
    vm_compute; reflexivity.
Qed.

(** ** Sequence numbers *)

(** An SEI that arrives while nothing is pending is dropped: nothing is
    emitted and [extraPackets] goes down by one. *)
Lemma repacketize_sei (this : H264Repacketizer) (packet : RtpPacket) :
  pendingFuA this = None ->
  pendingStapA this = None ->
  byteAnd (payload packet) 0 0x1F = NAL_TYPE_SEI ->
  repacketize this packet = Ok (setExtraPackets this (extraPackets this - 1), []).
Proof.
  intros Hf Hs Ht.
  unfold repacketize, flushFuAOnTimestamp, flushStapAOnTimestamp.
  rewrite Hf. simpl bind. rewrite Hs. simpl bind. rewrite Ht. simpl.
  unfold repacketizeSingle, flushPendingFuA, flushPendingStapA.
  rewrite Hf. simpl. rewrite Hs. reflexivity.
Qed.

Lemma repacketizeAll_sei (packets : list RtpPacket) :
  forall (this : H264Repacketizer) (rest : list RtpPacket),
    Forall (fun p => byteAnd (payload p) 0 0x1F = NAL_TYPE_SEI) packets ->
    pendingFuA this = None ->
    pendingStapA this = None ->
    repacketizeAll this (packets ++ rest) =
    repacketizeAll
      (setExtraPackets this (extraPackets this - Z.of_nat (length packets))) rest.
Proof.
  induction packets as [|p ps IH]; intros this rest Hsei Hf Hs.
  - simpl. rewrite Z.sub_0_r. destruct this; reflexivity.
  - inversion Hsei as [|? ? Hp Hps]; subst.
    change ((p :: ps) ++ rest) with (p :: (ps ++ rest)).
    cbn [repacketizeAll]. rewrite (repacketize_sei this p Hf Hs Hp).
    cbv beta iota delta [bind].
    rewrite IH by assumption.
    replace (setExtraPackets (setExtraPackets this (extraPackets this - 1))
               (extraPackets (setExtraPackets this (extraPackets this - 1))
                - Z.of_nat (length ps)))
      with (setExtraPackets this (extraPackets this - Z.of_nat (length (p :: ps)))).
    + destruct (repacketizeAll _ rest) as [[this' outs]|e]; reflexivity.
    + unfold setExtraPackets. simpl. f_equal. lia.
Qed.

Lemma repacketizeAll_sei_only (packets : list RtpPacket) (this : H264Repacketizer) :
  Forall (fun p => byteAnd (payload p) 0 0x1F = NAL_TYPE_SEI) packets ->
  pendingFuA this = None ->
  pendingStapA this = None ->
  repacketizeAll this packets
  = Ok (setExtraPackets this (extraPackets this - Z.of_nat (length packets)), []).
Proof.
  intros Hsei Hf Hs.
  rewrite <- (app_nil_r packets) at 1.
  rewrite repacketizeAll_sei by assumption. reflexivity.
Qed.

Lemma seiStream_sei (n : nat) :
  Forall (fun p => byteAnd (payload p) 0 0x1F = NAL_TYPE_SEI) (seiStream n).
Proof.
  unfold seiStream. apply Forall_forall. intros p Hin.
  apply in_map_iff in Hin as (i & <- & _). reflexivity.
Qed.

(** C2.  After 65537 dropped SEI packets [extraPackets] is -65537.  For
    the next packet, whose sequence number is 0, [createPacket] computes
    [(0 - 65537 + 0x10000) % 0x10000 = -1], the remainder taking the sign
    of the dividend, and serializing that number throws a [RangeError]:
    the call emits nothing.  The claim asks for a packet numbered
    [(0 - 65537) mod 2^16 = 65535]. *)
Theorem createPacket_sequence_below_zero :
  repacketizeAll (new 1200 (mkCodec None None)) (seiStream (Z.to_nat 65537))
  = Ok (setExtraPackets (new 1200 (mkCodec None None)) (-65537), []) /\
  repacketizeAll (new 1200 (mkCodec None None))
    (seiStream (Z.to_nat 65537) ++ [mkPacket (mkHeader 0 true 65537) [0x61; 1]])
  = Throw RangeError /\
  createPacket (setExtraPackets (new 1200 (mkCodec None None)) (-65537))
    (mkPacket (mkHeader 0 true 65537) [0x61; 1]) [0x61; 1] true
  = Throw RangeError /\
  Z.rem (0 + -65537 + 0x10000) 0x10000 = -1 /\
  (0 + -65537) mod 2 ^ 16 = 65535.
Proof.
  split; [|split; [|repeat split]].
  - rewrite repacketizeAll_sei_only; [|apply seiStream_sei|reflexivity|reflexivity].
    unfold seiStream. rewrite length_map, length_seq. vm_compute. reflexivity.
  - rewrite repacketizeAll_sei; [|apply seiStream_sei|reflexivity|reflexivity].
    unfold seiStream. rewrite length_map, length_seq.
    vm_compute. reflexivity.
Qed.

(** [createPacket] returns exactly when the remainder it computes is not
    negative, and then returns the template with that number, the marker
    and the payload it was given. *)
Lemma createPacket_Ok (this : H264Repacketizer) (rtp : RtpPacket) (data : Buffer)
    (marker : bool) (s : Serialized) :
  createPacket this rtp data marker = Ok s ->
  0 <= Z.rem (sequenceNumber (header rtp) + extraPackets this + 0x10000) 0x10000 /\
  s = mkPacket
        (mkHeader
           (Z.rem (sequenceNumber (header rtp) + extraPackets this + 0x10000) 0x10000)
           marker (timestamp (header rtp)))
        data.
Proof.
  unfold createPacket, serialize. cbn [header sequenceNumber].
  destruct (0 <=? Z.rem _ _) eqn:E; cbn [andb]; [|discriminate].
  destruct (Z.rem _ _ <=? 65535); [|discriminate].
  intros H. injection H as <-. split; [apply Z.leb_le; exact E|reflexivity].
Qed.

Lemma createPacket_fits (this : H264Repacketizer) (rtp : RtpPacket) (data : Buffer)
    (marker : bool) :
  0 <= sequenceNumber (header rtp) + extraPackets this + 0x10000 ->
  createPacket this rtp data marker
  = Ok (mkPacket
          (mkHeader
             (Z.rem (sequenceNumber (header rtp) + extraPackets this + 0x10000) 0x10000)
             marker (timestamp (header rtp)))
          data).
Proof.
  intros H. unfold createPacket, serialize. cbn [header sequenceNumber].
  pose proof (Z.rem_bound_pos
                (sequenceNumber (header rtp) + extraPackets this + 0x10000) 0x10000
                H ltac:(lia)) as B.
  replace (0 <=? Z.rem _ _) with true by (symmetry; apply Z.leb_le; lia).
  replace (Z.rem _ _ <=? 65535) with true by (symmetry; apply Z.leb_le; lia).
  reflexivity.
Qed.

(** When the sum is not below -65536 the packet is serialized, and the
    sequence number written is the sum modulo 2^16. *)
Lemma createPacket_sequence (this : H264Repacketizer) (rtp : RtpPacket) (data : Buffer)
    (marker : bool) :
  0 <= sequenceNumber (header rtp) + extraPackets this + 0x10000 ->
  exists s,
    createPacket this rtp data marker = Ok s /\
    sequenceNumber (header s)
    = (sequenceNumber (header rtp) + extraPackets this) mod 2 ^ 16 /\
    0 <= sequenceNumber (header s) < 2 ^ 16.
Proof.
  intros H. eexists. split; [apply createPacket_fits; exact H|].
  cbn [header sequenceNumber].
  rewrite Z.rem_mod_nonneg by lia.
  change 0x10000 with (1 * 2 ^ 16). rewrite Z.mod_add by lia.
  split; [reflexivity|]. apply Z.mod_pos_bound. lia.
Qed.

(** An instance: [extraPackets = -3] takes sequence number 1 back to
    65534. *)
Lemma createPacket_sequence_witness :
  exists s,
    createPacket (setExtraPackets (new 1200 (mkCodec None None)) (-3))
      (mkPacket (mkHeader 1 false 9) [0x61; 1]) [0x61; 1] false = Ok s /\
    sequenceNumber (header s) = (1 + -3) mod 2 ^ 16 /\
    0 <= sequenceNumber (header s) < 2 ^ 16.
Proof.
  apply (createPacket_sequence (setExtraPackets (new 1200 (mkCodec None None)) (-3))
           (mkPacket (mkHeader 1 false 9) [0x61; 1]) [0x61; 1] false).
  simpl. lia.
Defined.

(** ** Marker and SEI on the emitted packets *)

(** C3.  An IDR NAL with the marker bit set, fed to a fresh instance that
    has codec information: the synthesized STAP-A is emitted through
    [createRtpPackets] with the marker of the input packet, so both it and
    the IDR that follows carry the marker. *)
Theorem maybeSendSpsPps_marker :
  repacketize (new 1200 (mkCodec (Some [0x67; 1; 2]) (Some [0x68; 3])))
    (mkPacket (mkHeader 10 true 100) [0x65; 1; 2; 3])
  = Ok (setExtraPackets (new 1200 (mkCodec (Some [0x67; 1; 2]) (Some [0x68; 3]))) 1,
        [mkPacket (mkHeader 10 true 100) [0x78; 0; 3; 0x67; 1; 2; 0; 2; 0x68; 3];
         mkPacket (mkHeader 11 true 100) [0x65; 1; 2; 3]]).
Proof. vm_compute. reflexivity. Qed.

(** C8.  An FU-A packet of at least twice [maxPacketSize] whose FU header
    names NAL type 6 (SEI) is refragmented and emitted: every emitted
    fragment carries type 6 in its FU header. *)
Theorem repacketize_fua_sei_emitted :
  exists this' out,
    repacketize (new 4 (mkCodec None None))
      (mkPacket (mkHeader 10 true 100) [0x7C; 0x86; 1; 2; 3; 4; 5; 6])
    = Ok (this', out) /\
    map payload out = [[0x7C; 0x86; 1; 2]; [0x7C; 0x06; 3; 4]; [0x7C; 0x06; 5; 6]] /\
    map (fun s => byteAnd (payload s) 0 0x1F) out
    = [NAL_TYPE_FU_A; NAL_TYPE_FU_A; NAL_TYPE_FU_A] /\
    map (fun s => byteAnd (payload s) 1 0x1F) out
    = [NAL_TYPE_SEI; NAL_TYPE_SEI; NAL_TYPE_SEI].
Proof.
  eexists. eexists. split; [vm_compute; reflexivity|].
  repeat split.
Qed.

(** ** What the emitting helpers append to [ret] *)

Lemma sameButExtra_refl (this : H264Repacketizer) : sameButExtra this this.
Proof. repeat split. Qed.

Lemma sameButExtra_set (this : H264Repacketizer) (n : Z) :
  sameButExtra (setExtraPackets this n) this.
Proof. repeat split. Qed.

Lemma sameButExtra_trans (a b c : H264Repacketizer) :
  sameButExtra a b -> sameButExtra b c -> sameButExtra a c.
Proof.
  unfold sameButExtra. intros (?&?&?&?&?) (?&?&?&?&?).
  repeat split; congruence.
Qed.

(** [createRtpPackets] appends one packet per chunk, with the chunk as its
    payload, and counts every chunk but the first in [extraPackets]. *)
Lemma createRtpPacketsFrom_spec (nalus : list Buffer) :
  forall (index total : nat) (this : H264Repacketizer) (packet : RtpPacket)
         (ret : list Serialized) (hadMarker : bool)
         (this' : H264Repacketizer) (ret' : list Serialized),
    createRtpPacketsFrom index total this packet nalus ret hadMarker = Ok (this', ret') ->
    sameButExtra this' this /\
    extraPackets this'
    = extraPackets this
      + (if Nat.eqb index 0 then Z.max 0 (Z.of_nat (length nalus) - 1)
         else Z.of_nat (length nalus)) /\
    exists new, ret' = ret ++ new /\ map payload new = nalus.
Proof.
  induction nalus as [|n rest IH];
    intros index total this packet ret hadMarker this' ret' Hcall.
  - cbn [createRtpPacketsFrom] in Hcall. injection Hcall as <- <-.
    split; [apply sameButExtra_refl|]. split.
    + destruct (Nat.eqb index 0); simpl; lia.
    + exists []. rewrite app_nil_r. split; reflexivity.
  - cbn [createRtpPacketsFrom] in Hcall. cbv zeta in Hcall.
    set (this1 := if Nat.eqb index 0 then this
                  else setExtraPackets this (extraPackets this + 1)) in *.
    destruct (createPacket this1 packet n _) as [created|e] eqn:Hmade;
      cbv beta iota delta [bind] in Hcall; [|discriminate].
    apply createPacket_Ok in Hmade as [_ Hmade].
    destruct (IH _ _ _ _ _ _ _ _ Hcall) as (Hsame & Hextra & new & Hret & Hpay).
    assert (Hsame1 : sameButExtra this1 this)
      by (subst this1; destruct (Nat.eqb index 0);
          [apply sameButExtra_refl|apply sameButExtra_set]).
    split; [exact (sameButExtra_trans _ _ _ Hsame Hsame1)|]. split.
    + rewrite Hextra. simpl Nat.eqb. cbv iota. subst this1. simpl length.
      destruct (Nat.eqb index 0); simpl extraPackets; lia.
    + eexists. split.
      * rewrite Hret, <- app_assoc. reflexivity.
      * simpl. rewrite Hpay, Hmade. reflexivity.
Qed.

Lemma createRtpPackets_spec (this : H264Repacketizer) (packet : RtpPacket)
    (nalus : list Buffer) (ret : list Serialized) (hadMarker : bool)
    (this' : H264Repacketizer) (ret' : list Serialized) :
  createRtpPackets this packet nalus ret hadMarker = Ok (this', ret') ->
  sameButExtra this' this /\
  extraPackets this' = extraPackets this + Z.max 0 (Z.of_nat (length nalus) - 1) /\
  exists new, ret' = ret ++ new /\ map payload new = nalus.
Proof. apply (createRtpPacketsFrom_spec nalus 0). Qed.

Lemma stapAForEach_spec (aggregates : list Buffer) :
  forall (index total : nat) (this : H264Repacketizer) (first : RtpPacket)
         (ret : list Serialized) (hadMarker : bool) (ret' : list Serialized),
    stapAForEach index total this first aggregates ret hadMarker = Ok ret' ->
    exists new, ret' = ret ++ new /\ map payload new = aggregates.
Proof.
  induction aggregates as [|a rest IH];
    intros index total this first ret hadMarker ret' Hcall.
  - cbn [stapAForEach] in Hcall. injection Hcall as <-.
    exists []. rewrite app_nil_r. split; reflexivity.
  - cbn [stapAForEach] in Hcall. cbv zeta in Hcall.
    destruct (createPacket this first a _) as [created|e] eqn:Hmade;
      cbv beta iota delta [bind] in Hcall; [|discriminate].
    apply createPacket_Ok in Hmade as [_ Hmade].
    destruct (IH _ _ _ _ _ _ _ Hcall) as (new & Hret & Hpay).
    eexists. split.
    + rewrite Hret, <- app_assoc. reflexivity.
    + simpl. rewrite Hpay, Hmade. reflexivity.
Qed.

(** A bound on payloads passes from the chunks to the packets made of them. *)
Lemma Forall_payload (Q : Buffer -> Prop) (new : list Serialized) (nalus : list Buffer) :
  map payload new = nalus -> Forall Q nalus -> Forall (fun s => Q (payload s)) new.
Proof.
  intros <- H. rewrite Forall_map in H. exact H.
Qed.

(** ** Sizes of the aggregates *)

Lemma writeUInt16BE_blen (v : Z) (packed : Buffer) :
  writeUInt16BE v = Ok packed -> blen packed = LENGTH_FIELD_SIZE.
Proof.
  unfold writeUInt16BE.
  destruct ((0 <=? v) && (v <=? 65535)); [|discriminate].
  intros H. injection H as <-. reflexivity.
Qed.

Lemma stapLoop_cons (nalu : Buffer) (rest : list Buffer)
    (availableSize counter stapHeader : Z) :
  stapLoop (nalu :: rest) availableSize counter stapHeader =
  if (blen nalu + LENGTH_FIELD_SIZE <=? availableSize) && (counter <? 9) then
    packed <- writeUInt16BE (blen nalu) ;;
    l <- stapLoop rest (availableSize - (LENGTH_FIELD_SIZE + blen nalu)) (counter + 1)
           (if Z.land (Z.lor stapHeader (byteAnd nalu 0 0x80)) 0x60 <? byteAnd nalu 0 0x60
            then Z.lor (Z.land (Z.lor stapHeader (byteAnd nalu 0 0x80)) 0x9F)
                   (byteAnd nalu 0 0x60)
            else Z.lor stapHeader (byteAnd nalu 0 0x80)) ;;
    Ok (mkStapLoop (loopHeader l) (loopCounter l)
          (packed :: nalu :: loopPayload l) (loopDatas l))
  else Ok (mkStapLoop stapHeader counter [] (nalu :: rest)).
Proof. reflexivity. Qed.

(** What the loop packed fits the budget it started from, and what it
    left is the end of the queue; a counter that did not move means that
    nothing was taken. *)
Lemma stapLoop_spec (datas : list Buffer) :
  forall availableSize counter stapHeader l,
    stapLoop datas availableSize counter stapHeader = Ok l ->
    (loopPayload l <> [] -> blen (concat (loopPayload l)) <= availableSize) /\
    (exists taken, datas = taken ++ loopDatas l) /\
    (loopCounter l = counter -> loopDatas l = datas /\ loopPayload l = []) /\
    (loopCounter l = counter -> counter < 9 ->
     match datas with
     | [] => True
     | nalu :: _ => availableSize < blen nalu + LENGTH_FIELD_SIZE
     end).
Proof.
  induction datas as [|nalu rest IH]; intros availableSize counter stapHeader l Hl.
  - simpl in Hl. injection Hl as <-. simpl.
    repeat split; try reflexivity; try tauto. exists []. reflexivity.
  - rewrite stapLoop_cons in Hl.
    destruct (Z.leb_spec (blen nalu + LENGTH_FIELD_SIZE) availableSize) as [Hfit|Hno];
      destruct (Z.ltb_spec counter 9) as [Hc|Hc]; cbn [andb] in Hl;
      try (injection Hl as <-; cbn [loopPayload loopDatas loopCounter];
           repeat split; try reflexivity; try tauto; try lia;
           exists []; reflexivity).
    destruct (writeUInt16BE (blen nalu)) as [packed|e] eqn:Hw; [|discriminate].
    cbv beta iota delta [bind] in Hl.
    match type of Hl with
    | match stapLoop rest ?a ?c ?h with _ => _ end = _ =>
      destruct (stapLoop rest a c h) as [l'|e] eqn:Hrec; [|discriminate]
    end.
    injection Hl as <-. cbn [loopPayload loopDatas loopCounter].
    pose proof (stapLoop_counter _ _ _ _ _ Hrec) as Hcount.
    destruct (IH _ _ _ _ Hrec) as (Hsize & (taken & Htaken) & _ & _).
    apply writeUInt16BE_blen in Hw.
    repeat split; try lia.
    + intros _. rewrite !concat_cons, !blen_app, Hw.
      destruct (loopPayload l') as [|x xs] eqn:Hp.
      * simpl concat. change (blen []) with 0. lia.
      * specialize (Hsize ltac:(discriminate)). lia.
    + exists (nalu :: taken). rewrite Htaken. reflexivity.
Qed.

(** [packetizeOneStapA] returns either a packet that fits [maxPacketSize],
    or the front NAL of the queue, raw, when it alone fails the admission
    test; it always takes at least the front NAL off the queue. *)
Lemma packetizeOneStapA_spec (this : H264Repacketizer) (datas : list Buffer)
    (packet : Buffer) (remaining : list Buffer) :
  packetizeOneStapA this datas = Ok (packet, remaining) ->
  (exists taken, taken <> [] /\ datas = taken ++ remaining) /\
  (blen packet <= maxPacketSize this \/
   (datas = packet :: remaining /\ stapFallback (maxPacketSize this) packet)).
Proof.
  unfold packetizeOneStapA. destruct datas as [|first rest]; [discriminate|].
  set (availableSize := maxPacketSize this - STAP_A_HEADER_SIZE).
  set (stapHeader := Z.lor NAL_TYPE_STAP_A (byteAnd first 0 0xE0)).
  destruct (stapLoop (first :: rest) availableSize 0 stapHeader) as [l|e] eqn:Hl;
    [|discriminate].
  cbv beta iota delta [bind].
  destruct (stapLoop_spec _ _ _ _ _ Hl) as (Hsize & (taken & Htaken) & Hnone & Hfail).
  destruct (Z.eqb_spec (loopCounter l) 0) as [Hc|Hc].
  - destruct (Hnone Hc) as [Hdatas _]. specialize (Hfail Hc ltac:(lia)).
    rewrite Hdatas. intros H. injection H as <- <-. split.
    + exists [first]. split; [discriminate|reflexivity].
    + right. split; [reflexivity|exact Hfail].
  - intros H. injection H as <- <-. split.
    + exists taken. split; [|exact Htaken].
      intros ->. simpl in Htaken.
      assert (Hlen : length (loopDatas l) = length (first :: rest)) by congruence.
      (* nothing taken would leave the counter at 0 *)
      clear Hsize Hnone Hfail. simpl in Hl.
      destruct ((blen first + LENGTH_FIELD_SIZE <=? availableSize) && (0 <? 9)).
      * destruct (writeUInt16BE (blen first)) as [packed|e]; [|discriminate].
        simpl bind in Hl.
        match type of Hl with
        | bind (stapLoop rest ?a ?c ?h) _ = _ =>
          destruct (stapLoop rest a c h) as [l'|e] eqn:Hrec; [|discriminate]
        end.
        simpl in Hl. injection Hl as <-. simpl in Hlen.
        destruct (stapLoop_spec _ _ _ _ _ Hrec) as (_ & (taken' & Htaken') & _).
        apply (f_equal (@length Buffer)) in Htaken'. rewrite length_app in Htaken'.
        simpl in Hlen. lia.
      * injection Hl as <-. simpl in Hc. contradiction.
    + left. rewrite blen_cons.
      destruct (loopPayload l) as [|x xs] eqn:Hp.
      * simpl. change (blen []) with 0.
        (* an empty payload with a counter that moved cannot be *)
        exfalso. clear Hsize Hnone Hfail. simpl in Hl.
        destruct ((blen first + LENGTH_FIELD_SIZE <=? availableSize) && (0 <? 9)).
        -- destruct (writeUInt16BE (blen first)) as [packed|e]; [|discriminate].
           simpl bind in Hl.
           match type of Hl with
           | bind (stapLoop rest ?a ?c ?h) _ = _ =>
             destruct (stapLoop rest a c h) as [l'|e] eqn:Hrec; [|discriminate]
           end.
           simpl in Hl. injection Hl as <-. simpl in Hp. discriminate.
        -- injection Hl as <-. simpl in Hc. contradiction.
      * specialize (Hsize ltac:(discriminate)).
        subst availableSize. unfold STAP_A_HEADER_SIZE, NAL_HEADER_SIZE,
          LENGTH_FIELD_SIZE in Hsize. lia.
Qed.

(** Every packet of [packetizeStapA] fits, or is one of the queued NALs,
    raw; a queue that is not empty gives at least one packet. *)
Lemma packetizeStapALoop_spec (fuel : nat) (this : H264Repacketizer) :
  forall (datas aggregates : list Buffer),
    packetizeStapALoop fuel this datas = Ok aggregates ->
    (datas <> [] -> aggregates <> []) /\
    Forall (fun p => blen p <= maxPacketSize this \/
                     (In p datas /\ stapFallback (maxPacketSize this) p)) aggregates.
Proof.
  induction fuel as [|fuel IH]; intros datas aggregates H.
  - destruct datas; simpl in H; [|discriminate].
    injection H as <-. split; [tauto|constructor].
  - destruct datas as [|d ds]; cbn [packetizeStapALoop] in H.
    + injection H as <-. split; [tauto|constructor].
    + destruct (packetizeOneStapA this (d :: ds)) as [[packet remaining]|e] eqn:Hone;
        [|discriminate].
      cbv beta iota delta [bind] in H.
      destruct (packetizeStapALoop fuel this remaining) as [ret|e] eqn:Hrec;
        [|discriminate].
      injection H as <-.
      destruct (packetizeOneStapA_spec _ _ _ _ Hone) as ((taken & _ & Htaken) & Hsize).
      destruct (IH _ _ Hrec) as (_ & Hret).
      split; [discriminate|]. constructor.
      * destruct Hsize as [Hfit|[Hd Hfall]]; [left; exact Hfit|].
        right. split; [rewrite Hd; left; reflexivity|exact Hfall].
      * eapply Forall_impl; [|exact Hret].
        intros p [Hfit|[Hin Hfall]]; [left; exact Hfit|].
        right. split; [|exact Hfall].
        rewrite Htaken. apply in_or_app. right. exact Hin.
Qed.

(** When a queue of two NALs gives a single packet, the packet is an
    aggregate and fits. *)
Lemma packetizeStapA_pair (this : H264Repacketizer) (a b packet : Buffer) :
  packetizeStapA this [a; b] = Ok [packet] ->
  blen packet <= maxPacketSize this.
Proof.
  unfold packetizeStapA.
  remember (length [a; b]) as fuel eqn:Hfuel.
  destruct fuel as [|fuel]; [discriminate|]. clear Hfuel.
  cbn [packetizeStapALoop]. intros H.
  destruct (packetizeOneStapA this [a; b]) as [[p remaining]|e] eqn:Hone;
    cbv beta iota delta [bind] in H; [|discriminate].
  destruct (packetizeStapALoop fuel this remaining) as [ret|e] eqn:Hrec; [|discriminate].
  injection H as -> ->.
  destruct (packetizeStapALoop_spec _ _ _ _ Hrec) as (Hne & _).
  destruct (packetizeOneStapA_spec _ _ _ _ Hone) as (_ & [Hfit|[Hd _]]); [exact Hfit|].
  injection Hd as _ Hrem. exfalso. apply Hne; [rewrite <- Hrem; discriminate|reflexivity].
Qed.

(** ** The size bound *)

Lemma bind_Ok {A B : Type} (m : result A) (k : A -> result B) (b : B) :
  bind m k = Ok b -> exists a, m = Ok a /\ k a = Ok b.
Proof.
  destruct m as [a|e]; simpl; [|discriminate].
  intros H. exists a. split; [reflexivity|exact H].
Qed.

(** Takes the first step of a sequence of calls that returned. *)
Ltac bind_step H this1 ret1 H1 :=
  apply bind_Ok in H as ([this1 ret1] & H1 & H); cbv beta iota zeta in H.

Lemma filterSei_spec (nals : list Buffer) :
  forall (this : H264Repacketizer),
    snd (filterSei this nals) = filter notSei nals /\
    maxPacketSize (fst (filterSei this nals)) = maxPacketSize this /\
    codecInfo (fst (filterSei this nals)) = codecInfo this /\
    extraPackets (fst (filterSei this nals)) = extraPackets this /\
    pendingStapA (fst (filterSei this nals)) = pendingStapA this /\
    pendingFuA (fst (filterSei this nals)) = pendingFuA this.
Proof.
  induction nals as [|p rest IH]; intros this; [repeat split|].
  cbn [filterSei filter].
  specialize (IH (setSeenSps this (seenSps this || (byteAnd p 0 0x1F =? NAL_TYPE_SPS)))).
  destruct (filterSei _ rest) as [this' kept].
  simpl in IH. destruct IH as (Hk & Hm & Hc & He & Hs & Hf).
  simpl. unfold notSei at 1. rewrite Hk.
  repeat split; assumption.
Qed.

Section SizeBound.

Variables (M : Z) (queued : list Buffer).
Hypothesis M_contract : 3 <= M.

Lemma sizeInvariant_emit (this : H264Repacketizer) (ret new : list Serialized) :
  sizeInvariant M queued this ret ->
  Forall (sizeBounded M queued) new ->
  sizeInvariant M queued this (ret ++ new).
Proof.
  intros (Hm & Hq & Hret) Hnew. repeat split; try assumption.
  apply Forall_app. split; assumption.
Qed.

Lemma sizeInvariant_state (this this' : H264Repacketizer) (ret : list Serialized) :
  sizeInvariant M queued this ret ->
  maxPacketSize this' = maxPacketSize this ->
  incl (pendingPayloads this') (pendingPayloads this) ->
  sizeInvariant M queued this' ret.
Proof.
  intros (Hm & Hq & Hret) Hm' Hq'. repeat split; try assumption.
  - congruence.
  - intros p Hp. apply Hq, Hq', Hp.
Qed.

Lemma createRtpPackets_size (this this' : H264Repacketizer) (packet : RtpPacket)
    (nalus : list Buffer) (ret ret' : list Serialized) (hadMarker : bool) :
  createRtpPackets this packet nalus ret hadMarker = Ok (this', ret') ->
  sizeInvariant M queued this ret ->
  Forall (fun p => blen p <= M \/ (In p queued /\ stapFallback M p)) nalus ->
  sizeInvariant M queued this' ret'.
Proof.
  intros Hcall Hinv Hnalus.
  destruct (createRtpPackets_spec _ _ _ _ _ _ _ Hcall)
    as ((Hm & _ & Hs & _) & _ & new & Hret & Hpay).
  rewrite Hret. apply sizeInvariant_emit.
  - apply (sizeInvariant_state this); [exact Hinv|exact Hm|].
    unfold pendingPayloads. rewrite Hs. apply incl_refl.
  - exact (Forall_payload _ new nalus Hpay Hnalus).
Qed.

Lemma flushPendingFuA_size (this this' : H264Repacketizer) (ret ret' : list Serialized) :
  flushPendingFuA this ret = Ok (this', ret') ->
  sizeInvariant M queued this ret ->
  sizeInvariant M queued this' ret'.
Proof.
  unfold flushPendingFuA. intros H Hinv.
  destruct (pendingFuA this) as [[|first rest]|] eqn:Hp; try discriminate.
  - destruct (negb (fuaGroupCheck _ None (first :: rest))).
    + injection H as <- <-.
      apply (sizeInvariant_state this); [exact Hinv|reflexivity|apply incl_refl].
    + apply bind_Ok in H as (fragments & Hfrag & H). cbv beta iota zeta in H.
      destruct Hinv as (Hm & Hq & Hret).
      destruct (packetizeFuA_bound this (defragment first (first :: rest))
                  (negb (negb (byteAnd (payload first) 1 0x80 =? 0)))
                  (negb (negb (byteAnd (payload (last (first :: rest) first)) 1 0x40 =? 0)))
                  ltac:(lia)) as (fragments' & Hfrag' & Hbound).
      rewrite Hfrag in Hfrag'. injection Hfrag' as <-.
      bind_step H this1 ret1 Hcall.
      pose proof (createRtpPackets_size _ _ _ _ _ _ _ Hcall
                    (conj Hm (conj Hq Hret))) as Hcr.
      injection H as <- <-.
      apply (sizeInvariant_state this1); [|reflexivity|apply incl_refl].
      apply Hcr. eapply Forall_impl; [|exact Hbound].
      intros p Hb. cbv beta in Hb. left. rewrite <- Hm. exact Hb.
  - injection H as <- <-. exact Hinv.
Qed.

Lemma flushPendingStapA_size (this this' : H264Repacketizer) (ret ret' : list Serialized) :
  flushPendingStapA this ret = Ok (this', ret') ->
  sizeInvariant M queued this ret ->
  sizeInvariant M queued this' ret'.
Proof.
  unfold flushPendingStapA. intros H Hinv.
  destruct (pendingStapA this) as [[|first rest]|] eqn:Hp; try discriminate.
  - apply bind_Ok in H as (aggregates & Hagg & H). cbv beta iota zeta in H.
    assert (Hnone : forall e r, sizeInvariant M queued this r ->
              sizeInvariant M queued (setPendingStapA (setExtraPackets this e) None) r).
    { intros e r Hr. apply (sizeInvariant_state this); [exact Hr|reflexivity|].
      intros p Hin. contradiction. }
    destruct (negb (Nat.eqb (length aggregates) 1)).
    + injection H as <- <-.
      apply (sizeInvariant_state this); [exact Hinv|reflexivity|].
      intros p Hin. contradiction.
    + apply bind_Ok in H as (made & Hcall & H). cbv beta iota zeta in H.
      injection H as <- <-. apply Hnone.
      destruct (stapAForEach_spec _ _ _ _ _ _ _ _ Hcall) as (new & Hret & Hpay).
      rewrite Hret. apply sizeInvariant_emit; [exact Hinv|].
      destruct Hinv as (Hm & Hq & _).
      destruct (packetizeStapALoop_spec _ _ _ _ Hagg) as (_ & Hbound).
      assert (Hbound' : Forall (fun p => blen p <= M \/ (In p queued /\ stapFallback M p))
                          aggregates).
      { eapply Forall_impl; [|exact Hbound].
        rewrite Hm. intros p [Hfit|[Hin Hfall]]; [left; exact Hfit|].
        right. split; [|exact Hfall].
        apply Hq. unfold pendingPayloads. rewrite Hp. exact Hin. }
      exact (Forall_payload _ new aggregates Hpay Hbound').
  - injection H as <- <-. exact Hinv.
Qed.

Lemma maybeSendSpsPps_size (this this' : H264Repacketizer) (packet : RtpPacket)
    (ret ret' : list Serialized) :
  maybeSendSpsPps this packet ret = Ok (this', ret') ->
  sizeInvariant M queued this ret ->
  sizeInvariant M queued this' ret'.
Proof.
  unfold maybeSendSpsPps. intros H Hinv.
  destruct (sps (codecInfo this)) as [s|]; [|injection H as <- <-; exact Hinv].
  destruct (pps (codecInfo this)) as [p|]; [|injection H as <- <-; exact Hinv].
  apply bind_Ok in H as (aggregates & Hagg & H). cbv beta iota zeta in H.
  destruct aggregates as [|a [|b more]]; cbn [length Nat.eqb negb] in H;
    try (injection H as <- <-; exact Hinv).
  pose proof (packetizeStapA_pair _ _ _ _ Hagg) as Hfit.
  bind_step H this1 ret1 Hc.
  pose proof (createRtpPackets_size _ _ _ _ _ _ _ Hc Hinv) as Hcr.
  injection H as <- <-.
  apply (sizeInvariant_state this1); [|reflexivity|apply incl_refl].
  apply Hcr. constructor; [|constructor].
  left. destruct Hinv as (Hm & _). lia.
Qed.

Lemma packetizeFuA_size (this : H264Repacketizer) (data : Buffer) (noStart noEnd : bool)
    (fragments : list Buffer) :
  maxPacketSize this = M ->
  packetizeFuA this data noStart noEnd = Ok fragments ->
  Forall (fun p => blen p <= M \/ (In p queued /\ stapFallback M p)) fragments.
Proof.
  intros Hm Hfrag.
  destruct (packetizeFuA_bound this data noStart noEnd ltac:(lia))
    as (fragments' & Hfrag' & Hbound).
  rewrite Hfrag in Hfrag'. injection Hfrag' as <-.
  eapply Forall_impl; [|exact Hbound].
  intros p Hb. cbv beta in Hb. left. rewrite <- Hm. exact Hb.
Qed.

Lemma repacketizeFuA_size (this this' : H264Repacketizer) (packet : RtpPacket)
    (ret ret' : list Serialized) :
  repacketizeFuA this packet ret = Ok (this', ret') ->
  sizeInvariant M queued this ret ->
  sizeInvariant M queued this' ret'.
Proof.
  unfold repacketizeFuA. intros H Hinv.
  bind_step H this1 ret1 H1. apply flushPendingStapA_size in H1; [|exact Hinv].
  bind_step H this2 ret2 H2.
  assert (Hinv2 : sizeInvariant M queued this2 ret2).
  { destruct ((byteAnd (payload packet) 1 0x1f =? NAL_TYPE_IDR)
              && negb (byteAnd (payload packet) 1 0x80 =? 0) && negb (seenSps this1)).
    - eapply maybeSendSpsPps_size; eassumption.
    - injection H2 as <- <-. exact H1. }
  bind_step H this3 ret3 H3.
  assert (Hinv3 : sizeInvariant M queued this3 ret3).
  { destruct (pendingFuA this2).
    - injection H3 as <- <-. exact Hinv2.
    - destruct (maxPacketSize this2 * 2 <=? blen (payload packet)).
      + apply bind_Ok in H3 as (fragments & Hfrag & H3). cbv beta in H3.
        exact (createRtpPackets_size _ _ _ _ _ _ _ H3 Hinv2
                 (packetizeFuA_size _ _ _ _ _ (proj1 Hinv2) Hfrag)).
      + injection H3 as <- <-.
        apply (sizeInvariant_state this2); [exact Hinv2|reflexivity|apply incl_refl]. }
  destruct (pendingFuA this3) as [pending|].
  - assert (Hpush : sizeInvariant M queued
                      (setPendingFuA this3 (Some (pending ++ [packet]))) ret3)
      by (apply (sizeInvariant_state this3);
          [exact Hinv3|reflexivity|apply incl_refl]).
    destruct (negb (byteAnd (payload packet) 1 0x40 =? 0)).
    + eapply flushPendingFuA_size; eassumption.
    + injection H as <- <-. exact Hpush.
  - injection H as <- <-. exact Hinv3.
Qed.

Lemma repacketizeStapA_size (this this' : H264Repacketizer) (packet : RtpPacket)
    (ret ret' : list Serialized) :
  (forall nals, depacketizeStapA (payload packet) = Ok nals ->
                incl (filter notSei nals) queued) ->
  repacketizeStapA this packet ret = Ok (this', ret') ->
  sizeInvariant M queued this ret ->
  sizeInvariant M queued this' ret'.
Proof.
  unfold repacketizeStapA. intros Hqueued H Hinv.
  bind_step H this1 ret1 H1. apply flushPendingFuA_size in H1; [|exact Hinv].
  apply bind_Ok in H as (nals & Hnals & H). cbv beta iota zeta in H.
  destruct (filterSei_spec nals this1) as (Hkept & Hm & _ & _ & Hs & _).
  destruct (filterSei this1 nals) as [this2 depacketized]. simpl in Hkept, Hm, Hs.
  apply bind_Ok in H as (aggregates & Hagg & H). cbv beta in H.
  assert (Hinv2 : sizeInvariant M queued this2 ret1).
  { apply (sizeInvariant_state this1); [exact H1|exact Hm|].
    unfold pendingPayloads. rewrite Hs. apply incl_refl. }
  apply (createRtpPackets_size _ _ _ _ _ _ _ H Hinv2).
  destruct (packetizeStapALoop_spec _ _ _ _ Hagg) as (_ & Hbound).
  eapply Forall_impl; [|exact Hbound].
  destruct Hinv2 as (Hm2 & _). rewrite Hm2.
  intros p [Hfit|[Hin Hfall]]; [left; exact Hfit|].
  right. split; [|exact Hfall].
  apply (Hqueued nals Hnals). rewrite <- Hkept. exact Hin.
Qed.

Lemma repacketizeSingle_size (this this' : H264Repacketizer) (packet : RtpPacket)
    (nalType : Z) (ret ret' : list Serialized) :
  ((nalType =? NAL_TYPE_SPS) || (nalType =? NAL_TYPE_PPS) = true ->
   In (payload packet) queued) ->
  repacketizeSingle this packet nalType ret = Ok (this', ret') ->
  sizeInvariant M queued this ret ->
  sizeInvariant M queued this' ret'.
Proof.
  unfold repacketizeSingle. intros Hqueued H Hinv.
  bind_step H this1 ret1 H1. apply flushPendingFuA_size in H1; [|exact Hinv].
  destruct ((nalType =? NAL_TYPE_SPS) || (nalType =? NAL_TYPE_PPS)).
  - injection H as <- <-. destruct H1 as (Hm & Hq & Hret).
    repeat split; [exact Hm| |exact Hret].
    unfold pendingPayloads in *. simpl.
    rewrite map_app. apply incl_app.
    + destruct (pendingStapA this1); [exact Hq|intros p Hp; contradiction].
    + intros p [<-|[]]. apply Hqueued. reflexivity.
  - bind_step H this2 ret2 H2. apply flushPendingStapA_size in H2; [|exact H1].
    destruct (nalType =? NAL_TYPE_SEI).
    + injection H as <- <-.
      apply (sizeInvariant_state this2); [exact H2|reflexivity|apply incl_refl].
    + bind_step H this3 ret3 H3.
      assert (Hinv3 : sizeInvariant M queued this3 ret3).
      { destruct ((nalType =? NAL_TYPE_IDR) && negb (seenSps this2)).
        - eapply maybeSendSpsPps_size; eassumption.
        - injection H3 as <- <-. exact H2. }
      destruct (Z.ltb_spec (maxPacketSize this3) (blen (payload packet))) as [Hbig|Hfit].
      * apply bind_Ok in H as (fragments & Hfrag & H). cbv beta in H.
        exact (createRtpPackets_size _ _ _ _ _ _ _ H Hinv3
                 (packetizeFuA_size _ _ _ _ _ (proj1 Hinv3) Hfrag)).
      * apply bind_Ok in H as (created & Hmade & H). cbv beta in H.
        apply createPacket_Ok in Hmade as [_ ->].
        injection H as <- <-. apply sizeInvariant_emit; [exact Hinv3|].
        constructor; [|constructor]. left. simpl.
        destruct Hinv3 as (Hm & _). lia.
Qed.

End SizeBound.

Lemma sizeBounded_incl (M : Z) (queued queued' : list Buffer) (s : Serialized) :
  incl queued queued' -> sizeBounded M queued s -> sizeBounded M queued' s.
Proof.
  intros Hincl [Hfit|[Hin Hfall]]; [left; exact Hfit|].
  right. split; [apply Hincl; exact Hin|exact Hfall].
Qed.

Lemma flushOnTimestamp_size (M : Z) (queued : list Buffer) (this this' : H264Repacketizer)
    (packet : RtpPacket) (ret ret' : list Serialized) :
  3 <= M ->
  (flushFuAOnTimestamp this packet ret = Ok (this', ret') \/
   flushStapAOnTimestamp this packet ret = Ok (this', ret')) ->
  sizeInvariant M queued this ret ->
  sizeInvariant M queued this' ret'.
Proof.
  intros HM [H|H] Hinv.
  - unfold flushFuAOnTimestamp in H.
    destruct (pendingFuA this) as [pending|]; [|injection H as <- <-; exact Hinv].
    apply bind_Ok in H as (ts & _ & H).
    destruct (negb (ts =? timestamp (header packet))).
    + eapply flushPendingFuA_size; eassumption.
    + injection H as <- <-. exact Hinv.
  - unfold flushStapAOnTimestamp in H.
    destruct (pendingStapA this) as [pending|]; [|injection H as <- <-; exact Hinv].
    apply bind_Ok in H as (ts & _ & H).
    destruct (negb (ts =? timestamp (header packet))).
    + eapply flushPendingStapA_size; eassumption.
    + injection H as <- <-. exact Hinv.
Qed.

(** One call: everything it emits is bounded, where the NALs that may come
    out raw are those waiting in [pendingStapA] and those [packet] hands to
    the aggregation. *)
Lemma repacketize_size (this this' : H264Repacketizer) (packet : RtpPacket)
    (out : list Serialized) :
  3 <= maxPacketSize this ->
  repacketize this packet = Ok (this', out) ->
  sizeInvariant (maxPacketSize this) (pendingPayloads this ++ aggregationInputs packet)
    this' out.
Proof.
  intros HM H.
  set (M := maxPacketSize this) in *.
  set (queued := pendingPayloads this ++ aggregationInputs packet).
  assert (Hinv : sizeInvariant M queued this []).
  { repeat split; [|constructor]. intros p Hp. apply in_or_app. left. exact Hp. }
  unfold repacketize in H.
  bind_step H this1 ret1 H1.
  apply (flushOnTimestamp_size M queued _ _ _ _ _ HM (or_introl H1)) in Hinv.
  bind_step H this2 ret2 H2.
  apply (flushOnTimestamp_size M queued _ _ _ _ _ HM (or_intror H2)) in Hinv.
  destruct (Z.eqb_spec (byteAnd (payload packet) 0 0x1F) NAL_TYPE_FU_A) as [Hfua|Hfua].
  - eapply repacketizeFuA_size; eassumption.
  - destruct (Z.eqb_spec (byteAnd (payload packet) 0 0x1F) NAL_TYPE_STAP_A) as [Hstap|Hstap].
    + eapply repacketizeStapA_size; try eassumption.
      intros nals Hnals p Hp. apply in_or_app. right.
      unfold aggregationInputs. rewrite Hstap, Z.eqb_refl, Hnals. exact Hp.
    + destruct ((1 <=? byteAnd (payload packet) 0 0x1F)
                && (byteAnd (payload packet) 0 0x1F <? 24)).
      * eapply repacketizeSingle_size; try eassumption.
        intros Hcodec. apply in_or_app. right.
        unfold aggregationInputs.
        destruct (Z.eqb_spec (byteAnd (payload packet) 0 0x1F) NAL_TYPE_STAP_A);
          [contradiction|].
        rewrite Hcodec. left. reflexivity.
      * injection H as <- <-.
        apply (sizeInvariant_state M queued this2); [exact Hinv|reflexivity|apply incl_refl].
Qed.

Lemma repacketizeAll_size (packets : list RtpPacket) :
  forall (this this' : H264Repacketizer) (out : list Serialized) (queued : list Buffer),
    3 <= maxPacketSize this ->
    incl (pendingPayloads this) queued ->
    repacketizeAll this packets = Ok (this', out) ->
    Forall (sizeBounded (maxPacketSize this) (queued ++ flat_map aggregationInputs packets))
      out.
Proof.
  induction packets as [|packet rest IH]; intros this this' out queued HM Hq H.
  - injection H as <- <-. constructor.
  - cbn [repacketizeAll] in H.
    bind_step H this1 out1 H1. bind_step H this2 outs H2. injection H as <- <-.
    destruct (repacketize_size _ _ _ _ HM H1) as (Hm1 & Hq1 & Hout1).
    cbn [flat_map]. apply Forall_app. split.
    + eapply Forall_impl; [|exact Hout1].
      intros s. apply sizeBounded_incl.
      intros p Hp. apply in_app_or in Hp as [Hp|Hp].
      * apply in_or_app. left. apply Hq, Hp.
      * apply in_or_app. right. apply in_or_app. left. exact Hp.
    + specialize (IH this1 this2 outs (queued ++ aggregationInputs packet)).
      rewrite Hm1 in IH. rewrite app_assoc. apply IH; [exact HM| |exact H2].
      intros p Hp. apply Hq1 in Hp. apply in_app_or in Hp as [Hp|Hp].
      * apply in_or_app. left. apply Hq, Hp.
      * apply in_or_app. right. exact Hp.
Qed.

(** C1.  A repacketizer constructed with [maxPacketSize >= 3] is fed any
    sequence of packets.  Every packet it emits has a payload of at most
    [maxPacketSize] bytes, unless the payload is a NAL that was handed to
    the STAP-A aggregation (a NAL of an input STAP-A that passed the SEI
    filter, or the payload of an SPS or PPS packet) and that alone, with its
    framing, exceeds the budget, so that [packetizeOneStapA] returned it
    raw. *)
Theorem repacketize_size_bound (maxPacketSize : Z) (codecInfo : CodecInfo)
    (packets : list RtpPacket) (this' : H264Repacketizer) (out : list Serialized) :
  3 <= maxPacketSize ->
  repacketizeAll (new maxPacketSize codecInfo) packets = Ok (this', out) ->
  Forall (fun s =>
            blen (payload s) <= maxPacketSize \/
            (In (payload s) (flat_map aggregationInputs packets) /\
             stapFallback maxPacketSize (payload s)))
    out.
Proof.
  intros HM H.
  apply (repacketizeAll_size packets (new maxPacketSize codecInfo) this' out [] HM);
    [|exact H].
  intros p Hp. contradiction.
Qed.

(** An instance of C1: an IDR NAL of seven bytes through an instance with
    [maxPacketSize = 4]. *)
Lemma repacketize_size_bound_witness :
  Forall (fun s =>
            blen (payload s) <= 4 \/
            (In (payload s)
               (flat_map aggregationInputs
                  [mkPacket (mkHeader 10 true 100) [0x65; 1; 2; 3; 4; 5; 6]]) /\
             stapFallback 4 (payload s)))
    [mkPacket (mkHeader 10 false 100) [0x7C; 0x85; 1; 2];
     mkPacket (mkHeader 11 false 100) [0x7C; 0x05; 3; 4];
     mkPacket (mkHeader 12 true 100) [0x7C; 0x45; 5; 6]].
Proof.
  apply (repacketize_size_bound 4 (mkCodec None None)
           [mkPacket (mkHeader 10 true 100) [0x65; 1; 2; 3; 4; 5; 6]]
           (setExtraPackets (new 4 (mkCodec None None)) 2)).
  - lia.
  - vm_compute. reflexivity.
Defined.

(** ** Accounting of [extraPackets] *)

Lemma Ok_pair_inv {A B : Type} (a a' : A) (b b' : B) :
  Ok (a, b) = Ok (a', b') -> a = a' /\ b = b'.
Proof. intros H. injection H as H1 H2. split; assumption. Qed.

Lemma packetizeFuA_max (a b : H264Repacketizer) (data : Buffer) (noStart noEnd : bool) :
  maxPacketSize a = maxPacketSize b ->
  packetizeFuA a data noStart noEnd = packetizeFuA b data noStart noEnd.
Proof. intros H. unfold packetizeFuA, fuaMax. rewrite H. reflexivity. Qed.

Lemma packetizeStapALoop_max (a b : H264Repacketizer) (fuel : nat) :
  maxPacketSize a = maxPacketSize b ->
  forall datas, packetizeStapALoop fuel a datas = packetizeStapALoop fuel b datas.
Proof.
  intros H. induction fuel as [|fuel IH]; intros datas; [reflexivity|].
  destruct datas as [|d ds]; [reflexivity|].
  cbn [packetizeStapALoop].
  replace (packetizeOneStapA a (d :: ds)) with (packetizeOneStapA b (d :: ds))
    by (unfold packetizeOneStapA; rewrite H; reflexivity).
  destruct (packetizeOneStapA b (d :: ds)) as [[packet remaining]|e]; [|reflexivity].
  cbv beta iota delta [bind]. rewrite IH. reflexivity.
Qed.

Lemma fuaFlushEmits_max (a b : H264Repacketizer) (pending : list RtpPacket) :
  maxPacketSize a = maxPacketSize b ->
  fuaFlushEmits a pending = fuaFlushEmits b pending.
Proof.
  intros H. unfold fuaFlushEmits. destruct pending as [|first rest]; [reflexivity|].
  rewrite (packetizeFuA_max a b _ _ _ H). reflexivity.
Qed.

Lemma stapFlushEmits_max (a b : H264Repacketizer) (pending : list RtpPacket) :
  maxPacketSize a = maxPacketSize b ->
  stapFlushEmits a pending = stapFlushEmits b pending.
Proof.
  intros H. unfold stapFlushEmits, packetizeStapA.
  destruct pending as [|first rest]; [reflexivity|].
  rewrite (packetizeStapALoop_max a b _ H). reflexivity.
Qed.

(** A buffer of at least three bytes is cut into at least one fragment. *)
Lemma packetizeFuA_nonempty (this : H264Repacketizer) (data : Buffer)
    (noStart noEnd : bool) :
  3 <= maxPacketSize this ->
  3 <= blen data ->
  exists fragment fragments,
    packetizeFuA this data noStart noEnd = Ok (fragment :: fragments).
Proof.
  intros HM Hlen.
  destruct (fuaNormalize data noStart noEnd) as [[d ns] ne] eqn:Hnorm.
  pose proof (fuaNormalize_blen data noStart noEnd) as Hd.
  rewrite Hnorm in Hd. simpl fst in Hd.
  assert (Hp : 1 <= blen d - NAL_HEADER_SIZE).
  { unfold NAL_HEADER_SIZE, FU_A_HEADER_SIZE in *.
    destruct (byteAnd data 0 0x1f =? NAL_TYPE_FU_A); lia. }
  assert (Hf : 1 <= fuaMax this) by (unfold fuaMax, FU_A_HEADER_SIZE; lia).
  destruct (packetizeFuA_normalized this data noStart noEnd d ns ne Hnorm Hf Hp)
    as (packages & Hok & Hlength & _).
  destruct (fua_sizes _ _ Hp Hf) as (Hn & _).
  destruct packages as [|fragment fragments].
  - simpl in Hlength. lia.
  - exists fragment, fragments. exact Hok.
Qed.

(** Reduces field reads of updated states, and nothing else. *)
Ltac state_simpl :=
  cbn [fst snd maxPacketSize codecInfo extraPackets pendingStapA pendingFuA seenSps
       setExtraPackets setPendingStapA setPendingFuA setSeenSps] in *.

Lemma createRtpPackets_balance (this this' : H264Repacketizer) (packet : RtpPacket)
    (nalus : list Buffer) (ret ret' : list Serialized) (hadMarker : bool) :
  createRtpPackets this packet nalus ret hadMarker = Ok (this', ret') ->
  sameButExtra this' this /\
  balance this' ret'
  = balance this ret - match nalus with [] => 0 | _ :: _ => 1 end.
Proof.
  intros Hcall.
  destruct (createRtpPackets_spec _ _ _ _ _ _ _ Hcall)
    as (Hsame & Hextra & new & Hret & Hpay).
  split; [exact Hsame|].
  destruct Hsame as (_ & _ & Hs & Hf & _).
  unfold balance, buffered. rewrite Hextra, Hret, Hs, Hf, length_app.
  apply (f_equal (@length Buffer)) in Hpay. rewrite length_map in Hpay. rewrite Hpay.
  destruct nalus; simpl length; lia.
Qed.

(** A flush that returns leaves no FU-A group behind, and does not touch
    the STAP-A group. *)
Lemma flushPendingFuA_cleared (this this' : H264Repacketizer)
    (ret ret' : list Serialized) :
  flushPendingFuA this ret = Ok (this', ret') ->
  pendingFuA this' = None /\ pendingStapA this' = pendingStapA this.
Proof.
  unfold flushPendingFuA. intros H.
  destruct (pendingFuA this) as [[|first rest]|] eqn:Hp; try discriminate.
  - destruct (negb (fuaGroupCheck _ None (first :: rest))).
    + apply Ok_pair_inv in H as [<- <-]. split; reflexivity.
    + apply bind_Ok in H as (fragments & _ & H). cbv beta iota zeta in H.
      bind_step H this1 ret1 Hcall.
      destruct (createRtpPackets_spec _ _ _ _ _ _ _ Hcall) as ((_ & _ & Hs & _) & _).
      apply Ok_pair_inv in H as [<- <-]. split; [reflexivity|exact Hs].
  - apply Ok_pair_inv in H as [<- <-]. split; [exact Hp|reflexivity].
Qed.

Lemma flushPendingFuA_balance (this this' : H264Repacketizer) (ret ret' : list Serialized) :
  flushPendingFuA this ret = Ok (this', ret') ->
  (forall g, pendingFuA this = Some g -> fuaFlushEmits this g = true) ->
  maxPacketSize this' = maxPacketSize this /\
  codecInfo this' = codecInfo this /\
  seenSps this' = seenSps this /\
  pendingStapA this' = pendingStapA this /\
  pendingFuA this' = None /\
  balance this' ret' = balance this ret.
Proof.
  unfold flushPendingFuA. intros H Hemits.
  destruct (pendingFuA this) as [[|first rest]|] eqn:Hp; try discriminate.
  - specialize (Hemits _ eq_refl). unfold fuaFlushEmits in Hemits.
    apply andb_prop in Hemits as [Hcheck Hemits]. rewrite Hcheck in H.
    cbn [negb] in H.
    destruct (packetizeFuA this _ _ _) as [[|fragment fragments]|e];
      try discriminate.
    cbv beta iota delta [bind] in H.
    destruct (createRtpPackets this first (fragment :: fragments) ret _)
      as [[this1 ret1]|e] eqn:Hcall; [|discriminate].
    destruct (createRtpPackets_balance _ _ _ _ _ _ _ Hcall)
      as ((Hm & Hc & Hs & Hf & Hsps) & Hbal).
    apply Ok_pair_inv in H as [<- <-]. state_simpl.
    repeat split; try assumption.
    unfold balance, buffered in *. state_simpl.
    rewrite Hs, Hp. rewrite Hs, Hf, Hp in Hbal. lia.
  - apply Ok_pair_inv in H as [<- <-]. repeat split. exact Hp.
Qed.

Lemma flushPendingStapA_balance (this this' : H264Repacketizer)
    (ret ret' : list Serialized) :
  flushPendingStapA this ret = Ok (this', ret') ->
  (forall g, pendingStapA this = Some g -> stapFlushEmits this g = true) ->
  maxPacketSize this' = maxPacketSize this /\
  codecInfo this' = codecInfo this /\
  seenSps this' = seenSps this /\
  pendingFuA this' = pendingFuA this /\
  pendingStapA this' = None /\
  balance this' ret' = balance this ret.
Proof.
  unfold flushPendingStapA. intros H Hemits.
  destruct (pendingStapA this) as [[|first rest]|] eqn:Hp; try discriminate.
  - specialize (Hemits _ eq_refl). unfold stapFlushEmits in Hemits.
    destruct (packetizeStapA this (map payload (first :: rest)))
      as [[|a [|b more]]|e]; try discriminate.
    cbv beta iota delta [bind] in H. cbn [length Nat.eqb negb] in H.
    destruct (stapAForEach 0 1 this first [a] ret (marker (header first)))
      as [made|e] eqn:Hcall; [|discriminate].
    destruct (stapAForEach_spec _ _ _ _ _ _ _ _ Hcall) as (new & Hret & Hpay).
    apply Ok_pair_inv in H as [<- <-]. rewrite Hret.
    repeat split.
    apply (f_equal (@length Buffer)) in Hpay. rewrite length_map in Hpay.
    unfold balance, buffered. state_simpl. rewrite Hp, length_app, Hpay.
    simpl length. lia.
  - apply Ok_pair_inv in H as [<- <-]. repeat split. exact Hp.
Qed.

Lemma maybeSendSpsPps_balance (this this' : H264Repacketizer) (packet : RtpPacket)
    (ret ret' : list Serialized) :
  maybeSendSpsPps this packet ret = Ok (this', ret') ->
  sameButExtra this' this /\ balance this' ret' = balance this ret.
Proof.
  unfold maybeSendSpsPps. intros H.
  destruct (sps (codecInfo this)) as [s|];
    [|apply Ok_pair_inv in H as [<- <-]; split; [apply sameButExtra_refl|reflexivity]].
  destruct (pps (codecInfo this)) as [p|];
    [|apply Ok_pair_inv in H as [<- <-]; split; [apply sameButExtra_refl|reflexivity]].
  apply bind_Ok in H as (aggregates & _ & H). cbv beta iota zeta in H.
  destruct aggregates as [|a [|b more]]; cbn [length Nat.eqb negb] in H;
    try (apply Ok_pair_inv in H as [<- <-]; split; [apply sameButExtra_refl|reflexivity]).
  bind_step H this1 ret1 Hcall.
  destruct (createRtpPackets_balance _ _ _ _ _ _ _ Hcall) as (Hsame & Hbal).
  apply Ok_pair_inv in H as [<- <-]. state_simpl. split.
  - exact (sameButExtra_trans _ _ _ (sameButExtra_set this1 _) Hsame).
  - destruct Hsame as (_ & _ & Hs & Hf & _).
    unfold balance, buffered in *. state_simpl. rewrite Hs, Hf in *. lia.
Qed.

(** The timestamp test leaves the FU-A group where it is, or flushes it. *)
Lemma flushFuAOnTimestamp_kept (this this' : H264Repacketizer) (packet : RtpPacket)
    (ret ret' : list Serialized) :
  flushFuAOnTimestamp this packet ret = Ok (this', ret') ->
  pendingFuA this'
  = if differsInTimestamp (pendingFuA this) packet then None else pendingFuA this.
Proof.
  unfold flushFuAOnTimestamp. intros H.
  destruct (pendingFuA this) as [[|first rest]|] eqn:Hp; try discriminate.
  - cbn [headTimestamp differsInTimestamp] in *. cbv beta iota delta [bind] in H.
    destruct (negb (timestamp (header first) =? timestamp (header packet))).
    + exact (proj1 (flushPendingFuA_cleared _ _ _ _ H)).
    + apply Ok_pair_inv in H as [<- <-]. exact Hp.
  - apply Ok_pair_inv in H as [<- <-]. exact Hp.
Qed.

Section Accounting.

Variable this0 : H264Repacketizer.
Variable packet : RtpPacket.
Hypothesis M_contract : 3 <= maxPacketSize this0.
Hypothesis fua_ok :
  forall g, pendingFuA this0 = Some g -> flushesFuA this0 packet = true ->
            fuaFlushEmits this0 g = true.
Hypothesis stap_ok :
  forall g, pendingStapA this0 = Some g -> flushesStapA this0 packet = true ->
            stapFlushEmits this0 g = true.

Lemma accounted_same (b b' : Z) (this this' : H264Repacketizer)
    (ret ret' : list Serialized) :
  accounted this0 b this ret ->
  sameButExtra this' this ->
  balance this' ret' = b' ->
  accounted this0 b' this' ret'.
Proof.
  intros (Hm & Hf & Hs & Hb) (Hm' & _ & Hs' & Hf' & _) Hb'.
  unfold accounted. rewrite Hm', Hf', Hs', Hb'. repeat split; assumption.
Qed.

Lemma flushPendingFuA_accounted (b : Z) (this this' : H264Repacketizer)
    (ret ret' : list Serialized) :
  flushPendingFuA this ret = Ok (this', ret') ->
  pendingFuA this = None \/ flushesFuA this0 packet = true ->
  accounted this0 b this ret ->
  accounted this0 b this' ret' /\ pendingFuA this' = None.
Proof.
  intros H Hflushes (Hm & Hf & Hs & Hb).
  destruct (flushPendingFuA_balance _ _ _ _ H) as (Hm' & _ & _ & Hs' & Hf' & Hb').
  - intros g Hg. rewrite (fuaFlushEmits_max this this0 g Hm). apply fua_ok.
    + destruct Hf as [Hf|Hf]; congruence.
    + destruct Hflushes as [Hnone|Hflushes]; [congruence|exact Hflushes].
  - split; [|exact Hf'].
    unfold accounted. rewrite Hm', Hs', Hf', Hb'. repeat split; try assumption.
    left. reflexivity.
Qed.

Lemma flushPendingStapA_accounted (b : Z) (this this' : H264Repacketizer)
    (ret ret' : list Serialized) :
  flushPendingStapA this ret = Ok (this', ret') ->
  pendingStapA this = None \/ flushesStapA this0 packet = true ->
  accounted this0 b this ret ->
  accounted this0 b this' ret' /\ pendingStapA this' = None /\
  pendingFuA this' = pendingFuA this.
Proof.
  intros H Hflushes (Hm & Hf & Hs & Hb).
  destruct (flushPendingStapA_balance _ _ _ _ H) as (Hm' & _ & _ & Hf' & Hs' & Hb').
  - intros g Hg. rewrite (stapFlushEmits_max this this0 g Hm). apply stap_ok.
    + destruct Hs as [Hs|Hs]; congruence.
    + destruct Hflushes as [Hnone|Hflushes]; [congruence|exact Hflushes].
  - split; [|split; [exact Hs'|exact Hf']].
    unfold accounted. rewrite Hm', Hs', Hf', Hb'. repeat split; try assumption.
    left. reflexivity.
Qed.

Lemma maybeSendSpsPps_accounted (b : Z) (cond : bool) (this this' : H264Repacketizer)
    (ret ret' : list Serialized) :
  (if cond then maybeSendSpsPps this packet ret else Ok (this, ret)) = Ok (this', ret') ->
  accounted this0 b this ret ->
  accounted this0 b this' ret' /\ pendingFuA this' = pendingFuA this.
Proof.
  intros H Hacc. destruct cond.
  - destruct (maybeSendSpsPps_balance _ _ _ _ _ H) as (Hsame & Hb).
    split; [|exact (proj1 (proj2 (proj2 (proj2 Hsame))))].
    apply (accounted_same b b this this' ret ret' Hacc Hsame).
    rewrite Hb. exact (proj2 (proj2 (proj2 Hacc))).
  - apply Ok_pair_inv in H as [<- <-]. split; [exact Hacc|reflexivity].
Qed.

Lemma flushFuAOnTimestamp_accounted (b : Z) (this this' : H264Repacketizer)
    (ret ret' : list Serialized) :
  flushFuAOnTimestamp this packet ret = Ok (this', ret') ->
  accounted this0 b this ret ->
  accounted this0 b this' ret'.
Proof.
  intros H Hacc. unfold flushFuAOnTimestamp in H.
  destruct (pendingFuA this) as [[|first rest]|] eqn:Hp; try discriminate;
    [|apply Ok_pair_inv in H as [<- <-]; exact Hacc].
  cbn [headTimestamp] in H. cbv beta iota delta [bind] in H.
  destruct (negb (timestamp (header first) =? timestamp (header packet))) eqn:Hts.
  - refine (proj1 (flushPendingFuA_accounted _ _ _ _ _ H _ Hacc)).
    right. unfold flushesFuA.
    replace (pendingFuA this0) with (Some (first :: rest))
      by (destruct Hacc as (_ & [Hf|Hf] & _); congruence).
    cbn [differsInTimestamp]. rewrite Hts. reflexivity.
  - apply Ok_pair_inv in H as [<- <-]. exact Hacc.
Qed.

Lemma flushStapAOnTimestamp_accounted (b : Z) (this this' : H264Repacketizer)
    (ret ret' : list Serialized) :
  flushStapAOnTimestamp this packet ret = Ok (this', ret') ->
  accounted this0 b this ret ->
  accounted this0 b this' ret' /\ pendingFuA this' = pendingFuA this.
Proof.
  intros H Hacc. unfold flushStapAOnTimestamp in H.
  destruct (pendingStapA this) as [[|first rest]|] eqn:Hp; try discriminate;
    [|apply Ok_pair_inv in H as [<- <-]; split; [exact Hacc|reflexivity]].
  cbn [headTimestamp] in H. cbv beta iota delta [bind] in H.
  destruct (negb (timestamp (header first) =? timestamp (header packet))) eqn:Hts.
  - destruct (flushPendingStapA_accounted b _ _ _ _ H) as (Hacc' & _ & Hf');
      [|exact Hacc|split; [exact Hacc'|exact Hf']].
    right. unfold flushesStapA.
    replace (pendingStapA this0) with (Some (first :: rest))
      by (destruct Hacc as (_ & _ & [Hs|Hs] & _); congruence).
    cbn [differsInTimestamp]. rewrite Hts. reflexivity.
  - apply Ok_pair_inv in H as [<- <-]. split; [exact Hacc|reflexivity].
Qed.

(** Refragmenting a payload of at least three bytes and emitting the
    fragments consumes the packet. *)
Lemma emit_fragments_account (b : Z) (this this' : H264Repacketizer)
    (ret ret' : list Serialized) :
  3 <= blen (payload packet) ->
  (fragments <- packetizeFuA this (payload packet) false false ;;
   createRtpPackets this packet fragments ret (marker (header packet)))
  = Ok (this', ret') ->
  accounted this0 b this ret ->
  accounted this0 (b - 1) this' ret' /\ pendingFuA this' = pendingFuA this.
Proof.
  intros Hlen H Hacc.
  apply bind_Ok in H as (fragments & Hfrag & H). cbv beta in H.
  destruct (packetizeFuA_nonempty this (payload packet) false false) as (f & fs & Hne);
    [destruct Hacc as (Hm & _); lia|exact Hlen|].
  rewrite Hfrag in Hne. injection Hne as ->.
  destruct (createRtpPackets_balance _ _ _ _ _ _ _ H) as (Hsame & Hb).
  split; [|exact (proj1 (proj2 (proj2 (proj2 Hsame))))].
  apply (accounted_same b (b - 1) this this' ret ret' Hacc Hsame).
  rewrite Hb. destruct Hacc as (_ & _ & _ & Hbal). lia.
Qed.

Lemma repacketizeSingle_account (b : Z) (this this' : H264Repacketizer)
    (ret ret' : list Serialized) :
  (1 <=? byteAnd (payload packet) 0 0x1F) && (byteAnd (payload packet) 0 0x1F <? 24)
  = true ->
  repacketizeSingle this packet (byteAnd (payload packet) 0 0x1F) ret = Ok (this', ret') ->
  accounted this0 b this ret ->
  balance this' ret' = b - 1.
Proof.
  unfold repacketizeSingle. intros Hrange H Hacc.
  bind_step H this1 ret1 H1.
  destruct (flushPendingFuA_accounted b _ _ _ _ H1) as (Hacc1 & Hnone1);
    [right; unfold flushesFuA; rewrite Hrange; apply orb_true_r|exact Hacc|].
  destruct ((byteAnd (payload packet) 0 0x1F =? NAL_TYPE_SPS)
            || (byteAnd (payload packet) 0 0x1F =? NAL_TYPE_PPS)) eqn:Hcodec.
  - apply Ok_pair_inv in H as [<- <-].
    destruct Hacc1 as (_ & _ & _ & Hb).
    unfold balance, buffered in *. state_simpl. rewrite Hnone1 in *.
    destruct (pendingStapA this1) as [pending|]; rewrite ?length_app; simpl length; lia.
  - bind_step H this2 ret2 H2.
    destruct (flushPendingStapA_accounted b _ _ _ _ H2) as (Hacc2 & Hnone2 & _);
      [right; unfold flushesStapA; rewrite Hrange, Hcodec; apply orb_true_r
      |exact Hacc1|].
    destruct (byteAnd (payload packet) 0 0x1F =? NAL_TYPE_SEI).
    + apply Ok_pair_inv in H as [<- <-].
      destruct Hacc2 as (_ & _ & _ & Hb).
      unfold balance, buffered in *. state_simpl. lia.
    + bind_step H this3 ret3 H3.
      destruct (maybeSendSpsPps_accounted _ _ _ _ _ _ H3 Hacc2) as (Hacc3 & _).
      destruct (Z.ltb_spec (maxPacketSize this3) (blen (payload packet))) as [Hbig|Hfit].
      * assert (Hlen : 3 <= blen (payload packet))
          by (destruct Hacc3 as (Hm & _); lia).
        destruct (emit_fragments_account _ _ _ _ _ Hlen H Hacc3)
          as ((_ & _ & _ & Hb) & _).
        exact Hb.
      * apply bind_Ok in H as (created & _ & H). cbv beta in H.
        apply Ok_pair_inv in H as [<- <-].
        destruct Hacc3 as (_ & _ & _ & Hb).
        unfold balance in *. rewrite length_app. simpl length. lia.
Qed.

Lemma repacketizeStapA_account (b : Z) (this this' : H264Repacketizer)
    (ret ret' : list Serialized) :
  byteAnd (payload packet) 0 0x1F = NAL_TYPE_STAP_A ->
  (forall nals, depacketizeStapA (payload packet) = Ok nals -> filter notSei nals <> []) ->
  repacketizeStapA this packet ret = Ok (this', ret') ->
  accounted this0 b this ret ->
  balance this' ret' = b - 1.
Proof.
  unfold repacketizeStapA. intros Htype Hkeep H Hacc.
  bind_step H this1 ret1 H1.
  destruct (flushPendingFuA_accounted b _ _ _ _ H1) as ((_ & _ & _ & Hb) & _);
    [right; unfold flushesFuA; rewrite Htype, Z.eqb_refl, orb_true_r; reflexivity
    |exact Hacc|].
  apply bind_Ok in H as (nals & Hnals & H). cbv beta iota zeta in H.
  destruct (filterSei_spec nals this1) as (Hkept & _ & _ & He & Hs & Hf).
  destruct (filterSei this1 nals) as [this2 depacketized]. state_simpl.
  apply bind_Ok in H as (aggregates & Hagg & H). cbv beta in H.
  destruct (packetizeStapALoop_spec _ _ _ _ Hagg) as (Hne & _).
  specialize (Hne ltac:(rewrite Hkept; exact (Hkeep nals Hnals))).
  destruct (createRtpPackets_balance _ _ _ _ _ _ _ H) as (_ & Hb2).
  destruct aggregates as [|a more]; [contradiction|].
  rewrite Hb2. unfold balance, buffered in *. rewrite He, Hs, Hf. lia.
Qed.

Lemma repacketizeFuA_account (b : Z) (this this' : H264Repacketizer)
    (ret ret' : list Serialized) :
  byteAnd (payload packet) 0 0x1F = NAL_TYPE_FU_A ->
  (forall g, completedGroup this0 packet = Some g -> fuaFlushEmits this0 g = true) ->
  pendingFuA this
  = (if differsInTimestamp (pendingFuA this0) packet then None else pendingFuA this0) ->
  repacketizeFuA this packet ret = Ok (this', ret') ->
  accounted this0 b this ret ->
  balance this' ret' = b - 1.
Proof.
  unfold repacketizeFuA. intros Htype Hend Hkept H Hacc.
  bind_step H this1 ret1 H1.
  destruct (flushPendingStapA_accounted b _ _ _ _ H1) as (Hacc1 & _ & Hf1);
    [right; unfold flushesStapA; rewrite Htype, Z.eqb_refl, orb_true_r; reflexivity
    |exact Hacc|].
  bind_step H this2 ret2 H2.
  destruct (maybeSendSpsPps_accounted _ _ _ _ _ _ H2 Hacc1) as (Hacc2 & Hf2).
  rewrite Hf1, Hkept in Hf2. clear Hf1 Hkept.
  bind_step H this3 ret3 H3.
  assert (Hcompleted : forall alone : option (list RtpPacket),
            negb (byteAnd (payload packet) 1 0x40 =? 0) = true ->
            completedGroup this0 packet
            = match pendingFuA this0 with
              | Some pending =>
                if differsInTimestamp (Some pending) packet
                then (if maxPacketSize this0 * 2 <=? blen (payload packet)
                      then None else Some [packet])
                else Some (pending ++ [packet])
              | None =>
                if maxPacketSize this0 * 2 <=? blen (payload packet)
                then None else Some [packet]
              end).
  { intros _ Hisend. unfold completedGroup. rewrite Htype, Hisend. reflexivity. }
  specialize (Hcompleted None).
  destruct (pendingFuA this2) as [pending|] eqn:Hp2.
  - (* the packet joins the pending group *)
    apply Ok_pair_inv in H3 as [<- <-]. rewrite Hp2 in H.
    destruct Hacc2 as (Hm & Hf & Hs & Hb).
    assert (Hpush : balance (setPendingFuA this2 (Some (pending ++ [packet]))) ret2
                    = b - 1).
    { unfold balance, buffered in *. state_simpl. rewrite Hp2 in Hb.
      rewrite length_app. simpl length. lia. }
    destruct (negb (byteAnd (payload packet) 1 0x40 =? 0)) eqn:Hisend.
    + destruct (flushPendingFuA_balance _ _ _ _ H) as (_ & _ & _ & _ & _ & Hb').
      * state_simpl. intros g Hgeq. injection Hgeq as <-.
        rewrite (fuaFlushEmits_max _ this0) by exact Hm.
        apply Hend. rewrite (Hcompleted eq_refl).
        destruct (pendingFuA this0) as [pending0|]; [|discriminate].
        destruct (differsInTimestamp (Some pending0) packet); [discriminate|].
        injection Hf2 as ->. reflexivity.
      * congruence.
    + apply Ok_pair_inv in H as [<- <-]. exact Hpush.
  - destruct (Z.leb_spec (maxPacketSize this2 * 2) (blen (payload packet))) as [Hfat|Hthin].
    + (* refragmented at once *)
      assert (Hlen : 3 <= blen (payload packet))
        by (destruct Hacc2 as (Hm & _); lia).
      destruct (emit_fragments_account _ _ _ _ _ Hlen H3 Hacc2)
        as ((_ & _ & _ & Hb3) & Hf3).
      rewrite Hf3, Hp2 in H. apply Ok_pair_inv in H as [<- <-]. exact Hb3.
    + (* a new pending group *)
      apply Ok_pair_inv in H3 as [<- <-]. state_simpl.
      destruct Hacc2 as (Hm & Hf & Hs & Hb).
      assert (Hpush : balance (setPendingFuA (setPendingFuA this2 (Some []))
                                 (Some ([] ++ [packet]))) ret2 = b - 1).
      { unfold balance, buffered in *. state_simpl. rewrite Hp2 in Hb.
        simpl length. lia. }
      destruct (negb (byteAnd (payload packet) 1 0x40 =? 0)) eqn:Hisend.
      * destruct (flushPendingFuA_balance _ _ _ _ H) as (_ & _ & _ & _ & _ & Hb').
        -- state_simpl. intros g Hgeq. injection Hgeq as <-.
           rewrite (fuaFlushEmits_max _ this0) by exact Hm.
           apply Hend. rewrite (Hcompleted eq_refl).
           replace (maxPacketSize this0 * 2 <=? blen (payload packet)) with false
             by (symmetry; apply Z.leb_gt; lia).
           destruct (pendingFuA this0) as [pending0|]; [|reflexivity].
           destruct (differsInTimestamp (Some pending0) packet);
             [reflexivity|discriminate].
        -- congruence.
      * apply Ok_pair_inv in H as [<- <-]. exact Hpush.
Qed.

End Accounting.

(** C4.  A call of [repacketize] that returns changes [extraPackets] by the
    number of packets it emits minus one, plus the change in the number of
    packets held in the two pending groups, provided the instance was
    constructed with [maxPacketSize >= 3] and nothing is lost on the way:
    a pending FU-A group that the call flushes, and the group completed by
    an FU-A end fragment, passes the group checks and is refragmented into
    at least one fragment; a pending STAP-A group that the call flushes
    gives its one aggregate; and an input STAP-A keeps at least one NAL
    after the SEI filter. *)
Theorem repacketize_extraPackets_account (this this' : H264Repacketizer)
    (packet : RtpPacket) (out : list Serialized) :
  3 <= maxPacketSize this ->
  repacketize this packet = Ok (this', out) ->
  (forall g, pendingFuA this = Some g -> flushesFuA this packet = true ->
             fuaFlushEmits this g = true) ->
  (forall g, pendingStapA this = Some g -> flushesStapA this packet = true ->
             stapFlushEmits this g = true) ->
  (forall g, completedGroup this packet = Some g -> fuaFlushEmits this g = true) ->
  (byteAnd (payload packet) 0 0x1F = NAL_TYPE_STAP_A -> aggregationInputs packet <> []) ->
  extraPackets this' - extraPackets this
  = Z.of_nat (length out) - 1 + (buffered this' - buffered this).
Proof.
  intros HM H Hfua Hstap Hend Hkeep.
  assert (Hacc : accounted this (balance this []) this []).
  { repeat split; right; reflexivity. }
  assert (Hgoal : balance this' out = balance this [] - 1).
  { unfold repacketize in H.
    bind_step H this1 ret1 H1.
    pose proof (flushFuAOnTimestamp_kept _ _ _ _ _ H1) as Hkept.
    pose proof (flushFuAOnTimestamp_accounted this packet Hfua _ _ _ _ _ H1 Hacc)
      as Hacc1.
    bind_step H this2 ret2 H2.
    destruct (flushStapAOnTimestamp_accounted this packet Hstap _ _ _ _ _ H2 Hacc1)
      as (Hacc2 & Hf2).
    rewrite Hkept in Hf2.
    clear Hacc Hacc1 Hkept. rename Hacc2 into Hacc.
    destruct (Z.eqb_spec (byteAnd (payload packet) 0 0x1F) NAL_TYPE_FU_A) as [Ht|Ht].
    - eapply (repacketizeFuA_account this packet); eassumption.
    - destruct (Z.eqb_spec (byteAnd (payload packet) 0 0x1F) NAL_TYPE_STAP_A) as [Hs|Hs].
      + eapply (repacketizeStapA_account this packet); try eassumption.
        intros nals Hnals. specialize (Hkeep Hs).
        unfold aggregationInputs in Hkeep. rewrite Hs, Z.eqb_refl, Hnals in Hkeep.
        exact Hkeep.
      + destruct ((1 <=? byteAnd (payload packet) 0 0x1F)
                  && (byteAnd (payload packet) 0 0x1F <? 24)) eqn:Hrange.
        * eapply (repacketizeSingle_account this packet); eassumption.
        * apply Ok_pair_inv in H as [<- <-].
          destruct Hacc as (_ & _ & _ & Hb).
          unfold balance, buffered in *. state_simpl. lia. }
  unfold balance in Hgoal. simpl length in Hgoal. lia.
Qed.

(** An instance of C4: an end fragment without payload bytes completes
    the FU-A group whose start fragment is pending.  One packet was
    buffered, one is emitted, none is buffered afterwards, and
    [extraPackets] goes down by one. *)
Lemma repacketize_extraPackets_account_witness :
  repacketize
    (setPendingFuA (new 6 (mkCodec None None))
       (Some [mkPacket (mkHeader 10 false 100) [0x7C; 0x85; 1; 2; 3]]))
    (mkPacket (mkHeader 11 true 100) [0x7C; 0x45])
  = Ok (setExtraPackets (new 6 (mkCodec None None)) (-1),
        [mkPacket (mkHeader 10 true 100) [0x7C; 0x45; 1; 2; 3]]) /\
  extraPackets (setExtraPackets (new 6 (mkCodec None None)) (-1))
  - extraPackets
      (setPendingFuA (new 6 (mkCodec None None))
         (Some [mkPacket (mkHeader 10 false 100) [0x7C; 0x85; 1; 2; 3]]))
  = Z.of_nat (length [mkPacket (mkHeader 10 true 100) [0x7C; 0x45; 1; 2; 3]])
    - 1
    + (buffered (setExtraPackets (new 6 (mkCodec None None)) (-1))
       - buffered
           (setPendingFuA (new 6 (mkCodec None None))
              (Some [mkPacket (mkHeader 10 false 100) [0x7C; 0x85; 1; 2; 3]]))).
Proof.
  split; [vm_compute; reflexivity|].
  apply (repacketize_extraPackets_account
           (setPendingFuA (new 6 (mkCodec None None))
              (Some [mkPacket (mkHeader 10 false 100) [0x7C; 0x85; 1; 2; 3]]))
           (setExtraPackets (new 6 (mkCodec None None)) (-1))
           (mkPacket (mkHeader 11 true 100) [0x7C; 0x45])).
  - simpl. lia.
  - vm_compute. reflexivity.
  - intros g Hg. injection Hg as <-. vm_compute. reflexivity.
  - intros g Hg. discriminate Hg.
  - intros g Hg. vm_compute in Hg. injection Hg as <-. vm_compute. reflexivity.
  - intros Ht. vm_compute in Ht. discriminate Ht.
Defined.

(** C4, as stated, at an SPS packet fed to a fresh instance: the packet is
    buffered, nothing is emitted and [extraPackets] stays 0, where the claim
    asks for a change of [0 - 1]. *)
Lemma repacketize_sps_buffered :
  exists this',
    repacketize (new 1200 (mkCodec None None))
      (mkPacket (mkHeader 10 false 100) [0x67; 1; 2; 3])
    = Ok (this', []) /\
    pendingStapA this' = Some [mkPacket (mkHeader 10 false 100) [0x67; 1; 2; 3]] /\
    extraPackets this' - extraPackets (new 1200 (mkCodec None None)) = 0 /\
    Z.of_nat (length (@nil Serialized)) - 1 = -1.
Proof. eexists. split; [vm_compute; reflexivity|]. repeat split. Qed.

(** The exception of C1 does occur: a NAL of six bytes inside an input
    STAP-A does not fit the budget of [maxPacketSize = 4] and is emitted
    raw. *)
Example repacketize_stapA_fallback_emitted :
  exists this',
    repacketize (new 4 (mkCodec None None))
      (mkPacket (mkHeader 10 false 100) [0x78; 0; 6; 0x61; 1; 2; 3; 4; 5])
    = Ok (this', [mkPacket (mkHeader 10 false 100) [0x61; 1; 2; 3; 4; 5]]).
Proof. eexists. vm_compute. reflexivity. Qed.

(** ** FU-A round trip *)

Lemma fuIndicator_fnri (x : Z) :
  Z.land (Z.lor (Z.land x (Z.lor 0x80 0x60)) NAL_TYPE_FU_A) 0xE0 = Z.land x 0xE0.
Proof.
  rewrite Z.land_lor_distr_l.
  change (Z.land NAL_TYPE_FU_A 0xE0) with 0. rewrite Z.lor_0_r.
  apply land_land_absorb. reflexivity.
Qed.

Lemma fuHeader_type (x flag : Z) :
  Z.land flag 0x1F = 0 ->
  Z.land (Z.lor (Z.land x 0x1F) flag) 0x1F = Z.land x 0x1F.
Proof.
  intros H. rewrite Z.land_lor_distr_l, H, Z.lor_0_r.
  apply land_land_absorb. reflexivity.
Qed.

Lemma fuHeader_flag (x flag other : Z) :
  Z.land 0x1F other = 0 ->
  Z.land (Z.lor (Z.land x 0x1F) flag) other = Z.land flag other.
Proof.
  intros H. rewrite Z.land_lor_distr_l.
  rewrite (land_land_disjoint x 0x1F other H). reflexivity.
Qed.

(** [packetizeFuA(data, false, false)] of a whole NAL unit with at least
    one payload byte and a header byte in [0, 256): the NAL header rebuilt
    from the first fragment, followed by the fragments without their two FU
    bytes, is [data]; the end bit is on the last fragment and on no other;
    the start bit is on no fragment after the first, and it is on the first
    when there are at least two fragments. *)
Lemma packetizeFuA_round_trip (this : H264Repacketizer) (data : Buffer) :
  1 <= fuaMax this ->
  byteAnd data 0 0x1f <> NAL_TYPE_FU_A ->
  1 <= blen data - 1 ->
  0 <= nth 0 data 0 < 256 ->
  exists fragments,
    packetizeFuA this data false false = Ok fragments /\
    (1 <= length fragments)%nat /\
    Z.lor (Z.land (nth 0 (nth 0 fragments []) 0) 0xE0)
          (Z.land (nth 1 (nth 0 fragments []) 0) 0x1F)
    :: concat (map (skipn 2) fragments) = data /\
    (forall i, (i < length fragments)%nat ->
       Z.land (nth 1 (nth i fragments []) 0) 0x40
       = if Nat.eqb i (length fragments - 1) then 0x40 else 0) /\
    (forall i, (i < length fragments)%nat ->
       Z.land (nth 1 (nth i fragments []) 0) 0x80
       = if Nat.eqb i 0 && negb (Nat.eqb (length fragments) 1) then 0x80 else 0).
Proof.
  intros Hf Htype Hp Hbyte.
  pose proof (fuaNormalize_whole data false false Htype) as Hnorm.
  destruct (packetizeFuA_normalized this data false false _ _ _ Hnorm Hf Hp)
    as (fragments & Hok & Hlen & _ & Hcat & Hhd).
  destruct (fua_sizes _ _ Hp Hf) as (Hn & _).
  cbv iota in Hhd. unfold NAL_HEADER_SIZE in Hlen, Hhd, Hcat.
  set (ind := Z.lor (byteAnd data 0 (Z.lor 0x80 0x60)) NAL_TYPE_FU_A) in *.
  set (nal := byteAnd data 0 0x1F) in *.
  rewrite <- Hlen in Hhd.
  assert (Hpos : (1 <= length fragments)%nat) by lia.
  assert (Hnth : forall i, (i < length fragments)%nat ->
            nth 0 (nth i fragments []) 0 = ind /\
            nth 1 (nth i fragments []) 0
            = if Nat.eqb i (length fragments - 1) then Z.lor nal 0x40
              else if Nat.eqb i 0 then Z.lor nal 0x80 else nal).
  { intros i Hi. specialize (Hhd i Hi).
    assert (H0 : forall k, (k < 2)%nat ->
              nth k (nth i fragments []) 0 = nth k (firstn 2 (nth i fragments [])) 0).
    { intros k Hk. rewrite <- (firstn_skipn 2 (nth i fragments [])) at 1.
      apply app_nth1.
      assert (length (firstn 2 (nth i fragments [])) = 2%nat)
        by (rewrite Hhd; destruct (Nat.eqb i (length fragments - 1));
            [|destruct (Nat.eqb i 0)]; reflexivity).
      lia. }
    rewrite (H0 0%nat), (H0 1%nat), Hhd by lia.
    destruct (Nat.eqb i (length fragments - 1)); [|destruct (Nat.eqb i 0)];
      split; reflexivity. }
  exists fragments. split; [exact Hok|]. split; [exact Hpos|]. split; [|split].
  - destruct (Hnth 0%nat ltac:(lia)) as [H0 H1]. rewrite H0, H1, Hcat.
    unfold ind, nal, byteAnd. rewrite fuIndicator_fnri.
    replace (Z.land (if Nat.eqb 0 (length fragments - 1)
                     then Z.lor (Z.land (nth 0 data 0) 0x1F) 0x40
                     else if Nat.eqb 0 0 then Z.lor (Z.land (nth 0 data 0) 0x1F) 0x80
                          else Z.land (nth 0 data 0) 0x1F) 0x1F)
      with (Z.land (nth 0 data 0) 0x1F)
      by (destruct (Nat.eqb 0 (length fragments - 1)); simpl Nat.eqb; cbv iota;
          rewrite fuHeader_type; reflexivity).
    rewrite byte_split by exact Hbyte.
    destruct data as [|d0 rest]; [unfold blen in Hp; simpl in Hp; lia|].
    reflexivity.
  - intros i Hi. destruct (Hnth i Hi) as [_ H1]. rewrite H1.
    unfold nal, byteAnd.
    destruct (Nat.eqb i (length fragments - 1)); [|destruct (Nat.eqb i 0)];
      rewrite ?fuHeader_flag by reflexivity; try reflexivity.
    apply land_land_disjoint. reflexivity.
  - intros i Hi. destruct (Hnth i Hi) as [_ H1]. rewrite H1.
    unfold nal, byteAnd.
    destruct (Nat.eqb_spec i (length fragments - 1)) as [Hlast|Hlast];
      destruct (Nat.eqb_spec i 0) as [Hfirst|Hfirst];
      destruct (Nat.eqb_spec (length fragments) 1) as [Hone|Hone];
      try lia; simpl andb; cbv iota;
      rewrite ?fuHeader_flag by reflexivity; try reflexivity;
      apply land_land_disjoint; reflexivity.
Qed.

(** An instance: five payload bytes cut into three fragments. *)
Lemma packetizeFuA_round_trip_witness :
  exists fragments,
    packetizeFuA (new 4 (mkCodec None None)) [0x65; 1; 2; 3; 4; 5] false false
    = Ok fragments /\
    Z.lor (Z.land (nth 0 (nth 0 fragments []) 0) 0xE0)
          (Z.land (nth 1 (nth 0 fragments []) 0) 0x1F)
    :: concat (map (skipn 2) fragments) = [0x65; 1; 2; 3; 4; 5].
Proof.
  destruct (packetizeFuA_round_trip (new 4 (mkCodec None None)) [0x65; 1; 2; 3; 4; 5])
    as (fragments & Hok & _ & Hdata & _).
  - unfold fuaMax, FU_A_HEADER_SIZE. simpl. lia.
  - vm_compute. lia.
  - unfold blen. simpl. lia.
  - simpl. lia.
  - exists fragments. split; [exact Hok|exact Hdata].
Defined.

(** ** The loops have fuel enough *)

Lemma terminates_Ok {A : Type} (a : A) : terminates (Ok a).
Proof. discriminate. Qed.

Lemma terminates_bind {A B : Type} (m : result A) (k : A -> result B) :
  terminates m ->
  (forall a, m = Ok a -> terminates (k a)) ->
  terminates (bind m k).
Proof.
  intros Hm Hk. destruct m as [a|e]; simpl.
  - apply Hk. reflexivity.
  - intros H. apply Hm. injection H as ->. reflexivity.
Qed.

Lemma terminates_if {A : Type} (c : bool) (x y : result A) :
  terminates x -> terminates y -> terminates (if c then x else y).
Proof. destruct c; tauto. Qed.

Lemma packetizeFuA_terminates (this : H264Repacketizer) (data : Buffer)
    (noStart noEnd : bool) :
  3 <= maxPacketSize this -> terminates (packetizeFuA this data noStart noEnd).
Proof.
  intros HM. destruct (packetizeFuA_bound this data noStart noEnd HM) as (p & -> & _).
  apply terminates_Ok.
Qed.

Lemma writeUInt16BE_terminates (v : Z) : terminates (writeUInt16BE v).
Proof.
  unfold writeUInt16BE. destruct ((0 <=? v) && (v <=? 65535)); discriminate.
Qed.

Lemma stapLoop_terminates (datas : list Buffer) :
  forall availableSize counter stapHeader,
    terminates (stapLoop datas availableSize counter stapHeader).
Proof.
  induction datas as [|nalu rest IH]; intros availableSize counter stapHeader.
  - apply terminates_Ok.
  - rewrite stapLoop_cons. apply terminates_if; [|apply terminates_Ok].
    apply terminates_bind; [apply writeUInt16BE_terminates|]. intros packed _.
    apply terminates_bind; [apply IH|]. intros l _. apply terminates_Ok.
Qed.

Lemma packetizeOneStapA_terminates (this : H264Repacketizer) (datas : list Buffer) :
  terminates (packetizeOneStapA this datas).
Proof.
  unfold packetizeOneStapA. destruct datas as [|first rest]; [discriminate|].
  apply terminates_bind; [apply stapLoop_terminates|]. intros l _.
  destruct (loopCounter l =? 0); [|apply terminates_Ok].
  destruct (loopDatas l); [discriminate|apply terminates_Ok].
Qed.

Lemma packetizeStapALoop_terminates (this : H264Repacketizer) (fuel : nat) :
  forall datas, (length datas <= fuel)%nat ->
                terminates (packetizeStapALoop fuel this datas).
Proof.
  induction fuel as [|fuel IH]; intros datas Hfuel.
  - destruct datas; [apply terminates_Ok|simpl in Hfuel; lia].
  - destruct datas as [|d ds]; [apply terminates_Ok|].
    cbn [packetizeStapALoop].
    apply terminates_bind; [apply packetizeOneStapA_terminates|].
    intros [packet remaining] Hone. cbv beta iota zeta.
    apply terminates_bind; [|intros ret _; apply terminates_Ok].
    apply IH.
    destruct (packetizeOneStapA_spec _ _ _ _ Hone) as ((taken & Hne & Htaken) & _).
    apply (f_equal (@length Buffer)) in Htaken. rewrite length_app in Htaken.
    destruct taken; [contradiction|]. simpl in *. lia.
Qed.

Lemma packetizeStapA_terminates (this : H264Repacketizer) (datas : list Buffer) :
  terminates (packetizeStapA this datas).
Proof. apply packetizeStapALoop_terminates. lia. Qed.

Lemma readUInt16BE_nonneg (data : Buffer) (pos v : Z) :
  Forall (fun b => 0 <= b) data -> readUInt16BE data pos = Ok v -> 0 <= v.
Proof.
  intros Hbytes. unfold readUInt16BE.
  destruct ((0 <=? pos) && (pos + 2 <=? blen data)); [|discriminate].
  intros H. injection H as <-.
  assert (Hnth : forall i, 0 <= nth i data 0).
  { intros i. destruct (Nat.lt_ge_cases i (length data)) as [Hi|Hi].
    - exact (proj1 (Forall_forall _ _) Hbytes _ (nth_In _ _ Hi)).
    - rewrite nth_overflow by exact Hi. lia. }
  pose proof (Hnth (Z.to_nat pos)). pose proof (Hnth (Z.to_nat pos + 1)%nat). lia.
Qed.

Lemma depacketizeLoop_terminates (data : Buffer) :
  Forall (fun b => 0 <= b) data ->
  forall (fuel : nat) (lastPos : option Z) (pos : Z) (ret : list Buffer),
    blen data - pos <= Z.of_nat fuel ->
    terminates (depacketizeLoop fuel data lastPos pos ret).
Proof.
  intros Hbytes. induction fuel as [|fuel IH]; intros lastPos pos ret Hfuel.
  - rewrite depacketizeLoop_done; [apply terminates_Ok|]. apply Z.ltb_ge. lia.
  - destruct (Z.ltb_spec pos (blen data)) as [Hlt|Hge].
    + rewrite depacketizeLoop_step by (apply Z.ltb_lt; exact Hlt).
      apply terminates_bind.
      * unfold readUInt16BE.
        destruct ((0 <=? pos) && (pos + 2 <=? blen data)); discriminate.
      * intros naluSize Hread. apply IH.
        pose proof (readUInt16BE_nonneg _ _ _ Hbytes Hread).
        unfold LENGTH_FIELD_SIZE. lia.
    + rewrite depacketizeLoop_done; [apply terminates_Ok|]. apply Z.ltb_ge. lia.
Qed.

Lemma depacketizeStapA_terminates (data : Buffer) :
  Forall (fun b => 0 <= b) data -> terminates (depacketizeStapA data).
Proof.
  intros Hbytes. apply depacketizeLoop_terminates; [exact Hbytes|].
  unfold blen, NAL_HEADER_SIZE. lia.
Qed.

Lemma createPacket_terminates (this : H264Repacketizer) (rtp : RtpPacket)
    (data : Buffer) (marker : bool) :
  terminates (createPacket this rtp data marker).
Proof.
  unfold createPacket, serialize. destruct (_ && _); discriminate.
Qed.

Lemma createRtpPacketsFrom_terminates (nalus : list Buffer) :
  forall (index total : nat) (this : H264Repacketizer) (packet : RtpPacket)
         (ret : list Serialized) (hadMarker : bool),
    terminates (createRtpPacketsFrom index total this packet nalus ret hadMarker).
Proof.
  induction nalus as [|n rest IH]; intros index total this packet ret hadMarker.
  - apply terminates_Ok.
  - cbn [createRtpPacketsFrom]. cbv zeta.
    apply terminates_bind; [apply createPacket_terminates|].
    intros created _. apply IH.
Qed.

Lemma createRtpPackets_terminates (this : H264Repacketizer) (packet : RtpPacket)
    (nalus : list Buffer) (ret : list Serialized) (hadMarker : bool) :
  terminates (createRtpPackets this packet nalus ret hadMarker).
Proof. apply createRtpPacketsFrom_terminates. Qed.

Lemma stapAForEach_terminates (aggregates : list Buffer) :
  forall (index total : nat) (this : H264Repacketizer) (first : RtpPacket)
         (ret : list Serialized) (hadMarker : bool),
    terminates (stapAForEach index total this first aggregates ret hadMarker).
Proof.
  induction aggregates as [|a rest IH]; intros index total this first ret hadMarker.
  - apply terminates_Ok.
  - cbn [stapAForEach]. cbv zeta.
    apply terminates_bind; [apply createPacket_terminates|].
    intros created _. apply IH.
Qed.

Lemma flushPendingFuA_terminates (this : H264Repacketizer) (ret : list Serialized) :
  3 <= maxPacketSize this -> terminates (flushPendingFuA this ret).
Proof.
  intros HM. unfold flushPendingFuA.
  destruct (pendingFuA this) as [[|first rest]|]; try discriminate.
  apply terminates_if; [apply terminates_Ok|].
  apply terminates_bind; [apply packetizeFuA_terminates; exact HM|].
  intros fragments _.
  apply terminates_bind; [apply createRtpPackets_terminates|].
  intros [this1 ret1] _. apply terminates_Ok.
Qed.

Lemma flushPendingStapA_terminates (this : H264Repacketizer) (ret : list Serialized) :
  terminates (flushPendingStapA this ret).
Proof.
  unfold flushPendingStapA.
  destruct (pendingStapA this) as [[|first rest]|]; try discriminate.
  apply terminates_bind; [apply packetizeStapA_terminates|].
  intros aggregates _. apply terminates_if; [apply terminates_Ok|].
  apply terminates_bind; [apply stapAForEach_terminates|].
  intros made _. apply terminates_Ok.
Qed.

Lemma maybeSendSpsPps_terminates (this : H264Repacketizer) (packet : RtpPacket)
    (ret : list Serialized) :
  terminates (maybeSendSpsPps this packet ret).
Proof.
  unfold maybeSendSpsPps.
  destruct (sps (codecInfo this)); [|apply terminates_Ok].
  destruct (pps (codecInfo this)); [|apply terminates_Ok].
  apply terminates_bind; [apply packetizeStapA_terminates|].
  intros aggregates _. apply terminates_if; [apply terminates_Ok|].
  apply terminates_bind; [apply createRtpPackets_terminates|].
  intros [this1 ret1] _. apply terminates_Ok.
Qed.

Section Termination.

Variables (M : Z) (queued : list Buffer).
Hypothesis M_contract : 3 <= M.

Lemma maybeSendSpsPps_if_size (cond : bool) (this this' : H264Repacketizer)
    (packet : RtpPacket) (ret ret' : list Serialized) :
  (if cond then maybeSendSpsPps this packet ret else Ok (this, ret)) = Ok (this', ret') ->
  sizeInvariant M queued this ret ->
  sizeInvariant M queued this' ret'.
Proof.
  intros H Hinv. destruct cond.
  - exact (maybeSendSpsPps_size M queued _ _ _ _ _ H Hinv).
  - apply Ok_pair_inv in H as [<- <-]. exact Hinv.
Qed.

Lemma repacketizeFuA_terminates (this : H264Repacketizer) (packet : RtpPacket)
    (ret : list Serialized) :
  sizeInvariant M queued this ret ->
  terminates (repacketizeFuA this packet ret).
Proof.
  intros Hinv. unfold repacketizeFuA.
  apply terminates_bind; [apply flushPendingStapA_terminates|].
  intros [this1 ret1] H1. cbv beta iota zeta.
  apply (flushPendingStapA_size M queued) in H1; [|exact Hinv].
  apply terminates_bind;
    [apply terminates_if; [apply maybeSendSpsPps_terminates|apply terminates_Ok]|].
  intros [this2 ret2] H2. cbv beta iota zeta.
  apply (maybeSendSpsPps_if_size _ _ _ _ _ _ H2) in H1.
  assert (HM2 : 3 <= maxPacketSize this2) by (destruct H1 as (Hm & _); lia).
  apply terminates_bind.
  - destruct (pendingFuA this2); [apply terminates_Ok|].
    apply terminates_if; [|apply terminates_Ok].
    apply terminates_bind; [apply packetizeFuA_terminates; exact HM2|].
    intros fragments _. apply createRtpPackets_terminates.
  - intros [this3 ret3] H3. cbv beta iota zeta.
    assert (HM3 : maxPacketSize this3 = maxPacketSize this2).
    { destruct (pendingFuA this2).
      - apply Ok_pair_inv in H3 as [<- <-]. reflexivity.
      - destruct (maxPacketSize this2 * 2 <=? blen (payload packet)).
        + apply bind_Ok in H3 as (fragments & _ & H3). cbv beta in H3.
          destruct (createRtpPackets_spec _ _ _ _ _ _ _ H3) as ((Hm & _) & _).
          exact Hm.
        + apply Ok_pair_inv in H3 as [<- <-]. reflexivity. }
    destruct (pendingFuA this3); [|apply terminates_Ok].
    apply terminates_if; [|apply terminates_Ok].
    apply flushPendingFuA_terminates. state_simpl. lia.
Qed.

Lemma repacketizeStapA_terminates (this : H264Repacketizer) (packet : RtpPacket)
    (ret : list Serialized) :
  Forall (fun b => 0 <= b) (payload packet) ->
  sizeInvariant M queued this ret ->
  terminates (repacketizeStapA this packet ret).
Proof.
  intros Hbytes Hinv. unfold repacketizeStapA.
  apply terminates_bind;
    [apply flushPendingFuA_terminates; destruct Hinv as (Hm & _); lia|].
  intros [this1 ret1] _. cbv beta iota zeta.
  apply terminates_bind; [apply depacketizeStapA_terminates; exact Hbytes|].
  intros nals _. destruct (filterSei this1 nals) as [this2 depacketized].
  apply terminates_bind; [apply packetizeStapA_terminates|].
  intros aggregates _. apply createRtpPackets_terminates.
Qed.

Lemma repacketizeSingle_terminates (this : H264Repacketizer) (packet : RtpPacket)
    (nalType : Z) (ret : list Serialized) :
  sizeInvariant M queued this ret ->
  terminates (repacketizeSingle this packet nalType ret).
Proof.
  intros Hinv. unfold repacketizeSingle.
  apply terminates_bind;
    [apply flushPendingFuA_terminates; destruct Hinv as (Hm & _); lia|].
  intros [this1 ret1] H1. cbv beta iota zeta.
  apply (flushPendingFuA_size M queued M_contract) in H1; [|exact Hinv].
  apply terminates_if; [apply terminates_Ok|].
  apply terminates_bind; [apply flushPendingStapA_terminates|].
  intros [this2 ret2] H2. cbv beta iota zeta.
  apply (flushPendingStapA_size M queued) in H2; [|exact H1].
  apply terminates_if; [apply terminates_Ok|].
  apply terminates_bind;
    [apply terminates_if; [apply maybeSendSpsPps_terminates|apply terminates_Ok]|].
  intros [this3 ret3] H3. cbv beta iota zeta.
  apply (maybeSendSpsPps_if_size _ _ _ _ _ _ H3) in H2.
  apply terminates_if.
  - apply terminates_bind;
      [apply packetizeFuA_terminates; destruct H2 as (Hm & _); lia|].
    intros fragments _. apply createRtpPackets_terminates.
  - apply terminates_bind; [apply createPacket_terminates|].
    intros created _. apply terminates_Ok.
Qed.

End Termination.

(** A call on an instance with [maxPacketSize >= 3] and a payload of
    bytes returns or throws; the fuel of the model's loops is never the
    reason for its result. *)
Lemma repacketize_terminates (this : H264Repacketizer) (packet : RtpPacket) :
  3 <= maxPacketSize this ->
  Forall (fun b => 0 <= b) (payload packet) ->
  terminates (repacketize this packet).
Proof.
  intros HM Hbytes.
  set (M := maxPacketSize this) in *.
  set (queued := pendingPayloads this ++ aggregationInputs packet).
  assert (Hinv : sizeInvariant M queued this []).
  { repeat split; [|constructor]. intros p Hp. apply in_or_app. left. exact Hp. }
  unfold repacketize.
  apply terminates_bind.
  { unfold flushFuAOnTimestamp. destruct (pendingFuA this) as [l|]; [|apply terminates_Ok].
    apply terminates_bind; [unfold headTimestamp; destruct l; discriminate|].
    intros ts _.
    apply terminates_if; [apply flushPendingFuA_terminates; exact HM|apply terminates_Ok]. }
  intros [this1 ret1] H1. cbv beta iota zeta.
  apply (flushOnTimestamp_size M queued _ _ _ _ _ HM (or_introl H1)) in Hinv.
  apply terminates_bind.
  { unfold flushStapAOnTimestamp.
    destruct (pendingStapA this1) as [l|]; [|apply terminates_Ok].
    apply terminates_bind; [unfold headTimestamp; destruct l; discriminate|].
    intros ts _.
    apply terminates_if; [apply flushPendingStapA_terminates|apply terminates_Ok]. }
  intros [this2 ret2] H2. cbv beta iota zeta.
  apply (flushOnTimestamp_size M queued _ _ _ _ _ HM (or_intror H2)) in Hinv.
  apply terminates_if; [exact (repacketizeFuA_terminates M queued HM _ _ _ Hinv)|].
  apply terminates_if; [exact (repacketizeStapA_terminates M queued HM _ _ _ Hbytes Hinv)|].
  apply terminates_if; [exact (repacketizeSingle_terminates M queued HM _ _ _ _ Hinv)|].
  apply terminates_Ok.
Qed.

(** An instance: a truncated STAP-A makes the call throw a [RangeError],
    which is a result of the source and not a lack of fuel. *)
Lemma repacketize_terminates_witness :
  repacketize (new 1200 (mkCodec None None))
    (mkPacket (mkHeader 10 false 100) [0x78; 0])
  = Throw RangeError /\
  terminates
    (repacketize (new 1200 (mkCodec None None))
       (mkPacket (mkHeader 10 false 100) [0x78; 0])).
Proof.
  split; [reflexivity|].
  apply repacketize_terminates.
  - simpl. lia.
  - repeat constructor; lia.
Defined.

(** ** Edge behaviour of [depacketizeStapA] *)

Lemma depacketizeLoop_nonempty (fuel : nat) :
  forall (data : Buffer) (lastPos : option Z) (pos : Z) (ret nals : list Buffer),
    depacketizeLoop fuel data lastPos pos ret = Ok nals -> nals <> [].
Proof.
  induction fuel as [|fuel IH]; intros data lastPos pos ret nals H.
  - destruct (pos <? blen data) eqn:Hlt.
    + simpl in H. rewrite Hlt in H. discriminate.
    + rewrite depacketizeLoop_done in H by exact Hlt.
      injection H as <-. intros E. apply app_eq_nil in E as [_ E]. discriminate.
  - destruct (pos <? blen data) eqn:Hlt.
    + rewrite depacketizeLoop_step in H by exact Hlt.
      apply bind_Ok in H as (v & _ & H). eapply IH. exact H.
    + rewrite depacketizeLoop_done in H by exact Hlt.
      injection H as <-. intros E. apply app_eq_nil in E as [_ E]. discriminate.
Qed.

Lemma readUInt16BE_at (a rest : Buffer) (hi lo : Z) :
  readUInt16BE (a ++ hi :: lo :: rest) (blen a) = Ok (hi * 256 + lo).
Proof.
  unfold readUInt16BE.
  pose proof (blen_nonneg a) as Ha. pose proof (blen_nonneg rest) as Hr.
  destruct (Z.leb_spec 0 (blen a)); [|lia].
  destruct (Z.leb_spec (blen a + 2) (blen (a ++ hi :: lo :: rest))) as [_|Hlt].
  - simpl andb. cbv iota. f_equal. unfold blen. rewrite Nat2Z.id.
    rewrite !app_nth2 by lia.
    rewrite Nat.sub_diag. replace (length a + 1 - length a)%nat with 1%nat by lia.
    reflexivity.
  - rewrite blen_app, !blen_cons in Hlt. lia.
Qed.

Lemma last_cons_default {A : Type} (l : list A) (a d : A) :
  last (a :: l) d = last l a.
Proof.
  revert a d. induction l as [|b l IH]; intros a d; [reflexivity|].
  change (last (a :: b :: l) d) with (last (b :: l) d).
  rewrite !IH. reflexivity.
Qed.

Lemma length_stapFramed (datas : list Buffer) :
  (2 * length datas <= length (concat (stapFramed datas)))%nat.
Proof.
  induction datas as [|d ds IH]; simpl; [lia|].
  rewrite length_app. lia.
Qed.

(** The loop of [depacketizeStapA] once a NAL [prev] has been read, the
    framed NALs [datas] follow it and then [tail]: it arrives at the last
    of these NALs with all the others pushed. *)
Lemma depacketizeLoop_framed_tail (datas : list Buffer) :
  forall (fuel : nat) (before prev : Buffer) (ret : list Buffer) (tail : Buffer),
    (length datas <= fuel)%nat ->
    exists before',
      before' ++ last datas prev = before ++ prev ++ concat (stapFramed datas) /\
      depacketizeLoop fuel (before ++ prev ++ concat (stapFramed datas) ++ tail)
        (Some (blen before)) (blen before + blen prev) ret
      = depacketizeLoop (fuel - length datas) ((before' ++ last datas prev) ++ tail)
          (Some (blen before')) (blen before' + blen (last datas prev))
          (ret ++ removelast (prev :: datas)).
Proof.
  induction datas as [|nalu rest IH]; intros fuel before prev ret tail Hfuel.
  - exists before. cbn [stapFramed flat_map concat app last removelast length].
    rewrite !app_nil_r, Nat.sub_0_r, <- app_assoc.
    split; reflexivity.
  - destruct fuel as [|fuel]; [simpl in Hfuel; lia|].
    set (hi := Z.shiftr (blen nalu) 8). set (lo := Z.land (blen nalu) 255).
    set (more := concat (stapFramed rest)).
    assert (Hdata : before ++ prev ++ concat (stapFramed (nalu :: rest)) ++ tail
                    = (before ++ prev) ++ hi :: lo :: (nalu ++ more ++ tail)).
    { subst hi lo more. unfold stapFramed. cbn [flat_map concat app].
      rewrite <- !app_assoc. reflexivity. }
    assert (Hdata' : (before ++ prev) ++ hi :: lo :: (nalu ++ more ++ tail)
                     = (before ++ prev ++ [hi; lo]) ++ nalu ++ more ++ tail)
      by (rewrite <- !app_assoc; reflexivity).
    pose proof (blen_nonneg nalu) as Hn. pose proof (blen_nonneg more) as Hm.
    pose proof (blen_nonneg tail) as Ht.
    destruct (IH fuel (before ++ prev ++ [hi; lo]) nalu (ret ++ [prev]) tail
                ltac:(simpl in Hfuel; lia)) as (before' & Heq & Hloop).
    exists before'. rewrite last_cons_default. split.
    { rewrite Heq. subst hi lo more. unfold stapFramed. cbn [flat_map concat app].
      rewrite <- !app_assoc. reflexivity. }
    rewrite depacketizeLoop_step.
    2:{ apply Z.ltb_lt. rewrite Hdata, !blen_app, !blen_cons, !blen_app. lia. }
    assert (Hsub : subarray (before ++ prev ++ concat (stapFramed (nalu :: rest)) ++ tail)
                     (blen before) (blen before + blen prev) = prev)
      by apply subarray_app_mid.
    rewrite Hsub.
    assert (Hread : readUInt16BE ((before ++ prev) ++ hi :: lo :: (nalu ++ more ++ tail))
                      (blen (before ++ prev)) = Ok (blen nalu)).
    { rewrite readUInt16BE_at. f_equal. apply uint16_bytes. }
    rewrite Hdata, <- blen_app, Hread. cbv beta iota delta [bind]. rewrite Hdata'.
    replace (blen (before ++ prev) + LENGTH_FIELD_SIZE)
      with (blen (before ++ prev ++ [hi; lo]))
      by (rewrite !blen_app; change (blen [hi; lo]) with 2;
          unfold LENGTH_FIELD_SIZE; lia).
    subst more. rewrite Hloop.
    change (removelast (prev :: nalu :: rest)) with (prev :: removelast (nalu :: rest)).
    replace ((ret ++ [prev]) ++ removelast (nalu :: rest))
      with (ret ++ prev :: removelast (nalu :: rest))
      by (rewrite <- app_assoc; reflexivity).
    reflexivity.
Qed.

(** [depacketizeStapA] on a header byte, the framed NALs [first :: rest]
    and whatever follows them: the state of its loop when it has read up
    to the end of the last of these NALs. *)
Lemma depacketizeStapA_framed_tail (h : Z) (first : Buffer) (rest : list Buffer)
    (tail : Buffer) :
  exists (before' : Buffer) (fuel' : nat),
    before' ++ last rest first = h :: concat (stapFramed (first :: rest)) /\
    (length tail <= fuel')%nat /\
    depacketizeStapA (h :: concat (stapFramed (first :: rest)) ++ tail)
    = depacketizeLoop fuel' ((before' ++ last rest first) ++ tail)
        (Some (blen before')) (blen before' + blen (last rest first))
        (removelast (first :: rest)).
Proof.
  set (hi := Z.shiftr (blen first) 8). set (lo := Z.land (blen first) 255).
  set (more := concat (stapFramed rest)).
  assert (Hpacket : h :: concat (stapFramed (first :: rest)) ++ tail
                    = [h] ++ hi :: lo :: (first ++ more ++ tail)).
  { subst hi lo more. unfold stapFramed. cbn [flat_map concat app].
    rewrite <- !app_assoc. reflexivity. }
  assert (Hpacket' : [h] ++ hi :: lo :: (first ++ more ++ tail)
                     = [h; hi; lo] ++ first ++ more ++ tail) by reflexivity.
  pose proof (blen_nonneg first) as Hf. pose proof (blen_nonneg (first ++ more ++ tail)) as Ht.
  destruct (depacketizeLoop_framed_tail rest
              (length (hi :: lo :: first ++ more ++ tail)) [h; hi; lo] first [] tail)
    as (before' & Heq & Hloop).
  { pose proof (length_stapFramed rest). fold more in H.
    simpl length. rewrite !length_app. lia. }
  exists before', (length (hi :: lo :: first ++ more ++ tail) - length rest)%nat.
  split; [|split].
  - rewrite Heq. subst hi lo more. unfold stapFramed. cbn [flat_map concat app].
    reflexivity.
  - pose proof (length_stapFramed rest) as H. fold more in H.
    simpl length. rewrite !length_app. lia.
  - unfold depacketizeStapA. rewrite Hpacket.
    change (length ([h] ++ hi :: lo :: first ++ more ++ tail))
      with (S (length (hi :: lo :: first ++ more ++ tail))).
    change NAL_HEADER_SIZE with (blen [h]).
    rewrite depacketizeLoop_step.
    2:{ apply Z.ltb_lt. rewrite blen_app, !blen_cons. change (blen [h]) with 1. lia. }
    rewrite readUInt16BE_at. cbv beta iota delta [bind].
    replace (hi * 256 + lo) with (blen first) by (symmetry; apply uint16_bytes).
    rewrite Hpacket'.
    change (blen [h] + LENGTH_FIELD_SIZE) with (blen [h; hi; lo]).
    subst more. rewrite Hloop. reflexivity.
Qed.

(** The loop at a length field with one byte: the read throws. *)
Lemma depacketizeLoop_truncated (fuel : nat) (before : Buffer) (lastPos : option Z)
    (ret : list Buffer) (b : Z) :
  depacketizeLoop (S fuel) (before ++ [b]) lastPos (blen before) ret = Throw RangeError.
Proof.
  pose proof (blen_nonneg before) as Hb.
  rewrite depacketizeLoop_step
    by (apply Z.ltb_lt; rewrite blen_app; change (blen [b]) with 1; lia).
  unfold readUInt16BE.
  destruct (Z.leb_spec (blen before + 2) (blen (before ++ [b]))) as [H|_].
  - rewrite blen_app in H. change (blen [b]) with 1 in H. lia.
  - rewrite andb_false_r. reflexivity.
Qed.

(** The loop at the length field of a NAL that ends the buffer, where the
    field holds at least the number of bytes that follow it. *)
Lemma depacketizeLoop_last (fuel : nat) (before body : Buffer) (lastPos : option Z)
    (ret : list Buffer) (hi lo : Z) :
  blen body <= hi * 256 + lo ->
  depacketizeLoop (S fuel) (before ++ hi :: lo :: body) lastPos (blen before) ret
  = Ok (match lastPos with
        | Some l => ret ++ [subarray (before ++ hi :: lo :: body) l (blen before)]
        | None => ret
        end ++ [body]).
Proof.
  intros Hv.
  pose proof (blen_nonneg before) as Hb. pose proof (blen_nonneg body) as Hy.
  rewrite depacketizeLoop_step
    by (apply Z.ltb_lt; rewrite blen_app, !blen_cons; lia).
  rewrite readUInt16BE_at. cbv beta iota delta [bind].
  rewrite depacketizeLoop_done
    by (apply Z.ltb_ge; rewrite blen_app, !blen_cons; unfold LENGTH_FIELD_SIZE; lia).
  do 3 f_equal.
  replace (before ++ hi :: lo :: body) with ((before ++ [hi; lo]) ++ body)
    by (rewrite <- app_assoc; reflexivity).
  replace (blen before + LENGTH_FIELD_SIZE) with (blen (before ++ [hi; lo]))
    by (rewrite blen_app; reflexivity).
  apply subarrayFrom_app.
Qed.

(** A STAP-A payload that ends one byte into a length field: the read of
    the field throws. *)
Theorem depacketizeStapA_truncated (h b : Z) (nals : list Buffer) :
  depacketizeStapA (h :: concat (stapFramed nals) ++ [b]) = Throw RangeError.
Proof.
  destruct nals as [|first rest]; [reflexivity|].
  destruct (depacketizeStapA_framed_tail h first rest [b])
    as (before' & fuel' & _ & Hfuel & ->).
  destruct fuel' as [|fuel']; [simpl in Hfuel; lia|].
  rewrite <- blen_app. apply depacketizeLoop_truncated.
Qed.

(** The length field of the last NAL is not checked against the buffer:
    when it holds at least the number of bytes that follow, these bytes are
    the last NAL. *)
Theorem depacketizeStapA_last_length (h hi lo : Z) (nals : list Buffer) (body : Buffer) :
  blen body <= hi * 256 + lo ->
  depacketizeStapA (h :: concat (stapFramed nals) ++ hi :: lo :: body)
  = Ok (nals ++ [body]).
Proof.
  intros Hv. destruct nals as [|first rest].
  - unfold depacketizeStapA. cbn [stapFramed flat_map concat app].
    change (length (h :: hi :: lo :: body)) with (S (length (hi :: lo :: body))).
    change (h :: hi :: lo :: body) with ([h] ++ hi :: lo :: body).
    change NAL_HEADER_SIZE with (blen [h]).
    rewrite depacketizeLoop_last by exact Hv. reflexivity.
  - destruct (depacketizeStapA_framed_tail h first rest (hi :: lo :: body))
      as (before' & fuel' & _ & Hfuel & ->).
    destruct fuel' as [|fuel']; [simpl in Hfuel; lia|].
    rewrite <- blen_app, depacketizeLoop_last by exact Hv.
    rewrite <- (app_assoc before'), blen_app, subarray_app_mid.
    rewrite <- last_cons_default with (d := first).
    rewrite <- app_removelast_last by discriminate. reflexivity.
Qed.

(** A well-formed STAP-A payload is taken apart into its NALs. *)
Lemma depacketizeStapA_framed (h : Z) (nals : list Buffer) :
  nals <> [] -> depacketizeStapA (h :: concat (stapFramed nals)) = Ok nals.
Proof.
  intros Hne. destruct nals as [|first rest]; [contradiction|].
  destruct (depacketizeStapA_framed_tail h first rest []) as (before' & fuel' & _ & _ & H).
  rewrite !app_nil_r in H. rewrite H.
  rewrite depacketizeLoop_done by (apply Z.ltb_ge; rewrite blen_app; lia).
  rewrite subarrayFrom_app.
  rewrite <- last_cons_default with (d := first).
  rewrite <- app_removelast_last by discriminate. reflexivity.
Qed.

(** On a buffer without a length field, empty or the header byte alone,
    the loop is not entered and the buffer itself is returned as the one
    NAL; and whatever the buffer, the list returned is never empty. *)
Theorem depacketizeStapA_never_empty (data : Buffer) :
  (blen data <= 1 -> depacketizeStapA data = Ok [data]) /\
  (forall nals, depacketizeStapA data = Ok nals -> nals <> []).
Proof.
  split.
  - intros H. unfold depacketizeStapA.
    rewrite depacketizeLoop_done; [reflexivity|].
    apply Z.ltb_ge. unfold NAL_HEADER_SIZE. lia.
  - intros nals H. eapply depacketizeLoop_nonempty. exact H.
Qed.

Lemma depacketizeStapA_never_empty_witness :
  depacketizeStapA [0x78] = Ok [[0x78]] /\ [[0x78]] <> [].
Proof.
  pose proof (depacketizeStapA_never_empty [0x78]) as [H1 H2].
  assert (H : depacketizeStapA [0x78] = Ok [[0x78]]) by (apply H1; unfold blen; simpl; lia).
  split; [exact H|exact (H2 _ H)].
Defined.

Lemma depacketizeStapA_last_length_witness :
  depacketizeStapA (0x78 :: concat (stapFramed [[0x67; 1]]) ++ 0 :: 9 :: [0x68; 2; 3])
  = Ok ([[0x67; 1]] ++ [[0x68; 2; 3]]).
Proof.
  apply depacketizeStapA_last_length. unfold blen. simpl. lia.
Defined.

(** ** What [packetizeOneStapA] packs *)

(** One step of the header update: the NRI field becomes the larger of
    the two, the F bits are or-ed. *)
Lemma stapHeader_step_bits (h x : Z) :
  let h1 := Z.lor h (Z.land x 0x80) in
  let nri := Z.land x 0x60 in
  let h2 := if Z.land h1 0x60 <? nri then Z.lor (Z.land h1 0x9F) nri else h1 in
  Z.land h2 0x60 = Z.max (Z.land h 0x60) nri /\
  Z.land h2 0x80 = Z.lor (Z.land h 0x80) (Z.land x 0x80).
Proof.
  intros h1 nri h2.
  assert (H60 : Z.land h1 0x60 = Z.land h 0x60).
  { subst h1. rewrite Z.land_lor_distr_l, land_land_disjoint by reflexivity.
    apply Z.lor_0_r. }
  assert (H80 : Z.land h1 0x80 = Z.lor (Z.land h 0x80) (Z.land x 0x80)).
  { subst h1. rewrite Z.land_lor_distr_l, (land_land_absorb x) by reflexivity.
    reflexivity. }
  subst h2. rewrite H60.
  destruct (Z.ltb_spec (Z.land h 0x60) nri) as [Hlt|Hge].
  - rewrite !Z.land_lor_distr_l. subst nri.
    rewrite (land_land_disjoint h1 0x9F 0x60) by reflexivity.
    rewrite (land_land_absorb x 0x60 0x60) by reflexivity.
    rewrite (land_land_disjoint x 0x60 0x80) by reflexivity.
    rewrite Z.lor_0_l, Z.lor_0_r, <- Z.land_assoc.
    change (Z.land 0x9F 0x80) with 0x80. rewrite H80.
    split; [lia|reflexivity].
  - rewrite H60, H80. split; [lia|reflexivity].
Qed.

Lemma maxNri_nonneg (nals : list Buffer) : 0 <= maxNri nals.
Proof.
  induction nals as [|n rest IH]; cbn [maxNri fold_right]; [lia|].
  fold (maxNri rest). lia.
Qed.

(** The NALs [taken] by the aggregation loop: what is left is the rest of
    the queue, the payload is their framing, the counter counts them and
    stays within 9, they passed the admission test one after the other,
    their lengths fit a length field, the header carries their largest NRI
    and their F bits, and the loop stopped for one of its three reasons. *)
Ltac stapLoop_none_taken stapHeader :=
  exists [];
  cbn [loopDatas loopPayload loopCounter loopHeader length app stapFramed flat_map
       stapFits maxNri anyF fold_right];
  rewrite Z.lor_0_r;
  assert (0 <= Z.land stapHeader 0x60) by (apply Z.land_nonneg; right; lia);
  split; [reflexivity|]; split; [reflexivity|]; split; [lia|]; split; [lia|];
  split; [reflexivity|]; split; [constructor|]; split; [lia|]; split; [reflexivity|].

Lemma stapLoop_taken (datas : list Buffer) :
  forall availableSize counter stapHeader l,
    stapLoop datas availableSize counter stapHeader = Ok l ->
    exists taken,
      datas = taken ++ loopDatas l /\
      loopPayload l = stapFramed taken /\
      loopCounter l = counter + Z.of_nat (length taken) /\
      (counter <= 9 -> loopCounter l <= 9) /\
      stapFits availableSize taken = true /\
      Forall (fun n => blen n <= 65535) taken /\
      Z.land (loopHeader l) 0x60 = Z.max (Z.land stapHeader 0x60) (maxNri taken) /\
      Z.land (loopHeader l) 0x80 = Z.lor (Z.land stapHeader 0x80) (anyF taken) /\
      match loopDatas l with
      | [] => True
      | next :: _ => 9 <= loopCounter l \/ stapFits availableSize (taken ++ [next]) = false
      end.
Proof.
  induction datas as [|nalu rest IH]; intros availableSize counter stapHeader l Hl.
  - simpl in Hl. injection Hl as <-. stapLoop_none_taken stapHeader. exact I.
  - rewrite stapLoop_cons in Hl.
    destruct (Z.leb_spec (blen nalu + LENGTH_FIELD_SIZE) availableSize) as [Hfit|Hno];
      destruct (Z.ltb_spec counter 9) as [Hc|Hc]; cbn [andb] in Hl.
    2,3,4: injection Hl as <-; stapLoop_none_taken stapHeader.
    + (* the front NAL is taken *)
      unfold writeUInt16BE in Hl.
      destruct ((0 <=? blen nalu) && (blen nalu <=? 65535)) eqn:Hw; [|discriminate].
      apply andb_prop in Hw as [_ Hw]. apply Z.leb_le in Hw.
      cbv beta iota delta [bind] in Hl.
      match type of Hl with
      | match stapLoop rest ?a ?c ?h with _ => _ end = _ =>
        destruct (stapLoop rest a c h) as [l'|e] eqn:Hrec; [|discriminate]
      end.
      injection Hl as <-.
      destruct (IH _ _ _ _ Hrec)
        as (taken & Hdatas & Hpay & Hcount & Hcap & Hfits & Hsmall & Hnri & Hf & Hstop).
      destruct (stapHeader_step_bits stapHeader (nth 0 nalu 0)) as [Hstep60 Hstep80].
      cbv zeta in Hstep60, Hstep80. unfold byteAnd in Hnri, Hf.
      exists (nalu :: taken).
      cbn [loopDatas loopPayload loopCounter loopHeader].
      split; [rewrite Hdatas at 1; reflexivity|].
      split; [rewrite Hpay; reflexivity|].
      split; [rewrite Hcount; simpl length; lia|].
      split; [intros _; apply Hcap; lia|].
      split.
      { cbn [stapFits]. rewrite Hfits.
        destruct (Z.leb_spec (blen nalu + LENGTH_FIELD_SIZE) availableSize); [reflexivity|lia]. }
      split; [constructor; assumption|].
      split.
      { rewrite Hnri, Hstep60. cbn [maxNri fold_right]. fold (maxNri taken).
        unfold byteAnd. symmetry. apply Z.max_assoc. }
      split.
      { rewrite Hf, Hstep80. cbn [anyF fold_right]. fold (anyF taken).
        unfold byteAnd. rewrite Z.lor_assoc. reflexivity. }
      destruct (loopDatas l') as [|next more]; [exact I|].
      destruct Hstop as [Hstop|Hstop]; [left; exact Hstop|right].
      cbn [app stapFits]. rewrite Hstop. apply andb_false_r.
    + left. lia.
    + right. cbn [app stapFits].
      destruct (Z.leb_spec (blen nalu + LENGTH_FIELD_SIZE) availableSize); [lia|reflexivity].
    + left. lia.
Qed.

(** The two results of [packetizeOneStapA]: the front NAL, raw, when it
    fails the admission test; otherwise a header byte followed by the
    framing of the NALs taken. *)
Lemma packetizeOneStapA_shape (this : H264Repacketizer) (datas : list Buffer)
    (packet : Buffer) (remaining : list Buffer) :
  packetizeOneStapA this datas = Ok (packet, remaining) ->
  (datas = packet :: remaining /\ stapFallback (maxPacketSize this) packet) \/
  (exists h taken,
     taken <> [] /\
     datas = taken ++ remaining /\
     packet = h :: concat (stapFramed taken) /\
     (length taken <= 9)%nat /\
     stapFits (maxPacketSize this - STAP_A_HEADER_SIZE) taken = true /\
     Forall (fun n => blen n <= 65535) taken /\
     Z.land h 0x1F = NAL_TYPE_STAP_A /\
     Z.land h 0x60 = maxNri taken /\
     Z.land h 0x80 = anyF taken /\
     match remaining with
     | [] => True
     | next :: _ =>
       length taken = 9%nat \/
       stapFits (maxPacketSize this - STAP_A_HEADER_SIZE) (taken ++ [next]) = false
     end).
Proof.
  unfold packetizeOneStapA. destruct datas as [|first rest]; [discriminate|].
  set (availableSize := maxPacketSize this - STAP_A_HEADER_SIZE).
  set (stapHeader := Z.lor NAL_TYPE_STAP_A (byteAnd first 0 0xE0)).
  destruct (stapLoop (first :: rest) availableSize 0 stapHeader) as [l|e] eqn:Hl;
    [|discriminate].
  cbv beta iota delta [bind].
  destruct (stapLoop_taken _ _ _ _ _ Hl)
    as (taken & Hdatas & Hpay & Hcount & Hcap & Hfits & Hsmall & Hnri & Hf & Hstop).
  assert (Htype : Z.land (loopHeader l) 0x1F = NAL_TYPE_STAP_A).
  { eapply stapLoop_header; [exact Hl|].
    subst stapHeader. unfold byteAnd.
    rewrite Z.land_lor_distr_l, land_land_disjoint by reflexivity. reflexivity. }
  destruct (Z.eqb_spec (loopCounter l) 0) as [Hc|Hc].
  - destruct taken as [|t taken]; [|simpl length in Hcount; lia].
    cbn [app] in Hdatas. rewrite <- Hdatas in *.
    intros H. injection H as <- <-. left. split; [reflexivity|].
    destruct Hstop as [Hstop|Hstop]; [lia|].
    cbn [app stapFits] in Hstop. rewrite andb_true_r in Hstop.
    apply Z.leb_gt in Hstop. exact Hstop.
  - intros H. injection H as <- <-. right.
    destruct taken as [|t taken]; [simpl length in Hcount; lia|].
    injection Hdatas as <- Hrest.
    exists (loopHeader l), (first :: taken).
    split; [discriminate|].
    split; [rewrite Hrest at 1; reflexivity|].
    split; [rewrite Hpay; reflexivity|].
    split; [specialize (Hcap ltac:(lia)); lia|].
    split; [exact Hfits|].
    split; [exact Hsmall|].
    split; [exact Htype|].
    split.
    { rewrite Hnri. subst stapHeader. unfold byteAnd.
      rewrite Z.land_lor_distr_l, <- Z.land_assoc.
      change (Z.land 0xE0 0x60) with 0x60.
      change (Z.land NAL_TYPE_STAP_A 96) with 0. rewrite Z.lor_0_l.
      cbn [maxNri fold_right]. unfold byteAnd.
      rewrite Z.max_assoc, Z.max_id. reflexivity. }
    split.
    { rewrite Hf. subst stapHeader. unfold byteAnd.
      rewrite Z.land_lor_distr_l, <- Z.land_assoc.
      change (Z.land 0xE0 0x80) with 0x80.
      change (Z.land NAL_TYPE_STAP_A 128) with 0. rewrite Z.lor_0_l.
      cbn [anyF fold_right]. unfold byteAnd.
      rewrite Z.lor_assoc, Z.lor_diag. reflexivity. }
    destruct (loopDatas l) as [|next more]; [exact I|].
    destruct Hstop as [Hstop|Hstop]; [left|right; exact Hstop].
    specialize (Hcap ltac:(lia)). lia.
Qed.

(** [packetizeOneStapA] takes between one and nine NALs off the front of
    the queue, and as many as it can: it stops at the end of the queue,
    at nine NALs, or at the first NAL that fails the admission test
    against what is left of the budget [maxPacketSize - 3]. *)
Theorem packetizeOneStapA_greedy (this : H264Repacketizer) (datas : list Buffer)
    (packet : Buffer) (remaining : list Buffer) :
  packetizeOneStapA this datas = Ok (packet, remaining) ->
  exists taken,
    datas = taken ++ remaining /\
    (1 <= length taken <= 9)%nat /\
    match remaining with
    | [] => True
    | next :: _ =>
      length taken = 9%nat \/
      stapFits (maxPacketSize this - STAP_A_HEADER_SIZE) (taken ++ [next]) = false
    end.
Proof.
  intros H. destruct (packetizeOneStapA_shape _ _ _ _ H)
    as [[Hd Hfall]|(h & taken & Hne & Hd & _ & Hcap & _ & _ & _ & _ & _ & Hstop)].
  - exists [packet]. split; [exact Hd|]. split; [simpl; lia|].
    destruct remaining as [|next more]; [exact I|right].
    cbn [app stapFits]. unfold stapFallback in Hfall.
    destruct (Z.leb_spec (blen packet + LENGTH_FIELD_SIZE)
                (maxPacketSize this - STAP_A_HEADER_SIZE)); [lia|reflexivity].
  - exists taken. split; [exact Hd|]. split; [|exact Hstop].
    destruct taken; [contradiction|simpl length in *; lia].
Qed.

Lemma packetizeOneStapA_greedy_witness :
  exists taken,
    [[0x67; 1; 2]; [0x68; 3]; [0x65; 4; 5; 6]] = taken ++ [[0x65; 4; 5; 6]] /\
    (1 <= length taken <= 9)%nat /\
    (length taken = 9%nat \/
     stapFits (maxPacketSize (new 12 (mkCodec None None)) - STAP_A_HEADER_SIZE)
       (taken ++ [[0x65; 4; 5; 6]]) = false).
Proof.
  apply (packetizeOneStapA_greedy (new 12 (mkCodec None None))
           [[0x67; 1; 2]; [0x68; 3]; [0x65; 4; 5; 6]]
           [0x78; 0; 3; 0x67; 1; 2; 0; 2; 0x68; 3] [[0x65; 4; 5; 6]]).
  reflexivity.
Defined.

(** The header byte of an aggregate: type 24, the largest NRI of the NALs
    packed, and their F bits or-ed together. *)
Theorem packetizeOneStapA_header (this : H264Repacketizer) (first : Buffer)
    (rest : list Buffer) (packet : Buffer) (remaining : list Buffer) :
  blen first + LENGTH_FIELD_SIZE <= maxPacketSize this - STAP_A_HEADER_SIZE ->
  packetizeOneStapA this (first :: rest) = Ok (packet, remaining) ->
  exists taken,
    first :: rest = taken ++ remaining /\
    byteAnd packet 0 0x1F = NAL_TYPE_STAP_A /\
    byteAnd packet 0 0x60 = maxNri taken /\
    byteAnd packet 0 0x80 = anyF taken.
Proof.
  intros Hfit H. destruct (packetizeOneStapA_shape _ _ _ _ H)
    as [[Hd Hfall]|(h & taken & _ & Hd & -> & _ & _ & _ & Htype & Hnri & Hf & _)].
  - injection Hd as <- _. unfold stapFallback in Hfall. lia.
  - exists taken. unfold byteAnd. cbn [nth]. repeat split; assumption.
Qed.

Lemma packetizeOneStapA_header_witness :
  exists taken,
    [[0x27; 1; 2]; [0xC8; 3]] = taken ++ [] /\
    byteAnd [0xD8; 0; 3; 0x27; 1; 2; 0; 2; 0xC8; 3] 0 0x1F = NAL_TYPE_STAP_A /\
    byteAnd [0xD8; 0; 3; 0x27; 1; 2; 0; 2; 0xC8; 3] 0 0x60 = maxNri taken /\
    byteAnd [0xD8; 0; 3; 0x27; 1; 2; 0; 2; 0xC8; 3] 0 0x80 = anyF taken.
Proof.
  apply (packetizeOneStapA_header (new 1200 (mkCodec None None))
           [0x27; 1; 2] [[0xC8; 3]]).
  - unfold blen. simpl. lia.
  - reflexivity.
Defined.

(** ** [packetizeStapA] and [depacketizeStapA] *)

(** When no NAL of the queue overflows a length field, [packetizeStapA]
    returns. *)
Lemma packetizeStapALoop_returns (this : H264Repacketizer) (fuel : nat) :
  forall datas : list Buffer,
    (length datas <= fuel)%nat ->
    Forall (fun n => blen n <= 65535) datas ->
    exists aggregates, packetizeStapALoop fuel this datas = Ok aggregates.
Proof.
  induction fuel as [|fuel IH]; intros datas Hfuel Hsmall.
  - destruct datas; [|simpl in Hfuel; lia]. exists []. reflexivity.
  - destruct datas as [|d ds]; [exists []; reflexivity|].
    cbn [packetizeStapALoop].
    assert (Hone : exists packet remaining,
               packetizeOneStapA this (d :: ds) = Ok (packet, remaining)).
    { unfold packetizeOneStapA.
      destruct (stapLoop_returns _ Hsmall (maxPacketSize this - STAP_A_HEADER_SIZE) 0
                  (Z.lor NAL_TYPE_STAP_A (byteAnd d 0 0xE0))) as (l & Hl).
      rewrite Hl. cbv beta iota delta [bind].
      destruct (Z.eqb_spec (loopCounter l) 0) as [Hc|Hc].
      - destruct (stapLoop_spec _ _ _ _ _ Hl) as (_ & _ & Hnone & _).
        destruct (Hnone Hc) as [-> _]. eexists. eexists. reflexivity.
      - eexists. eexists. reflexivity. }
    destruct Hone as (packet & remaining & Hone). rewrite Hone.
    cbv beta iota delta [bind].
    destruct (packetizeOneStapA_spec _ _ _ _ Hone) as ((taken & Hne & Htaken) & _).
    destruct (IH remaining) as (ret & Hret).
    + apply (f_equal (@length (list Z))) in Htaken. rewrite length_app in Htaken.
      destruct taken; [contradiction|]. simpl length in *. lia.
    + rewrite Htaken in Hsmall. apply Forall_app in Hsmall. apply Hsmall.
    + rewrite Hret. eexists. reflexivity.
Qed.

(** The aggregates of a queue in which every NAL passes the admission
    test on its own: each is taken apart again into the NALs it packed. *)
Lemma packetizeStapALoop_round_trip (this : H264Repacketizer) (fuel : nat) :
  forall datas aggregates : list Buffer,
    Forall (fun n => blen n + LENGTH_FIELD_SIZE <= maxPacketSize this - STAP_A_HEADER_SIZE)
      datas ->
    packetizeStapALoop fuel this datas = Ok aggregates ->
    exists groups,
      concat groups = datas /\
      Forall2 (fun a g => depacketizeStapA a = Ok g /\
                          (1 <= length g <= 9)%nat /\
                          blen a <= maxPacketSize this) aggregates groups.
Proof.
  induction fuel as [|fuel IH]; intros datas aggregates Hfit H.
  - destruct datas; simpl in H; [|discriminate].
    injection H as <-. exists []. split; [reflexivity|constructor].
  - destruct datas as [|d ds]; cbn [packetizeStapALoop] in H.
    + injection H as <-. exists []. split; [reflexivity|constructor].
    + destruct (packetizeOneStapA this (d :: ds)) as [[packet remaining]|e] eqn:Hone;
        [|discriminate].
      cbv beta iota delta [bind] in H.
      destruct (packetizeStapALoop fuel this remaining) as [ret|e] eqn:Hrec;
        [|discriminate].
      injection H as <-.
      assert (Hd : blen d + LENGTH_FIELD_SIZE <= maxPacketSize this - STAP_A_HEADER_SIZE)
        by (inversion Hfit; assumption).
      destruct (packetizeOneStapA_spec _ _ _ _ Hone) as (_ & Hsize).
      destruct (packetizeOneStapA_shape _ _ _ _ Hone)
        as [[Hq Hfall]|(h & taken & Hne & Htaken & Hpacket & Hcap & _)].
      { injection Hq as <- _. unfold stapFallback in Hfall. lia. }
      destruct Hsize as [Hsize|[Hq Hfall]].
      2:{ injection Hq as <- _. unfold stapFallback in Hfall. lia. }
      destruct (IH remaining ret) as (groups & Hcat & Hall); [|exact Hrec|].
      { rewrite Htaken in Hfit. apply Forall_app in Hfit. apply Hfit. }
      exists (taken :: groups). split.
      * cbn [concat]. rewrite Hcat. symmetry. exact Htaken.
      * constructor; [|exact Hall].
        split; [rewrite Hpacket; apply depacketizeStapA_framed; exact Hne|].
        split; [|exact Hsize].
        destruct taken; [contradiction|simpl length in *; lia].
Qed.

(** Aggregation loses nothing and keeps the order: for a queue of NALs
    that each pass the admission test on their own and fit a length field,
    [packetizeStapA] returns, every aggregate fits [maxPacketSize] and
    holds between one and nine NALs, and taking the aggregates apart with
    [depacketizeStapA] gives the queue back. *)
Theorem packetizeStapA_round_trip (this : H264Repacketizer) (datas : list Buffer) :
  Forall (fun n => blen n + LENGTH_FIELD_SIZE <= maxPacketSize this - STAP_A_HEADER_SIZE /\
                   blen n <= 65535) datas ->
  exists aggregates groups,
    packetizeStapA this datas = Ok aggregates /\
    concat groups = datas /\
    Forall2 (fun a g => depacketizeStapA a = Ok g /\
                        (1 <= length g <= 9)%nat /\
                        blen a <= maxPacketSize this) aggregates groups.
Proof.
  intros H.
  assert (Hfit : Forall (fun n => blen n + LENGTH_FIELD_SIZE
                                  <= maxPacketSize this - STAP_A_HEADER_SIZE) datas)
    by (eapply Forall_impl; [|exact H]; intros n [Hn _]; exact Hn).
  assert (Hsmall : Forall (fun n => blen n <= 65535) datas)
    by (eapply Forall_impl; [|exact H]; intros n [_ Hn]; exact Hn).
  destruct (packetizeStapALoop_returns this (length datas) datas (le_n _) Hsmall)
    as (aggregates & Hagg).
  destruct (packetizeStapALoop_round_trip this _ _ _ Hfit Hagg) as (groups & Hcat & Hall).
  exists aggregates, groups. repeat split; assumption.
Qed.

(** An instance: three NALs for [maxPacketSize = 12] go into two aggregates. *)
Lemma packetizeStapA_round_trip_witness :
  exists aggregates groups,
    packetizeStapA (new 12 (mkCodec None None)) [[0x67; 1; 2]; [0x68; 3]; [0x65; 4; 5; 6]]
    = Ok aggregates /\
    concat groups = [[0x67; 1; 2]; [0x68; 3]; [0x65; 4; 5; 6]] /\
    Forall2 (fun a g => depacketizeStapA a = Ok g /\
                        (1 <= length g <= 9)%nat /\
                        blen a <= maxPacketSize (new 12 (mkCodec None None)))
      aggregates groups.
Proof.
  apply (packetizeStapA_round_trip (new 12 (mkCodec None None))
           [[0x67; 1; 2]; [0x68; 3]; [0x65; 4; 5; 6]]).
  repeat constructor; unfold blen; simpl; lia.
Defined.

(** ** Headers of the packets [createRtpPackets] makes *)

(** The packet made of chunk [j]: its sequence number is that of the
    template moved by [extraPackets], which has counted every chunk before
    it but the first; the marker is [hadMarker] on the last chunk. *)
Lemma createRtpPacketsFrom_nth (nalus : list Buffer) :
  forall (index total : nat) (this : H264Repacketizer) (packet : RtpPacket)
         (ret : list Serialized) (hadMarker : bool)
         (this' : H264Repacketizer) (ret' : list Serialized),
    createRtpPacketsFrom index total this packet nalus ret hadMarker = Ok (this', ret') ->
    exists new,
      ret' = ret ++ new /\
      length new = length nalus /\
      forall (j : nat) (n : Buffer),
        nth_error nalus j = Some n ->
        nth_error new j =
        Some (mkPacket
                (mkHeader
                   (Z.rem (sequenceNumber (header packet)
                           + (extraPackets this + Z.of_nat j
                              + if Nat.eqb index 0 then 0 else 1)
                           + 0x10000) 0x10000)
                   (hadMarker && Nat.eqb (index + j) (total - 1))
                   (timestamp (header packet)))
                n).
Proof.
  induction nalus as [|n0 rest IH];
    intros index total this packet ret hadMarker this' ret' Hcall.
  - cbn [createRtpPacketsFrom] in Hcall. apply Ok_pair_inv in Hcall as [_ <-].
    exists []. rewrite app_nil_r.
    split; [reflexivity|]. split; [reflexivity|].
    intros j n H. destruct j; discriminate H.
  - cbn [createRtpPacketsFrom] in Hcall. cbv zeta in Hcall.
    set (this1 := if Nat.eqb index 0 then this
                  else setExtraPackets this (extraPackets this + 1)) in *.
    destruct (createPacket this1 packet n0 _) as [created|e] eqn:Hmade;
      cbv beta iota delta [bind] in Hcall; [|discriminate].
    apply createPacket_Ok in Hmade as [_ Hmade].
    destruct (IH _ _ _ _ _ _ _ _ Hcall) as (new & Hret & Hlen & Hnth).
    exists (created :: new).
    split; [rewrite Hret, <- app_assoc; reflexivity|].
    split; [simpl length; rewrite Hlen; reflexivity|].
    assert (Hextra : extraPackets this1
                     = extraPackets this + if Nat.eqb index 0 then 0 else 1)
      by (subst this1; destruct (Nat.eqb index 0); simpl extraPackets; lia).
    intros [|j] n H.
    + cbn [nth_error] in *. injection H as <-.
      rewrite Hmade, Hextra, Nat.add_0_r.
      do 4 f_equal. lia.
    + cbn [nth_error] in *. rewrite (Hnth j n H), Hextra.
      cbn [Nat.eqb]. rewrite Nat.add_succ_r. cbn [Nat.add].
      do 4 f_equal. lia.
Qed.

(** No packet fails to serialize when the number of the first is the sum
    of a sequence number and an [extraPackets] of at least -65536: the
    counter only goes up from chunk to chunk. *)
Lemma createRtpPacketsFrom_fits (nalus : list Buffer) :
  forall (index total : nat) (this : H264Repacketizer) (packet : RtpPacket)
         (ret : list Serialized) (hadMarker : bool),
    0 <= sequenceNumber (header packet) + extraPackets this + 0x10000 ->
    exists r, createRtpPacketsFrom index total this packet nalus ret hadMarker = Ok r.
Proof.
  induction nalus as [|n0 rest IH]; intros index total this packet ret hadMarker Hfits.
  - eexists. reflexivity.
  - cbn [createRtpPacketsFrom]. cbv zeta.
    set (this1 := if Nat.eqb index 0 then this
                  else setExtraPackets this (extraPackets this + 1)).
    assert (Hfits1 : 0 <= sequenceNumber (header packet) + extraPackets this1 + 0x10000)
      by (subst this1; destruct (Nat.eqb index 0); simpl extraPackets; lia).
    rewrite (createPacket_fits this1 packet n0 _ Hfits1).
    cbv beta iota delta [bind]. apply IH. exact Hfits1.
Qed.

(** What [createRtpPackets] has done when it returns. *)
Lemma createRtpPackets_emitted (this this' : H264Repacketizer) (packet : RtpPacket)
    (nalus : list Buffer) (ret ret' : list Serialized) (hadMarker : bool) :
  createRtpPackets this packet nalus ret hadMarker = Ok (this', ret') ->
  this' = setExtraPackets this
            (extraPackets this + Z.max 0 (Z.of_nat (length nalus) - 1)) /\
  exists new, ret' = ret ++ new /\ emitted this packet hadMarker nalus new.
Proof.
  intros Hcall.
  destruct (createRtpPacketsFrom_nth _ _ _ _ _ _ _ _ _ Hcall)
    as (new & Hret & Hlen & Hnth).
  destruct (createRtpPackets_spec _ _ _ _ _ _ _ Hcall)
    as ((Hm & Hc & Hs & Hf & Hseen) & Hextra & _).
  split.
  - destruct this'. unfold setExtraPackets. cbn in *. congruence.
  - exists new. split; [exact Hret|]. split; [exact Hlen|].
    intros j n H. rewrite (Hnth j n H). unfold emittedHeader. cbn [Nat.eqb Nat.add].
    do 4 f_equal. lia.
Qed.

(** [createRtpPackets] returns when the first number can be serialized. *)
Lemma createRtpPackets_returns (this : H264Repacketizer) (packet : RtpPacket)
    (nalus : list Buffer) (ret : list Serialized) (hadMarker : bool) :
  0 <= sequenceNumber (header packet) + extraPackets this + 0x10000 ->
  exists new,
    createRtpPackets this packet nalus ret hadMarker
    = Ok (setExtraPackets this
            (extraPackets this + Z.max 0 (Z.of_nat (length nalus) - 1)),
          ret ++ new) /\
    emitted this packet hadMarker nalus new.
Proof.
  intros Hfits.
  destruct (createRtpPacketsFrom_fits nalus 0 (length nalus) this packet ret hadMarker
              Hfits) as ([this' ret'] & Hcall).
  destruct (createRtpPackets_emitted _ _ _ _ _ _ _ Hcall) as (-> & new & -> & Hemitted).
  exists new. split; [exact Hcall|exact Hemitted].
Qed.

(** Provided the sequence number of the template and [extraPackets] add
    up to at least -65536, so that every packet can be serialized,
    [createRtpPackets] appends one packet per chunk, in order.  Packet [j]
    carries chunk [j], the timestamp of the template, the sequence number
    [(seq + extraPackets + j + 0x10000) % 0x10000] and the marker
    [hadMarker] when it is the last one, no marker otherwise.  Nothing of
    the state changes but [extraPackets], which ends up higher by the
    number of chunks after the first. *)
Theorem createRtpPackets_numbering (this : H264Repacketizer) (packet : RtpPacket)
    (nalus : list Buffer) (ret : list Serialized) (hadMarker : bool) :
  0 <= sequenceNumber (header packet) + extraPackets this + 0x10000 ->
  exists new,
    createRtpPackets this packet nalus ret hadMarker
    = Ok (setExtraPackets this
            (extraPackets this + Z.max 0 (Z.of_nat (length nalus) - 1)),
          ret ++ new) /\
    length new = length nalus /\
    forall (j : nat) (n : Buffer),
      nth_error nalus j = Some n ->
      nth_error new j =
      Some (mkPacket
              (mkHeader
                 (Z.rem (sequenceNumber (header packet) + extraPackets this
                         + Z.of_nat j + 0x10000) 0x10000)
                 (hadMarker && Nat.eqb j (length nalus - 1))
                 (timestamp (header packet)))
              n).
Proof.
  intros Hfits.
  destruct (createRtpPackets_returns this packet nalus ret hadMarker Hfits)
    as (new & Hret & Hlen & Hnth).
  exists new. split; [exact Hret|]. split; [exact Hlen|exact Hnth].
Qed.

(** An instance: three chunks after five dropped packets, on a template
    with sequence number 3 and the marker. *)
Lemma createRtpPackets_numbering_witness :
  exists made,
    createRtpPackets (setExtraPackets (new 1200 (mkCodec None None)) (-5))
      (mkPacket (mkHeader 3 true 90) [0x65; 1; 2; 3]) [[1]; [2]; [3]] [] true
    = Ok (setExtraPackets (setExtraPackets (new 1200 (mkCodec None None)) (-5))
            (extraPackets (setExtraPackets (new 1200 (mkCodec None None)) (-5))
             + Z.max 0 (Z.of_nat (length [[1]; [2]; [3]]) - 1)),
          [] ++ made) /\
    length made = length [[1]; [2]; [3]] /\
    forall (j : nat) (n : Buffer),
      nth_error [[1]; [2]; [3]] j = Some n ->
      nth_error made j =
      Some (mkPacket
              (mkHeader
                 (Z.rem (sequenceNumber (header (mkPacket (mkHeader 3 true 90)
                                                   [0x65; 1; 2; 3]))
                         + extraPackets
                             (setExtraPackets (new 1200 (mkCodec None None)) (-5))
                         + Z.of_nat j + 0x10000) 0x10000)
                 (true && Nat.eqb j (length [[1]; [2]; [3]] - 1))
                 (timestamp (header (mkPacket (mkHeader 3 true 90) [0x65; 1; 2; 3]))))
              n).
Proof.
  apply (createRtpPackets_numbering
           (setExtraPackets (new 1200 (mkCodec None None)) (-5))
           (mkPacket (mkHeader 3 true 90) [0x65; 1; 2; 3]) [[1]; [2]; [3]] [] true).
  simpl. lia.
Defined.

(** ** The fragments of [packetizeFuA] *)

(** A single bit of a number, masked out, is that bit or nothing. *)
Lemma land_pow2 (x n : Z) :
  0 <= n -> Z.land x (2 ^ n) = 0 \/ Z.land x (2 ^ n) = 2 ^ n.
Proof.
  intros Hn. destruct (Z.testbit x n) eqn:E; [right|left];
    apply Z.bits_inj'; intros m Hm;
    rewrite Z.land_spec, ?Z.bits_0, Z.pow2_bits_eqb by lia;
    destruct (Z.eqb_spec n m) as [<-|]; rewrite ?E, ?andb_false_r; reflexivity.
Qed.

(** The fragments of a payload once [fuaNormalize] has turned it into the
    NAL [d]: their number, their contents, their sizes, and the two FU
    bytes of each. *)
Lemma packetizeFuA_fragments (this : H264Repacketizer) (data : Buffer)
    (noStart noEnd : bool) (d : Buffer) (ns ne : bool) :
  fuaNormalize data noStart noEnd = (d, ns, ne) ->
  1 <= fuaMax this ->
  1 <= blen d - 1 ->
  exists fragments,
    packetizeFuA this data noStart noEnd = Ok fragments /\
    Z.of_nat (length fragments) = ceilDiv (blen d - 1) (fuaMax this) /\
    (1 <= length fragments)%nat /\
    concat (map (skipn 2) fragments) = skipn 1 d /\
    forall i, (i < length fragments)%nat ->
      FU_A_HEADER_SIZE < blen (nth i fragments []) <= maxPacketSize this /\
      nth 0 (nth i fragments []) 0
      = Z.lor (byteAnd d 0 (Z.lor 0x80 0x60)) NAL_TYPE_FU_A /\
      nth 1 (nth i fragments []) 0
      = if Nat.eqb i (length fragments - 1)
        then (if ne then byteAnd d 0 0x1F else Z.lor (byteAnd d 0 0x1F) 0x40)
        else if Nat.eqb i 0
             then (if ns then byteAnd d 0 0x1F else Z.lor (byteAnd d 0 0x1F) 0x80)
             else byteAnd d 0 0x1F.
Proof.
  intros Hnorm Hf Hp.
  destruct (packetizeFuA_normalized this data noStart noEnd _ _ _ Hnorm Hf Hp)
    as (fragments & Hok & Hlen & Hsz & Hcat & Hhd).
  destruct (fua_sizes _ _ Hp Hf) as (Hn & Hq & Hm & _ & Hfit).
  cbv zeta in Hn, Hq, Hm, Hfit.
  unfold NAL_HEADER_SIZE in Hlen, Hsz, Hhd, Hcat.
  set (n := ceilDiv (blen d - 1) (fuaMax this)) in *.
  set (ind := Z.lor (byteAnd d 0 (Z.lor 0x80 0x60)) NAL_TYPE_FU_A) in *.
  set (nal := byteAnd d 0 0x1F) in *.
  rewrite <- Hlen in Hhd, Hsz.
  exists fragments. split; [exact Hok|].
  split; [rewrite Hlen; apply Z2Nat.id; lia|].
  split; [lia|]. split; [exact Hcat|].
  intros i Hi. specialize (Hhd i Hi). specialize (Hsz i Hi).
  split.
  { unfold fuaMax, FU_A_HEADER_SIZE in *.
    destruct (Z.ltb_spec (Z.of_nat i) ((blen d - 1) mod n));
      destruct (Z.ltb_spec 0 ((blen d - 1) mod n)); lia. }
  assert (H0 : forall k, (k < 2)%nat ->
            nth k (nth i fragments []) 0 = nth k (firstn 2 (nth i fragments [])) 0).
  { intros k Hk. rewrite <- (firstn_skipn 2 (nth i fragments [])) at 1.
    apply app_nth1.
    assert (length (firstn 2 (nth i fragments [])) = 2%nat)
      by (rewrite Hhd; destruct (Nat.eqb i (length fragments - 1));
          [destruct ne|destruct (Nat.eqb i 0); [destruct ns|]]; reflexivity).
    lia. }
  rewrite (H0 0%nat), (H0 1%nat), Hhd by lia.
  destruct (Nat.eqb i (length fragments - 1));
    [destruct ne|destruct (Nat.eqb i 0); [destruct ns|]]; split; reflexivity.
Qed.

(** Whatever the payload, whole NAL or FU-A fragment, and whatever the
    flags, [packetizeFuA] returns for [maxPacketSize >= 3], and each of
    its fragments has at least one byte after the two FU bytes and fits
    [maxPacketSize]. *)
Theorem packetizeFuA_fragment_bounds (this : H264Repacketizer) (data : Buffer)
    (noStart noEnd : bool) :
  3 <= maxPacketSize this ->
  exists fragments,
    packetizeFuA this data noStart noEnd = Ok fragments /\
    Forall (fun f => FU_A_HEADER_SIZE < blen f <= maxPacketSize this) fragments.
Proof.
  intros Hmax.
  destruct (fuaNormalize data noStart noEnd) as [[d ns] ne] eqn:Hnorm.
  destruct (Z.le_gt_cases (blen d) NAL_HEADER_SIZE) as [Hle|Hgt].
  - exists []. split; [|constructor].
    apply packetizeFuA_no_payload. rewrite Hnorm. exact Hle.
  - assert (Hf : 1 <= fuaMax this) by (unfold fuaMax, FU_A_HEADER_SIZE; lia).
    assert (Hp : 1 <= blen d - 1) by (unfold NAL_HEADER_SIZE in *; lia).
    destruct (packetizeFuA_fragments this data noStart noEnd d ns ne Hnorm Hf Hp)
      as (fragments & Hok & _ & _ & _ & Hall).
    exists fragments. split; [exact Hok|].
    apply Forall_forall. intros f Hin.
    destruct (In_nth _ _ [] Hin) as (i & Hi & <-).
    apply (Hall i Hi).
Qed.

Lemma packetizeFuA_fragment_bounds_witness :
  exists fragments,
    packetizeFuA (new 4 (mkCodec None None)) [0x7C; 0x45; 1; 2; 3] false false
    = Ok fragments /\
    Forall (fun f => FU_A_HEADER_SIZE < blen f
                     <= maxPacketSize (new 4 (mkCodec None None))) fragments.
Proof.
  apply (packetizeFuA_fragment_bounds (new 4 (mkCodec None None))).
  simpl. lia.
Defined.

(** [packetizeFuA(data)] of a payload that is itself an FU-A fragment with
    at least one byte after its two FU bytes.  These bytes are cut into
    [ceil((data.length - 2) / fuaMax)] fragments, in order; each fragment
    has the FU indicator and the NAL type of the input; the start bit is
    carried by the first fragment only, and only when the input has it
    and there are at least two fragments; the end bit is carried by the
    last fragment only, and only when the input has it without the start
    bit. *)
Theorem packetizeFuA_refragment (this : H264Repacketizer) (data : Buffer) :
  1 <= fuaMax this ->
  byteAnd data 0 0x1f = NAL_TYPE_FU_A ->
  FU_A_HEADER_SIZE < blen data ->
  exists fragments,
    packetizeFuA this data false false = Ok fragments /\
    Z.of_nat (length fragments)
    = ceilDiv (blen data - FU_A_HEADER_SIZE) (fuaMax this) /\
    concat (map (skipn 2) fragments) = skipn 2 data /\
    forall i, (i < length fragments)%nat ->
      let f := nth i fragments [] in
      byteAnd f 0 0x1F = NAL_TYPE_FU_A /\
      byteAnd f 0 0xE0 = byteAnd data 0 0xE0 /\
      byteAnd f 1 0x1F = byteAnd data 1 0x1F /\
      byteAnd f 1 0x80
      = (if Nat.eqb i 0 && negb (Nat.eqb (length fragments) 1)
         then byteAnd data 1 0x80 else 0) /\
      byteAnd f 1 0x40
      = (if Nat.eqb i (length fragments - 1)
         then (if byteAnd data 1 0x80 =? 0 then byteAnd data 1 0x40 else 0)
         else 0).
Proof.
  intros Hf Htype Hlen.
  set (x0 := nth 0 data 0). set (x1 := nth 1 data 0).
  set (d := Z.lor (Z.land x0 (Z.lor 0x80 0x60)) (Z.land x1 0x1f)
            :: subarrayFrom data FU_A_HEADER_SIZE).
  set (ns := if negb (Z.land x1 0x80 =? 0) then false
             else true).
  set (ne := if negb (Z.land x1 0x80 =? 0) then true
             else if negb (Z.land x1 0x40 =? 0) then false else true).
  assert (Hnorm : fuaNormalize data false false = (d, ns, ne)).
  { unfold fuaNormalize. rewrite Htype, Z.eqb_refl. unfold byteAnd. fold x0 x1.
    subst d ns ne.
    destruct (negb (Z.land x1 128 =? 0)); [reflexivity|].
    destruct (negb (Z.land x1 64 =? 0)); reflexivity. }
  unfold FU_A_HEADER_SIZE in *.
  assert (Hd : blen d - 1 = blen data - 2).
  { subst d. rewrite blen_cons, blen_subarrayFrom by lia. lia. }
  assert (Hskip : skipn 1 d = skipn 2 data).
  { subst d. cbn [skipn]. apply (subarrayFrom_inside data 2). lia. }
  assert (Hnal : byteAnd d 0 0x1F = Z.land x1 0x1F).
  { subst d. unfold byteAnd. cbn [nth].
    rewrite Z.land_lor_distr_l, (land_land_disjoint x0) by reflexivity.
    rewrite Z.lor_0_l. apply land_land_absorb. reflexivity. }
  assert (Hfnri : byteAnd d 0 (Z.lor 0x80 0x60) = Z.land x0 0xE0).
  { subst d. unfold byteAnd. cbn [nth].
    rewrite Z.land_lor_distr_l, (land_land_disjoint x1) by reflexivity.
    rewrite Z.lor_0_r. apply land_land_absorb. reflexivity. }
  destruct (packetizeFuA_fragments this data false false d ns ne Hnorm Hf ltac:(lia))
    as (fragments & Hok & Hcount & Hpos & Hcat & Hall).
  exists fragments. split; [exact Hok|].
  split; [rewrite Hcount, Hd; reflexivity|].
  split; [rewrite Hcat; exact Hskip|].
  intros i Hi. cbv zeta. destruct (Hall i Hi) as (_ & H0 & H1).
  rewrite Hfnri in H0. rewrite Hnal in H1.
  unfold byteAnd. fold x0 x1. rewrite H0, H1.
  split.
  { rewrite Z.land_lor_distr_l, land_land_disjoint by reflexivity. reflexivity. }
  split.
  { rewrite Z.land_lor_distr_l.
    change (Z.land NAL_TYPE_FU_A 224) with 0. rewrite Z.lor_0_r.
    apply land_land_absorb. reflexivity. }
  assert (P80 : Z.land (Z.land x1 0x1F) 0x80 = 0)
    by (apply land_land_disjoint; reflexivity).
  assert (P40 : Z.land (Z.land x1 0x1F) 0x40 = 0)
    by (apply land_land_disjoint; reflexivity).
  assert (P1F : Z.land (Z.land x1 0x1F) 0x1F = Z.land x1 0x1F)
    by (apply land_land_absorb; reflexivity).
  assert (S80 : Z.land (Z.lor (Z.land x1 0x1F) 0x80) 0x80 = 0x80)
    by (rewrite fuHeader_flag; reflexivity).
  assert (S40 : Z.land (Z.lor (Z.land x1 0x1F) 0x80) 0x40 = 0)
    by (rewrite fuHeader_flag; reflexivity).
  assert (S1F : Z.land (Z.lor (Z.land x1 0x1F) 0x80) 0x1F = Z.land x1 0x1F)
    by (apply fuHeader_type; reflexivity).
  assert (E80 : Z.land (Z.lor (Z.land x1 0x1F) 0x40) 0x80 = 0)
    by (rewrite fuHeader_flag; reflexivity).
  assert (E40 : Z.land (Z.lor (Z.land x1 0x1F) 0x40) 0x40 = 0x40)
    by (rewrite fuHeader_flag; reflexivity).
  assert (E1F : Z.land (Z.lor (Z.land x1 0x1F) 0x40) 0x1F = Z.land x1 0x1F)
    by (apply fuHeader_type; reflexivity).
  destruct (land_pow2 x1 7 ltac:(lia)) as [HS|HS];
    destruct (land_pow2 x1 6 ltac:(lia)) as [HE|HE];
    change (2 ^ 7) with 128 in HS; change (2 ^ 6) with 64 in HE;
    subst ns ne; rewrite HS, ?HE; cbn [Z.eqb negb];
    destruct (Nat.eqb_spec i (length fragments - 1)) as [Hlast|Hlast];
    destruct (Nat.eqb_spec i 0) as [Hfirst|Hfirst];
    destruct (Nat.eqb_spec (length fragments) 1) as [Hone|Hone];
    try lia; cbn [andb negb];
    rewrite ?P80, ?P40, ?P1F, ?S80, ?S40, ?S1F, ?E80, ?E40, ?E1F;
    repeat split; reflexivity.
Qed.

(** An instance: a start fragment of five bytes cut for [fuaMax = 2]. *)
Lemma packetizeFuA_refragment_witness :
  exists fragments,
    packetizeFuA (new 4 (mkCodec None None)) [0x7C; 0x85; 1; 2; 3] false false
    = Ok fragments /\
    Z.of_nat (length fragments)
    = ceilDiv (blen [0x7C; 0x85; 1; 2; 3] - FU_A_HEADER_SIZE)
        (fuaMax (new 4 (mkCodec None None))) /\
    concat (map (skipn 2) fragments) = skipn 2 [0x7C; 0x85; 1; 2; 3].
Proof.
  destruct (packetizeFuA_refragment (new 4 (mkCodec None None)) [0x7C; 0x85; 1; 2; 3])
    as (fragments & Hok & Hcount & Hcat & _).
  - unfold fuaMax, FU_A_HEADER_SIZE. simpl. lia.
  - reflexivity.
  - unfold blen, FU_A_HEADER_SIZE. simpl. lia.
  - exists fragments. split; [exact Hok|]. split; [exact Hcount|exact Hcat].
Defined.

(** ** What a flush emits *)

(** The bits of the second FU byte, for each of its three forms. *)
Lemma fuHeader_bits (x : Z) :
  let nal := Z.land x 0x1F in
  (Z.land nal 0x80 = 0 /\ Z.land nal 0x40 = 0 /\ Z.land nal 0x1F = nal) /\
  (Z.land (Z.lor nal 0x80) 0x80 = 0x80 /\ Z.land (Z.lor nal 0x80) 0x40 = 0 /\
   Z.land (Z.lor nal 0x80) 0x1F = nal) /\
  (Z.land (Z.lor nal 0x40) 0x80 = 0 /\ Z.land (Z.lor nal 0x40) 0x40 = 0x40 /\
   Z.land (Z.lor nal 0x40) 0x1F = nal).
Proof.
  cbv zeta. repeat split;
    first [ apply land_land_disjoint; reflexivity
          | apply land_land_absorb; reflexivity
          | rewrite fuHeader_flag; reflexivity
          | apply fuHeader_type; reflexivity ].
Qed.

(** Flushing an FU-A group that passes the checks, whose NAL type is not
    itself 28 and whose fragments carry at least one byte, while the
    sequence number of its first packet and [extraPackets] add up to at
    least -65536, so that the packets can be serialized: the NAL is
    fragmented anew for [maxPacketSize].  No byte is lost or moved; every
    fragment fits, and has the F and NRI bits and the NAL type of the first
    packet of the group; the start bit is on the first fragment only, as
    the first packet had it, unless there is one fragment only, which has
    no start bit; the end bit is on the last fragment only, as the last
    packet had it.  The packets take the timestamp of the first packet of
    the group, its sequence number onwards, and the marker of the last.
    [extraPackets] moves by the fragments emitted minus the packets
    absorbed, and the group is gone. *)
Theorem flushPendingFuA_refragments (this : H264Repacketizer) (first : RtpPacket)
    (rest : list RtpPacket) (ret : list Serialized) :
  3 <= maxPacketSize this ->
  0 <= sequenceNumber (header first) + extraPackets this + 0x10000 ->
  pendingFuA this = Some (first :: rest) ->
  fuaGroupCheck (byteAnd (payload first) 1 0x1f) None (first :: rest) = true ->
  byteAnd (payload first) 1 0x1f <> NAL_TYPE_FU_A ->
  fragmentBytes (first :: rest) <> [] ->
  exists fragments new,
    flushPendingFuA this ret
    = Ok (setPendingFuA
            (setExtraPackets this
               (extraPackets this + Z.of_nat (length fragments)
                - Z.of_nat (length (first :: rest))))
            None,
          ret ++ new) /\
    emitted this first (marker (header (last rest first))) fragments new /\
    (1 <= length fragments)%nat /\
    concat (map (skipn 2) fragments) = fragmentBytes (first :: rest) /\
    forall i, (i < length fragments)%nat ->
      let f := nth i fragments [] in
      blen f <= maxPacketSize this /\
      byteAnd f 0 0x1F = NAL_TYPE_FU_A /\
      byteAnd f 0 0xE0 = byteAnd (payload first) 0 0xE0 /\
      byteAnd f 1 0x1F = byteAnd (payload first) 1 0x1F /\
      byteAnd f 1 0x80
      = (if Nat.eqb i 0 && negb (Nat.eqb (length fragments) 1)
         then byteAnd (payload first) 1 0x80 else 0) /\
      byteAnd f 1 0x40
      = (if Nat.eqb i (length fragments - 1)
         then byteAnd (payload (last rest first)) 1 0x40 else 0).
Proof.
  intros Hmax Hnumber Hpending Hcheck Htype Hbytes.
  set (x0 := nth 0 (payload first) 0). set (x1 := nth 1 (payload first) 0).
  set (y1 := nth 1 (payload (last rest first)) 0).
  set (d := defragment first (first :: rest)).
  assert (Hd : d = Z.lor (Z.land x0 (Z.lor 0x80 0x60)) (Z.land x1 0x1f)
                   :: fragmentBytes (first :: rest)) by reflexivity.
  assert (Hf : 1 <= fuaMax this) by (unfold fuaMax, FU_A_HEADER_SIZE; lia).
  assert (Hp : 1 <= blen d - 1).
  { rewrite Hd, blen_cons. unfold blen.
    destruct (fragmentBytes (first :: rest)); [contradiction|simpl length; lia]. }
  assert (Hnal : byteAnd d 0 0x1F = Z.land x1 0x1F).
  { rewrite Hd. unfold byteAnd. cbn [nth].
    rewrite Z.land_lor_distr_l, (land_land_disjoint x0) by reflexivity.
    rewrite Z.lor_0_l. apply land_land_absorb. reflexivity. }
  assert (Hfnri : byteAnd d 0 (Z.lor 0x80 0x60) = Z.land x0 0xE0).
  { rewrite Hd. unfold byteAnd. cbn [nth].
    rewrite Z.land_lor_distr_l, (land_land_disjoint x1) by reflexivity.
    rewrite Z.lor_0_r. apply land_land_absorb. reflexivity. }
  set (ns := negb (negb (Z.land x1 0x80 =? 0))).
  set (ne := negb (negb (Z.land y1 0x40 =? 0))).
  assert (Hnorm : fuaNormalize d ns ne = (d, ns, ne)).
  { apply fuaNormalize_whole. change (byteAnd d 0 0x1f) with (byteAnd d 0 0x1F).
    rewrite Hnal. exact Htype. }
  destruct (packetizeFuA_fragments this d ns ne d ns ne Hnorm Hf Hp)
    as (fragments & Hok & Hcount & Hpos & Hcat & Hall).
  destruct (createRtpPackets_returns this first fragments ret
              (marker (header (last rest first))) Hnumber) as (new & Hnew & Hemitted).
  exists fragments, new. split; [|split; [exact Hemitted|split; [exact Hpos|split]]].
  - unfold flushPendingFuA. rewrite Hpending, Hcheck. cbn [negb].
    rewrite last_cons_default.
    fold d. unfold byteAnd at 1 2. fold x1 y1. fold ns ne. rewrite Hok.
    cbv beta iota delta [bind]. rewrite Hnew. cbv beta iota.
    unfold setPendingFuA, setExtraPackets. cbn [maxPacketSize codecInfo extraPackets
      pendingStapA pendingFuA seenSps]. do 2 f_equal. f_equal.
    simpl length in *. lia.
  - rewrite Hcat, Hd. reflexivity.
  - intros i Hi. cbv zeta. destruct (Hall i Hi) as ((_ & Hfit) & H0 & H1).
    rewrite Hfnri in H0. rewrite Hnal in H1.
    split; [exact Hfit|].
    unfold byteAnd. fold x0 x1 y1. rewrite H0, H1.
    split.
    { rewrite Z.land_lor_distr_l, land_land_disjoint by reflexivity. reflexivity. }
    split.
    { rewrite Z.land_lor_distr_l.
      change (Z.land NAL_TYPE_FU_A 224) with 0. rewrite Z.lor_0_r.
      apply land_land_absorb. reflexivity. }
    destruct (fuHeader_bits x1)
      as ((P80 & P40 & P1F) & (S80 & S40 & S1F) & (E80 & E40 & E1F)).
    cbv zeta in *.
    destruct (land_pow2 x1 7 ltac:(lia)) as [HS|HS];
      destruct (land_pow2 y1 6 ltac:(lia)) as [HE|HE];
      change (2 ^ 7) with 128 in HS; change (2 ^ 6) with 64 in HE;
      subst ns ne; rewrite HS, HE; cbn [Z.eqb negb];
      destruct (Nat.eqb_spec i (length fragments - 1)) as [Hlast|Hlast];
      destruct (Nat.eqb_spec i 0) as [Hfirst|Hfirst];
      destruct (Nat.eqb_spec (length fragments) 1) as [Hone|Hone];
      try lia; cbn [andb negb];
      rewrite ?P80, ?P40, ?P1F, ?S80, ?S40, ?S1F, ?E80, ?E40, ?E1F;
      repeat split; reflexivity.
Qed.

(** An instance: a start and an end fragment of three bytes each, cut anew
    for [maxPacketSize = 5]. *)
Lemma flushPendingFuA_refragments_witness :
  exists fragments out,
    flushPendingFuA
      (setPendingFuA (new 5 (mkCodec None None))
         (Some [mkPacket (mkHeader 7 false 90) [0x7C; 0x85; 1; 2; 3];
                mkPacket (mkHeader 8 true 90) [0x7C; 0x45; 4; 5; 6]]))
      []
    = Ok (setPendingFuA
            (setExtraPackets
               (setPendingFuA (new 5 (mkCodec None None))
                  (Some [mkPacket (mkHeader 7 false 90) [0x7C; 0x85; 1; 2; 3];
                         mkPacket (mkHeader 8 true 90) [0x7C; 0x45; 4; 5; 6]]))
               (0 + Z.of_nat (length fragments) - 2))
            None,
          [] ++ out) /\
    concat (map (skipn 2) fragments) = [1; 2; 3; 4; 5; 6].
Proof.
  destruct (flushPendingFuA_refragments
              (setPendingFuA (new 5 (mkCodec None None))
                 (Some [mkPacket (mkHeader 7 false 90) [0x7C; 0x85; 1; 2; 3];
                        mkPacket (mkHeader 8 true 90) [0x7C; 0x45; 4; 5; 6]]))
              (mkPacket (mkHeader 7 false 90) [0x7C; 0x85; 1; 2; 3])
              [mkPacket (mkHeader 8 true 90) [0x7C; 0x45; 4; 5; 6]] [])
    as (fragments & out & Hok & _ & _ & Hcat & _).
  - simpl. lia.
  - simpl. lia.
  - reflexivity.
  - reflexivity.
  - vm_compute. intros H. discriminate H.
  - vm_compute. intros H. discriminate H.
  - exists fragments, out. split; [exact Hok|exact Hcat].
Defined.

(** NALs that pass the admission test one after the other fit, with their
    length fields, the budget the test started from. *)
Lemma stapFits_blen (datas : list Buffer) :
  forall availableSize,
    datas <> [] ->
    stapFits availableSize datas = true ->
    blen (concat (stapFramed datas)) <= availableSize.
Proof.
  induction datas as [|nalu rest IH]; intros availableSize Hne Hfit; [contradiction|].
  cbn [stapFits] in Hfit. apply andb_prop in Hfit as [Hn Hrest].
  apply Z.leb_le in Hn.
  unfold stapFramed. cbn [flat_map concat app]. fold (stapFramed rest).
  rewrite !blen_cons, blen_app.
  destruct rest as [|r rest'].
  - cbn [stapFramed flat_map concat]. change (blen []) with 0.
    unfold LENGTH_FIELD_SIZE in *. lia.
  - specialize (IH _ ltac:(discriminate) Hrest).
    unfold LENGTH_FIELD_SIZE in *. lia.
Qed.

(** A queue that passes the admission test NAL after NAL, of at most nine
    NALs that fit a length field, goes into one aggregate. *)
Lemma packetizeStapA_one (this : H264Repacketizer) (datas : list Buffer) :
  datas <> [] ->
  (length datas <= 9)%nat ->
  stapFits (maxPacketSize this - STAP_A_HEADER_SIZE) datas = true ->
  Forall (fun n => blen n <= 65535) datas ->
  exists h,
    packetizeStapA this datas = Ok [h :: concat (stapFramed datas)] /\
    Z.land h 0x1F = NAL_TYPE_STAP_A /\
    blen (h :: concat (stapFramed datas)) <= maxPacketSize this.
Proof.
  intros Hne Hcap Hfit Hsmall.
  destruct datas as [|first rest]; [contradiction|].
  destruct (stapLoop_takes_all (first :: rest) (maxPacketSize this - STAP_A_HEADER_SIZE) 0
              (Z.lor NAL_TYPE_STAP_A (byteAnd first 0 0xE0)) Hfit ltac:(lia) Hsmall)
    as (h & Hloop).
  assert (Hone : packetizeOneStapA this (first :: rest)
                 = Ok (h :: concat (stapFramed (first :: rest)), [])).
  { unfold packetizeOneStapA. rewrite Hloop.
    cbv beta iota delta [bind loopCounter loopHeader loopPayload loopDatas].
    assert (Hc : (0 + Z.of_nat (length (first :: rest)) =? 0) = false)
      by (apply Z.eqb_neq; simpl length; lia).
    rewrite Hc. reflexivity. }
  exists h. split; [|split].
  - unfold packetizeStapA.
    change (length (first :: rest)) with (S (length rest)).
    cbn [packetizeStapALoop]. rewrite Hone. cbv beta iota delta [bind].
    destruct (length rest); reflexivity.
  - apply (stapLoop_header _ _ _ _ _ Hloop).
    unfold byteAnd. rewrite Z.land_lor_distr_l, land_land_disjoint by reflexivity.
    reflexivity.
  - rewrite blen_cons.
    pose proof (stapFits_blen (first :: rest) _ ltac:(discriminate) Hfit) as Hsize.
    unfold STAP_A_HEADER_SIZE, NAL_HEADER_SIZE, LENGTH_FIELD_SIZE in Hsize. lia.
Qed.

(** Flushing a STAP-A group of at most nine packets whose payloads pass
    the admission test one after the other and fit a length field, while
    the sequence number of its first packet and [extraPackets] add up to
    at least -65536, so that the packet can be serialized: one packet is
    emitted, an aggregate that [depacketizeStapA] takes apart
    into the payloads of the group, in order.  It has the timestamp, the
    marker and, moved by [extraPackets], the sequence number of the first
    packet of the group; [extraPackets] goes down by the other packets of
    the group, which is gone. *)
Theorem flushPendingStapA_aggregates (this : H264Repacketizer) (first : RtpPacket)
    (rest : list RtpPacket) (ret : list Serialized) :
  pendingStapA this = Some (first :: rest) ->
  0 <= sequenceNumber (header first) + extraPackets this + 0x10000 ->
  (length (first :: rest) <= 9)%nat ->
  stapFits (maxPacketSize this - STAP_A_HEADER_SIZE) (map payload (first :: rest)) = true ->
  Forall (fun p => blen (payload p) <= 65535) (first :: rest) ->
  exists aggregate,
    flushPendingStapA this ret
    = Ok (setPendingStapA
            (setExtraPackets this
               (extraPackets this - (Z.of_nat (length (first :: rest)) - 1)))
            None,
          ret ++ [mkPacket
                    (mkHeader
                       (Z.rem (sequenceNumber (header first) + extraPackets this
                               + 0x10000) 0x10000)
                       (marker (header first))
                       (timestamp (header first)))
                    aggregate]) /\
    depacketizeStapA aggregate = Ok (map payload (first :: rest)) /\
    byteAnd aggregate 0 0x1F = NAL_TYPE_STAP_A /\
    blen aggregate <= maxPacketSize this.
Proof.
  intros Hpending Hnumber Hcap Hfit Hsmall.
  destruct (packetizeStapA_one this (map payload (first :: rest)))
    as (h & Hagg & Htype & Hsize).
  - cbn [map]. discriminate.
  - rewrite length_map. exact Hcap.
  - exact Hfit.
  - rewrite Forall_map. exact Hsmall.
  - exists (h :: concat (stapFramed (map payload (first :: rest)))).
    split; [|split; [|split]].
    + unfold flushPendingStapA. rewrite Hpending, Hagg.
      cbv beta iota delta [bind]. cbn [length Nat.eqb negb stapAForEach].
      cbv zeta. rewrite (createPacket_fits this first _ _ Hnumber).
      cbv beta iota delta [bind]. cbn [Nat.sub Nat.eqb]. rewrite andb_true_r.
      reflexivity.
    + apply depacketizeStapA_framed. cbn [map]. discriminate.
    + exact Htype.
    + exact Hsize.
Qed.

(** An instance: an SPS and a PPS packet waiting in [pendingStapA]. *)
Lemma flushPendingStapA_aggregates_witness :
  exists aggregate,
    flushPendingStapA
      (setPendingStapA (new 1200 (mkCodec None None))
         (Some [mkPacket (mkHeader 7 false 90) [0x67; 1; 2];
                mkPacket (mkHeader 8 true 90) [0x68; 3]]))
      []
    = Ok (setExtraPackets (new 1200 (mkCodec None None)) (-1),
          [mkPacket (mkHeader 7 false 90) aggregate]) /\
    depacketizeStapA aggregate = Ok [[0x67; 1; 2]; [0x68; 3]].
Proof.
  destruct (flushPendingStapA_aggregates
              (setPendingStapA (new 1200 (mkCodec None None))
                 (Some [mkPacket (mkHeader 7 false 90) [0x67; 1; 2];
                        mkPacket (mkHeader 8 true 90) [0x68; 3]]))
              (mkPacket (mkHeader 7 false 90) [0x67; 1; 2])
              [mkPacket (mkHeader 8 true 90) [0x68; 3]] [])
    as (aggregate & Hok & Hdepack & _).
  - reflexivity.
  - simpl. lia.
  - simpl. lia.
  - reflexivity.
  - repeat constructor; unfold blen; simpl; lia.
  - exists aggregate. split; [exact Hok|exact Hdepack].
Defined.

(** ** The dispatcher, path by path *)

Lemma flushFuAOnTimestamp_same (this : H264Repacketizer) (packet : RtpPacket)
    (ret : list Serialized) :
  sameTimestamp (pendingFuA this) packet ->
  flushFuAOnTimestamp this packet ret = Ok (this, ret).
Proof.
  unfold sameTimestamp, flushFuAOnTimestamp.
  destruct (pendingFuA this) as [[|first rest]|]; [contradiction| |reflexivity].
  intros H. cbn [headTimestamp bind]. rewrite H, Z.eqb_refl. reflexivity.
Qed.

Lemma flushStapAOnTimestamp_same (this : H264Repacketizer) (packet : RtpPacket)
    (ret : list Serialized) :
  sameTimestamp (pendingStapA this) packet ->
  flushStapAOnTimestamp this packet ret = Ok (this, ret).
Proof.
  unfold sameTimestamp, flushStapAOnTimestamp.
  destruct (pendingStapA this) as [[|first rest]|]; [contradiction| |reflexivity].
  intros H. cbn [headTimestamp bind]. rewrite H, Z.eqb_refl. reflexivity.
Qed.

(** Without a flush on the timestamp, [repacketize] is its dispatch on the
    NAL type. *)
Lemma repacketize_dispatch (this : H264Repacketizer) (packet : RtpPacket) :
  sameTimestamp (pendingFuA this) packet ->
  sameTimestamp (pendingStapA this) packet ->
  repacketize this packet =
  let nalType := byteAnd (payload packet) 0 0x1F in
  if nalType =? NAL_TYPE_FU_A then repacketizeFuA this packet []
  else if nalType =? NAL_TYPE_STAP_A then repacketizeStapA this packet []
  else if (1 <=? nalType) && (nalType <? 24) then repacketizeSingle this packet nalType []
  else Ok (setExtraPackets this (extraPackets this - 1), []).
Proof.
  intros Hf Hs. unfold repacketize.
  rewrite (flushFuAOnTimestamp_same _ _ _ Hf). cbv beta iota delta [bind].
  rewrite (flushStapAOnTimestamp_same _ _ _ Hs). reflexivity.
Qed.

Lemma flushPendingFuA_none (this : H264Repacketizer) (ret : list Serialized) :
  pendingFuA this = None -> flushPendingFuA this ret = Ok (this, ret).
Proof. intros H. unfold flushPendingFuA. rewrite H. reflexivity. Qed.

Lemma flushPendingStapA_none (this : H264Repacketizer) (ret : list Serialized) :
  pendingStapA this = None -> flushPendingStapA this ret = Ok (this, ret).
Proof. intros H. unfold flushPendingStapA. rewrite H. reflexivity. Qed.

(** The branch of a NAL of type 1 to 23 that is not an SPS, a PPS or an
    SEI, and that does not call for a made-up SPS, when nothing is
    pending. *)
Lemma repacketizeSingle_plain (this : H264Repacketizer) (packet : RtpPacket)
    (nalType : Z) :
  pendingFuA this = None ->
  pendingStapA this = None ->
  nalType <> NAL_TYPE_SEI -> nalType <> NAL_TYPE_SPS -> nalType <> NAL_TYPE_PPS ->
  (nalType = NAL_TYPE_IDR -> seenSps this = true) ->
  repacketizeSingle this packet nalType [] =
  if maxPacketSize this <? blen (payload packet) then
    fragments <- packetizeFuA this (payload packet) false false ;;
    createRtpPackets this packet fragments [] (marker (header packet))
  else
    created <- createPacket this packet (payload packet) (marker (header packet)) ;;
    Ok (this, [created]).
Proof.
  intros Hf Hs Hsei Hsps Hpps Hidr. unfold repacketizeSingle.
  rewrite (flushPendingFuA_none _ _ Hf). cbv beta iota delta [bind].
  destruct (Z.eqb_spec nalType NAL_TYPE_SPS); [contradiction|].
  destruct (Z.eqb_spec nalType NAL_TYPE_PPS); [contradiction|].
  cbn [orb]. rewrite (flushPendingStapA_none _ _ Hs). cbv beta iota delta [bind].
  destruct (Z.eqb_spec nalType NAL_TYPE_SEI); [contradiction|].
  assert (Hcond : (nalType =? NAL_TYPE_IDR) && negb (seenSps this) = false).
  { destruct (Z.eqb_spec nalType NAL_TYPE_IDR) as [E|E]; [|reflexivity].
    rewrite (Hidr E). reflexivity. }
  rewrite Hcond. cbv beta iota delta [bind]. reflexivity.
Qed.

(** A NAL of type 1 to 23 other than SPS, PPS and SEI that fits
    [maxPacketSize] goes through as it is when nothing is pending (an IDR
    when an SPS has been seen) and its sequence number and [extraPackets]
    add up to at least -65536: one packet with the same payload, marker
    and timestamp, its sequence number moved by [extraPackets]; the state
    does not change. *)
Theorem repacketize_passthrough (this : H264Repacketizer) (packet : RtpPacket) :
  pendingFuA this = None ->
  pendingStapA this = None ->
  1 <= byteAnd (payload packet) 0 0x1F < 24 ->
  byteAnd (payload packet) 0 0x1F <> NAL_TYPE_SEI ->
  byteAnd (payload packet) 0 0x1F <> NAL_TYPE_SPS ->
  byteAnd (payload packet) 0 0x1F <> NAL_TYPE_PPS ->
  (byteAnd (payload packet) 0 0x1F = NAL_TYPE_IDR -> seenSps this = true) ->
  blen (payload packet) <= maxPacketSize this ->
  0 <= sequenceNumber (header packet) + extraPackets this + 0x10000 ->
  repacketize this packet
  = Ok (this,
        [mkPacket
           (mkHeader
              (Z.rem (sequenceNumber (header packet) + extraPackets this + 0x10000)
                     0x10000)
              (marker (header packet))
              (timestamp (header packet)))
           (payload packet)]).
Proof.
  intros Hf Hs Htype Hsei Hsps Hpps Hidr Hfit Hnumber.
  rewrite repacketize_dispatch by (rewrite ?Hf, ?Hs; exact I).
  cbv zeta.
  destruct (Z.eqb_spec (byteAnd (payload packet) 0 0x1F) NAL_TYPE_FU_A) as [E|_];
    [unfold NAL_TYPE_FU_A in E; lia|].
  destruct (Z.eqb_spec (byteAnd (payload packet) 0 0x1F) NAL_TYPE_STAP_A) as [E|_];
    [unfold NAL_TYPE_STAP_A in E; lia|].
  destruct (Z.leb_spec 1 (byteAnd (payload packet) 0 0x1F)); [|lia].
  destruct (Z.ltb_spec (byteAnd (payload packet) 0 0x1F) 24); [|lia].
  cbn [andb].
  rewrite repacketizeSingle_plain by assumption.
  destruct (Z.ltb_spec (maxPacketSize this) (blen (payload packet))); [lia|].
  rewrite (createPacket_fits _ _ _ _ Hnumber). reflexivity.
Qed.

Lemma repacketize_passthrough_witness :
  repacketize (setExtraPackets (new 1200 (mkCodec None None)) (-2))
    (mkPacket (mkHeader 10 true 100) [0x41; 1; 2; 3])
  = Ok (setExtraPackets (new 1200 (mkCodec None None)) (-2),
        [mkPacket (mkHeader 8 true 100) [0x41; 1; 2; 3]]).
Proof.
  apply (repacketize_passthrough (setExtraPackets (new 1200 (mkCodec None None)) (-2))
           (mkPacket (mkHeader 10 true 100) [0x41; 1; 2; 3])).
  - reflexivity.
  - reflexivity.
  - vm_compute. split; [intros H; discriminate H|reflexivity].
  - vm_compute. intros H. discriminate H.
  - vm_compute. intros H. discriminate H.
  - vm_compute. intros H. discriminate H.
  - vm_compute. intros H. discriminate H.
  - vm_compute. intros H. discriminate H.
  - simpl. lia.
Defined.

(** The same NAL when it is longer than [maxPacketSize]: it is cut into at
    least two FU-A fragments that each fit, and from which the NAL is put
    together again: its header byte from the F and NRI bits of the FU
    indicator and the type bits of the FU header, then the bytes after the
    two FU bytes of each fragment.  The packets are numbered from the
    sequence number of the input on, which with [extraPackets] is to add
    up to at least -65536, and [extraPackets] goes up by the fragments
    after the first. *)
Theorem repacketize_fragmented (this : H264Repacketizer) (packet : RtpPacket) :
  3 <= maxPacketSize this ->
  pendingFuA this = None ->
  pendingStapA this = None ->
  1 <= byteAnd (payload packet) 0 0x1F < 24 ->
  byteAnd (payload packet) 0 0x1F <> NAL_TYPE_SEI ->
  byteAnd (payload packet) 0 0x1F <> NAL_TYPE_SPS ->
  byteAnd (payload packet) 0 0x1F <> NAL_TYPE_PPS ->
  (byteAnd (payload packet) 0 0x1F = NAL_TYPE_IDR -> seenSps this = true) ->
  0 <= nth 0 (payload packet) 0 < 256 ->
  maxPacketSize this < blen (payload packet) ->
  0 <= sequenceNumber (header packet) + extraPackets this + 0x10000 ->
  exists fragments out,
    repacketize this packet
    = Ok (setExtraPackets this (extraPackets this + Z.of_nat (length fragments) - 1),
          out) /\
    emitted this packet (marker (header packet)) fragments out /\
    (2 <= length fragments)%nat /\
    Forall (fun f => blen f <= maxPacketSize this) fragments /\
    Z.lor (byteAnd (nth 0 fragments []) 0 0xE0) (byteAnd (nth 0 fragments []) 1 0x1F)
    :: concat (map (skipn 2) fragments) = payload packet.
Proof.
  intros Hmax Hf Hs Htype Hsei Hsps Hpps Hidr Hbyte Hbig Hnumber.
  assert (Hwhole : byteAnd (payload packet) 0 0x1f <> NAL_TYPE_FU_A)
    by (change (byteAnd (payload packet) 0 0x1f) with (byteAnd (payload packet) 0 0x1F);
        unfold NAL_TYPE_FU_A; lia).
  pose proof (fuaNormalize_whole (payload packet) false false Hwhole) as Hnorm.
  assert (Hfm : 1 <= fuaMax this) by (unfold fuaMax, FU_A_HEADER_SIZE; lia).
  destruct (packetizeFuA_fragments this (payload packet) false false _ _ _ Hnorm Hfm
              ltac:(lia))
    as (fragments & Hok & Hcount & Hpos & Hcat & Hall).
  destruct (createRtpPackets_returns this packet fragments [] (marker (header packet))
              Hnumber) as (out & Hout & Hemitted).
  exists fragments, out. split; [|split; [exact Hemitted|split; [|split]]].
  - rewrite repacketize_dispatch by (rewrite ?Hf, ?Hs; exact I).
    cbv zeta.
    destruct (Z.eqb_spec (byteAnd (payload packet) 0 0x1F) NAL_TYPE_FU_A) as [E|_];
      [unfold NAL_TYPE_FU_A in E; lia|].
    destruct (Z.eqb_spec (byteAnd (payload packet) 0 0x1F) NAL_TYPE_STAP_A) as [E|_];
      [unfold NAL_TYPE_STAP_A in E; lia|].
    destruct (Z.leb_spec 1 (byteAnd (payload packet) 0 0x1F)); [|lia].
    destruct (Z.ltb_spec (byteAnd (payload packet) 0 0x1F) 24); [|lia].
    cbn [andb].
    rewrite repacketizeSingle_plain by assumption.
    destruct (Z.ltb_spec (maxPacketSize this) (blen (payload packet))); [|lia].
    rewrite Hok. cbv beta iota delta [bind]. rewrite Hout.
    do 3 f_equal. lia.
  - pose proof (ceilDiv_bounds (blen (payload packet) - 1) (fuaMax this) ltac:(lia)) as Hc.
    unfold fuaMax, FU_A_HEADER_SIZE in *.
    assert (2 <= Z.of_nat (length fragments)) by nia. lia.
  - apply Forall_forall. intros fr Hin.
    destruct (In_nth _ _ [] Hin) as (i & Hi & <-).
    apply (Hall i Hi).
  - destruct (Hall 0%nat ltac:(lia)) as (_ & H0 & H1).
    unfold byteAnd at 1 2. rewrite H0, H1, Hcat.
    unfold byteAnd. rewrite fuIndicator_fnri.
    replace (Z.land (if Nat.eqb 0 (length fragments - 1)
                     then Z.lor (Z.land (nth 0 (payload packet) 0) 0x1F) 0x40
                     else if Nat.eqb 0 0
                          then Z.lor (Z.land (nth 0 (payload packet) 0) 0x1F) 0x80
                          else Z.land (nth 0 (payload packet) 0) 0x1F) 0x1F)
      with (Z.land (nth 0 (payload packet) 0) 0x1F)
      by (destruct (Nat.eqb 0 (length fragments - 1)); cbn [Nat.eqb];
          rewrite fuHeader_type; reflexivity).
    rewrite byte_split by exact Hbyte.
    destruct (payload packet) as [|d0 rest]; [unfold blen in Hbig; simpl in Hbig; lia|].
    reflexivity.
Qed.

Lemma repacketize_fragmented_witness :
  exists fragments out,
    repacketize (new 4 (mkCodec None None))
      (mkPacket (mkHeader 10 true 100) [0x41; 1; 2; 3; 4; 5])
    = Ok (setExtraPackets (new 4 (mkCodec None None))
            (0 + Z.of_nat (length fragments) - 1), out) /\
    Z.lor (byteAnd (nth 0 fragments []) 0 0xE0) (byteAnd (nth 0 fragments []) 1 0x1F)
    :: concat (map (skipn 2) fragments) = [0x41; 1; 2; 3; 4; 5].
Proof.
  destruct (repacketize_fragmented (new 4 (mkCodec None None))
              (mkPacket (mkHeader 10 true 100) [0x41; 1; 2; 3; 4; 5]))
    as (fragments & out & Hok & _ & _ & _ & Hdata).
  - simpl. lia.
  - reflexivity.
  - reflexivity.
  - vm_compute. split; [intros H; discriminate H|reflexivity].
  - vm_compute. intros H. discriminate H.
  - vm_compute. intros H. discriminate H.
  - vm_compute. intros H. discriminate H.
  - vm_compute. intros H. discriminate H.
  - simpl. lia.
  - unfold blen. simpl. lia.
  - simpl. lia.
  - exists fragments, out. split; [exact Hok|exact Hdata].
Defined.

(** A payload whose type is 0 or one of 25, 26, 27, 29, 30, 31, and so
    also an empty payload, whose type byte reads as 0: nothing is emitted
    and nothing thrown, [extraPackets] goes down by one, and groups pending
    at the timestamp of the packet stay as they are. *)
Theorem repacketize_unknown_dropped (this : H264Repacketizer) (packet : RtpPacket) :
  sameTimestamp (pendingFuA this) packet ->
  sameTimestamp (pendingStapA this) packet ->
  byteAnd (payload packet) 0 0x1F = 0 \/ 24 < byteAnd (payload packet) 0 0x1F ->
  byteAnd (payload packet) 0 0x1F <> NAL_TYPE_FU_A ->
  repacketize this packet = Ok (setExtraPackets this (extraPackets this - 1), []).
Proof.
  intros Hf Hs Htype Hfua.
  rewrite (repacketize_dispatch _ _ Hf Hs). cbv zeta.
  destruct (Z.eqb_spec (byteAnd (payload packet) 0 0x1F) NAL_TYPE_FU_A) as [E|_];
    [contradiction|].
  destruct (Z.eqb_spec (byteAnd (payload packet) 0 0x1F) NAL_TYPE_STAP_A) as [E|_];
    [unfold NAL_TYPE_STAP_A in E; lia|].
  destruct (Z.leb_spec 1 (byteAnd (payload packet) 0 0x1F));
    destruct (Z.ltb_spec (byteAnd (payload packet) 0 0x1F) 24);
    try lia; reflexivity.
Qed.

(** An instance: an empty payload while an SPS is pending. *)
Lemma repacketize_unknown_dropped_witness :
  repacketize
    (setPendingStapA (new 1200 (mkCodec None None))
       (Some [mkPacket (mkHeader 9 false 100) [0x67; 1]]))
    (mkPacket (mkHeader 10 false 100) [])
  = Ok (setExtraPackets
          (setPendingStapA (new 1200 (mkCodec None None))
             (Some [mkPacket (mkHeader 9 false 100) [0x67; 1]]))
          (0 - 1), []).
Proof.
  apply (repacketize_unknown_dropped
           (setPendingStapA (new 1200 (mkCodec None None))
              (Some [mkPacket (mkHeader 9 false 100) [0x67; 1]]))
           (mkPacket (mkHeader 10 false 100) [])).
  - exact I.
  - reflexivity.
  - left. reflexivity.
  - vm_compute. intros H. discriminate H.
Defined.

(** [maybeSendSpsPps] does nothing when the SPS or the PPS of [codecInfo]
    is missing.  When both are there, pass the admission test one after the
    other and fit a length field, and the sequence number of [packet] and
    [extraPackets] add up to at least -65536, it appends one packet, an aggregate that
    [depacketizeStapA] takes apart into the SPS and the PPS, with the
    timestamp and the marker of [packet] and its sequence number moved by
    [extraPackets]; [extraPackets] goes up by one, and [seenSps] stays as it
    is. *)
Theorem maybeSendSpsPps_emits (this : H264Repacketizer) (packet : RtpPacket)
    (ret : list Serialized) :
  (sps (codecInfo this) = None \/ pps (codecInfo this) = None ->
   maybeSendSpsPps this packet ret = Ok (this, ret)) /\
  (forall s p,
     sps (codecInfo this) = Some s ->
     pps (codecInfo this) = Some p ->
     stapFits (maxPacketSize this - STAP_A_HEADER_SIZE) [s; p] = true ->
     blen s <= 65535 -> blen p <= 65535 ->
     0 <= sequenceNumber (header packet) + extraPackets this + 0x10000 ->
     exists aggregate,
       maybeSendSpsPps this packet ret
       = Ok (setExtraPackets this (extraPackets this + 1),
             ret ++ [mkPacket
                       (mkHeader
                          (Z.rem (sequenceNumber (header packet) + extraPackets this
                                  + 0x10000) 0x10000)
                          (marker (header packet))
                          (timestamp (header packet)))
                       aggregate]) /\
       depacketizeStapA aggregate = Ok [s; p] /\
       blen aggregate <= maxPacketSize this).
Proof.
  split.
  - intros [H|H]; unfold maybeSendSpsPps; rewrite H;
      [|destruct (sps (codecInfo this))]; reflexivity.
  - intros s p Hs Hp Hfit Hsmall Hpsmall Hnumber.
    destruct (packetizeStapA_one this [s; p]) as (h & Hagg & _ & Hsize).
    + discriminate.
    + simpl. lia.
    + exact Hfit.
    + repeat constructor; assumption.
    + exists (h :: concat (stapFramed [s; p])). split; [|split].
      * unfold maybeSendSpsPps. rewrite Hs, Hp, Hagg.
        cbv beta iota delta [bind]. cbn [length Nat.eqb negb].
        unfold createRtpPackets. cbn [length createRtpPacketsFrom Nat.eqb Nat.sub].
        cbv zeta. rewrite (createPacket_fits this packet _ _ Hnumber).
        cbv beta iota delta [bind]. rewrite andb_true_r. reflexivity.
      * apply depacketizeStapA_framed. discriminate.
      * exact Hsize.
Qed.

Lemma maybeSendSpsPps_emits_witness :
  maybeSendSpsPps (new 1200 (mkCodec None (Some [0x68; 3])))
    (mkPacket (mkHeader 10 true 100) [0x65; 1]) []
  = Ok (new 1200 (mkCodec None (Some [0x68; 3])), []) /\
  exists aggregate,
    maybeSendSpsPps (new 1200 (mkCodec (Some [0x67; 1; 2]) (Some [0x68; 3])))
      (mkPacket (mkHeader 10 true 100) [0x65; 1]) []
    = Ok (setExtraPackets (new 1200 (mkCodec (Some [0x67; 1; 2]) (Some [0x68; 3]))) (0 + 1),
          [] ++ [mkPacket (mkHeader (Z.rem (10 + 0 + 0x10000) 0x10000) true 100)
                   aggregate]) /\
    depacketizeStapA aggregate = Ok [[0x67; 1; 2]; [0x68; 3]] /\
    blen aggregate <= 1200.
Proof.
  split.
  - apply (proj1 (maybeSendSpsPps_emits (new 1200 (mkCodec None (Some [0x68; 3])))
                    (mkPacket (mkHeader 10 true 100) [0x65; 1]) [])).
    left. reflexivity.
  - apply (proj2 (maybeSendSpsPps_emits
                    (new 1200 (mkCodec (Some [0x67; 1; 2]) (Some [0x68; 3])))
                    (mkPacket (mkHeader 10 true 100) [0x65; 1]) [])
             [0x67; 1; 2] [0x68; 3]).
    + reflexivity.
    + reflexivity.
    + reflexivity.
    + unfold blen. simpl. lia.
    + unfold blen. simpl. lia.
    + simpl. lia.
Defined.

(** An IDR NAL that fits [maxPacketSize], arriving when nothing is pending
    and no SPS has been seen, with an SPS and a PPS in [codecInfo] that go
    into one aggregate, and with a sequence number that adds up with
    [extraPackets] to at least -65536: the aggregate is sent first, under the sequence
    number the IDR would have had and with its marker and timestamp, and
    the IDR follows under the next number.  [seenSps] stays [false], so the
    next such IDR is preceded by the parameter sets as well. *)
Theorem repacketize_idr_preceded_by_sps (this : H264Repacketizer) (packet : RtpPacket)
    (s p : Buffer) :
  pendingFuA this = None ->
  pendingStapA this = None ->
  byteAnd (payload packet) 0 0x1F = NAL_TYPE_IDR ->
  seenSps this = false ->
  sps (codecInfo this) = Some s ->
  pps (codecInfo this) = Some p ->
  stapFits (maxPacketSize this - STAP_A_HEADER_SIZE) [s; p] = true ->
  blen s <= 65535 -> blen p <= 65535 ->
  blen (payload packet) <= maxPacketSize this ->
  0 <= sequenceNumber (header packet) + extraPackets this + 0x10000 ->
  exists aggregate,
    repacketize this packet
    = Ok (setExtraPackets this (extraPackets this + 1),
          [mkPacket
             (mkHeader
                (Z.rem (sequenceNumber (header packet) + extraPackets this + 0x10000)
                       0x10000)
                (marker (header packet))
                (timestamp (header packet)))
             aggregate;
           mkPacket
             (mkHeader
                (Z.rem (sequenceNumber (header packet) + (extraPackets this + 1)
                        + 0x10000) 0x10000)
                (marker (header packet))
                (timestamp (header packet)))
             (payload packet)]) /\
    depacketizeStapA aggregate = Ok [s; p] /\
    seenSps (setExtraPackets this (extraPackets this + 1)) = false.
Proof.
  intros Hf Hs Htype Hseen Hsps Hpps Hfit Hsmall Hpsmall Hpfit Hnumber.
  destruct (packetizeStapA_one this [s; p]) as (h & Hagg & _ & Hsize).
  { discriminate. }
  { simpl. lia. }
  { exact Hfit. }
  { repeat constructor; assumption. }
  exists (h :: concat (stapFramed [s; p])). split; [|split].
  - rewrite repacketize_dispatch by (rewrite ?Hf, ?Hs; exact I).
    cbv zeta. rewrite Htype.
    change (NAL_TYPE_IDR =? NAL_TYPE_FU_A) with false.
    change (NAL_TYPE_IDR =? NAL_TYPE_STAP_A) with false.
    change ((1 <=? NAL_TYPE_IDR) && (NAL_TYPE_IDR <? 24)) with true.
    cbv iota. unfold repacketizeSingle.
    rewrite (flushPendingFuA_none _ _ Hf). cbv beta iota delta [bind].
    change ((NAL_TYPE_IDR =? NAL_TYPE_SPS) || (NAL_TYPE_IDR =? NAL_TYPE_PPS)) with false.
    cbv iota. rewrite (flushPendingStapA_none _ _ Hs). cbv beta iota delta [bind].
    change (NAL_TYPE_IDR =? NAL_TYPE_SEI) with false.
    change (NAL_TYPE_IDR =? NAL_TYPE_IDR) with true.
    rewrite Hseen. cbn [negb andb]. cbv iota.
    unfold maybeSendSpsPps. rewrite Hsps, Hpps, Hagg.
    cbv beta iota delta [bind]. cbn [length Nat.eqb negb].
    unfold createRtpPackets. cbn [length createRtpPacketsFrom Nat.eqb Nat.sub].
    cbv zeta. rewrite (createPacket_fits this packet _ _ Hnumber).
    cbv beta iota delta [bind].
    cbn [maxPacketSize setExtraPackets].
    destruct (Z.ltb_spec (maxPacketSize this) (blen (payload packet))); [lia|].
    rewrite createPacket_fits by (cbn [extraPackets setExtraPackets]; lia).
    cbv beta iota delta [bind]. cbn [extraPackets setExtraPackets].
    rewrite andb_true_r. reflexivity.
  - apply depacketizeStapA_framed. discriminate.
  - exact Hseen.
Qed.

Lemma repacketize_idr_preceded_by_sps_witness :
  exists aggregate,
    repacketize (new 1200 (mkCodec (Some [0x67; 1; 2]) (Some [0x68; 3])))
      (mkPacket (mkHeader 10 true 100) [0x65; 1])
    = Ok (setExtraPackets (new 1200 (mkCodec (Some [0x67; 1; 2]) (Some [0x68; 3]))) (0 + 1),
          [mkPacket (mkHeader (Z.rem (10 + 0 + 0x10000) 0x10000) true 100) aggregate;
           mkPacket (mkHeader (Z.rem (10 + (0 + 1) + 0x10000) 0x10000) true 100)
             [0x65; 1]]) /\
    depacketizeStapA aggregate = Ok [[0x67; 1; 2]; [0x68; 3]].
Proof.
  destruct (repacketize_idr_preceded_by_sps
              (new 1200 (mkCodec (Some [0x67; 1; 2]) (Some [0x68; 3])))
              (mkPacket (mkHeader 10 true 100) [0x65; 1]) [0x67; 1; 2] [0x68; 3])
    as (aggregate & Hok & Hdepack & _).
  - reflexivity.
  - reflexivity.
  - reflexivity.
  - reflexivity.
  - reflexivity.
  - reflexivity.
  - reflexivity.
  - unfold blen. simpl. lia.
  - unfold blen. simpl. lia.
  - unfold blen. simpl. lia.
  - simpl. lia.
  - exists aggregate. split; [exact Hok|exact Hdepack].
Defined.

Lemma setSeenSps_same (this : H264Repacketizer) : setSeenSps this (seenSps this) = this.
Proof. destruct this. reflexivity. Qed.

(** [filterSei] keeps the NALs that are not an SEI, and sets [seenSps] when
    one of the NALs, kept or not, is an SPS. *)
Lemma filterSei_eq (nals : list Buffer) :
  forall this : H264Repacketizer,
    filterSei this nals
    = (setSeenSps this (seenSps this || existsb isSps nals), filter notSei nals).
Proof.
  induction nals as [|p rest IH]; intros this.
  - cbn [filterSei existsb filter]. rewrite orb_false_r, setSeenSps_same. reflexivity.
  - cbn [filterSei existsb filter]. rewrite IH.
    unfold notSei at 1. fold (isSps p). f_equal.
    unfold setSeenSps. cbn [maxPacketSize codecInfo extraPackets pendingStapA pendingFuA
                            seenSps].
    rewrite orb_assoc. reflexivity.
Qed.

(** An input STAP-A that is well formed, when no FU-A group is pending,
    each of its NALs that is not an SEI passes the admission test on its
    own and fits a length field, and its sequence number and
    [extraPackets] add up to at least -65536: the NALs are aggregated
    anew.  Taken
    apart again, the packets emitted hold the NALs of the input without
    the SEI ones, in order; each fits [maxPacketSize]; they are numbered
    from the sequence number of the input on, with its timestamp, and its
    marker on the last.  [seenSps] is set when one of the NALs is an SPS. *)
Theorem repacketize_stapA_repacks (this : H264Repacketizer) (packet : RtpPacket)
    (h : Z) (nals : list Buffer) :
  pendingFuA this = None ->
  sameTimestamp (pendingStapA this) packet ->
  payload packet = h :: concat (stapFramed nals) ->
  Z.land h 0x1F = NAL_TYPE_STAP_A ->
  nals <> [] ->
  Forall (fun n => blen n + LENGTH_FIELD_SIZE <= maxPacketSize this - STAP_A_HEADER_SIZE /\
                   blen n <= 65535) (filter notSei nals) ->
  0 <= sequenceNumber (header packet) + extraPackets this + 0x10000 ->
  exists aggregates groups out,
    repacketize this packet
    = Ok (setExtraPackets
            (setSeenSps this (seenSps this || existsb isSps nals))
            (extraPackets this + Z.max 0 (Z.of_nat (length aggregates) - 1)),
          out) /\
    emitted this packet (marker (header packet)) aggregates out /\
    concat groups = filter notSei nals /\
    Forall2 (fun a g => depacketizeStapA a = Ok g /\
                        (1 <= length g <= 9)%nat /\
                        blen a <= maxPacketSize this) aggregates groups.
Proof.
  intros Hf Hs Hpayload Htype Hne Hkept Hnumber.
  set (this1 := setSeenSps this (seenSps this || existsb isSps nals)).
  assert (Hfit : Forall (fun n => blen n + LENGTH_FIELD_SIZE
                                  <= maxPacketSize this1 - STAP_A_HEADER_SIZE)
                   (filter notSei nals))
    by (eapply Forall_impl; [|exact Hkept]; intros n [Hn _]; exact Hn).
  assert (Hsmall : Forall (fun n => blen n <= 65535) (filter notSei nals))
    by (eapply Forall_impl; [|exact Hkept]; intros n [_ Hn]; exact Hn).
  destruct (packetizeStapALoop_returns this1 _ _ (le_n _) Hsmall) as (aggregates & Hagg).
  destruct (packetizeStapALoop_round_trip this1 _ _ _ Hfit Hagg) as (groups & Hcat & Hall).
  destruct (createRtpPackets_returns this1 packet aggregates [] (marker (header packet))
              Hnumber) as (out & Hout & Hemitted).
  exists aggregates, groups, out.
  split; [|split; [exact Hemitted|split; [exact Hcat|exact Hall]]].
  rewrite repacketize_dispatch by (rewrite ?Hf; try exact I; exact Hs).
  cbv zeta. unfold byteAnd. rewrite Hpayload. cbn [nth]. rewrite Htype.
  change (NAL_TYPE_STAP_A =? NAL_TYPE_FU_A) with false.
  change (NAL_TYPE_STAP_A =? NAL_TYPE_STAP_A) with true. cbv iota.
  unfold repacketizeStapA.
  rewrite (flushPendingFuA_none _ _ Hf). cbv beta iota delta [bind].
  rewrite Hpayload, (depacketizeStapA_framed h nals Hne). cbv beta iota delta [bind].
  rewrite filterSei_eq. fold this1.
  unfold packetizeStapA. rewrite Hagg. cbv beta iota delta [bind].
  rewrite Hout. reflexivity.
Qed.

(** An instance: an SPS, an SEI and a PPS in one STAP-A. *)
Lemma repacketize_stapA_repacks_witness :
  exists aggregates groups out,
    repacketize (new 1200 (mkCodec None None))
      (mkPacket (mkHeader 10 true 100)
         (0x78 :: concat (stapFramed [[0x67; 1]; [0x06; 2]; [0x68; 3]])))
    = Ok (setExtraPackets
            (setSeenSps (new 1200 (mkCodec None None))
               (false || existsb isSps [[0x67; 1]; [0x06; 2]; [0x68; 3]]))
            (0 + Z.max 0 (Z.of_nat (length aggregates) - 1)),
          out) /\
    concat groups = [[0x67; 1]; [0x68; 3]] /\
    Forall2 (fun a g => depacketizeStapA a = Ok g /\
                        (1 <= length g <= 9)%nat /\
                        blen a <= 1200) aggregates groups.
Proof.
  destruct (repacketize_stapA_repacks (new 1200 (mkCodec None None))
              (mkPacket (mkHeader 10 true 100)
                 (0x78 :: concat (stapFramed [[0x67; 1]; [0x06; 2]; [0x68; 3]])))
              0x78 [[0x67; 1]; [0x06; 2]; [0x68; 3]])
    as (aggregates & groups & out & Hok & _ & Hcat & Hall).
  - reflexivity.
  - exact I.
  - reflexivity.
  - reflexivity.
  - intros H. discriminate H.
  - repeat constructor; unfold blen; simpl; lia.
  - simpl. lia.
  - exists aggregates, groups, out.
    split; [exact Hok|]. split; [exact Hcat|exact Hall].
Defined.

(** A fat FU-A payload, at least twice [maxPacketSize] long, arriving when
    nothing is pending and no SPS has to be made up, with a sequence
    number that adds up with [extraPackets] to at least -65536: it is not
    buffered.
    The fragments [packetizeFuA] makes of it, at least two, are sent at
    once, numbered from the sequence number of the input on, with its
    timestamp, and its marker on the last; [extraPackets] goes up by the
    fragments after the first and nothing else of the state changes. *)
Theorem repacketize_fat_fua (this : H264Repacketizer) (packet : RtpPacket) :
  3 <= maxPacketSize this ->
  pendingFuA this = None ->
  pendingStapA this = None ->
  byteAnd (payload packet) 0 0x1F = NAL_TYPE_FU_A ->
  maxPacketSize this * 2 <= blen (payload packet) ->
  (byteAnd (payload packet) 1 0x1f = NAL_TYPE_IDR ->
   byteAnd (payload packet) 1 0x80 <> 0 -> seenSps this = true) ->
  0 <= sequenceNumber (header packet) + extraPackets this + 0x10000 ->
  exists fragments out,
    packetizeFuA this (payload packet) false false = Ok fragments /\
    repacketize this packet
    = Ok (setExtraPackets this (extraPackets this + Z.of_nat (length fragments) - 1),
          out) /\
    emitted this packet (marker (header packet)) fragments out /\
    (2 <= length fragments)%nat /\
    Forall (fun f => blen f <= maxPacketSize this) fragments /\
    concat (map (skipn 2) fragments) = skipn 2 (payload packet).
Proof.
  intros Hmax Hf Hs Htype Hfat Hidr Hnumber.
  destruct (fuaNormalize (payload packet) false false) as [[d ns] ne] eqn:Hnorm.
  pose proof (fuaNormalize_blen (payload packet) false false) as Hd.
  rewrite Hnorm in Hd. cbn [fst] in Hd.
  change (byteAnd (payload packet) 0 0x1f) with (byteAnd (payload packet) 0 0x1F) in Hd.
  rewrite Htype, Z.eqb_refl in Hd. unfold FU_A_HEADER_SIZE in Hd.
  assert (Hfm : 1 <= fuaMax this) by (unfold fuaMax, FU_A_HEADER_SIZE; lia).
  destruct (packetizeFuA_fragments this (payload packet) false false d ns ne Hnorm Hfm
              ltac:(lia))
    as (fragments & Hok & Hcount & Hpos & Hcat & Hall).
  destruct (createRtpPackets_returns this packet fragments [] (marker (header packet))
              Hnumber) as (out & Hout & Hemitted).
  exists fragments, out.
  split; [exact Hok|]. split; [|split; [exact Hemitted|split; [|split]]].
  - rewrite repacketize_dispatch by (rewrite ?Hf, ?Hs; exact I).
    cbv zeta. rewrite Htype, Z.eqb_refl. unfold repacketizeFuA.
    rewrite (flushPendingStapA_none _ _ Hs). cbv beta iota delta [bind].
    assert (Hcond : (byteAnd (payload packet) 1 0x1f =? NAL_TYPE_IDR)
                    && negb (byteAnd (payload packet) 1 0x80 =? 0)
                    && negb (seenSps this) = false).
    { destruct (Z.eqb_spec (byteAnd (payload packet) 1 0x1f) NAL_TYPE_IDR) as [E|E];
        [|reflexivity].
      destruct (Z.eqb_spec (byteAnd (payload packet) 1 0x80) 0) as [E'|E'];
        [reflexivity|].
      rewrite (Hidr E E'). reflexivity. }
    rewrite Hcond. cbv beta iota delta [bind]. rewrite Hf.
    destruct (Z.leb_spec (maxPacketSize this * 2) (blen (payload packet))); [|lia].
    rewrite Hok. cbv beta iota delta [bind]. rewrite Hout.
    cbn [pendingFuA setExtraPackets]. rewrite Hf.
    do 3 f_equal. lia.
  - pose proof (ceilDiv_bounds (blen d - 1) (fuaMax this) ltac:(lia)) as Hc.
    unfold fuaMax, FU_A_HEADER_SIZE in *.
    assert (2 <= Z.of_nat (length fragments)) by nia. lia.
  - apply Forall_forall. intros fr Hin.
    destruct (In_nth _ _ [] Hin) as (i & Hi & <-).
    apply (Hall i Hi).
  - rewrite Hcat. unfold fuaNormalize in Hnorm.
    change (byteAnd (payload packet) 0 0x1f) with (byteAnd (payload packet) 0 0x1F)
      in Hnorm.
    rewrite Htype, Z.eqb_refl in Hnorm.
    assert (Hdd : d = Z.lor (byteAnd (payload packet) 0 (Z.lor 0x80 0x60))
                        (byteAnd (payload packet) 1 0x1f)
                      :: subarrayFrom (payload packet) FU_A_HEADER_SIZE).
    { destruct (negb (byteAnd (payload packet) 1 0x80 =? 0));
        [|destruct (negb (byteAnd (payload packet) 1 0x40 =? 0))];
        injection Hnorm as <- _ _; reflexivity. }
    rewrite Hdd. cbn [skipn]. apply (subarrayFrom_inside (payload packet) 2). lia.
Qed.

Lemma repacketize_fat_fua_witness :
  exists fragments out,
    packetizeFuA (new 4 (mkCodec None None)) [0x7C; 0x41; 1; 2; 3; 4; 5; 6] false false
    = Ok fragments /\
    repacketize (new 4 (mkCodec None None))
      (mkPacket (mkHeader 10 false 100) [0x7C; 0x41; 1; 2; 3; 4; 5; 6])
    = Ok (setExtraPackets (new 4 (mkCodec None None))
            (0 + Z.of_nat (length fragments) - 1), out) /\
    concat (map (skipn 2) fragments) = [1; 2; 3; 4; 5; 6].
Proof.
  destruct (repacketize_fat_fua (new 4 (mkCodec None None))
              (mkPacket (mkHeader 10 false 100) [0x7C; 0x41; 1; 2; 3; 4; 5; 6]))
    as (fragments & out & Hfr & Hok & _ & _ & _ & Hcat).
  - simpl. lia.
  - reflexivity.
  - reflexivity.
  - reflexivity.
  - unfold blen. simpl. lia.
  - vm_compute. intros H. discriminate H.
  - simpl. lia.
  - exists fragments, out. split; [exact Hfr|]. split; [exact Hok|exact Hcat].
Defined.

(** ** Groups built over several calls *)

Lemma maybeSendSpsPps_missing (this : H264Repacketizer) (packet : RtpPacket)
    (ret : list Serialized) :
  sps (codecInfo this) = None \/ pps (codecInfo this) = None ->
  maybeSendSpsPps this packet ret = Ok (this, ret).
Proof.
  intros [H|H]; unfold maybeSendSpsPps; rewrite H;
    [|destruct (sps (codecInfo this))]; reflexivity.
Qed.

(** The call that [repacketizeFuA] may make to [maybeSendSpsPps] has no
    effect when an SPS has been seen or [codecInfo] lacks one of the
    parameter sets. *)
Lemma repacketizeFuA_no_synthesis (this : H264Repacketizer) (packet : RtpPacket)
    (ret : list Serialized) (cond : bool) :
  seenSps this = true \/ sps (codecInfo this) = None \/ pps (codecInfo this) = None ->
  (if cond && negb (seenSps this) then maybeSendSpsPps this packet ret else Ok (this, ret))
  = Ok (this, ret).
Proof.
  intros [H|H].
  - rewrite H, andb_false_r. reflexivity.
  - destruct (cond && negb (seenSps this)); [|reflexivity].
    apply maybeSendSpsPps_missing. exact H.
Qed.

(** A fragment without the end bit that arrives while its group is being
    collected is added to the group, and nothing is emitted. *)
Lemma repacketize_fua_collect (this : H264Repacketizer) (packet first : RtpPacket)
    (rest : list RtpPacket) :
  pendingFuA this = Some (first :: rest) ->
  pendingStapA this = None ->
  seenSps this = true \/ sps (codecInfo this) = None \/ pps (codecInfo this) = None ->
  timestamp (header first) = timestamp (header packet) ->
  byteAnd (payload packet) 0 0x1F = NAL_TYPE_FU_A ->
  repacketize this packet =
  let this' := setPendingFuA this (Some ((first :: rest) ++ [packet])) in
  if negb (byteAnd (payload packet) 1 0x40 =? 0) then flushPendingFuA this' []
  else Ok (this', []).
Proof.
  intros Hf Hs Hno Hts Htype.
  rewrite repacketize_dispatch by (rewrite ?Hf, ?Hs; try exact I; exact Hts).
  cbv zeta. rewrite Htype, Z.eqb_refl. unfold repacketizeFuA.
  rewrite (flushPendingStapA_none _ _ Hs). cbv beta iota delta [bind].
  rewrite (repacketizeFuA_no_synthesis this packet [] _ Hno).
  cbv beta iota delta [bind]. rewrite Hf. cbv beta iota delta [bind]. rewrite Hf.
  reflexivity.
Qed.

(** The first fragment of a group, not fat, arriving when nothing is
    pending. *)
Lemma repacketize_fua_open (this : H264Repacketizer) (packet : RtpPacket) :
  pendingFuA this = None ->
  pendingStapA this = None ->
  seenSps this = true \/ sps (codecInfo this) = None \/ pps (codecInfo this) = None ->
  byteAnd (payload packet) 0 0x1F = NAL_TYPE_FU_A ->
  blen (payload packet) < maxPacketSize this * 2 ->
  repacketize this packet =
  let this' := setPendingFuA this (Some [packet]) in
  if negb (byteAnd (payload packet) 1 0x40 =? 0) then flushPendingFuA this' []
  else Ok (this', []).
Proof.
  intros Hf Hs Hno Htype Hthin.
  rewrite repacketize_dispatch by (rewrite ?Hf, ?Hs; exact I).
  cbv zeta. rewrite Htype, Z.eqb_refl. unfold repacketizeFuA.
  rewrite (flushPendingStapA_none _ _ Hs). cbv beta iota delta [bind].
  rewrite (repacketizeFuA_no_synthesis this packet [] _ Hno).
  cbv beta iota delta [bind]. rewrite Hf.
  destruct (Z.leb_spec (maxPacketSize this * 2) (blen (payload packet))); [lia|].
  cbv beta iota delta [bind]. cbn [pendingFuA setPendingFuA app].
  reflexivity.
Qed.

(** A result paired with an output to which nothing is appended. *)
Lemma bind_app_nil (r : result (H264Repacketizer * list Serialized)) :
  ('(this, out) <- r ;;
   '(this, outs) <- repacketizeAll this [] ;;
   Ok (this, out ++ outs)) = r.
Proof.
  destruct r as [[this out]|e]; [|reflexivity].
  cbn [bind repacketizeAll]. rewrite app_nil_r. reflexivity.
Qed.

Lemma bind_pair_id (r : result (H264Repacketizer * list Serialized)) :
  ('(this, outs) <- r ;; Ok (this, outs)) = r.
Proof. destruct r as [[this outs]|e]; reflexivity. Qed.

(** While a group is being collected, fragments without the end bit are
    added to it one after the other, and the fragment with the end bit
    flushes the group they make. *)
Lemma repacketizeAll_fua_collect (init : list RtpPacket) :
  forall (this : H264Repacketizer) (first : RtpPacket) (rest : list RtpPacket)
         (last : RtpPacket),
    pendingFuA this = Some (first :: rest) ->
    pendingStapA this = None ->
    seenSps this = true \/ sps (codecInfo this) = None \/ pps (codecInfo this) = None ->
    timestamp (header first) = timestamp (header last) ->
    Forall (fun p => byteAnd (payload p) 0 0x1F = NAL_TYPE_FU_A /\
                     timestamp (header p) = timestamp (header last) /\
                     byteAnd (payload p) 1 0x40 = 0) init ->
    byteAnd (payload last) 0 0x1F = NAL_TYPE_FU_A ->
    byteAnd (payload last) 1 0x40 <> 0 ->
    repacketizeAll this (init ++ [last])
    = flushPendingFuA (setPendingFuA this (Some ((first :: rest) ++ init ++ [last]))) [].
Proof.
  induction init as [|p init IH];
    intros this first rest last Hf Hs Hno Hts Hinit Htype Hend.
  - cbn [app repacketizeAll].
    rewrite (repacketize_fua_collect this last first rest Hf Hs Hno Hts Htype).
    cbv zeta.
    destruct (Z.eqb_spec (byteAnd (payload last) 1 0x40) 0) as [E|_]; [contradiction|].
    cbn [negb]. apply bind_app_nil.
  - inversion Hinit as [|? ? (Hp & Hpts & Hpend) Hinit']; subst.
    cbn [app repacketizeAll].
    rewrite (repacketize_fua_collect this p first rest Hf Hs Hno ltac:(congruence) Hp).
    cbv zeta. rewrite Hpend. cbn [Z.eqb negb bind app]. rewrite bind_pair_id.
    rewrite (IH (setPendingFuA this (Some (first :: rest ++ [p]))) first (rest ++ [p])
               last);
      try assumption; try reflexivity.
    cbn [app]. rewrite <- app_assoc. reflexivity.
Qed.

(** A NAL that arrives as FU-A fragments of one timestamp, none of them
    fat and only the last with the end bit, while nothing else is pending
    and no SPS has to be made up: the calls for the fragments before the
    last emit nothing, and the call for the last gives what
    [flushPendingFuA] makes of the group of all of them.  Feeding the
    fragments one by one is flushing the group they make. *)
Theorem repacketizeAll_fua_group (this : H264Repacketizer) (init : list RtpPacket)
    (last : RtpPacket) :
  pendingFuA this = None ->
  pendingStapA this = None ->
  seenSps this = true \/ sps (codecInfo this) = None \/ pps (codecInfo this) = None ->
  Forall (fun p => byteAnd (payload p) 0 0x1F = NAL_TYPE_FU_A /\
                   timestamp (header p) = timestamp (header last) /\
                   byteAnd (payload p) 1 0x40 = 0) init ->
  byteAnd (payload last) 0 0x1F = NAL_TYPE_FU_A ->
  byteAnd (payload last) 1 0x40 <> 0 ->
  blen (payload (hd last init)) < maxPacketSize this * 2 ->
  repacketizeAll this (init ++ [last])
  = flushPendingFuA (setPendingFuA this (Some (init ++ [last]))) [].
Proof.
  intros Hf Hs Hno Hinit Htype Hend Hthin.
  destruct init as [|p init].
  - cbn [app repacketizeAll hd] in *.
    rewrite (repacketize_fua_open this last Hf Hs Hno Htype Hthin). cbv zeta.
    destruct (Z.eqb_spec (byteAnd (payload last) 1 0x40) 0) as [E|_]; [contradiction|].
    cbn [negb]. apply bind_app_nil.
  - inversion Hinit as [|? ? (Hp & Hpts & Hpend) Hinit']; subst.
    cbn [app repacketizeAll hd] in *.
    rewrite (repacketize_fua_open this p Hf Hs Hno Hp Hthin). cbv zeta.
    rewrite Hpend. cbn [Z.eqb negb bind app]. rewrite bind_pair_id.
    rewrite (repacketizeAll_fua_collect init (setPendingFuA this (Some [p])) p [] last);
      try assumption; reflexivity.
Qed.

(** An instance: a start, a middle and an end fragment. *)
Lemma repacketizeAll_fua_group_witness :
  repacketizeAll (new 1200 (mkCodec None None))
    ([mkPacket (mkHeader 7 false 90) [0x7C; 0x85; 1; 2];
      mkPacket (mkHeader 8 false 90) [0x7C; 0x05; 3]]
     ++ [mkPacket (mkHeader 9 true 90) [0x7C; 0x45; 4; 5]])
  = flushPendingFuA
      (setPendingFuA (new 1200 (mkCodec None None))
         (Some ([mkPacket (mkHeader 7 false 90) [0x7C; 0x85; 1; 2];
                 mkPacket (mkHeader 8 false 90) [0x7C; 0x05; 3]]
                ++ [mkPacket (mkHeader 9 true 90) [0x7C; 0x45; 4; 5]])))
      [].
Proof.
  apply repacketizeAll_fua_group.
  - reflexivity.
  - reflexivity.
  - right. left. reflexivity.
  - repeat constructor.
  - reflexivity.
  - vm_compute. intros H. discriminate H.
  - unfold blen. simpl. lia.
Defined.

(** An SPS or a PPS that arrives when no FU-A group is pending is added to
    [pendingStapA], and nothing is emitted. *)
Lemma repacketize_parameter_set (this : H264Repacketizer) (packet : RtpPacket) :
  pendingFuA this = None ->
  sameTimestamp (pendingStapA this) packet ->
  byteAnd (payload packet) 0 0x1F = NAL_TYPE_SPS \/
  byteAnd (payload packet) 0 0x1F = NAL_TYPE_PPS ->
  repacketize this packet
  = Ok (setPendingStapA
          (setSeenSps this (seenSps this || isSps (payload packet)))
          (Some (match pendingStapA this with
                 | Some pending => pending
                 | None => []
                 end ++ [packet])),
        []).
Proof.
  intros Hf Hs Htype.
  rewrite repacketize_dispatch by (rewrite ?Hf; try exact I; exact Hs).
  cbv zeta. unfold isSps.
  assert (H : exists t, byteAnd (payload packet) 0 0x1F = t /\
                        (t = NAL_TYPE_SPS \/ t = NAL_TYPE_PPS))
    by (eexists; split; [reflexivity|exact Htype]).
  destruct H as (t & -> & Ht).
  unfold repacketizeSingle.
  destruct Ht as [-> | ->];
    cbn [Z.eqb Pos.eqb NAL_TYPE_SPS NAL_TYPE_PPS NAL_TYPE_FU_A NAL_TYPE_STAP_A
         Z.leb Z.ltb Z.compare Pos.compare Pos.compare_cont andb orb];
    rewrite (flushPendingFuA_none _ _ Hf); cbv beta iota delta [bind];
    reflexivity.
Qed.

Lemma repacketizeAll_cons (this : H264Repacketizer) (packet : RtpPacket)
    (rest : list RtpPacket) :
  repacketizeAll this (packet :: rest) =
  ('(this, out) <- repacketize this packet ;;
   '(this, outs) <- repacketizeAll this rest ;;
   Ok (this, out ++ outs)).
Proof. reflexivity. Qed.

(** Parameter sets are held back.  A run of SPS and PPS packets of one
    timestamp, arriving when no FU-A group is pending and [pendingStapA] is
    empty or of that timestamp, emits nothing: the packets are queued in
    [pendingStapA] in their order, and [seenSps] is set when one of them is
    an SPS. *)
Theorem repacketizeAll_parameter_sets_held (cs : list RtpPacket) :
  forall (this : H264Repacketizer) (c : RtpPacket),
    pendingFuA this = None ->
    sameTimestamp (pendingStapA this) c ->
    Forall (fun p => (byteAnd (payload p) 0 0x1F = NAL_TYPE_SPS \/
                      byteAnd (payload p) 0 0x1F = NAL_TYPE_PPS) /\
                     timestamp (header p) = timestamp (header c)) (c :: cs) ->
    repacketizeAll this (c :: cs)
    = Ok (setPendingStapA
            (setSeenSps this
               (seenSps this || existsb (fun p => isSps (payload p)) (c :: cs)))
            (Some (match pendingStapA this with
                   | Some pending => pending
                   | None => []
                   end ++ c :: cs)),
          []).
Proof.
  induction cs as [|c' cs IH]; intros this c Hf Hs Hall;
    inversion Hall as [|? ? (Hc & _) Hall']; subst;
    rewrite repacketizeAll_cons, (repacketize_parameter_set this c Hf Hs Hc);
    cbv beta iota delta [bind].
  - cbn [repacketizeAll existsb app]. rewrite orb_false_r. reflexivity.
  - inversion Hall' as [|? ? (Hc' & Hts') Hall'']; subst.
    rewrite IH.
    + cbv beta iota delta [bind]. cbn [app existsb].
      unfold setPendingStapA, setSeenSps.
      cbn [maxPacketSize codecInfo extraPackets pendingStapA pendingFuA seenSps].
      do 2 f_equal. f_equal.
      * rewrite <- app_assoc. reflexivity.
      * rewrite !orb_assoc. reflexivity.
    + exact Hf.
    + cbn [pendingStapA setPendingStapA]. unfold sameTimestamp in *.
      destruct (pendingStapA this) as [[|q qs]|]; [contradiction| |];
        cbn [app]; congruence.
    + constructor; [split; [exact Hc'|reflexivity]|].
      eapply Forall_impl; [|exact Hall''].
      intros p [Hp Hpts]. split; [exact Hp|congruence].
Qed.

(** An instance: an SPS and a PPS, from the start. *)
Lemma repacketizeAll_parameter_sets_held_witness :
  repacketizeAll (new 1200 (mkCodec None None))
    [mkPacket (mkHeader 7 false 90) [0x67; 1; 2];
     mkPacket (mkHeader 8 false 90) [0x68; 3]]
  = Ok (setPendingStapA
          (setSeenSps (new 1200 (mkCodec None None))
             (false || existsb (fun p => isSps (payload p))
                         [mkPacket (mkHeader 7 false 90) [0x67; 1; 2];
                          mkPacket (mkHeader 8 false 90) [0x68; 3]]))
          (Some ([] ++ [mkPacket (mkHeader 7 false 90) [0x67; 1; 2];
                        mkPacket (mkHeader 8 false 90) [0x68; 3]])),
        []).
Proof.
  apply (repacketizeAll_parameter_sets_held
           [mkPacket (mkHeader 8 false 90) [0x68; 3]]
           (new 1200 (mkCodec None None))
           (mkPacket (mkHeader 7 false 90) [0x67; 1; 2])).
  - reflexivity.
  - exact I.
  - constructor; [split; [left; reflexivity|reflexivity]|].
    constructor; [split; [right; reflexivity|reflexivity]|].
    constructor.
Defined.

(** ** What each step leaves of the state *)

Lemma emitted_timestamp (this : H264Repacketizer) (packet : RtpPacket) (hadMarker : bool)
    (chunks : list Buffer) (new : list Serialized) :
  emitted this packet hadMarker chunks new ->
  Forall (fun s => timestamp (header s) = timestamp (header packet)) new.
Proof.
  intros [Hlen Hnth]. apply Forall_forall. intros s Hin.
  destruct (In_nth_error _ _ Hin) as (j & Hj).
  assert (Hlt : (j < length chunks)%nat)
    by (rewrite <- Hlen; apply nth_error_Some; congruence).
  destruct (nth_error chunks j) as [n|] eqn:Hn;
    [|apply nth_error_None in Hn; lia].
  rewrite (Hnth j n Hn) in Hj. injection Hj as <-. reflexivity.
Qed.

Lemma createRtpPackets_frame (this this' : H264Repacketizer) (packet : RtpPacket)
    (nalus : list Buffer) (ret ret' : list Serialized) (hadMarker : bool) :
  createRtpPackets this packet nalus ret hadMarker = Ok (this', ret') ->
  sameButExtra this' this /\
  exists new,
    ret' = ret ++ new /\
    Forall (fun s => timestamp (header s) = timestamp (header packet)) new.
Proof.
  intros H.
  destruct (createRtpPackets_emitted _ _ _ _ _ _ _ H) as (-> & new & -> & Hemitted).
  split; [apply sameButExtra_set|].
  exists new. split; [reflexivity|].
  eapply emitted_timestamp. exact Hemitted.
Qed.

Lemma flushPendingFuA_frame (this this' : H264Repacketizer) (ret ret' : list Serialized) :
  flushPendingFuA this ret = Ok (this', ret') ->
  maxPacketSize this' = maxPacketSize this /\
  codecInfo this' = codecInfo this /\
  seenSps this' = seenSps this /\
  pendingStapA this' = pendingStapA this /\
  pendingFuA this' = None /\
  exists new,
    ret' = ret ++ new /\
    Forall (fun s => exists first rest,
                pendingFuA this = Some (first :: rest) /\
                timestamp (header s) = timestamp (header first)) new.
Proof.
  unfold flushPendingFuA. intros H.
  destruct (pendingFuA this) as [[|first rest]|] eqn:Hp; try discriminate.
  - destruct (fuaGroupCheck _ None (first :: rest)); cbn [negb] in H.
    + apply bind_Ok in H as (fragments & _ & H). cbv beta iota zeta in H.
      bind_step H this1 ret1 Hc.
      apply createRtpPackets_frame in Hc as ((Hm & Hcodec & Hs & Hf & Hseen) & new & -> & Hts).
      apply Ok_pair_inv in H as [<- <-]. state_simpl.
      repeat split; try assumption.
      exists new. split; [reflexivity|].
      eapply Forall_impl; [|exact Hts].
      intros s Hs'. exists first, rest. split; [reflexivity|exact Hs'].
    + apply Ok_pair_inv in H as [<- <-]. state_simpl.
      repeat split. exists []. rewrite app_nil_r. split; [reflexivity|constructor].
  - apply Ok_pair_inv in H as [<- <-]. repeat split; try assumption.
    exists []. rewrite app_nil_r. split; [reflexivity|constructor].
Qed.

Lemma flushPendingStapA_frame (this this' : H264Repacketizer)
    (ret ret' : list Serialized) :
  flushPendingStapA this ret = Ok (this', ret') ->
  maxPacketSize this' = maxPacketSize this /\
  codecInfo this' = codecInfo this /\
  seenSps this' = seenSps this /\
  pendingFuA this' = pendingFuA this /\
  pendingStapA this' = None /\
  exists new,
    ret' = ret ++ new /\
    Forall (fun s => exists first rest,
                pendingStapA this = Some (first :: rest) /\
                timestamp (header s) = timestamp (header first)) new.
Proof.
  unfold flushPendingStapA. intros H.
  destruct (pendingStapA this) as [[|first rest]|] eqn:Hp; try discriminate.
  - apply bind_Ok in H as (aggregates & _ & H). cbv beta iota zeta in H.
    destruct aggregates as [|a [|b more]]; cbn [length Nat.eqb negb] in H;
      try (apply Ok_pair_inv in H as [<- <-]; state_simpl; repeat split;
           exists []; rewrite app_nil_r; split; [reflexivity|constructor]).
    apply bind_Ok in H as (made & Hcall & H). cbv beta iota zeta in H.
    cbn [stapAForEach] in Hcall. cbv zeta in Hcall.
    apply bind_Ok in Hcall as (created & Hmade & Hcall).
    apply createPacket_Ok in Hmade as [_ ->]. injection Hcall as <-.
    apply Ok_pair_inv in H as [<- <-]. state_simpl. repeat split.
    eexists. split; [reflexivity|].
    constructor; [|constructor].
    exists first, rest. split; reflexivity.
  - apply Ok_pair_inv in H as [<- <-]. repeat split; try assumption.
    exists []. rewrite app_nil_r. split; [reflexivity|constructor].
Qed.

Lemma maybeSendSpsPps_frame (this this' : H264Repacketizer) (packet : RtpPacket)
    (ret ret' : list Serialized) :
  maybeSendSpsPps this packet ret = Ok (this', ret') ->
  sameButExtra this' this /\
  exists new,
    ret' = ret ++ new /\
    Forall (fun s => timestamp (header s) = timestamp (header packet)) new.
Proof.
  assert (Hnone : forall t r, Ok (this, ret) = Ok (t, r) ->
            sameButExtra t this /\
            exists new, r = ret ++ new /\
              Forall (fun s => timestamp (header s) = timestamp (header packet)) new).
  { intros t r H. apply Ok_pair_inv in H as [<- <-].
    split; [apply sameButExtra_refl|].
    exists []. rewrite app_nil_r. split; [reflexivity|constructor]. }
  unfold maybeSendSpsPps. intros H.
  destruct (sps (codecInfo this)) as [s|]; [|apply Hnone; exact H].
  destruct (pps (codecInfo this)) as [p|]; [|apply Hnone; exact H].
  apply bind_Ok in H as (aggregates & _ & H). cbv beta iota zeta in H.
  destruct (negb (Nat.eqb (length aggregates) 1)); [apply Hnone; exact H|].
  bind_step H this1 ret1 Hc.
  apply createRtpPackets_frame in Hc as (Hsame & new & -> & Hts).
  apply Ok_pair_inv in H as [<- <-]. split.
  - exact (sameButExtra_trans _ _ _ (sameButExtra_set this1 _) Hsame).
  - exists new. split; [reflexivity|exact Hts].
Qed.

(** ** One call, as a step of the state *)

Lemma timestampFrom_incl (a b : list RtpPacket) (s : Serialized) :
  incl a b -> timestampFrom a s -> timestampFrom b s.
Proof.
  unfold timestampFrom. intros Hincl H.
  apply in_map_iff in H as (p & Hp & Hin).
  apply in_map_iff. exists p. split; [exact Hp|apply Hincl; exact Hin].
Qed.

Lemma timestampFrom_head_fua (this : H264Repacketizer) (packet first : RtpPacket)
    (rest : list RtpPacket) (s : Serialized) :
  pendingFuA this = Some (first :: rest) ->
  timestamp (header s) = timestamp (header first) ->
  timestampFrom (held this ++ [packet]) s.
Proof.
  intros Hp Hs. unfold timestampFrom, held. rewrite Hp, Hs.
  apply (in_map (fun p => timestamp (header p))). left. reflexivity.
Qed.

Lemma timestampFrom_head_stap (this : H264Repacketizer) (packet first : RtpPacket)
    (rest : list RtpPacket) (s : Serialized) :
  pendingStapA this = Some (first :: rest) ->
  timestamp (header s) = timestamp (header first) ->
  timestampFrom (held this ++ [packet]) s.
Proof.
  intros Hp Hs. unfold timestampFrom, held. rewrite Hp, Hs.
  apply (in_map (fun p => timestamp (header p))). apply in_or_app. left. apply in_or_app. right. left. reflexivity.
Qed.

Lemma timestampFrom_packet (this : H264Repacketizer) (packet : RtpPacket) (s : Serialized) :
  timestamp (header s) = timestamp (header packet) ->
  timestampFrom (held this ++ [packet]) s.
Proof.
  intros Hs. unfold timestampFrom. rewrite Hs.
  apply (in_map (fun p => timestamp (header p))). apply in_or_app. right. left. reflexivity.
Qed.

Lemma midCall_refl (this : H264Repacketizer) : midCall this this.
Proof. unfold midCall. tauto. Qed.

Lemma midCall_sameButExtra (this0 this this' : H264Repacketizer) :
  midCall this0 this -> sameButExtra this' this -> midCall this0 this'.
Proof.
  unfold midCall, sameButExtra.
  intros (Hm & Hc & Hs & Hf & Ha) (Hm' & Hc' & Ha' & Hf' & Hs').
  rewrite Hm', Hc', Hs', Hf', Ha'. tauto.
Qed.

Lemma midCall_held (this0 this : H264Repacketizer) :
  midCall this0 this -> incl (held this) (held this0).
Proof.
  unfold midCall, held. intros (_ & _ & _ & [Hf|Hf] & [Ha|Ha]); rewrite Hf, Ha;
    intros x Hx; apply in_app_or in Hx; apply in_or_app;
    cbn [In] in *; tauto.
Qed.

Lemma emittedFrom_mid (this0 this : H264Repacketizer) (packet : RtpPacket)
    (ret new : list Serialized) :
  midCall this0 this ->
  emittedFrom this0 packet ret ->
  Forall (timestampFrom (held this ++ [packet])) new ->
  emittedFrom this0 packet (ret ++ new).
Proof.
  intros Hmid Hret Hnew. apply Forall_app. split; [exact Hret|].
  eapply Forall_impl; [|exact Hnew].
  intros s. apply timestampFrom_incl.
  apply incl_app; [|apply incl_appr, incl_refl].
  apply incl_appl. apply midCall_held. exact Hmid.
Qed.

Lemma flushPendingFuA_mid (this0 this this' : H264Repacketizer) (packet : RtpPacket)
    (ret ret' : list Serialized) :
  flushPendingFuA this ret = Ok (this', ret') ->
  midCall this0 this -> emittedFrom this0 packet ret ->
  midCall this0 this' /\ emittedFrom this0 packet ret' /\
  pendingFuA this' = None /\ pendingStapA this' = pendingStapA this.
Proof.
  intros H Hmid Hret.
  apply flushPendingFuA_frame in H as (Hm & Hc & Hs & Ha & Hf & new & -> & Hts).
  split; [|split; [|split; [exact Hf|exact Ha]]].
  - unfold midCall in *. rewrite Hm, Hc, Hs, Hf, Ha. tauto.
  - apply (emittedFrom_mid this0 this); try assumption.
    eapply Forall_impl; [|exact Hts].
    intros s (first & rest & Hp & Hs'). eapply timestampFrom_head_fua; eassumption.
Qed.

Lemma flushPendingStapA_mid (this0 this this' : H264Repacketizer) (packet : RtpPacket)
    (ret ret' : list Serialized) :
  flushPendingStapA this ret = Ok (this', ret') ->
  midCall this0 this -> emittedFrom this0 packet ret ->
  midCall this0 this' /\ emittedFrom this0 packet ret' /\
  pendingStapA this' = None /\ pendingFuA this' = pendingFuA this.
Proof.
  intros H Hmid Hret.
  apply flushPendingStapA_frame in H as (Hm & Hc & Hs & Hf & Ha & new & -> & Hts).
  split; [|split; [|split; [exact Ha|exact Hf]]].
  - unfold midCall in *. rewrite Hm, Hc, Hs, Hf, Ha. tauto.
  - apply (emittedFrom_mid this0 this); try assumption.
    eapply Forall_impl; [|exact Hts].
    intros s (first & rest & Hp & Hs'). eapply timestampFrom_head_stap; eassumption.
Qed.

Lemma createRtpPackets_mid (this0 this this' : H264Repacketizer) (packet : RtpPacket)
    (nalus : list Buffer) (ret ret' : list Serialized) (hadMarker : bool) :
  createRtpPackets this packet nalus ret hadMarker = Ok (this', ret') ->
  midCall this0 this -> emittedFrom this0 packet ret ->
  midCall this0 this' /\ emittedFrom this0 packet ret' /\ sameButExtra this' this.
Proof.
  intros H Hmid Hret.
  apply createRtpPackets_frame in H as (Hsame & new & -> & Hts).
  split; [|split; [|exact Hsame]].
  - eapply midCall_sameButExtra; eassumption.
  - apply (emittedFrom_mid this0 this); try assumption.
    eapply Forall_impl; [|exact Hts].
    intros s Hs. apply timestampFrom_packet. exact Hs.
Qed.

Lemma maybeSendSpsPps_mid (this0 this this' : H264Repacketizer) (packet : RtpPacket)
    (ret ret' : list Serialized) (cond : bool) :
  (if cond then maybeSendSpsPps this packet ret else Ok (this, ret)) = Ok (this', ret') ->
  midCall this0 this -> emittedFrom this0 packet ret ->
  midCall this0 this' /\ emittedFrom this0 packet ret' /\ sameButExtra this' this.
Proof.
  intros H Hmid Hret. destruct cond.
  - apply maybeSendSpsPps_frame in H as (Hsame & new & -> & Hts).
    split; [|split; [|exact Hsame]].
    + eapply midCall_sameButExtra; eassumption.
    + apply (emittedFrom_mid this0 this); try assumption.
      eapply Forall_impl; [|exact Hts].
      intros s Hs. apply timestampFrom_packet. exact Hs.
  - apply Ok_pair_inv in H as [<- <-].
    split; [exact Hmid|split; [exact Hret|apply sameButExtra_refl]].
Qed.

(** The branch of an FU-A payload. *)
Lemma repacketizeFuA_step (this0 this this' : H264Repacketizer) (packet : RtpPacket)
    (ret ret' : list Serialized) :
  repacketizeFuA this packet ret = Ok (this', ret') ->
  midCall this0 this -> emittedFrom this0 packet ret ->
  maxPacketSize this' = maxPacketSize this0 /\
  codecInfo this' = codecInfo this0 /\
  seenSps this' = seenSps this0 /\
  emittedFrom this0 packet ret' /\
  pendingStapA this' = None /\
  (pendingFuA this' = None \/
   exists l, pendingFuA this' = Some (l ++ [packet]) /\
             (l = [] \/ pendingFuA this = Some l) /\
             byteAnd (payload packet) 1 0x40 = 0).
Proof.
  unfold repacketizeFuA. intros H Hmid Hret.
  bind_step H this1 ret1 H1.
  destruct (flushPendingStapA_mid this0 _ _ packet _ _ H1 Hmid Hret)
    as (Hmid1 & Hret1 & Ha1 & Hf1).
  bind_step H this2 ret2 H2.
  destruct (maybeSendSpsPps_mid this0 _ _ packet _ _ _ H2 Hmid1 Hret1)
    as (Hmid2 & Hret2 & (_ & _ & Ha2 & Hf2 & _)).
  rewrite Ha1 in Ha2. rewrite Hf1 in Hf2.
  bind_step H this3 ret3 H3.
  assert (Hflush : forall (t : H264Repacketizer) (l : list RtpPacket),
            maxPacketSize t = maxPacketSize this0 ->
            codecInfo t = codecInfo this0 ->
            seenSps t = seenSps this0 ->
            pendingStapA t = None ->
            (l = [] \/ pendingFuA this = Some l) ->
            (if negb (byteAnd (payload packet) 1 0x40 =? 0)
             then flushPendingFuA (setPendingFuA t (Some (l ++ [packet]))) ret2
             else Ok (setPendingFuA t (Some (l ++ [packet])), ret2)) = Ok (this', ret') ->
            maxPacketSize this' = maxPacketSize this0 /\
            codecInfo this' = codecInfo this0 /\
            seenSps this' = seenSps this0 /\
            emittedFrom this0 packet ret' /\
            pendingStapA this' = None /\
            (pendingFuA this' = None \/
             exists l, pendingFuA this' = Some (l ++ [packet]) /\
                       (l = [] \/ pendingFuA this = Some l) /\
                       byteAnd (payload packet) 1 0x40 = 0)).
  { intros t l Hm Hc Hs Ha Hl Hfin.
    destruct (Z.eqb_spec (byteAnd (payload packet) 1 0x40) 0) as [Hend|Hend];
      cbn [negb] in Hfin.
    - apply Ok_pair_inv in Hfin as [<- <-]. state_simpl.
      repeat split; try assumption.
      right. exists l. repeat split; assumption.
    - apply flushPendingFuA_frame in Hfin
        as (Hm' & Hc' & Hs' & Ha' & Hf' & new & -> & Hts).
      state_simpl.
      split; [congruence|]. split; [congruence|]. split; [congruence|].
      split; [|split; [congruence|left; exact Hf']].
      apply Forall_app. split; [exact Hret2|].
      eapply Forall_impl; [|exact Hts].
      intros s (first & rest & Hp & Hs'').
      destruct l as [|q qs].
      + cbn [app] in Hp. injection Hp as <- _.
        apply timestampFrom_packet. exact Hs''.
      + cbn [app] in Hp. injection Hp as <- _.
        destruct Hl as [Hl|Hl]; [discriminate|].
        eapply (timestampFrom_head_fua this0); [|exact Hs''].
        destruct Hmid as (_ & _ & _ & [Hn|Hsame] & _); [congruence|].
        rewrite <- Hsame. exact Hl. }
  destruct Hmid2 as (Hm2 & Hc2 & Hs2 & _ & _).
  destruct (pendingFuA this2) as [pending|] eqn:Hp2.
  - (* a group is being collected *)
    apply Ok_pair_inv in H3 as [<- <-]. rewrite Hp2 in H.
    apply (Hflush this2 pending); try assumption. right. congruence.
  - destruct (Z.leb_spec (maxPacketSize this2 * 2) (blen (payload packet))).
    + (* fat: sent at once *)
      apply bind_Ok in H3 as (fragments & _ & Hcr). cbv beta in Hcr.
      destruct (createRtpPackets_frame _ _ _ _ _ _ _ Hcr)
        as ((Hm & Hcodec & Ha3 & Hf3 & Hs) & new & -> & Hts).
      rewrite Hf3, Hp2 in H. apply Ok_pair_inv in H as [<- <-].
      split; [congruence|]. split; [congruence|]. split; [congruence|].
      split; [|split; [congruence|left; congruence]].
      apply Forall_app. split; [exact Hret2|].
      eapply Forall_impl; [|exact Hts].
      intros s Hs'. apply timestampFrom_packet. exact Hs'.
    + (* a new group *)
      apply Ok_pair_inv in H3 as [<- <-]. cbn [pendingFuA setPendingFuA] in H.
      apply (Hflush (setPendingFuA this2 (Some [])) []); state_simpl;
        try assumption; try (left; reflexivity).
Qed.

(** The branch of a STAP-A payload. *)
Lemma repacketizeStapA_step (this0 this this' : H264Repacketizer) (packet : RtpPacket)
    (ret ret' : list Serialized) :
  repacketizeStapA this packet ret = Ok (this', ret') ->
  midCall this0 this -> emittedFrom this0 packet ret ->
  maxPacketSize this' = maxPacketSize this0 /\
  codecInfo this' = codecInfo this0 /\
  (exists nals, depacketizeStapA (payload packet) = Ok nals /\
                seenSps this' = seenSps this0 || existsb isSps nals) /\
  emittedFrom this0 packet ret' /\
  pendingFuA this' = None /\
  pendingStapA this' = pendingStapA this.
Proof.
  unfold repacketizeStapA. intros H Hmid Hret.
  bind_step H this1 ret1 H1.
  destruct (flushPendingFuA_mid this0 _ _ packet _ _ H1 Hmid Hret)
    as (Hmid1 & Hret1 & Hf1 & Ha1).
  apply bind_Ok in H as (nals & Hnals & H). cbv beta iota zeta in H.
  rewrite filterSei_eq in H.
  apply bind_Ok in H as (aggregates & _ & Hcr). cbv beta in Hcr.
  destruct (createRtpPackets_frame _ _ _ _ _ _ _ Hcr)
    as ((Hm & Hc & Ha & Hf & Hs) & new & -> & Hts).
  state_simpl. destruct Hmid1 as (Hm1 & Hc1 & Hs1 & _ & _).
  split; [congruence|]. split; [congruence|].
  split; [exists nals; split; [exact Hnals|congruence]|].
  split; [|split; congruence].
  apply Forall_app. split; [exact Hret1|].
  eapply Forall_impl; [|exact Hts].
  intros s Hs'. apply timestampFrom_packet. exact Hs'.
Qed.

(** The branch of a NAL of type 1 to 23. *)
Lemma repacketizeSingle_step (this0 this this' : H264Repacketizer) (packet : RtpPacket)
    (nalType : Z) (ret ret' : list Serialized) :
  repacketizeSingle this packet nalType ret = Ok (this', ret') ->
  midCall this0 this -> emittedFrom this0 packet ret ->
  maxPacketSize this' = maxPacketSize this0 /\
  codecInfo this' = codecInfo this0 /\
  seenSps this' = seenSps this0 || (nalType =? NAL_TYPE_SPS) /\
  emittedFrom this0 packet ret' /\
  pendingFuA this' = None /\
  (pendingStapA this' = None \/
   exists l, pendingStapA this' = Some (l ++ [packet]) /\
             (l = [] \/ pendingStapA this = Some l) /\
             (nalType = NAL_TYPE_SPS \/ nalType = NAL_TYPE_PPS)).
Proof.
  unfold repacketizeSingle. intros H Hmid Hret.
  bind_step H this1 ret1 H1.
  destruct (flushPendingFuA_mid this0 _ _ packet _ _ H1 Hmid Hret)
    as (Hmid1 & Hret1 & Hf1 & Ha1).
  destruct ((nalType =? NAL_TYPE_SPS) || (nalType =? NAL_TYPE_PPS)) eqn:Hcodec.
  - apply Ok_pair_inv in H as [<- <-]. state_simpl.
    destruct Hmid1 as (Hm1 & Hc1 & Hs1 & _ & _).
    split; [congruence|]. split; [congruence|]. split; [congruence|].
    split; [exact Hret1|]. split; [exact Hf1|].
    right. eexists. split; [reflexivity|]. split.
    + rewrite Ha1. destruct (pendingStapA this); [right; reflexivity|left; reflexivity].
    + apply orb_prop in Hcodec as [E|E]; apply Z.eqb_eq in E; [left|right]; exact E.
  - apply orb_false_elim in Hcodec as [Hsps _]. rewrite Hsps, orb_false_r.
    bind_step H this2 ret2 H2.
    destruct (flushPendingStapA_mid this0 _ _ packet _ _ H2 Hmid1 Hret1)
      as (Hmid2 & Hret2 & Ha2 & Hf2).
    destruct (nalType =? NAL_TYPE_SEI).
    + apply Ok_pair_inv in H as [<- <-]. state_simpl.
      destruct Hmid2 as (Hm2 & Hc2 & Hs2 & _ & _).
      repeat split; try assumption; try congruence. left. exact Ha2.
    + bind_step H this3 ret3 H3.
      destruct (maybeSendSpsPps_mid this0 _ _ packet _ _ _ H3 Hmid2 Hret2)
        as ((Hm3 & Hc3 & Hs3 & _ & _) & Hret3 & (_ & _ & Ha3 & Hf3 & _)).
      destruct (maxPacketSize this3 <? blen (payload packet)).
      * apply bind_Ok in H as (fragments & _ & Hcr). cbv beta in Hcr.
        destruct (createRtpPackets_frame _ _ _ _ _ _ _ Hcr)
          as ((Hm & Hc & Ha & Hf & Hs) & new & -> & Hts).
        split; [congruence|]. split; [congruence|]. split; [congruence|].
        split; [|split; [congruence|left; congruence]].
        apply Forall_app. split; [exact Hret3|].
        eapply Forall_impl; [|exact Hts].
        intros s Hs'. apply timestampFrom_packet. exact Hs'.
      * apply bind_Ok in H as (created & Hmade & H). cbv beta in H.
        apply createPacket_Ok in Hmade as [_ ->].
        apply Ok_pair_inv in H as [<- <-].
        split; [congruence|]. split; [congruence|]. split; [congruence|].
        split; [|split; [congruence|left; congruence]].
        apply Forall_app. split; [exact Hret3|].
        constructor; [|constructor].
        apply timestampFrom_packet. reflexivity.
Qed.

Lemma flushFuAOnTimestamp_mid (this this' : H264Repacketizer) (packet : RtpPacket)
    (ret ret' : list Serialized) :
  flushFuAOnTimestamp this packet ret = Ok (this', ret') ->
  emittedFrom this packet ret ->
  midCall this this' /\ emittedFrom this packet ret' /\
  pendingStapA this' = pendingStapA this /\
  (pendingFuA this' = None \/
   (pendingFuA this' = pendingFuA this /\ sameTimestamp (pendingFuA this) packet)).
Proof.
  unfold flushFuAOnTimestamp. intros H Hret.
  destruct (pendingFuA this) as [pending|] eqn:Hp.
  - apply bind_Ok in H as (ts & Hts & H).
    destruct pending as [|first rest]; [discriminate|].
    cbn [headTimestamp] in Hts. injection Hts as <-.
    destruct (Z.eqb_spec (timestamp (header first)) (timestamp (header packet)))
      as [E|E]; cbn [negb] in H.
    + apply Ok_pair_inv in H as [<- <-].
      split; [apply midCall_refl|]. split; [exact Hret|]. split; [reflexivity|].
      right. split; [exact Hp|exact E].
    + destruct (flushPendingFuA_mid this _ _ packet _ _ H (midCall_refl this) Hret)
        as (Hmid & Hret' & Hf & Ha).
      split; [exact Hmid|]. split; [exact Hret'|]. split; [exact Ha|left; exact Hf].
  - apply Ok_pair_inv in H as [<- <-].
    split; [apply midCall_refl|]. split; [exact Hret|]. split; [reflexivity|].
    left. exact Hp.
Qed.

Lemma flushStapAOnTimestamp_mid (this0 this this' : H264Repacketizer) (packet : RtpPacket)
    (ret ret' : list Serialized) :
  flushStapAOnTimestamp this packet ret = Ok (this', ret') ->
  midCall this0 this -> emittedFrom this0 packet ret ->
  midCall this0 this' /\ emittedFrom this0 packet ret' /\
  pendingFuA this' = pendingFuA this /\
  (pendingStapA this' = None \/
   (pendingStapA this' = pendingStapA this /\ sameTimestamp (pendingStapA this) packet)).
Proof.
  unfold flushStapAOnTimestamp. intros H Hmid Hret.
  destruct (pendingStapA this) as [pending|] eqn:Hp.
  - apply bind_Ok in H as (ts & Hts & H).
    destruct pending as [|first rest]; [discriminate|].
    cbn [headTimestamp] in Hts. injection Hts as <-.
    destruct (Z.eqb_spec (timestamp (header first)) (timestamp (header packet)))
      as [E|E]; cbn [negb] in H.
    + apply Ok_pair_inv in H as [<- <-].
      split; [exact Hmid|]. split; [exact Hret|]. split; [reflexivity|].
      right. split; [exact Hp|exact E].
    + destruct (flushPendingStapA_mid this0 _ _ packet _ _ H Hmid Hret)
        as (Hmid' & Hret' & Ha & Hf).
      split; [exact Hmid'|]. split; [exact Hret'|]. split; [exact Hf|left; exact Ha].
  - apply Ok_pair_inv in H as [<- <-].
    split; [exact Hmid|]. split; [exact Hret|]. split; [reflexivity|].
    left. exact Hp.
Qed.

(** One call of [repacketize] that returns: what it leaves of the state
    and where its output comes from. *)
Lemma repacketize_step (this this' : H264Repacketizer) (packet : RtpPacket)
    (out : list Serialized) :
  repacketize this packet = Ok (this', out) ->
  maxPacketSize this' = maxPacketSize this /\
  codecInfo this' = codecInfo this /\
  seenSps this' = seenSps this || carriesSps packet /\
  Forall (timestampFrom (held this ++ [packet])) out /\
  (pendingFuA this' = None \/
   (pendingFuA this' = pendingFuA this /\
    (pendingStapA this' = None \/ pendingStapA this' = pendingStapA this)) \/
   (exists l, pendingFuA this' = Some (l ++ [packet]) /\
              (l = [] \/ (pendingFuA this = Some l /\ sameTimestamp (Some l) packet)) /\
              byteAnd (payload packet) 0 0x1F = NAL_TYPE_FU_A /\
              byteAnd (payload packet) 1 0x40 = 0 /\
              pendingStapA this' = None)) /\
  (pendingStapA this' = None \/
   pendingStapA this' = pendingStapA this \/
   (exists l, pendingStapA this' = Some (l ++ [packet]) /\
              (l = [] \/ (pendingStapA this = Some l /\ sameTimestamp (Some l) packet)) /\
              (byteAnd (payload packet) 0 0x1F = NAL_TYPE_SPS \/
               byteAnd (payload packet) 0 0x1F = NAL_TYPE_PPS))).
Proof.
  unfold repacketize. intros H.
  bind_step H this1 ret1 H1.
  destruct (flushFuAOnTimestamp_mid _ _ _ _ _ H1 (Forall_nil _))
    as (Hmid1 & Hret1 & Ha1 & Hf1).
  bind_step H this2 ret2 H2.
  destruct (flushStapAOnTimestamp_mid this _ _ _ _ _ H2 Hmid1 Hret1)
    as (Hmid2 & Hret2 & Hf2 & Ha2).
  rewrite <- Hf2 in Hf1. rewrite Ha1 in Ha2.
  assert (Hf : forall l, pendingFuA this2 = Some l ->
                 pendingFuA this = Some l /\ sameTimestamp (Some l) packet).
  { intros l Hl. destruct Hf1 as [Hn|[Hsame Hts]]; [congruence|].
    rewrite <- Hsame, Hl in Hts. split; [congruence|exact Hts]. }
  assert (Ha : forall l, pendingStapA this2 = Some l ->
                 pendingStapA this = Some l /\ sameTimestamp (Some l) packet).
  { intros l Hl. destruct Ha2 as [Hn|[Hsame Hts]]; [congruence|].
    rewrite <- Hsame, Hl in Hts. split; [congruence|exact Hts]. }
  unfold carriesSps.
  set (nalType := byteAnd (payload packet) 0 0x1F) in *.
  destruct (Z.eqb_spec nalType NAL_TYPE_FU_A) as [Hfua|Hfua].
  { destruct (repacketizeFuA_step this _ _ _ _ _ H Hmid2 Hret2)
      as (Hm & Hc & Hs & Hret & Hstap & Hshape).
    rewrite Hfua. change (NAL_TYPE_FU_A =? NAL_TYPE_STAP_A) with false.
    change (NAL_TYPE_FU_A =? NAL_TYPE_SPS) with false. rewrite orb_false_r.
    repeat split; try assumption; [|left; exact Hstap].
    destruct Hshape as [Hn|(l & Hl & Hfrom & Hend)]; [left; exact Hn|].
    right. right. exists l. repeat split; try assumption.
    destruct Hfrom as [->|Hfrom]; [left; reflexivity|right; apply Hf; exact Hfrom]. }
  destruct (Z.eqb_spec nalType NAL_TYPE_STAP_A) as [Hstap|Hstap].
  { destruct (repacketizeStapA_step this _ _ _ _ _ H Hmid2 Hret2)
      as (Hm & Hc & (nals & Hnals & Hs) & Hret & Hfu & Hst).
    rewrite Hnals.
    repeat split; try assumption; [left; exact Hfu|].
    destruct Ha2 as [Hn|[Hsame _]]; [left; congruence|right; left; congruence]. }
  destruct ((1 <=? nalType) && (nalType <? 24)) eqn:Hrange.
  { destruct (repacketizeSingle_step this _ _ _ _ _ _ H Hmid2 Hret2)
      as (Hm & Hc & Hs & Hret & Hfu & Hshape).
    repeat split; try assumption; [left; exact Hfu|].
    destruct Hshape as [Hn|(l & Hl & Hfrom & Htype)]; [left; exact Hn|].
    right. right. exists l. repeat split; try assumption.
    destruct Hfrom as [->|Hfrom]; [left; reflexivity|right; apply Ha; exact Hfrom]. }
  apply Ok_pair_inv in H as [<- <-]. state_simpl.
  destruct Hmid2 as (Hm & Hc & Hs & _ & _).
  assert (Hsps : (nalType =? NAL_TYPE_SPS) = false).
  { apply Z.eqb_neq. intros E. rewrite E in Hrange. discriminate Hrange. }
  rewrite Hsps, orb_false_r.
  repeat split; try assumption.
  - destruct Hf1 as [Hn|[Hsame _]]; [left; exact Hn|].
    right. left. split; [exact Hsame|].
    destruct Ha2 as [Hn|[Hsame' _]]; [left; exact Hn|right; exact Hsame'].
  - destruct Ha2 as [Hn|[Hsame _]]; [left; exact Hn|right; left; exact Hsame].
Qed.

(** ** Runs *)

(** Over a run that returns, [maxPacketSize] and [codecInfo] stay what the
    constructor was given, and [seenSps] is never reset: at the end it
    holds when it held at the start or one of the packets brought an SPS,
    as a NAL of its own or inside a STAP-A, and not otherwise; an SPS made
    up from [codecInfo] does not set it. *)
Theorem repacketizeAll_seenSps (packets : list RtpPacket) :
  forall (this this' : H264Repacketizer) (out : list Serialized),
    repacketizeAll this packets = Ok (this', out) ->
    maxPacketSize this' = maxPacketSize this /\
    codecInfo this' = codecInfo this /\
    seenSps this' = seenSps this || existsb carriesSps packets.
Proof.
  induction packets as [|p rest IH]; intros this this' out H.
  - cbn [repacketizeAll] in H. apply Ok_pair_inv in H as [<- <-].
    cbn [existsb]. rewrite orb_false_r. repeat split.
  - rewrite repacketizeAll_cons in H.
    bind_step H this1 out1 H1. bind_step H this2 out2 H2.
    apply Ok_pair_inv in H as [<- <-].
    destruct (repacketize_step _ _ _ _ H1) as (Hm & Hc & Hs & _).
    destruct (IH _ _ _ H2) as (Hm' & Hc' & Hs').
    cbn [existsb]. rewrite Hm', Hc', Hs', Hm, Hc, Hs, orb_assoc.
    repeat split.
Qed.

(** An instance: an IDR that is preceded by a made-up SPS, then an SPS. *)
Lemma repacketizeAll_seenSps_witness :
  exists this' out,
    repacketizeAll (new 1200 (mkCodec (Some [0x67; 1]) (Some [0x68; 2])))
      [mkPacket (mkHeader 10 true 100) [0x65; 1]] = Ok (this', out) /\
    length out = 2%nat /\
    seenSps this' = false /\
    seenSps this'
    = seenSps (new 1200 (mkCodec (Some [0x67; 1]) (Some [0x68; 2])))
      || existsb carriesSps [mkPacket (mkHeader 10 true 100) [0x65; 1]].
Proof.
  eexists. eexists. split; [reflexivity|]. split; [reflexivity|].
  split; [reflexivity|].
  apply (repacketizeAll_seenSps [mkPacket (mkHeader 10 true 100) [0x65; 1]]
           (new 1200 (mkCodec (Some [0x67; 1]) (Some [0x68; 2]))) _ _ eq_refl).
Defined.

Lemma held_step (this this' : H264Repacketizer) (packet : RtpPacket)
    (out : list Serialized) :
  repacketize this packet = Ok (this', out) ->
  incl (held this') (held this ++ [packet]).
Proof.
  intros H. destruct (repacketize_step _ _ _ _ H) as (_ & _ & _ & _ & Hf & Ha).
  unfold held. apply incl_app.
  - destruct Hf as [Hn|[[Hsame _]|(l & Hl & Hfrom & _)]].
    + rewrite Hn. apply incl_nil_l.
    + rewrite Hsame. apply incl_appl, incl_appl, incl_refl.
    + rewrite Hl. destruct Hfrom as [->|[Hold _]].
      * apply incl_appr, incl_refl.
      * rewrite Hold. apply incl_app; [apply incl_appl, incl_appl, incl_refl|].
        apply incl_appr, incl_refl.
  - destruct Ha as [Hn|[Hsame|(l & Hl & Hfrom & _)]].
    + rewrite Hn. apply incl_nil_l.
    + rewrite Hsame. apply incl_appl, incl_appr, incl_refl.
    + rewrite Hl. destruct Hfrom as [->|[Hold _]].
      * apply incl_appr, incl_refl.
      * rewrite Hold. apply incl_app; [apply incl_appl, incl_appr, incl_refl|].
        apply incl_appr, incl_refl.
Qed.

(** No timestamp is made up.  Over a run that returns, every packet
    emitted has the timestamp of one of the packets fed, or of one that
    was pending at the start; and the packets pending at the end are among
    these as well. *)
Theorem repacketizeAll_timestamps (packets : list RtpPacket) :
  forall (this this' : H264Repacketizer) (out : list Serialized),
    repacketizeAll this packets = Ok (this', out) ->
    Forall (timestampFrom (held this ++ packets)) out /\
    incl (held this') (held this ++ packets).
Proof.
  induction packets as [|p rest IH]; intros this this' out H.
  - cbn [repacketizeAll] in H. apply Ok_pair_inv in H as [<- <-].
    split; [constructor|]. rewrite app_nil_r. apply incl_refl.
  - rewrite repacketizeAll_cons in H.
    bind_step H this1 out1 H1. bind_step H this2 out2 H2.
    apply Ok_pair_inv in H as [<- <-].
    destruct (repacketize_step _ _ _ _ H1) as (_ & _ & _ & Hout1 & _).
    pose proof (held_step _ _ _ _ H1) as Hheld1.
    destruct (IH _ _ _ H2) as (Hout2 & Hheld2).
    assert (Hincl : incl (held this1 ++ rest) (held this ++ p :: rest)).
    { apply incl_app.
      - intros x Hx. apply Hheld1 in Hx. apply in_app_or in Hx as [Hx|[<-|[]]];
          apply in_or_app; [left; exact Hx|right; left; reflexivity].
      - apply incl_appr. apply incl_tl, incl_refl. }
    split.
    + apply Forall_app. split.
      * eapply Forall_impl; [|exact Hout1].
        intros s. apply timestampFrom_incl.
        apply incl_app; [apply incl_appl, incl_refl|].
        apply incl_appr. intros x [<-|[]]. left. reflexivity.
      * eapply Forall_impl; [|exact Hout2].
        intros s. apply timestampFrom_incl. exact Hincl.
    + intros x Hx. apply Hincl. apply Hheld2. exact Hx.
Qed.

(** An instance: an SPS at timestamp 90 is flushed by a slice at 100. *)
Lemma repacketizeAll_timestamps_witness :
  exists this' out,
    repacketizeAll (new 1200 (mkCodec None None))
      [mkPacket (mkHeader 7 false 90) [0x67; 1; 2];
       mkPacket (mkHeader 8 true 100) [0x41; 3]] = Ok (this', out) /\
    map (fun s => timestamp (header s)) out = [90; 100] /\
    Forall (timestampFrom (held (new 1200 (mkCodec None None))
                           ++ [mkPacket (mkHeader 7 false 90) [0x67; 1; 2];
                               mkPacket (mkHeader 8 true 100) [0x41; 3]])) out.
Proof.
  eexists. eexists. split; [reflexivity|]. split; [reflexivity|].
  apply (repacketizeAll_timestamps
           [mkPacket (mkHeader 7 false 90) [0x67; 1; 2];
            mkPacket (mkHeader 8 true 100) [0x41; 3]]
           (new 1200 (mkCodec None None)) _ _ eq_refl).
Defined.

(** One call keeps the state well formed. *)
Lemma repacketize_wellFormed (this this' : H264Repacketizer) (packet : RtpPacket)
    (out : list Serialized) :
  wellFormed this ->
  repacketize this packet = Ok (this', out) ->
  wellFormed this'.
Proof.
  intros [Hwf Hwa] H.
  destruct (repacketize_step _ _ _ _ H) as (_ & _ & _ & _ & Hf & Ha).
  assert (Hgrow_f : forall l,
            l = [] \/ (pendingFuA this = Some l /\ sameTimestamp (Some l) packet) ->
            byteAnd (payload packet) 0 0x1F = NAL_TYPE_FU_A ->
            byteAnd (payload packet) 1 0x40 = 0 ->
            fuaGroupOk (l ++ [packet])).
  { intros l [->|[Hold Hts]] Htype Hend.
    - cbn [app fuaGroupOk]. constructor; [|constructor]. repeat split; assumption.
    - rewrite Hold in Hwf. destruct Hwf as [Hok _].
      destruct l as [|first rest]; [contradiction|].
      cbn [sameTimestamp] in Hts. cbn [app fuaGroupOk] in *.
      change (first :: rest ++ [packet]) with ((first :: rest) ++ [packet]).
      apply Forall_app. split; [exact Hok|].
      constructor; [|constructor]. repeat split; try assumption. congruence. }
  assert (Hgrow_a : forall l,
            l = [] \/ (pendingStapA this = Some l /\ sameTimestamp (Some l) packet) ->
            byteAnd (payload packet) 0 0x1F = NAL_TYPE_SPS \/
            byteAnd (payload packet) 0 0x1F = NAL_TYPE_PPS ->
            stapGroupOk (l ++ [packet])).
  { intros l [->|[Hold Hts]] Htype.
    - cbn [app stapGroupOk]. constructor; [|constructor]. split; [exact Htype|reflexivity].
    - rewrite Hold in Hwa.
      destruct l as [|first rest]; [contradiction|].
      cbn [sameTimestamp] in Hts. cbn [app stapGroupOk] in *.
      change (first :: rest ++ [packet]) with ((first :: rest) ++ [packet]).
      apply Forall_app. split; [exact Hwa|].
      constructor; [|constructor]. split; [exact Htype|congruence]. }
  unfold wellFormed. split.
  - destruct Hf as [Hn|[[Hsame Hst]|(l & Hl & Hfrom & Htype & Hend & Hst)]].
    + rewrite Hn. exact I.
    + rewrite Hsame. destruct (pendingFuA this) as [g|]; [|exact I].
      destruct Hwf as [Hok Hnone]. split; [exact Hok|].
      destruct Hst as [Hst|Hst]; congruence.
    + rewrite Hl. split; [|exact Hst]. apply Hgrow_f; assumption.
  - destruct Ha as [Hn|[Hsame|(l & Hl & Hfrom & Htype)]].
    + rewrite Hn. exact I.
    + rewrite Hsame. exact Hwa.
    + rewrite Hl. apply Hgrow_a; assumption.
Qed.

Lemma repacketizeAll_keeps_wellFormed (packets : list RtpPacket) :
  forall (this this' : H264Repacketizer) (out : list Serialized),
    wellFormed this ->
    repacketizeAll this packets = Ok (this', out) ->
    wellFormed this'.
Proof.
  induction packets as [|p rest IH]; intros this this' out Hwf H.
  - cbn [repacketizeAll] in H. apply Ok_pair_inv in H as [<- <-]. exact Hwf.
  - rewrite repacketizeAll_cons in H.
    bind_step H this1 out1 H1. bind_step H this2 out2 H2.
    apply Ok_pair_inv in H as [<- <-].
    eapply IH; [|exact H2]. eapply repacketize_wellFormed; eassumption.
Qed.

(** Between two calls at most one group is pending, and it is in order: a
    group in [pendingFuA] is not empty and holds FU-A payloads of one
    timestamp, none with the end bit; a group in [pendingStapA] is not
    empty and holds SPS and PPS packets of one timestamp.  This holds of a
    new instance, and a run that returns keeps it. *)
Theorem repacketizeAll_wellFormed :
  (forall maxPacketSize codecInfo, wellFormed (new maxPacketSize codecInfo)) /\
  (forall (packets : list RtpPacket) (this this' : H264Repacketizer)
          (out : list Serialized),
     wellFormed this ->
     repacketizeAll this packets = Ok (this', out) ->
     wellFormed this').
Proof.
  split.
  - intros M c. split; exact I.
  - intros packets this this' out. apply repacketizeAll_keeps_wellFormed.
Qed.

(** An instance: from a new instance, a start fragment and a middle one. *)
Lemma repacketizeAll_wellFormed_witness :
  wellFormed (new 1200 (mkCodec None None)) /\
  wellFormed
    (setPendingFuA (new 1200 (mkCodec None None))
       (Some [mkPacket (mkHeader 7 false 90) [0x7C; 0x85; 1; 2];
              mkPacket (mkHeader 8 false 90) [0x7C; 0x05; 3]])).
Proof.
  pose proof (proj1 repacketizeAll_wellFormed 1200 (mkCodec None None)) as Hnew.
  split; [exact Hnew|].
  apply (proj2 repacketizeAll_wellFormed
           [mkPacket (mkHeader 7 false 90) [0x7C; 0x85; 1; 2];
            mkPacket (mkHeader 8 false 90) [0x7C; 0x05; 3]]
           (new 1200 (mkCodec None None)) _ [] Hnew).
  reflexivity.
Defined.

(** ** The only exception is a [RangeError] *)

Lemma rangeOnly_Ok {A : Type} (a : A) : rangeOnly (Ok a).
Proof. exact I. Qed.

Lemma rangeOnly_bind {A B : Type} (m : result A) (k : A -> result B) :
  rangeOnly m ->
  (forall a, m = Ok a -> rangeOnly (k a)) ->
  rangeOnly (bind m k).
Proof.
  intros Hm Hk. destruct m as [a|e]; cbn [bind].
  - apply Hk. reflexivity.
  - exact Hm.
Qed.

Lemma rangeOnly_if {A : Type} (c : bool) (x y : result A) :
  rangeOnly x -> rangeOnly y -> rangeOnly (if c then x else y).
Proof. destruct c; tauto. Qed.

Lemma writeUInt16BE_rangeOnly (v : Z) : rangeOnly (writeUInt16BE v).
Proof.
  unfold writeUInt16BE. destruct ((0 <=? v) && (v <=? 65535)); reflexivity.
Qed.

Lemma readUInt16BE_rangeOnly (data : Buffer) (pos : Z) : rangeOnly (readUInt16BE data pos).
Proof.
  unfold readUInt16BE. destruct ((0 <=? pos) && (pos + 2 <=? blen data)); reflexivity.
Qed.

Lemma stapLoop_rangeOnly (datas : list Buffer) :
  forall availableSize counter stapHeader,
    rangeOnly (stapLoop datas availableSize counter stapHeader).
Proof.
  induction datas as [|nalu rest IH]; intros availableSize counter stapHeader.
  - apply rangeOnly_Ok.
  - rewrite stapLoop_cons. apply rangeOnly_if; [|apply rangeOnly_Ok].
    apply rangeOnly_bind; [apply writeUInt16BE_rangeOnly|]. intros packed _.
    apply rangeOnly_bind; [apply IH|]. intros l _. apply rangeOnly_Ok.
Qed.

(** On a queue that is not empty, the fallback of [packetizeOneStapA]
    finds the front NAL still there. *)
Lemma packetizeOneStapA_rangeOnly (this : H264Repacketizer) (datas : list Buffer) :
  datas <> [] -> rangeOnly (packetizeOneStapA this datas).
Proof.
  intros Hne. unfold packetizeOneStapA. destruct datas as [|first rest]; [contradiction|].
  apply rangeOnly_bind; [apply stapLoop_rangeOnly|]. intros l Hl.
  destruct (Z.eqb_spec (loopCounter l) 0) as [Hc|Hc]; [|apply rangeOnly_Ok].
  destruct (stapLoop_spec _ _ _ _ _ Hl) as (_ & _ & Hnone & _).
  destruct (Hnone Hc) as [-> _]. apply rangeOnly_Ok.
Qed.

Lemma packetizeStapALoop_rangeOnly (this : H264Repacketizer) (fuel : nat) :
  forall datas, (length datas <= fuel)%nat ->
                rangeOnly (packetizeStapALoop fuel this datas).
Proof.
  induction fuel as [|fuel IH]; intros datas Hfuel.
  - destruct datas; [apply rangeOnly_Ok|simpl in Hfuel; lia].
  - destruct datas as [|d ds]; [apply rangeOnly_Ok|].
    cbn [packetizeStapALoop].
    apply rangeOnly_bind; [apply packetizeOneStapA_rangeOnly; discriminate|].
    intros [packet remaining] Hone. cbv beta iota zeta.
    apply rangeOnly_bind; [|intros ret _; apply rangeOnly_Ok].
    apply IH.
    destruct (packetizeOneStapA_spec _ _ _ _ Hone) as ((taken & Hne & Htaken) & _).
    apply (f_equal (@length (list Z))) in Htaken. rewrite length_app in Htaken.
    destruct taken; [contradiction|]. simpl in *. lia.
Qed.

Lemma packetizeStapA_rangeOnly (this : H264Repacketizer) (datas : list Buffer) :
  rangeOnly (packetizeStapA this datas).
Proof. apply packetizeStapALoop_rangeOnly. lia. Qed.

Lemma depacketizeLoop_rangeOnly (data : Buffer) :
  Forall (fun b => 0 <= b) data ->
  forall (fuel : nat) (lastPos : option Z) (pos : Z) (ret : list Buffer),
    blen data - pos <= Z.of_nat fuel ->
    rangeOnly (depacketizeLoop fuel data lastPos pos ret).
Proof.
  intros Hbytes. induction fuel as [|fuel IH]; intros lastPos pos ret Hfuel.
  - rewrite depacketizeLoop_done; [apply rangeOnly_Ok|]. apply Z.ltb_ge. lia.
  - destruct (Z.ltb_spec pos (blen data)) as [Hlt|Hge].
    + rewrite depacketizeLoop_step by (apply Z.ltb_lt; exact Hlt).
      apply rangeOnly_bind; [apply readUInt16BE_rangeOnly|].
      intros naluSize Hread. apply IH.
      pose proof (readUInt16BE_nonneg _ _ _ Hbytes Hread).
      unfold LENGTH_FIELD_SIZE. lia.
    + rewrite depacketizeLoop_done; [apply rangeOnly_Ok|]. apply Z.ltb_ge. lia.
Qed.

Lemma depacketizeStapA_rangeOnly (data : Buffer) :
  Forall (fun b => 0 <= b) data -> rangeOnly (depacketizeStapA data).
Proof.
  intros Hbytes. apply depacketizeLoop_rangeOnly; [exact Hbytes|].
  unfold blen, NAL_HEADER_SIZE. lia.
Qed.

Lemma packetizeFuA_rangeOnly (this : H264Repacketizer) (data : Buffer)
    (noStart noEnd : bool) :
  3 <= maxPacketSize this -> rangeOnly (packetizeFuA this data noStart noEnd).
Proof.
  intros HM. destruct (packetizeFuA_bound this data noStart noEnd HM) as (p & -> & _).
  apply rangeOnly_Ok.
Qed.

(** Serializing throws nothing but a [RangeError]. *)
Lemma createPacket_rangeOnly (this : H264Repacketizer) (rtp : RtpPacket) (data : Buffer)
    (marker : bool) :
  rangeOnly (createPacket this rtp data marker).
Proof.
  unfold createPacket, serialize.
  destruct (_ && _); simpl; [exact I|reflexivity].
Qed.

Lemma createRtpPacketsFrom_rangeOnly (nalus : list Buffer) :
  forall (index total : nat) (this : H264Repacketizer) (packet : RtpPacket)
         (ret : list Serialized) (hadMarker : bool),
    rangeOnly (createRtpPacketsFrom index total this packet nalus ret hadMarker).
Proof.
  induction nalus as [|n rest IH]; intros index total this packet ret hadMarker.
  - apply rangeOnly_Ok.
  - cbn [createRtpPacketsFrom]. cbv zeta.
    apply rangeOnly_bind; [apply createPacket_rangeOnly|].
    intros created _. apply IH.
Qed.

Lemma createRtpPackets_rangeOnly (this : H264Repacketizer) (packet : RtpPacket)
    (nalus : list Buffer) (ret : list Serialized) (hadMarker : bool) :
  rangeOnly (createRtpPackets this packet nalus ret hadMarker).
Proof. apply createRtpPacketsFrom_rangeOnly. Qed.

Lemma stapAForEach_rangeOnly (aggregates : list Buffer) :
  forall (index total : nat) (this : H264Repacketizer) (first : RtpPacket)
         (ret : list Serialized) (hadMarker : bool),
    rangeOnly (stapAForEach index total this first aggregates ret hadMarker).
Proof.
  induction aggregates as [|a rest IH]; intros index total this first ret hadMarker.
  - apply rangeOnly_Ok.
  - cbn [stapAForEach]. cbv zeta.
    apply rangeOnly_bind; [apply createPacket_rangeOnly|].
    intros created _. apply IH.
Qed.

Lemma flushPendingFuA_rangeOnly (this : H264Repacketizer) (ret : list Serialized) :
  3 <= maxPacketSize this -> pendingFuA this <> Some [] ->
  rangeOnly (flushPendingFuA this ret).
Proof.
  intros HM Hne. unfold flushPendingFuA.
  destruct (pendingFuA this) as [[|first rest]|]; [contradiction| |apply rangeOnly_Ok].
  apply rangeOnly_if; [apply rangeOnly_Ok|].
  apply rangeOnly_bind; [apply packetizeFuA_rangeOnly; exact HM|].
  intros fragments _.
  apply rangeOnly_bind; [apply createRtpPackets_rangeOnly|].
  intros [this1 ret1] _. apply rangeOnly_Ok.
Qed.

Lemma flushPendingStapA_rangeOnly (this : H264Repacketizer) (ret : list Serialized) :
  pendingStapA this <> Some [] -> rangeOnly (flushPendingStapA this ret).
Proof.
  intros Hne. unfold flushPendingStapA.
  destruct (pendingStapA this) as [[|first rest]|]; [contradiction| |apply rangeOnly_Ok].
  apply rangeOnly_bind; [apply packetizeStapA_rangeOnly|].
  intros aggregates _. apply rangeOnly_if; [apply rangeOnly_Ok|].
  apply rangeOnly_bind; [apply stapAForEach_rangeOnly|].
  intros made _. apply rangeOnly_Ok.
Qed.

Lemma maybeSendSpsPps_rangeOnly (this : H264Repacketizer) (packet : RtpPacket)
    (ret : list Serialized) :
  rangeOnly (maybeSendSpsPps this packet ret).
Proof.
  unfold maybeSendSpsPps.
  destruct (sps (codecInfo this)); [|apply rangeOnly_Ok].
  destruct (pps (codecInfo this)); [|apply rangeOnly_Ok].
  apply rangeOnly_bind; [apply packetizeStapA_rangeOnly|].
  intros aggregates _. apply rangeOnly_if; [apply rangeOnly_Ok|].
  apply rangeOnly_bind; [apply createRtpPackets_rangeOnly|].
  intros [this1 ret1] _. apply rangeOnly_Ok.
Qed.

Lemma repacketizeFuA_rangeOnly (this : H264Repacketizer) (packet : RtpPacket)
    (ret : list Serialized) :
  3 <= maxPacketSize this ->
  pendingStapA this <> Some [] ->
  rangeOnly (repacketizeFuA this packet ret).
Proof.
  intros HM Hne. unfold repacketizeFuA.
  apply rangeOnly_bind; [apply flushPendingStapA_rangeOnly; exact Hne|].
  intros [this1 ret1] H1. cbv beta iota zeta.
  apply flushPendingStapA_frame in H1 as (Hm1 & _).
  apply rangeOnly_bind;
    [apply rangeOnly_if; [apply maybeSendSpsPps_rangeOnly|apply rangeOnly_Ok]|].
  intros [this2 ret2] H2. cbv beta iota zeta.
  assert (Hm2 : maxPacketSize this2 = maxPacketSize this).
  { destruct ((byteAnd (payload packet) 1 0x1f =? NAL_TYPE_IDR)
              && negb (byteAnd (payload packet) 1 0x80 =? 0) && negb (seenSps this1)).
    - apply maybeSendSpsPps_frame in H2 as ((Hm & _) & _). congruence.
    - apply Ok_pair_inv in H2 as [<- <-]. exact Hm1. }
  apply rangeOnly_bind.
  { destruct (pendingFuA this2); [apply rangeOnly_Ok|].
    apply rangeOnly_if; [|apply rangeOnly_Ok].
    apply rangeOnly_bind; [apply packetizeFuA_rangeOnly; lia|].
    intros fragments _. apply createRtpPackets_rangeOnly. }
  intros [this3 ret3] H3. cbv beta iota zeta.
  assert (Hm3 : maxPacketSize this3 = maxPacketSize this).
  { destruct (pendingFuA this2).
    - apply Ok_pair_inv in H3 as [<- <-]. exact Hm2.
    - destruct (maxPacketSize this2 * 2 <=? blen (payload packet)).
      + apply bind_Ok in H3 as (fragments & _ & Hcr). cbv beta in Hcr.
        apply createRtpPackets_frame in Hcr as ((Hm & _) & _). congruence.
      + apply Ok_pair_inv in H3 as [<- <-]. exact Hm2. }
  destruct (pendingFuA this3) as [pending|]; [|apply rangeOnly_Ok].
  apply rangeOnly_if; [|apply rangeOnly_Ok].
  apply flushPendingFuA_rangeOnly.
  - cbn [maxPacketSize setPendingFuA]. lia.
  - cbn [pendingFuA setPendingFuA]. intros E. injection E as E.
    apply app_eq_nil in E as [_ E]. discriminate.
Qed.

Lemma repacketizeStapA_rangeOnly (this : H264Repacketizer) (packet : RtpPacket)
    (ret : list Serialized) :
  3 <= maxPacketSize this ->
  pendingFuA this <> Some [] ->
  Forall (fun b => 0 <= b) (payload packet) ->
  rangeOnly (repacketizeStapA this packet ret).
Proof.
  intros HM Hne Hbytes. unfold repacketizeStapA.
  apply rangeOnly_bind; [apply flushPendingFuA_rangeOnly; assumption|].
  intros [this1 ret1] _. cbv beta iota zeta.
  apply rangeOnly_bind; [apply depacketizeStapA_rangeOnly; exact Hbytes|].
  intros nals _. destruct (filterSei this1 nals) as [this2 kept].
  apply rangeOnly_bind; [apply packetizeStapA_rangeOnly|].
  intros aggregates _. apply createRtpPackets_rangeOnly.
Qed.

Lemma repacketizeSingle_rangeOnly (this : H264Repacketizer) (packet : RtpPacket)
    (nalType : Z) (ret : list Serialized) :
  3 <= maxPacketSize this ->
  pendingFuA this <> Some [] ->
  pendingStapA this <> Some [] ->
  rangeOnly (repacketizeSingle this packet nalType ret).
Proof.
  intros HM Hnf Hna. unfold repacketizeSingle.
  apply rangeOnly_bind; [apply flushPendingFuA_rangeOnly; assumption|].
  intros [this1 ret1] H1. cbv beta iota zeta.
  apply flushPendingFuA_frame in H1 as (Hm1 & _ & _ & Ha1 & _).
  apply rangeOnly_if; [apply rangeOnly_Ok|].
  apply rangeOnly_bind; [apply flushPendingStapA_rangeOnly; congruence|].
  intros [this2 ret2] H2. cbv beta iota zeta.
  apply flushPendingStapA_frame in H2 as (Hm2 & _).
  apply rangeOnly_if; [apply rangeOnly_Ok|].
  apply rangeOnly_bind;
    [apply rangeOnly_if; [apply maybeSendSpsPps_rangeOnly|apply rangeOnly_Ok]|].
  intros [this3 ret3] H3. cbv beta iota zeta.
  assert (Hm3 : maxPacketSize this3 = maxPacketSize this).
  { destruct ((nalType =? NAL_TYPE_IDR) && negb (seenSps this2)).
    - apply maybeSendSpsPps_frame in H3 as ((Hm & _) & _). congruence.
    - apply Ok_pair_inv in H3 as [<- <-]. congruence. }
  apply rangeOnly_if.
  - apply rangeOnly_bind; [apply packetizeFuA_rangeOnly; lia|].
    intros fragments _. apply createRtpPackets_rangeOnly.
  - apply rangeOnly_bind; [apply createPacket_rangeOnly|].
    intros created _. apply rangeOnly_Ok.
Qed.

(** One call from a state whose groups are not empty. *)
Lemma repacketize_rangeOnly (this : H264Repacketizer) (packet : RtpPacket) :
  3 <= maxPacketSize this ->
  pendingFuA this <> Some [] ->
  pendingStapA this <> Some [] ->
  Forall (fun b => 0 <= b) (payload packet) ->
  rangeOnly (repacketize this packet).
Proof.
  intros HM Hnf Hna Hbytes. unfold repacketize.
  apply rangeOnly_bind.
  { unfold flushFuAOnTimestamp.
    destruct (pendingFuA this) as [l|] eqn:Hp; [|apply rangeOnly_Ok].
    apply rangeOnly_bind; [destruct l; [contradiction|apply rangeOnly_Ok]|].
    intros ts _. apply rangeOnly_if; [|apply rangeOnly_Ok].
    apply flushPendingFuA_rangeOnly; [exact HM|congruence]. }
  intros [this1 ret1] H1. cbv beta iota zeta.
  destruct (flushFuAOnTimestamp_mid _ _ _ _ _ H1 (Forall_nil _))
    as (Hmid1 & Hret1 & Ha1 & Hf1).
  apply rangeOnly_bind.
  { unfold flushStapAOnTimestamp.
    destruct (pendingStapA this1) as [l|] eqn:Hp; [|apply rangeOnly_Ok].
    apply rangeOnly_bind; [destruct l; [congruence|apply rangeOnly_Ok]|].
    intros ts _. apply rangeOnly_if; [|apply rangeOnly_Ok].
    apply flushPendingStapA_rangeOnly. congruence. }
  intros [this2 ret2] H2. cbv beta iota zeta.
  destruct (flushStapAOnTimestamp_mid this _ _ _ _ _ H2 Hmid1 Hret1)
    as ((Hm2 & _) & _ & Hf2 & Ha2).
  assert (Hnf2 : pendingFuA this2 <> Some [])
    by (destruct Hf1 as [Hn|[Hsame _]]; congruence).
  assert (Hna2 : pendingStapA this2 <> Some [])
    by (destruct Ha2 as [Hn|[Hsame _]]; congruence).
  apply rangeOnly_if; [apply repacketizeFuA_rangeOnly; [lia|exact Hna2]|].
  apply rangeOnly_if; [apply repacketizeStapA_rangeOnly; [lia|exact Hnf2|exact Hbytes]|].
  apply rangeOnly_if; [apply repacketizeSingle_rangeOnly; [lia|exact Hnf2|exact Hna2]|].
  apply rangeOnly_Ok.
Qed.

Lemma wellFormed_nonempty (this : H264Repacketizer) :
  wellFormed this -> pendingFuA this <> Some [] /\ pendingStapA this <> Some [].
Proof.
  intros [Hf Ha]. split.
  - destruct (pendingFuA this) as [[|]|]; [destruct Hf as [[] _]|discriminate|discriminate].
  - destruct (pendingStapA this) as [[|]|]; [destruct Ha|discriminate|discriminate].
Qed.

(** A run on an instance made for [maxPacketSize >= 3], whose groups are
    in order, as they are in a new instance, over payloads of bytes:
    every call returns, or throws a [RangeError], which is what
    [readUInt16BE], [writeUInt16BE] and [serialize] throw; no call fails
    on a missing packet or on an empty queue, and every loop ends. *)
Theorem repacketizeAll_rangeOnly (packets : list RtpPacket) :
  forall this : H264Repacketizer,
    3 <= maxPacketSize this ->
    wellFormed this ->
    Forall (fun p => Forall (fun b => 0 <= b) (payload p)) packets ->
    rangeOnly (repacketizeAll this packets).
Proof.
  induction packets as [|p rest IH]; intros this HM Hwf Hbytes.
  - apply rangeOnly_Ok.
  - inversion Hbytes as [|? ? Hp Hrest]; subst.
    rewrite repacketizeAll_cons.
    destruct (wellFormed_nonempty _ Hwf) as [Hnf Hna].
    apply rangeOnly_bind; [apply repacketize_rangeOnly; assumption|].
    intros [this1 out1] H1. cbv beta iota zeta.
    destruct (repacketize_step _ _ _ _ H1) as (Hm & _).
    apply rangeOnly_bind; [|intros [this2 out2] _; apply rangeOnly_Ok].
    apply IH; [lia| |exact Hrest].
    eapply repacketize_wellFormed; eassumption.
Qed.

(** An instance: a slice, then a STAP-A that is cut short. *)
Lemma repacketizeAll_rangeOnly_witness :
  repacketizeAll (new 1200 (mkCodec None None))
    [mkPacket (mkHeader 9 false 100) [0x41; 1];
     mkPacket (mkHeader 10 false 100) [0x78; 0]]
  = Throw RangeError /\
  rangeOnly
    (repacketizeAll (new 1200 (mkCodec None None))
       [mkPacket (mkHeader 9 false 100) [0x41; 1];
        mkPacket (mkHeader 10 false 100) [0x78; 0]]).
Proof.
  split; [reflexivity|].
  apply repacketizeAll_rangeOnly.
  - simpl. lia.
  - split; exact I.
  - repeat constructor; lia.
Defined.

(** ** Groups that are dropped *)

Lemma fuaGroupCheck_type (originalNalType : Z) (pending : list RtpPacket) :
  forall lastSequenceNumber p,
    In p pending ->
    byteAnd (payload p) 1 0x1f <> originalNalType ->
    fuaGroupCheck originalNalType lastSequenceNumber pending = false.
Proof.
  induction pending as [|x rest IH]; intros lastSequenceNumber p Hin Hp; [contradiction|].
  cbn [fuaGroupCheck].
  destruct (Z.eqb_spec (byteAnd (payload x) 1 0x1f) originalNalType) as [E|E];
    [|reflexivity].
  cbn [negb]. destruct Hin as [->|Hin]; [contradiction|].
  destruct (negb _); [reflexivity|]. eapply IH; eassumption.
Qed.

Lemma fuaGroupCheck_gap (originalNalType : Z) (before : list RtpPacket) :
  forall lastSequenceNumber p q after,
    sequenceNumber (header q) <> Z.rem (sequenceNumber (header p) + 1) 0x10000 ->
    fuaGroupCheck originalNalType lastSequenceNumber (before ++ p :: q :: after) = false.
Proof.
  induction before as [|x rest IH]; intros lastSequenceNumber p q after Hgap.
  - cbn [app fuaGroupCheck].
    destruct (negb (byteAnd (payload p) 1 0x1f =? originalNalType)); [reflexivity|].
    destruct (negb _); [reflexivity|].
    destruct (negb (byteAnd (payload q) 1 0x1f =? originalNalType)); [reflexivity|].
    destruct (Z.eqb_spec (sequenceNumber (header q))
                (Z.rem (sequenceNumber (header p) + 1) 0x10000)); [contradiction|].
    reflexivity.
  - cbn [app fuaGroupCheck].
    destruct (negb (byteAnd (payload x) 1 0x1f =? originalNalType)); [reflexivity|].
    destruct (negb _); [reflexivity|]. apply IH. exact Hgap.
Qed.

(** A pending FU-A group in which a packet has another NAL type than the
    first, or in which the sequence number of a packet is not the one
    after that of the packet before it, modulo 65536, is dropped by the
    flush: nothing is emitted, and nothing of the state changes but the
    group, which is gone; [extraPackets] is not adjusted for the packets
    dropped. *)
Theorem flushPendingFuA_discards (this : H264Repacketizer) (first : RtpPacket)
    (rest : list RtpPacket) (ret : list Serialized) :
  pendingFuA this = Some (first :: rest) ->
  (exists p, In p (first :: rest) /\
             byteAnd (payload p) 1 0x1f <> byteAnd (payload first) 1 0x1f) \/
  (exists before p q after,
     first :: rest = before ++ p :: q :: after /\
     sequenceNumber (header q) <> Z.rem (sequenceNumber (header p) + 1) 0x10000) ->
  flushPendingFuA this ret = Ok (setPendingFuA this None, ret).
Proof.
  intros Hp Hbad. unfold flushPendingFuA. rewrite Hp.
  assert (Hcheck : fuaGroupCheck (byteAnd (payload first) 1 0x1f) None (first :: rest)
                   = false).
  { destruct Hbad as [(p & Hin & Htype)|(before & p & q & after & -> & Hgap)].
    - eapply fuaGroupCheck_type; eassumption.
    - apply fuaGroupCheck_gap. exact Hgap. }
  rewrite Hcheck. reflexivity.
Qed.

(** An instance: the fragment with sequence number 8 is missing. *)
Lemma flushPendingFuA_discards_witness :
  flushPendingFuA
    (setPendingFuA (new 1200 (mkCodec None None))
       (Some [mkPacket (mkHeader 7 false 90) [0x7C; 0x85; 1];
              mkPacket (mkHeader 9 true 90) [0x7C; 0x45; 3]]))
    []
  = Ok (setPendingFuA
          (setPendingFuA (new 1200 (mkCodec None None))
             (Some [mkPacket (mkHeader 7 false 90) [0x7C; 0x85; 1];
                    mkPacket (mkHeader 9 true 90) [0x7C; 0x45; 3]]))
          None, []).
Proof.
  apply (flushPendingFuA_discards _ (mkPacket (mkHeader 7 false 90) [0x7C; 0x85; 1])
           [mkPacket (mkHeader 9 true 90) [0x7C; 0x45; 3]]).
  - reflexivity.
  - right. exists [], (mkPacket (mkHeader 7 false 90) [0x7C; 0x85; 1]),
      (mkPacket (mkHeader 9 true 90) [0x7C; 0x45; 3]), [].
    split; [reflexivity|]. vm_compute. intros H. discriminate H.
Defined.

(** A queue of which the first aggregate cannot take everything gives at
    least two packets. *)
Lemma packetizeStapA_several (this : H264Repacketizer) (datas : list Buffer) :
  (10 <= length datas)%nat \/
  ((2 <= length datas)%nat /\
   stapFits (maxPacketSize this - STAP_A_HEADER_SIZE) datas = false) ->
  Forall (fun n => blen n <= 65535) datas ->
  exists a b more, packetizeStapA this datas = Ok (a :: b :: more).
Proof.
  intros Hbig Hsmall.
  destruct (packetizeStapALoop_returns this (length datas) datas (le_n _) Hsmall)
    as (aggregates & Hagg).
  unfold packetizeStapA. rewrite Hagg.
  destruct datas as [|d ds]; [destruct Hbig as [H|[H _]]; simpl in H; lia|].
  change (length (d :: ds)) with (S (length ds)) in Hagg.
  cbn [packetizeStapALoop] in Hagg.
  destruct (packetizeOneStapA this (d :: ds)) as [[packet remaining]|e] eqn:Hone;
    [|discriminate].
  cbv beta iota delta [bind] in Hagg.
  destruct (packetizeStapALoop (length ds) this remaining) as [ret|e] eqn:Hrec;
    [|discriminate].
  injection Hagg as <-.
  assert (Hrem : remaining <> []).
  { intros ->.
    destruct (packetizeOneStapA_shape _ _ _ _ Hone)
      as [[Hq _]|(h & taken & _ & Hq & _ & Hcap & Hfits & _)].
    - injection Hq as _ ->. destruct Hbig as [H|[H _]]; simpl in H; lia.
    - rewrite app_nil_r in Hq. subst taken.
      destruct Hbig as [H|[_ H]]; [lia|congruence]. }
  destruct (packetizeStapALoop_spec _ _ _ _ Hrec) as (Hne & _).
  specialize (Hne Hrem). destruct ret as [|b more]; [contradiction|].
  exists packet, b, more. reflexivity.
Qed.

(** A pending group of parameter sets that does not go into one
    aggregate, because it has more than nine packets, or at least two
    whose payloads fail the admission test one after the other, is
    dropped by the flush: nothing is emitted and [extraPackets] stays as it
    is. *)
Theorem flushPendingStapA_discards (this : H264Repacketizer) (first : RtpPacket)
    (rest : list RtpPacket) (ret : list Serialized) :
  pendingStapA this = Some (first :: rest) ->
  (10 <= length (first :: rest))%nat \/
  ((2 <= length (first :: rest))%nat /\
   stapFits (maxPacketSize this - STAP_A_HEADER_SIZE) (map payload (first :: rest))
   = false) ->
  Forall (fun p => blen (payload p) <= 65535) (first :: rest) ->
  flushPendingStapA this ret = Ok (setPendingStapA this None, ret).
Proof.
  intros Hp Hbig Hsmall.
  destruct (packetizeStapA_several this (map payload (first :: rest)))
    as (a & b & more & Hagg).
  - rewrite length_map. exact Hbig.
  - rewrite Forall_map. exact Hsmall.
  - unfold flushPendingStapA. rewrite Hp, Hagg. reflexivity.
Qed.

(** An instance: an SPS and a PPS of 5 and 4 bytes for [maxPacketSize = 12]. *)
Lemma flushPendingStapA_discards_witness :
  flushPendingStapA
    (setPendingStapA (new 12 (mkCodec None None))
       (Some [mkPacket (mkHeader 7 false 90) [0x67; 1; 2; 3; 4];
              mkPacket (mkHeader 8 false 90) [0x68; 5; 6; 7]]))
    []
  = Ok (setPendingStapA
          (setPendingStapA (new 12 (mkCodec None None))
             (Some [mkPacket (mkHeader 7 false 90) [0x67; 1; 2; 3; 4];
                    mkPacket (mkHeader 8 false 90) [0x68; 5; 6; 7]]))
          None, []).
Proof.
  apply (flushPendingStapA_discards _ (mkPacket (mkHeader 7 false 90) [0x67; 1; 2; 3; 4])
           [mkPacket (mkHeader 8 false 90) [0x68; 5; 6; 7]]).
  - reflexivity.
  - right. split; [simpl; lia|reflexivity].
  - repeat constructor; unfold blen; simpl; lia.
Defined.

(** ** Parameter sets, then a slice *)

(** The branch of a NAL of type 1 to 23 that is not an SPS, a PPS or an
    SEI, fits [maxPacketSize] and finds no FU-A group pending and
    [seenSps] set: the parameter sets pending are flushed and the NAL
    follows them as it is. *)
Lemma repacketizeSingle_after_flush (this : H264Repacketizer) (packet : RtpPacket)
    (nalType : Z) (ret : list Serialized) :
  pendingFuA this = None ->
  seenSps this = true ->
  nalType <> NAL_TYPE_SEI -> nalType <> NAL_TYPE_SPS -> nalType <> NAL_TYPE_PPS ->
  blen (payload packet) <= maxPacketSize this ->
  repacketizeSingle this packet nalType ret =
  ('(this, ret) <- flushPendingStapA this ret ;;
   created <- createPacket this packet (payload packet) (marker (header packet)) ;;
   Ok (this, ret ++ [created])).
Proof.
  intros Hf Hseen Hsei Hsps Hpps Hfit. unfold repacketizeSingle.
  rewrite (flushPendingFuA_none _ _ Hf). cbv beta iota delta [bind].
  destruct (Z.eqb_spec nalType NAL_TYPE_SPS); [contradiction|].
  destruct (Z.eqb_spec nalType NAL_TYPE_PPS); [contradiction|].
  cbn [orb].
  destruct (flushPendingStapA this ret) as [[this1 ret1]|e] eqn:Hflush; [|reflexivity].
  cbv beta iota delta [bind].
  apply flushPendingStapA_frame in Hflush as (Hm & _ & Hs & _).
  destruct (Z.eqb_spec nalType NAL_TYPE_SEI); [contradiction|].
  rewrite Hs, Hseen, andb_false_r. cbv beta iota delta [bind].
  destruct (Z.ltb_spec (maxPacketSize this1) (blen (payload packet))); [lia|].
  reflexivity.
Qed.

(** An SPS, a PPS of the same timestamp and then a NAL of type 1 to 23
    that is none of SPS, PPS and SEI and fits [maxPacketSize], fed to an
    instance with nothing pending, when the two parameter sets go into one
    aggregate and the numbers to be written can be serialized (the
    sequence number of the SPS packet and [extraPackets], and that of the
    third packet and [extraPackets - 1], each add up to at least -65536).
    Two packets come out, both at the third call: the
    aggregate of the SPS and the PPS, under the sequence number, the
    marker and the timestamp of the SPS packet, and the NAL as it is,
    under its own sequence number lowered by one.  [extraPackets] ends one
    lower, [seenSps] is set and nothing is pending; an IDR in third place
    is not preceded by parameter sets made up from [codecInfo]. *)
Theorem repacketizeAll_sps_pps_slice (this : H264Repacketizer) (a b c : RtpPacket) :
  pendingFuA this = None ->
  pendingStapA this = None ->
  byteAnd (payload a) 0 0x1F = NAL_TYPE_SPS ->
  byteAnd (payload b) 0 0x1F = NAL_TYPE_PPS ->
  timestamp (header a) = timestamp (header b) ->
  1 <= byteAnd (payload c) 0 0x1F < 24 ->
  byteAnd (payload c) 0 0x1F <> NAL_TYPE_SEI ->
  byteAnd (payload c) 0 0x1F <> NAL_TYPE_SPS ->
  byteAnd (payload c) 0 0x1F <> NAL_TYPE_PPS ->
  stapFits (maxPacketSize this - STAP_A_HEADER_SIZE) [payload a; payload b] = true ->
  blen (payload a) <= 65535 -> blen (payload b) <= 65535 ->
  blen (payload c) <= maxPacketSize this ->
  0 <= sequenceNumber (header a) + extraPackets this + 0x10000 ->
  0 <= sequenceNumber (header c) + (extraPackets this - 1) + 0x10000 ->
  exists aggregate,
    repacketizeAll this [a; b; c]
    = Ok (setSeenSps (setExtraPackets this (extraPackets this - 1)) true,
          [mkPacket
             (mkHeader
                (Z.rem (sequenceNumber (header a) + extraPackets this + 0x10000) 0x10000)
                (marker (header a))
                (timestamp (header a)))
             aggregate;
           mkPacket
             (mkHeader
                (Z.rem (sequenceNumber (header c) + (extraPackets this - 1) + 0x10000)
                       0x10000)
                (marker (header c))
                (timestamp (header c)))
             (payload c)]) /\
    depacketizeStapA aggregate = Ok [payload a; payload b] /\
    blen aggregate <= maxPacketSize this.
Proof.
  intros Hf Hs Ha Hb Hts Hc Hsei Hsps Hpps Hfit Hasmall Hbsmall Hcfit Hna Hnc.
  destruct (packetizeStapA_one this [payload a; payload b])
    as (h & Hagg & _ & Hsize).
  { discriminate. }
  { simpl. lia. }
  { exact Hfit. }
  { repeat constructor; assumption. }
  exists (h :: concat (stapFramed [payload a; payload b])).
  split; [|split; [apply depacketizeStapA_framed; discriminate|exact Hsize]].
  (* the two parameter sets are queued *)
  rewrite repacketizeAll_cons.
  assert (Hsame : sameTimestamp (pendingStapA this) a) by (rewrite Hs; exact I).
  rewrite (repacketize_parameter_set this a Hf Hsame (or_introl Ha)).
  cbv beta iota delta [bind]. rewrite Hs. cbn [app].
  set (this1 := setPendingStapA (setSeenSps this (seenSps this || isSps (payload a)))
                  (Some [a])).
  rewrite repacketizeAll_cons.
  assert (Hsame1 : sameTimestamp (pendingStapA this1) b) by exact Hts.
  rewrite (repacketize_parameter_set this1 b Hf Hsame1 (or_intror Hb)).
  cbv beta iota delta [bind]. cbn [pendingStapA this1 setPendingStapA app].
  set (this2 := setPendingStapA (setSeenSps this1 (seenSps this1 || isSps (payload b)))
                  (Some [a; b])).
  assert (Hseen2 : seenSps this2 = true).
  { cbn [seenSps this2 this1 setPendingStapA setSeenSps]. unfold isSps at 1.
    rewrite Ha. rewrite orb_true_r. reflexivity. }
  (* the third packet flushes them *)
  set (this3 := setPendingStapA
                  (setExtraPackets this2 (extraPackets this2 - (Z.of_nat 2 - 1))) None).
  set (pa := mkPacket
               (mkHeader
                  (Z.rem (sequenceNumber (header a) + extraPackets this2 + 0x10000)
                         0x10000)
                  (marker (header a)) (timestamp (header a)))
               (h :: concat (stapFramed [payload a; payload b]))).
  set (pc := mkPacket
               (mkHeader
                  (Z.rem (sequenceNumber (header c) + extraPackets this3 + 0x10000)
                         0x10000)
                  (marker (header c)) (timestamp (header c)))
               (payload c)).
  assert (Hna2 : 0 <= sequenceNumber (header a) + extraPackets this2 + 0x10000)
    by exact Hna.
  assert (Hnc3 : 0 <= sequenceNumber (header c) + extraPackets this3 + 0x10000)
    by exact Hnc.
  assert (Hflush : forall r, flushPendingStapA this2 r = Ok (this3, r ++ [pa])).
  { intros r. unfold flushPendingStapA.
    cbn [pendingStapA this2 setPendingStapA map].
    replace (packetizeStapA this2 [payload a; payload b])
      with (packetizeStapA this [payload a; payload b]) by reflexivity.
    rewrite Hagg. cbv beta iota delta [bind].
    cbn [length Nat.eqb negb stapAForEach Nat.sub]. cbv zeta.
    rewrite (createPacket_fits this2 a _ _ Hna2).
    cbv beta iota delta [bind]. rewrite andb_true_r.
    reflexivity. }
  assert (Hsingle : forall t r,
            pendingFuA t = None -> seenSps t = true ->
            maxPacketSize t = maxPacketSize this ->
            repacketizeSingle t c (byteAnd (payload c) 0 0x1F) r =
            ('(t, r) <- flushPendingStapA t r ;;
             created <- createPacket t c (payload c) (marker (header c)) ;;
             Ok (t, r ++ [created])))
    by (intros t r Htf Htseen Htm; apply repacketizeSingle_after_flush;
        try assumption; lia).
  assert (Hdispatch : forall t r,
            (if byteAnd (payload c) 0 0x1F =? NAL_TYPE_FU_A then repacketizeFuA t c r
             else if byteAnd (payload c) 0 0x1F =? NAL_TYPE_STAP_A
                  then repacketizeStapA t c r
                  else if (1 <=? byteAnd (payload c) 0 0x1F)
                          && (byteAnd (payload c) 0 0x1F <? 24)
                       then repacketizeSingle t c (byteAnd (payload c) 0 0x1F) r
                       else Ok (setExtraPackets t (extraPackets t - 1), r))
            = repacketizeSingle t c (byteAnd (payload c) 0 0x1F) r).
  { intros t r.
    destruct (Z.eqb_spec (byteAnd (payload c) 0 0x1F) NAL_TYPE_FU_A) as [E|_];
      [unfold NAL_TYPE_FU_A in E; lia|].
    destruct (Z.eqb_spec (byteAnd (payload c) 0 0x1F) NAL_TYPE_STAP_A) as [E|_];
      [unfold NAL_TYPE_STAP_A in E; lia|].
    destruct (Z.leb_spec 1 (byteAnd (payload c) 0 0x1F)); [|lia].
    destruct (Z.ltb_spec (byteAnd (payload c) 0 0x1F) 24); [|lia].
    reflexivity. }
  assert (Hthird : repacketize this2 c = Ok (this3, [pa; pc])).
  { unfold repacketize. cbv zeta.
    assert (Hf2 : pendingFuA this2 = None) by exact Hf.
    rewrite (flushFuAOnTimestamp_same this2 c []) by (rewrite Hf2; exact I).
    cbv beta iota delta [bind].
    unfold flushStapAOnTimestamp. cbn [pendingStapA this2 setPendingStapA headTimestamp].
    cbv beta iota delta [bind].
    destruct (Z.eqb_spec (timestamp (header a)) (timestamp (header c))) as [E|E];
      cbn [negb]; cbv beta iota delta [bind].
    - rewrite (Hdispatch this2 []), (Hsingle this2 []) by (assumption || reflexivity).
      rewrite Hflush. cbv beta iota delta [bind].
      rewrite (createPacket_fits this3 c _ _ Hnc3). reflexivity.
    - rewrite Hflush. cbv beta iota delta [bind].
      rewrite (Hdispatch this3 _), (Hsingle this3 _) by (assumption || reflexivity).
      rewrite (flushPendingStapA_none this3) by reflexivity.
      cbv beta iota delta [bind].
      rewrite (createPacket_fits this3 c _ _ Hnc3). reflexivity. }
  rewrite repacketizeAll_cons, Hthird.
  cbv beta iota delta [bind]. cbn [repacketizeAll app].
  unfold pa, pc, this3, this2, this1, setPendingStapA, setSeenSps, setExtraPackets.
  cbn [maxPacketSize codecInfo extraPackets pendingStapA pendingFuA seenSps].
  unfold isSps. rewrite Ha, Z.eqb_refl, orb_true_r. cbn [orb].
  change (Z.of_nat 2 - 1) with 1. rewrite Hs.
  reflexivity.
Qed.

(** An instance: an SPS, a PPS and an IDR slice with sequence numbers 7, 8
    and 9 come out as two packets with sequence numbers 7 and 8. *)
Lemma repacketizeAll_sps_pps_slice_witness :
  exists aggregate,
    repacketizeAll (new 1200 (mkCodec (Some [0x67; 9]) (Some [0x68; 9])))
      [mkPacket (mkHeader 7 false 90) [0x67; 1; 2];
       mkPacket (mkHeader 8 false 90) [0x68; 3];
       mkPacket (mkHeader 9 true 90) [0x65; 4; 5]]
    = Ok (setSeenSps
            (setExtraPackets (new 1200 (mkCodec (Some [0x67; 9]) (Some [0x68; 9])))
               (0 - 1)) true,
          [mkPacket (mkHeader (Z.rem (7 + 0 + 0x10000) 0x10000) false 90) aggregate;
           mkPacket (mkHeader (Z.rem (9 + (0 - 1) + 0x10000) 0x10000) true 90)
             [0x65; 4; 5]]) /\
    depacketizeStapA aggregate = Ok [[0x67; 1; 2]; [0x68; 3]] /\
    blen aggregate <= 1200.
Proof.
  apply (repacketizeAll_sps_pps_slice
           (new 1200 (mkCodec (Some [0x67; 9]) (Some [0x68; 9])))
           (mkPacket (mkHeader 7 false 90) [0x67; 1; 2])
           (mkPacket (mkHeader 8 false 90) [0x68; 3])
           (mkPacket (mkHeader 9 true 90) [0x65; 4; 5])).
  - reflexivity.
  - reflexivity.
  - reflexivity.
  - reflexivity.
  - reflexivity.
  - vm_compute. split; [intros H; discriminate H|reflexivity].
  - vm_compute. intros H. discriminate H.
  - vm_compute. intros H. discriminate H.
  - vm_compute. intros H. discriminate H.
  - reflexivity.
  - unfold blen. simpl. lia.
  - unfold blen. simpl. lia.
  - unfold blen. simpl. lia.
  - simpl. lia.
  - simpl. lia.
Defined.
